(** * Heap-object archiving and restoration (HotSpot CDS, [HeapShared])

    A shallow embedding of the object-graph engine [HeapShared], whose code
    is found in [src/hotspot/share/cds/aotConstantPoolResolver.hpp] of the
    sources: the identity cache ([_archived_object_cache]), the per-session
    seen table ([_seen_objects_table]), the root table ([_pending_roots] at
    dump time, [_roots] at run time), the subgraph recorder
    ([KlassSubGraphInfo]), the graph walker
    ([archive_reachable_objects_from]), the frozen subgraph records, the
    permanent-index table and the run-time restoration of the archived
    static fields.

    Conventions.  Dump-time code threads a [DumpState] and ends in an
    [outcome]: it returns, the VM exits, or a sanity check ([assert],
    [guarantee]) or a dereference fails.  Run-time code threads a [RunState]
    and yields [None] when a sanity check fails.  Logging, the [_trace] and
    [_context] stacks that only feed error messages, and the totals that are
    only logged are left out. *)

From stdpp Require Import gmap list strings.
From Stdlib Require Import ZArith Lia.

Local Open Scope Z_scope.

(** ** Basic data *)

(** An [oop] is a heap address; [nullptr] is address 0.  A [Klass*] is an
    address of class metadata. *)
Abbreviation oop := nat.
Abbreviation klass := nat.

Definition null : oop := 0%nat.

(** [CompressedOops::is_null]. *)
Definition is_null (p : oop) : bool := Nat.eqb p null.

(** The [BasicType] values ranged over by the loops
    [for (i = T_BOOLEAN; i < T_VOID+1; i++)]. *)
Inductive BasicType :=
| T_BOOLEAN | T_CHAR | T_FLOAT | T_DOUBLE | T_BYTE | T_SHORT | T_INT | T_LONG
| T_OBJECT | T_ARRAY | T_VOID.

Definition is_reference_type (t : BasicType) : bool :=
  match t with T_OBJECT | T_ARRAY => true | _ => false end.

Definition all_basic_types : list BasicType :=
  [T_BOOLEAN; T_CHAR; T_FLOAT; T_DOUBLE; T_BYTE; T_SHORT; T_INT; T_LONG;
   T_OBJECT; T_ARRAY; T_VOID].

(** What a [java.lang.Class] instance stands for
    ([java_lang_Class::is_primitive], [as_BasicType], [as_Klass]). *)
Inductive MirrorOf :=
| MirrorPrimitive (bt : BasicType)
| MirrorKlass (k : klass).

(** The part of an object the engine reads: class, size in words, the
    reference fields in [oop_iterate] order, and the class tests the
    archiver performs on it. *)
Record ObjDesc := {
  o_klass : klass;
  o_size : Z;
  o_refs : list oop;
  (* [Some _] exactly when [java_lang_Class::is_instance] holds *)
  o_mirror : option MirrorOf;
  o_is_stackChunk : bool;
  (* [JavaClasses::is_supported_for_archiving] *)
  o_supported : bool;
  (* [java_lang_Module::is_instance(obj) && Modules::check_archived_module_oop(obj)] *)
  o_archived_module : bool;
  (* [CDSEnumKlass::is_enum_obj]: [Some l] for an enum object, [l] being the
     static reference fields of its class *)
  o_enum_refs : option (list oop)
}.

Inductive KlassKind :=
| InstanceK
| ObjArrayK (bottom : klass)
| TypeArrayK.

Record KlassDesc := {
  kd_kind : KlassKind;
  (* [ik->module()->name() == vmSymbols::java_base()] *)
  kd_in_java_base : bool;
  kd_module_named : bool;
  kd_package_null : bool;
  (* [SystemDictionaryShared::is_early_klass] *)
  kd_is_early : bool;
  (* [InstanceKlass::is_shared_boot_class] *)
  kd_is_shared_boot_class : bool
}.

(** The dump-time surroundings that the walk reads and never writes. *)
Record DumpEnv := {
  heap : gmap oop ObjDesc;
  klass_desc : klass -> KlassDesc;
  get_buffered_klass : klass -> klass;
  (* [ArchiveBuilder::current()->is_in_buffer_space] *)
  is_in_buffer_space : klass -> bool;
  String_klass : klass;
  Object_klass : klass;
  objectArrayKlassObj : klass;
  scratch_basic_type_mirrors : BasicType -> oop;
  scratch_java_mirror_table : gmap klass oop;
  (* the mirrors of [Boolean], [Character], [Float], [Double], [Byte],
     [Short], [Integer], [Long], [Void] and [Object] *)
  box_klass_mirrors : list oop;
  (* [k->java_mirror()->obj_field(offset)] *)
  static_field : klass -> Z -> oop;
  (* [ArchiveHeapWriter::is_too_large_to_archive(size_t)] *)
  is_too_large_to_archive : Z -> bool;
  ArchiveInvokeDynamic : bool;
  PRODUCT : bool;
  ALLOC_STAT_SLOTS : nat;
  (* the identity-hash generator of the runtime *)
  generate_hash : Z -> Z
}.

(** ** Dump-time state *)

Record KlassSubGraphInfo := {
  sg_k : klass;
  sg_subgraph_object_klasses : option (list klass);
  sg_subgraph_entry_fields : option (list Z);
  sg_is_full_module_graph : bool;
  sg_has_non_early_klasses : bool
}.

Record DumpState := {
  (* [ArchivedObjectCache]: object -> [CachedOopInfo], i.e. its referrer *)
  archived_object_cache : gmap oop oop;
  seen_objects_table : gset oop;
  pending_roots : list oop;
  dump_time_subgraph_info_table : gmap klass KlassSubGraphInfo;
  (* [ArchiveHeapWriter::_source_objs] *)
  source_objs : list oop;
  (* identity hash installed in the mark word, if any *)
  mark_hash : gmap oop Z;
  hash_seed : Z;
  (* [WalkOopAndArchiveClosure::_current], as its [_referencing_obj] *)
  walker_current : option oop;
  num_new_walked_objs : Z;
  num_new_archived_objs : Z;
  total_obj_count : Z;
  total_obj_size : Z;
  alloc_count : list Z;
  alloc_size : list Z
}.

Definition set_cache (f : gmap oop oop -> gmap oop oop) (st : DumpState) :=
  {| archived_object_cache := f (archived_object_cache st);
     seen_objects_table := seen_objects_table st;
     pending_roots := pending_roots st;
     dump_time_subgraph_info_table := dump_time_subgraph_info_table st;
     source_objs := source_objs st;
     mark_hash := mark_hash st;
     hash_seed := hash_seed st;
     walker_current := walker_current st;
     num_new_walked_objs := num_new_walked_objs st;
     num_new_archived_objs := num_new_archived_objs st;
     total_obj_count := total_obj_count st;
     total_obj_size := total_obj_size st;
     alloc_count := alloc_count st;
     alloc_size := alloc_size st |}.

Definition set_seen (f : gset oop -> gset oop) (st : DumpState) :=
  {| archived_object_cache := archived_object_cache st;
     seen_objects_table := f (seen_objects_table st);
     pending_roots := pending_roots st;
     dump_time_subgraph_info_table := dump_time_subgraph_info_table st;
     source_objs := source_objs st;
     mark_hash := mark_hash st;
     hash_seed := hash_seed st;
     walker_current := walker_current st;
     num_new_walked_objs := num_new_walked_objs st;
     num_new_archived_objs := num_new_archived_objs st;
     total_obj_count := total_obj_count st;
     total_obj_size := total_obj_size st;
     alloc_count := alloc_count st;
     alloc_size := alloc_size st |}.

Definition set_roots (f : list oop -> list oop) (st : DumpState) :=
  {| archived_object_cache := archived_object_cache st;
     seen_objects_table := seen_objects_table st;
     pending_roots := f (pending_roots st);
     dump_time_subgraph_info_table := dump_time_subgraph_info_table st;
     source_objs := source_objs st;
     mark_hash := mark_hash st;
     hash_seed := hash_seed st;
     walker_current := walker_current st;
     num_new_walked_objs := num_new_walked_objs st;
     num_new_archived_objs := num_new_archived_objs st;
     total_obj_count := total_obj_count st;
     total_obj_size := total_obj_size st;
     alloc_count := alloc_count st;
     alloc_size := alloc_size st |}.

Definition set_infos
    (f : gmap klass KlassSubGraphInfo -> gmap klass KlassSubGraphInfo)
    (st : DumpState) :=
  {| archived_object_cache := archived_object_cache st;
     seen_objects_table := seen_objects_table st;
     pending_roots := pending_roots st;
     dump_time_subgraph_info_table := f (dump_time_subgraph_info_table st);
     source_objs := source_objs st;
     mark_hash := mark_hash st;
     hash_seed := hash_seed st;
     walker_current := walker_current st;
     num_new_walked_objs := num_new_walked_objs st;
     num_new_archived_objs := num_new_archived_objs st;
     total_obj_count := total_obj_count st;
     total_obj_size := total_obj_size st;
     alloc_count := alloc_count st;
     alloc_size := alloc_size st |}.

Definition set_source_objs (f : list oop -> list oop) (st : DumpState) :=
  {| archived_object_cache := archived_object_cache st;
     seen_objects_table := seen_objects_table st;
     pending_roots := pending_roots st;
     dump_time_subgraph_info_table := dump_time_subgraph_info_table st;
     source_objs := f (source_objs st);
     mark_hash := mark_hash st;
     hash_seed := hash_seed st;
     walker_current := walker_current st;
     num_new_walked_objs := num_new_walked_objs st;
     num_new_archived_objs := num_new_archived_objs st;
     total_obj_count := total_obj_count st;
     total_obj_size := total_obj_size st;
     alloc_count := alloc_count st;
     alloc_size := alloc_size st |}.

Definition set_hash (m : gmap oop Z) (seed : Z) (st : DumpState) :=
  {| archived_object_cache := archived_object_cache st;
     seen_objects_table := seen_objects_table st;
     pending_roots := pending_roots st;
     dump_time_subgraph_info_table := dump_time_subgraph_info_table st;
     source_objs := source_objs st;
     mark_hash := m;
     hash_seed := seed;
     walker_current := walker_current st;
     num_new_walked_objs := num_new_walked_objs st;
     num_new_archived_objs := num_new_archived_objs st;
     total_obj_count := total_obj_count st;
     total_obj_size := total_obj_size st;
     alloc_count := alloc_count st;
     alloc_size := alloc_size st |}.

Definition set_walker (w : option oop) (st : DumpState) :=
  {| archived_object_cache := archived_object_cache st;
     seen_objects_table := seen_objects_table st;
     pending_roots := pending_roots st;
     dump_time_subgraph_info_table := dump_time_subgraph_info_table st;
     source_objs := source_objs st;
     mark_hash := mark_hash st;
     hash_seed := hash_seed st;
     walker_current := w;
     num_new_walked_objs := num_new_walked_objs st;
     num_new_archived_objs := num_new_archived_objs st;
     total_obj_count := total_obj_count st;
     total_obj_size := total_obj_size st;
     alloc_count := alloc_count st;
     alloc_size := alloc_size st |}.

Definition set_session_counters (walked archived : Z) (st : DumpState) :=
  {| archived_object_cache := archived_object_cache st;
     seen_objects_table := seen_objects_table st;
     pending_roots := pending_roots st;
     dump_time_subgraph_info_table := dump_time_subgraph_info_table st;
     source_objs := source_objs st;
     mark_hash := mark_hash st;
     hash_seed := hash_seed st;
     walker_current := walker_current st;
     num_new_walked_objs := walked;
     num_new_archived_objs := archived;
     total_obj_count := total_obj_count st;
     total_obj_size := total_obj_size st;
     alloc_count := alloc_count st;
     alloc_size := alloc_size st |}.

Definition set_alloc_stats (cnt sz : Z) (ac asz : list Z) (st : DumpState) :=
  {| archived_object_cache := archived_object_cache st;
     seen_objects_table := seen_objects_table st;
     pending_roots := pending_roots st;
     dump_time_subgraph_info_table := dump_time_subgraph_info_table st;
     source_objs := source_objs st;
     mark_hash := mark_hash st;
     hash_seed := hash_seed st;
     walker_current := walker_current st;
     num_new_walked_objs := num_new_walked_objs st;
     num_new_archived_objs := num_new_archived_objs st;
     total_obj_count := cnt;
     total_obj_size := sz;
     alloc_count := ac;
     alloc_size := asz |}.

(** Result of a dump-time operation: it returns, the VM exits
    ([MetaspaceShared::unrecoverable_writing_error]), a sanity check or a
    dereference fails, or the recursion bound of the model is hit. *)
Inductive outcome (A : Type) :=
| Ret (a : A) (st : DumpState)
| VMExit
| Crash
| OutOfFuel.
Arguments Ret {A} a st.
Arguments VMExit {A}.
Arguments Crash {A}.
Arguments OutOfFuel {A}.

Definition bind {A B} (m : outcome A) (f : A -> DumpState -> outcome B)
  : outcome B :=
  match m with
  | Ret a st => f a st
  | VMExit => VMExit
  | Crash => Crash
  | OutOfFuel => OutOfFuel
  end.

(** ** Dump-time operations *)

Section Dump.

Variable env : DumpEnv.

(** *** Identity cache, root table, statistics *)

Definition has_been_archived (obj : oop) (st : DumpState) : bool :=
  bool_decide (is_Some (archived_object_cache st !! obj)).

(** [_pending_roots->append(obj)] returns the index of the new element. *)
Definition append_root (obj : oop) (st : DumpState) : Z * DumpState :=
  (Z.of_nat (length (pending_roots st)),
   set_roots (fun l => l ++ [obj]) st).

Fixpoint alloc_stat_slot (size : Z) (i n : nat) : option nat :=
  match n with
  | O => None
  | S n' =>
    if size <=? Z.shiftl 1 (Z.of_nat i) then Some i
    else alloc_stat_slot size (S i) n'
  end.

Definition count_allocation (size : Z) (st : DumpState) : DumpState :=
  let cnt := total_obj_count st + 1 in
  let sz := total_obj_size st + size in
  match alloc_stat_slot size 0 (ALLOC_STAT_SLOTS env) with
  | Some i =>
    set_alloc_stats cnt sz
      (alter Z.succ i (alloc_count st))
      (alter (fun s => s + size) i (alloc_size st)) st
  | None => set_alloc_stats cnt sz (alloc_count st) (alloc_size st) st
  end.

(** Modelled from the spec: [ArchiveHeapWriter::add_source_obj] is not among
    the sources.  The object is queued for the Archive Builder collaborator,
    which lays out and copies the queued objects after the dump pass. *)
Definition add_source_obj (obj : oop) (st : DumpState) : DumpState :=
  set_source_objs (fun l => l ++ [obj]) st.

(** Modelled from the spec: identity-hash assignment ([oopDesc::identity_hash]
    belongs to the Heap/GC collaborator and is not among the sources).  A hash
    already installed in the header is returned as it is; otherwise one is
    drawn from the generator and installed. *)
Definition identity_hash (obj : oop) (st : DumpState) : Z * DumpState :=
  match mark_hash st !! obj with
  | Some h => (h, st)
  | None =>
    let h := generate_hash env (hash_seed st) in
    (h, set_hash (<[obj := h]> (mark_hash st)) (hash_seed st + 1) st)
  end.

Definition make_cached_oop_info (st : DumpState) : oop :=
  match walker_current st with
  | None => null
  | Some referencing_obj => referencing_obj
  end.

Definition archive_object (obj : oop) (st : DumpState) : outcome bool :=
  match heap env !! obj with
  | None => Crash
  | Some od =>
    if o_is_stackChunk od then Crash
    else if has_been_archived obj st then Ret true st
    else if is_too_large_to_archive env (o_size od) then Ret false st
    else
      let st := count_allocation (o_size od) st in
      let st := add_source_obj obj st in
      let st := snd (identity_hash obj st) in
      let info := make_cached_oop_info st in
      let st := set_cache (fun c => <[obj := info]> c) st in
      let st := if o_archived_module od then snd (append_root obj st) else st in
      Ret true st
  end.

(** [copy_java_mirror_hashcode]: the scratch mirror gets the identity hash
    of the mirror it stands for. *)
Definition copy_java_mirror_hashcode (orig_mirror scratch_m : oop)
    (st : DumpState) : DumpState :=
  let '(src_hash, st) := identity_hash orig_mirror st in
  set_hash (<[scratch_m := src_hash]> (mark_hash st)) (hash_seed st) st.

(** *** Class-mirror substitution *)

Definition is_scratch_basic_type_mirror (java_mirror : oop) : bool :=
  existsb (fun bt => negb (is_reference_type bt)
                     && Nat.eqb (scratch_basic_type_mirrors env bt) java_mirror)
          all_basic_types.

(** [scratch_java_mirror(oop)]; [m] is what the mirror stands for.  The result
    is [null] when no scratch mirror is registered. *)
Definition scratch_java_mirror (java_mirror : oop) (m : MirrorOf) : oop :=
  if is_scratch_basic_type_mirror java_mirror then java_mirror
  else match m with
       | MirrorPrimitive bt =>
         if is_reference_type bt then null
         else scratch_basic_type_mirrors env bt
       | MirrorKlass k => default null (scratch_java_mirror_table env !! k)
       end.

(** [can_mirror_be_used_in_subgraph]: primitive mirrors and the mirrors of
    the box classes. *)
Definition can_mirror_be_used_in_subgraph (orig_java_mirror : oop)
    (m : MirrorOf) : bool :=
  match m with
  | MirrorPrimitive _ => true
  | MirrorKlass _ => existsb (Nat.eqb orig_java_mirror) (box_klass_mirrors env)
  end.

(** *** Subgraph recorder *)

Definition new_KlassSubGraphInfo (buffered_k : klass) (is_fmg : bool) :=
  {| sg_k := buffered_k;
     sg_subgraph_object_klasses := None;
     sg_subgraph_entry_fields := None;
     sg_is_full_module_graph := is_fmg;
     sg_has_non_early_klasses := false |}.

Definition init_subgraph_info (k : klass) (is_fmg : bool) (st : DumpState)
  : outcome unit :=
  match dump_time_subgraph_info_table st !! k with
  | Some _ => Crash
  | None =>
    Ret tt (set_infos
              (fun t => <[k := new_KlassSubGraphInfo (get_buffered_klass env k) is_fmg]> t)
              st)
  end.

Definition get_subgraph_info (k : klass) (st : DumpState)
  : option KlassSubGraphInfo :=
  dump_time_subgraph_info_table st !! k.

Definition add_subgraph_entry_field (subgraph_info : klass)
    (static_field_offset : Z) (v : oop) (st : DumpState) : outcome unit :=
  match get_subgraph_info subgraph_info st with
  | None => Crash
  | Some info =>
    let fields := default [] (sg_subgraph_entry_fields info) in
    let '(idx, st) := append_root v st in
    let info' :=
      {| sg_k := sg_k info;
         sg_subgraph_object_klasses := sg_subgraph_object_klasses info;
         sg_subgraph_entry_fields := Some (fields ++ [static_field_offset; idx]);
         sg_is_full_module_graph := sg_is_full_module_graph info;
         sg_has_non_early_klasses := sg_has_non_early_klasses info |} in
    Ret tt (set_infos (fun t => <[subgraph_info := info']> t) st)
  end.

(** [check_allowed_klass]: [Some true] when the class is accepted,
    [Some false] when the error is logged and the VM exits, [None] when the
    assertion on the package of a [java.base] class fails. *)
Definition check_allowed_klass (ik : klass) : option bool :=
  if ArchiveInvokeDynamic env then Some true
  else if kd_in_java_base (klass_desc env ik) then
    if kd_package_null (klass_desc env ik) then None else Some true
  else if negb (PRODUCT env)
          && negb (kd_module_named (klass_desc env ik))
          && kd_package_null (klass_desc env ik) then Some true
  else Some false.

Definition is_non_early_klass (k : klass) : bool :=
  let k := match kd_kind (klass_desc env k) with
           | ObjArrayK bottom => bottom
           | _ => k
           end in
  match kd_kind (klass_desc env k) with
  | InstanceK => negb (kd_is_early (klass_desc env k))
  | _ => false
  end.

Definition append_if_missing (k : klass) (l : list klass) : list klass :=
  if existsb (Nat.eqb k) l then l else l ++ [k].

Definition add_subgraph_object_klass (subgraph_info : klass) (orig_k : klass)
    (st : DumpState) : outcome unit :=
  match get_subgraph_info subgraph_info st with
  | None => Crash
  | Some info =>
    let buffered_k := get_buffered_klass env orig_k in
    let klasses := default [] (sg_subgraph_object_klasses info) in
    let store (ks : list klass) (non_early : bool) :=
      set_infos
        (fun t => <[subgraph_info :=
           {| sg_k := sg_k info;
              sg_subgraph_object_klasses := Some ks;
              sg_subgraph_entry_fields := sg_subgraph_entry_fields info;
              sg_is_full_module_graph := sg_is_full_module_graph info;
              sg_has_non_early_klasses := non_early |}]> t) st in
    let unchanged := Ret tt (store klasses (sg_has_non_early_klasses info)) in
    let recorded :=
      Ret tt (store (append_if_missing buffered_k klasses)
                    (sg_has_non_early_klasses info || is_non_early_klass orig_k)) in
    let checked (ik : klass) (rest : outcome unit) :=
      match check_allowed_klass ik with
      | Some true => rest
      | Some false => VMExit
      | None => Crash
      end in
    if negb (is_in_buffer_space env buffered_k) then Crash
    else if Nat.eqb (sg_k info) buffered_k then unchanged
    else match kd_kind (klass_desc env buffered_k) with
         | InstanceK =>
           if negb (ArchiveInvokeDynamic env)
              && negb (kd_is_shared_boot_class (klass_desc env buffered_k))
           then Crash
           else if Nat.eqb orig_k (String_klass env)
                   || Nat.eqb orig_k (Object_klass env)
           then unchanged
           else checked orig_k recorded
         | ObjArrayK abk =>
           match kd_kind (klass_desc env abk) with
           | InstanceK =>
             if negb (kd_is_shared_boot_class (klass_desc env abk)) then Crash
             else
               match kd_kind (klass_desc env orig_k) with
               | ObjArrayK orig_bottom =>
                 checked orig_bottom
                   (if Nat.eqb buffered_k (objectArrayKlassObj env)
                    then unchanged else recorded)
               | _ => Crash
               end
           | _ =>
             if Nat.eqb buffered_k (objectArrayKlassObj env) then unchanged
             else recorded
           end
         | TypeArrayK => unchanged
         end
  end.

(** *** Session seen table *)

Definition has_been_seen_during_subgraph_recording (obj : oop) (st : DumpState)
  : bool :=
  bool_decide (obj ∈ seen_objects_table st).

Definition set_has_been_seen_during_subgraph_recording (obj : oop)
    (st : DumpState) : DumpState :=
  let st := set_seen (fun s => {[obj]} ∪ s) st in
  set_session_counters (num_new_walked_objs st + 1) (num_new_archived_objs st) st.

Definition init_seen_objects_table (st : DumpState) : DumpState :=
  set_seen (fun _ => ∅) st.

Definition delete_seen_objects_table (st : DumpState) : DumpState :=
  set_seen (fun _ => ∅) st.

(** *** Graph walker *)

(** [oop_iterate] with [WalkOopAndArchiveClosure::do_oop_work] as the
    callback: every non-null reference field is handed to [do_oop], whose
    result the closure asserts. *)
Fixpoint oop_iterate (do_oop : oop -> DumpState -> outcome bool)
    (refs : list oop) (st : DumpState) : outcome unit :=
  match refs with
  | [] => Ret tt st
  | p :: rest =>
    if is_null p then oop_iterate do_oop rest st
    else bind (do_oop p st)
           (fun success st =>
              if success then oop_iterate do_oop rest st else Crash)
  end.

(** Modelled from the spec: [CDSEnumKlass::handle_enum_obj] is not among the
    sources.  For an enum-like singleton type the walker additionally
    processes the synthetic constant-table references, recursing into each
    at the level it is given. *)
Definition handle_enum_obj (walk : oop -> DumpState -> outcome bool)
    (constants : list oop) (st : DumpState) : outcome unit :=
  oop_iterate walk constants st.

(** The body of [archive_reachable_objects_from]; [recurse] stands for the
    recursive calls [archive_reachable_objects_from(level + 1, subgraph_info, _)]
    made by the closure and by the enum handling. *)
Definition archive_reachable_objects_from_body
    (recurse : oop -> DumpState -> outcome bool) (level : Z)
    (subgraph_info : klass) (orig_obj : oop) (st : DumpState)
  : outcome bool :=
  if is_null orig_obj then Crash else
  match heap env !! orig_obj with
  | None => Crash
  | Some od0 =>
    if negb (o_supported od0) then VMExit else
    let orig_obj :=
      match o_mirror od0 with
      | Some m => scratch_java_mirror orig_obj m
      | None => orig_obj
      end in
    if is_null orig_obj then Crash else
    match heap env !! orig_obj with
    | None => Crash
    | Some od =>
      if has_been_seen_during_subgraph_recording orig_obj st then Ret true st
      else
        let st := set_has_been_seen_during_subgraph_recording orig_obj st in
        let already_archived := has_been_archived orig_obj st in
        bind
          (if already_archived then Ret true st
           else
             let st := set_session_counters (num_new_walked_objs st)
                         (num_new_archived_objs st + 1) st in
             bind (archive_object orig_obj st)
               (fun ok st =>
                  if ok then Ret true st
                  else if level =? 1 then Ret false st
                  else VMExit))
          (fun archived st =>
             if negb archived then Ret false st
             else
               bind (add_subgraph_object_klass subgraph_info (o_klass od) st)
                 (fun _ st =>
                    let last := walker_current st in
                    let st := set_walker (Some orig_obj) st in
                    bind (oop_iterate recurse (o_refs od) st)
                      (fun _ st =>
                         bind
                           (match o_enum_refs od with
                            | Some constants =>
                              handle_enum_obj recurse constants st
                            | None => Ret tt st
                            end)
                           (fun _ st => Ret true (set_walker last st)))))
    end
  end.

Fixpoint archive_reachable_objects_from (fuel : nat) (level : Z)
    (subgraph_info : klass) (orig_obj : oop) (st : DumpState)
    {struct fuel} : outcome bool :=
  match fuel with
  | O => OutOfFuel
  | S fuel' =>
    archive_reachable_objects_from_body
      (archive_reachable_objects_from fuel' (level + 1) subgraph_info)
      level subgraph_info orig_obj st
  end.

(** [walk_bound] is a recursion depth that no walk over [heap env] reaches
    (see [archive_reachable_objects_from_total]). *)
Definition walk_bound : nat := S (size (heap env)).

(** *** Entry points: static fields of the holder classes *)

Record ArchivableStaticFieldInfo := {
  klass_name : string;
  field_name : string;
  fi_klass : klass;
  fi_offset : Z
}.

Definition archive_reachable_objects_from_static_field (k : klass)
    (field_offset : Z) (st : DumpState) : outcome unit :=
  match get_subgraph_info k st with
  | None => Crash
  | Some _ =>
    let f := static_field env k field_offset in
    if negb (is_null f) then
      bind (archive_reachable_objects_from walk_bound 1 k f st)
        (fun success st =>
           if negb success then Ret tt st
           else add_subgraph_entry_field k field_offset f st)
    else add_subgraph_entry_field k field_offset null st
  end.

Definition start_recording_subgraph (k : klass) (is_full_module_graph : bool)
    (st : DumpState) : outcome unit :=
  bind (init_subgraph_info k is_full_module_graph st)
    (fun _ st =>
       let st := init_seen_objects_table st in
       Ret tt (set_session_counters 0 0 st)).

Definition done_recording_subgraph (st : DumpState) : DumpState :=
  delete_seen_objects_table st.

(** The inner loop of [archive_object_subgraphs]: the consecutive entries of
    one holder class; the entries that are left are returned.  The source
    compares the [klass_name] pointers of the table, which are equal for
    equal names. *)
Fixpoint archive_fields_of_klass (name : string)
    (fields : list ArchivableStaticFieldInfo) (st : DumpState)
  : outcome (list ArchivableStaticFieldInfo) :=
  match fields with
  | [] => Ret [] st
  | f :: rest =>
    if negb (String.eqb (klass_name f) name) then Ret fields st
    else bind (archive_reachable_objects_from_static_field
                 (fi_klass f) (fi_offset f) st)
           (fun _ st => archive_fields_of_klass name rest st)
  end.

Fixpoint archive_object_subgraphs_loop (n : nat)
    (fields : list ArchivableStaticFieldInfo) (is_full_module_graph : bool)
    (st : DumpState) : outcome unit :=
  match fields with
  | [] => Ret tt st
  | info :: _ =>
    match n with
    | O => OutOfFuel
    | S n' =>
      bind (start_recording_subgraph (fi_klass info) is_full_module_graph st)
        (fun _ st =>
           bind (archive_fields_of_klass (klass_name info) fields st)
             (fun rest st =>
                archive_object_subgraphs_loop n' rest is_full_module_graph
                  (done_recording_subgraph st)))
    end
  end.

(** *** Verification pass of debug builds *)

(** The body of [verify_reachable_objects_from]; [recurse] stands for the
    recursive calls made by [VerifySharedOopClosure]. *)
Definition verify_reachable_objects_from_body
    (recurse : oop -> DumpState -> outcome bool) (obj : oop) (st : DumpState)
  : outcome bool :=
  match heap env !! obj with
  | None => Crash
  | Some od0 =>
    let obj :=
      match o_mirror od0 with
      | Some m => scratch_java_mirror obj m
      | None => obj
      end in
    if is_null obj then Crash else
    match heap env !! obj with
    | None => Crash
    | Some od =>
      if has_been_seen_during_subgraph_recording obj st then Ret true st
      else
        let st := set_has_been_seen_during_subgraph_recording obj st in
        if negb (has_been_archived obj st) then Crash
        else bind (oop_iterate recurse (o_refs od) st)
               (fun _ st => Ret true st)
    end
  end.

Fixpoint verify_reachable_objects_from (fuel : nat) (obj : oop)
    (st : DumpState) {struct fuel} : outcome bool :=
  match fuel with
  | O => OutOfFuel
  | S fuel' =>
    verify_reachable_objects_from_body (verify_reachable_objects_from fuel')
      obj st
  end.

Definition verify_subgraph_from (orig_obj : oop) (st : DumpState)
  : outcome unit :=
  if negb (has_been_archived orig_obj st) then Ret tt st
  else
    let st := init_seen_objects_table st in
    bind (verify_reachable_objects_from walk_bound orig_obj st)
      (fun _ st => Ret tt (delete_seen_objects_table st)).

Definition verify_subgraph_from_static_field (k : klass) (field_offset : Z)
    (st : DumpState) : outcome unit :=
  let f := static_field env k field_offset in
  if negb (is_null f) then verify_subgraph_from f st else Ret tt st.

Fixpoint verify_all (fields : list ArchivableStaticFieldInfo)
    (st : DumpState) : outcome unit :=
  match fields with
  | [] => Ret tt st
  | f :: rest =>
    bind (verify_subgraph_from_static_field (fi_klass f) (fi_offset f) st)
      (fun _ st => verify_all rest st)
  end.

(** [fields] holds the valid entries of the table, up to its terminator. *)
Definition archive_object_subgraphs
    (fields : list ArchivableStaticFieldInfo) (is_full_module_graph : bool)
    (st : DumpState) : outcome unit :=
  bind (archive_object_subgraphs_loop (length fields) fields
          is_full_module_graph st)
    (fun _ st => if PRODUCT env then Ret tt st else verify_all fields st).

End Dump.

(** ** Freezing the subgraph records *)

Record ArchivedKlassSubGraphInfoRecord := {
  r_k : klass;
  r_entry_field_records : option (list Z);
  r_subgraph_object_klasses : option (list klass);
  r_is_full_module_graph : bool;
  r_has_non_early_klasses : bool
}.

(** [ArchivedKlassSubGraphInfoRecord::init]. *)
Definition ArchivedKlassSubGraphInfoRecord_init (info : KlassSubGraphInfo)
  : ArchivedKlassSubGraphInfoRecord :=
  let is_full_module_graph := sg_is_full_module_graph info in
  {| r_k := sg_k info;
     r_entry_field_records := sg_subgraph_entry_fields info;
     r_subgraph_object_klasses := sg_subgraph_object_klasses info;
     r_is_full_module_graph := is_full_module_graph;
     r_has_non_early_klasses :=
       if is_full_module_graph then false
       else sg_has_non_early_klasses info |}.

(** [CopyKlassSubGraphInfoToArchive::do_entry], one step of
    [write_subgraph_info_table]. *)
Definition do_entry (env : DumpEnv) (k : klass) (info : KlassSubGraphInfo)
    (table : gmap klass ArchivedKlassSubGraphInfoRecord)
  : gmap klass ArchivedKlassSubGraphInfoRecord :=
  if bool_decide (is_Some (sg_subgraph_object_klasses info))
     || bool_decide (is_Some (sg_subgraph_entry_fields info))
  then <[get_buffered_klass env k := ArchivedKlassSubGraphInfoRecord_init info]> table
  else table.

Definition write_subgraph_info_table (env : DumpEnv) (st : DumpState)
  : gmap klass ArchivedKlassSubGraphInfoRecord :=
  map_fold (do_entry env) ∅ (dump_time_subgraph_info_table st).

(** ** Run time: the root table and the restoration of static fields *)

(** 32-bit two's complement [int].  The permanent index [(i << SHIFT) + j] is
    the one computation of the engine that can leave the [int] range; the
    other [int] values are array lengths, indices below them and counters,
    and are written in [Z] as they are. *)
Definition int32 (z : Z) : Z := (z + 2 ^ 31) mod 2 ^ 32 - 2 ^ 31.

Record RunState := {
  (* [_roots]; [None] for the empty handle *)
  roots : option (list oop);
  (* the static reference fields of the mirrors, by class and offset; a
     field never written holds [null] *)
  mirror_fields : gmap (klass * Z) oop;
  (* classes with [class_loader_data() != nullptr] *)
  loaded : gset klass;
  initialized : gset klass;
  permanent_index_table : option (gmap oop Z)
}.

(** What running the static initializers of a class does to the state of
    the engine.  The initializers are Java code, run by the Class Loader /
    Linker collaborator: they store into static fields, and through
    [CDS.initializeFromArchive] they re-enter
    [initialize_from_archived_subgraph] for other holders, which takes roots
    out of the root table with [get_root(i, true)]. *)
Record InitEffect := {
  ie_stores : list (klass * Z * oop);
  ie_roots_taken : list Z
}.

Record RunEnv := {
  (* [ArchiveHeapLoader::is_in_use] *)
  is_in_use : bool;
  is_shared : klass -> bool;
  (* [CDSConfig::is_loading_full_module_graph] *)
  is_loading_full_module_graph : bool;
  (* [JvmtiExport::should_post_class_file_load_hook] *)
  should_post_class_file_load_hook : bool;
  run_time_subgraph_info_table : gmap klass ArchivedKlassSubGraphInfoRecord;
  (* [k->name() == vmSymbols::java_lang_invoke_MethodType()] *)
  is_MethodType : klass -> bool;
  (* [ik->find_field(name, sig, true, &fd)], as the offset found *)
  find_field : klass -> string -> option Z;
  rt_klass_kind : klass -> KlassKind;
  (* whether loading, resp. initializing, a class leaves an exception pending *)
  resolve_throws : klass -> bool;
  initialize_throws : klass -> bool;
  (* what [SystemDictionary::resolve_or_null] returns for the name of the
     class when it leaves no exception pending; [None] for [nullptr] *)
  resolve_or_null : klass -> option klass;
  (* what [initialize(CHECK)] on the class does in a state *)
  class_initializer : klass -> RunState -> InitEffect;
  (* the elements of the object arrays in the mapped heap *)
  obj_array : oop -> option (list oop);
  permobj_segments : Z;
  PERMOBJ_SEGMENT_MAX_SHIFT : Z;
  PERMOBJ_SEGMENT_MAX_MASK : Z
}.

Definition set_rt_roots (r : option (list oop)) (st : RunState) :=
  {| roots := r;
     mirror_fields := mirror_fields st;
     loaded := loaded st;
     initialized := initialized st;
     permanent_index_table := permanent_index_table st |}.

Definition obj_field_put (k : klass) (offset : Z) (v : oop) (st : RunState) :=
  {| roots := roots st;
     mirror_fields := <[(k, offset) := v]> (mirror_fields st);
     loaded := loaded st;
     initialized := initialized st;
     permanent_index_table := permanent_index_table st |}.

Definition obj_field (k : klass) (offset : Z) (st : RunState) : oop :=
  default null (mirror_fields st !! (k, offset)).

Definition set_loaded (k : klass) (st : RunState) :=
  {| roots := roots st;
     mirror_fields := mirror_fields st;
     loaded := {[k]} ∪ loaded st;
     initialized := initialized st;
     permanent_index_table := permanent_index_table st |}.

Definition set_initialized (k : klass) (st : RunState) :=
  {| roots := roots st;
     mirror_fields := mirror_fields st;
     loaded := loaded st;
     initialized := {[k]} ∪ initialized st;
     permanent_index_table := permanent_index_table st |}.

Definition set_permanent_index_table (t : gmap oop Z) (st : RunState) :=
  {| roots := roots st;
     mirror_fields := mirror_fields st;
     loaded := loaded st;
     initialized := initialized st;
     permanent_index_table := Some t |}.

Section Run.

Variable renv : RunEnv.

(** A run-time operation yields [None] when one of its sanity checks fails
    or an array is read out of bounds. *)

(** [init_roots]. *)
Definition init_roots (roots_oop : option (list oop)) (st : RunState)
  : option RunState :=
  match roots_oop with
  | Some r => if is_in_use renv then Some (set_rt_roots (Some r) st) else None
  | None => Some st
  end.

(** [roots()->obj_at(index)]. *)
Definition roots_obj_at (index : Z) (st : RunState) : option oop :=
  r ← roots st;
  if index <? 0 then None else r !! Z.to_nat index.

Definition clear_root (index : Z) (st : RunState) : option RunState :=
  if index <? 0 then None
  else if is_in_use renv then
    r ← roots st;
    if (Z.to_nat index <? length r)%nat then
      Some (set_rt_roots (Some (<[Z.to_nat index := null]> r)) st)
    else None
  else Some st.

Definition get_root (index : Z) (clear : bool) (st : RunState)
  : option (oop * RunState) :=
  result ← roots_obj_at index st;
  if clear then st' ← clear_root index st; Some (result, st')
  else Some (result, st).

(** *** Permanent-index table *)

(** The inner loop of the table construction: segment [i], elements from
    position [j] on. *)
Fixpoint put_segment (i j : Z) (a : list oop) (t : gmap oop Z) : gmap oop Z :=
  match a with
  | [] => t
  | o :: rest =>
    let index := int32 (int32 (Z.shiftl i (PERMOBJ_SEGMENT_MAX_SHIFT renv)) + j) in
    put_segment i (j + 1) rest (<[o := index]> t)
  end.

(** The outer loop: the segments [i], [i+1], ..., [n] of them. *)
Fixpoint put_segments (r : list oop) (first_permobj_segment i : Z) (n : nat)
    (t : gmap oop Z) : option (gmap oop Z) :=
  match n with
  | O => Some t
  | S n' =>
    let idx := i + first_permobj_segment in
    if idx <? 0 then None else
    seg ← r !! Z.to_nat idx;
    a ← obj_array renv seg;
    put_segments r first_permobj_segment (i + 1) n' (put_segment i 0 a t)
  end.

Definition get_archived_object_permanent_index (obj : oop) (st : RunState)
  : option (Z * RunState) :=
  if permobj_segments renv <=? 0 then Some (-1, st)
  else
    r ← roots st;
    let first_permobj_segment := Z.of_nat (length r) - permobj_segments renv in
    t ← match permanent_index_table st with
        | Some t => Some t
        | None =>
          put_segments r first_permobj_segment 0
            (Z.to_nat (permobj_segments renv)) ∅
        end;
    Some (match t !! obj with None => -1 | Some n => n end,
          set_permanent_index_table t st).

Definition get_archived_object (permanent_index : Z) (st : RunState)
  : option oop :=
  if negb (is_in_use renv) then None
  else if permobj_segments renv <=? 0 then None
  else
    r ← roots st;
    let first_permobj_segment := Z.of_nat (length r) - permobj_segments renv in
    let upper := Z.shiftr permanent_index (PERMOBJ_SEGMENT_MAX_SHIFT renv) in
    let lower := Z.land permanent_index (PERMOBJ_SEGMENT_MAX_MASK renv) in
    seg ← roots_obj_at (upper + first_permobj_segment) st;
    a ← obj_array renv seg;
    a !! Z.to_nat lower.

(** *** Resolving classes and restoring fields *)

(** The roots an initializer takes by re-entering the restoration. *)
Fixpoint take_roots (indices : list Z) (st : RunState) : option RunState :=
  match indices with
  | [] => Some st
  | index :: rest =>
    '(_, st) ← get_root index true st;
    take_roots rest st
  end.

(** [initialize(CHECK)] on an instance class or an object-array class; the
    boolean tells whether an exception is pending on return.  The stores of
    the initializers are made in their order; roots are taken only in a heap
    in use, since [initialize_from_archived_subgraph] returns at once
    otherwise. *)
Definition initialize (k : klass) (st : RunState) : option (bool * RunState) :=
  let effect := class_initializer renv k st in
  let st := foldl (fun s '(c, offset, v) => obj_field_put c offset v s) st
              (ie_stores effect) in
  st ← (if is_in_use renv then take_roots (ie_roots_taken effect) st
        else Some st);
  if initialize_throws renv k then Some (true, st)
  else Some (false, set_initialized k st).

(** [resolve_or_init(Klass*, bool, TRAPS)]; the boolean tells whether an
    exception is pending on return.  Loading and initializing belong to the
    Class Loader / Linker collaborator: a class that [resolve_or_null]
    returns is loaded. *)
Definition resolve_or_init (k : klass) (do_init : bool) (st : RunState)
  : option (bool * RunState) :=
  if negb do_init then
    if bool_decide (k ∈ loaded st) then Some (false, st)
    else if resolve_throws renv k then Some (true, st)
    else match resolve_or_null renv k with
         | Some resolved_k =>
           if Nat.eqb resolved_k k then Some (false, set_loaded k st)
           else None
         | None => None
         end
  else if negb (bool_decide (k ∈ loaded st)) then None
  else match rt_klass_kind renv k with
       | TypeArrayK => Some (false, st)
       | _ => initialize k st
       end.

(** The loop over [record->subgraph_object_klasses()]; [Some true] in the
    first component stands for a pending exception, the second tells whether
    the loop ran to its end. *)
Fixpoint resolve_or_init_klasses (klasses : list klass) (do_init : bool)
    (st : RunState) : option (bool * bool * RunState) :=
  match klasses with
  | [] => Some (false, true, st)
  | k :: rest =>
    if negb (is_shared renv k) then Some (false, false, st)
    else
      '(pending, st) ← resolve_or_init k do_init st;
      if (pending : bool) then Some (true, false, st)
      else resolve_or_init_klasses rest do_init st
  end.

(** The pre-seeding of two fields of [java.lang.invoke.MethodType]. *)
Definition preseed_MethodType (k : klass)
    (record : ArchivedKlassSubGraphInfoRecord) (st : RunState)
  : option RunState :=
  entry_field_records ← r_entry_field_records record;
  if negb (Nat.eqb (length entry_field_records) 2) then None else
  root_index ← entry_field_records !! 1%nat;
  '(obj, st) ← get_root root_index false st;
  if is_null obj then Some st
  else
    archivedObjects ← obj_array renv obj;
    off1 ← find_field renv k "archivedMethodTypes";
    v0 ← archivedObjects !! 0%nat;
    let st := obj_field_put k off1 v0 st in
    off2 ← find_field renv k "objectOnlyTypes";
    v1 ← archivedObjects !! 1%nat;
    Some (obj_field_put k off2 v1 st).

(** [resolve_or_init_classes_for_subgraph_of]: the record (or [None] for
    [nullptr]), whether an exception is pending, and the new state. *)
Definition resolve_or_init_classes_for_subgraph_of (k : klass) (do_init : bool)
    (st : RunState)
  : option (option ArchivedKlassSubGraphInfoRecord * bool * RunState) :=
  if negb (is_shared renv k) then Some (None, false, st)
  else
    match run_time_subgraph_info_table renv !! k with
    | None => Some (None, false, st)
    | Some record =>
      if r_is_full_module_graph record
         && negb (is_loading_full_module_graph renv)
      then Some (None, false, st)
      else if r_has_non_early_klasses record
              && should_post_class_file_load_hook renv
      then Some (None, false, st)
      else
        st ← (if do_init && is_MethodType renv k
              then preseed_MethodType k record st else Some st);
        '(pending, st) ← resolve_or_init k do_init st;
        if (pending : bool) then Some (None, true, st)
        else
          match r_subgraph_object_klasses record with
          | None => Some (Some record, false, st)
          | Some klasses =>
            '(pending, finished, st) ← resolve_or_init_klasses klasses do_init st;
            if (finished : bool) then Some (Some record, false, st)
            else Some (None, pending, st)
          end
    end.

(** The loop of [clear_archived_roots_of] over the (offset, root index)
    pairs. *)
Fixpoint clear_roots_of_entries (efr : list Z) (st : RunState)
  : option RunState :=
  match efr with
  | [] => Some st
  | _ :: root_index :: rest =>
    st ← clear_root root_index st;
    clear_roots_of_entries rest st
  | [_] => None
  end.

Definition clear_archived_roots_of (k : klass) (st : RunState)
  : option RunState :=
  match run_time_subgraph_info_table renv !! k with
  | None => Some st
  | Some record =>
    match r_entry_field_records record with
    | None => Some st
    | Some efr => clear_roots_of_entries efr st
    end
  end.

Definition resolve_classes_for_subgraph_of (k : klass) (st : RunState)
  : option RunState :=
  '(record, _, st) ← resolve_or_init_classes_for_subgraph_of k false st;
  match record with
  | None => clear_archived_roots_of k st
  | Some _ => Some st
  end.

(** [resolve_classes_for_subgraphs]: [holders] are the classes found for the
    valid entries of the table. *)
Fixpoint resolve_classes_for_subgraphs (holders : list klass) (st : RunState)
  : option RunState :=
  match holders with
  | [] => Some st
  | k :: rest =>
    st ← resolve_classes_for_subgraph_of k st;
    resolve_classes_for_subgraphs rest st
  end.

Definition resolve_classes (holders fmg_holders : list klass) (st : RunState)
  : option RunState :=
  if negb (is_in_use renv) then Some st
  else
    st ← resolve_classes_for_subgraphs holders st;
    resolve_classes_for_subgraphs fmg_holders st.

(** The loop of [init_archived_fields_for]. *)
Fixpoint init_fields_of_entries (k : klass) (efr : list Z) (st : RunState)
  : option RunState :=
  match efr with
  | [] => Some st
  | field_offset :: root_index :: rest =>
    '(v, st) ← get_root root_index true st;
    init_fields_of_entries k rest (obj_field_put k field_offset v st)
  | [_] => None
  end.

Definition init_archived_fields_for (k : klass)
    (record : ArchivedKlassSubGraphInfoRecord) (st : RunState)
  : option RunState :=
  match r_entry_field_records record with
  | None => Some st
  | Some efr => init_fields_of_entries k efr st
  end.

Definition initialize_from_archived_subgraph (k : klass) (st : RunState)
  : option RunState :=
  if negb (is_in_use renv) then Some st
  else
    '(record, pending, st) ← resolve_or_init_classes_for_subgraph_of k true st;
    if (pending : bool) then Some st
    else match record with
         | Some record => init_archived_fields_for k record st
         | None => Some st
         end.

End Run.

(** ** Notions used to state the properties *)

(** The root indices of a list of (offset, root index) pairs. *)
Fixpoint root_indices (efr : list Z) : list Z :=
  match efr with
  | _ :: root_index :: rest => root_index :: root_indices rest
  | _ => []
  end.

(** The pairs are complete and every root index addresses a table of [n]
    slots. *)
Inductive entries_in_range (n : nat) : list Z -> Prop :=
| entries_in_range_nil : entries_in_range n []
| entries_in_range_cons off idx rest :
    0 <= idx < Z.of_nat n ->
    entries_in_range n rest ->
    entries_in_range n (off :: idx :: rest).

(** The run-time surroundings with the instrumentation-hook flag replaced. *)
Definition with_class_file_load_hook (b : bool) (renv : RunEnv) : RunEnv :=
  {| is_in_use := is_in_use renv;
     is_shared := is_shared renv;
     is_loading_full_module_graph := is_loading_full_module_graph renv;
     should_post_class_file_load_hook := b;
     run_time_subgraph_info_table := run_time_subgraph_info_table renv;
     is_MethodType := is_MethodType renv;
     find_field := find_field renv;
     rt_klass_kind := rt_klass_kind renv;
     resolve_throws := resolve_throws renv;
     initialize_throws := initialize_throws renv;
     resolve_or_null := resolve_or_null renv;
     class_initializer := class_initializer renv;
     obj_array := obj_array renv;
     permobj_segments := permobj_segments renv;
     PERMOBJ_SEGMENT_MAX_SHIFT := PERMOBJ_SEGMENT_MAX_SHIFT renv;
     PERMOBJ_SEGMENT_MAX_MASK := PERMOBJ_SEGMENT_MAX_MASK renv |}.

(** The tail of the root table [r] holds the permanent-object segments
    [segs]: the last [length segs] roots are object arrays with these
    elements, no segment is longer than [1 << PERMOBJ_SEGMENT_MAX_SHIFT],
    the mask is the one of that length, and every index fits an [int]. *)
Definition permobj_layout (renv : RunEnv) (r : list oop)
    (segs : list (list oop)) : Prop :=
  0 <= PERMOBJ_SEGMENT_MAX_SHIFT renv
  /\ PERMOBJ_SEGMENT_MAX_MASK renv = 2 ^ PERMOBJ_SEGMENT_MAX_SHIFT renv - 1
  /\ permobj_segments renv = Z.of_nat (length segs)
  /\ (length segs <= length r)%nat
  /\ (forall (i : nat) (a : list oop),
         segs !! i = Some a ->
         exists seg,
           r !! (length r - length segs + i)%nat = Some seg
           /\ obj_array renv seg = Some a
           /\ Z.of_nat (length a) <= 2 ^ PERMOBJ_SEGMENT_MAX_SHIFT renv)
  /\ Z.of_nat (length segs) * 2 ^ PERMOBJ_SEGMENT_MAX_SHIFT renv < 2 ^ 31.

(** The permanent-index table of the state, when there is one, is the table
    that [get_archived_object_permanent_index] builds from the root table of
    the state. *)
Definition permanent_index_table_built (renv : RunEnv) (st : RunState)
  : Prop :=
  forall t,
    permanent_index_table st = Some t ->
    exists r,
      roots st = Some r
      /\ put_segments renv r (Z.of_nat (length r) - permobj_segments renv) 0
           (Z.to_nat (permobj_segments renv)) ∅ = Some t.

(** The object the walker works on when handed [p]: the scratch mirror when
    [p] is a class mirror, [p] itself otherwise. *)
Definition walked_object (env : DumpEnv) (p : oop) : oop :=
  match heap env !! p with
  | Some od =>
    match o_mirror od with
    | Some m => scratch_java_mirror env p m
    | None => p
    end
  | None => p
  end.

(** The references the walker follows out of an object. *)
Definition out_refs (od : ObjDesc) : list oop :=
  o_refs od ++ default [] (o_enum_refs od).

Definition walk_edge (env : DumpEnv) (o q : oop) : Prop :=
  exists od p,
    heap env !! o = Some od /\ p ∈ out_refs od /\ p <> null
    /\ q = walked_object env p.

(** A seen table is closed when the walk out of each of its objects is
    complete; the empty table of a fresh session is. *)
Definition seen_closed (env : DumpEnv) (s : gset oop) : Prop :=
  forall o q, o ∈ s -> walk_edge env o q -> q ∈ s.

(** The state [archive_object] leaves after it archived [obj] of
    description [od] for the first time. *)
Definition archived_state (env : DumpEnv) (obj : oop) (od : ObjDesc)
    (st : DumpState) : DumpState :=
  let st := count_allocation env (o_size od) st in
  let st := add_source_obj obj st in
  let st := snd (identity_hash env obj st) in
  let st := set_cache (fun c => <[obj := make_cached_oop_info st]> c) st in
  if o_archived_module od then snd (append_root obj st) else st.

(** What a walk keeps of a recorder entry: the holder, the entry fields and
    the module-graph flag. *)
Definition info_kept (i i' : KlassSubGraphInfo) : Prop :=
  sg_k i' = sg_k i
  /\ sg_subgraph_entry_fields i' = sg_subgraph_entry_fields i
  /\ sg_is_full_module_graph i' = sg_is_full_module_graph i.

(** How the tables evolve over any walk that returns: they only grow, and
    [_num_new_walked_objs] counts each newly seen object once. *)
Definition walk_inv (st st' : DumpState) : Prop :=
  seen_objects_table st ⊆ seen_objects_table st'
  /\ dom (archived_object_cache st) ⊆ dom (archived_object_cache st')
  /\ num_new_walked_objs st' - Z.of_nat (size (seen_objects_table st'))
     = num_new_walked_objs st - Z.of_nat (size (seen_objects_table st))
  /\ (forall k i,
         dump_time_subgraph_info_table st !! k = Some i ->
         exists i', dump_time_subgraph_info_table st' !! k = Some i'
                    /\ info_kept i i')
  /\ pending_roots st `prefix_of` pending_roots st'
  /\ source_objs st `prefix_of` source_objs st'
  /\ mark_hash st ⊆ mark_hash st'.

(** What holds in addition over a walk that succeeds: every newly seen
    object is archived, the walk out of it is complete, and
    [_num_new_archived_objs] counts each new cache entry once. *)
Definition walk_ok (env : DumpEnv) (st st' : DumpState) : Prop :=
  walk_inv st st'
  /\ num_new_archived_objs st' - Z.of_nat (size (archived_object_cache st'))
     = num_new_archived_objs st - Z.of_nat (size (archived_object_cache st))
  /\ (forall o,
         o ∈ seen_objects_table st' -> o ∉ seen_objects_table st ->
         o ∈ dom (archived_object_cache st')
         /\ forall q, walk_edge env o q -> q ∈ seen_objects_table st').

Definition walker_spec (env : DumpEnv)
    (W : oop -> DumpState -> outcome bool) : Prop :=
  forall p st b st',
    W p st = Ret b st' ->
    walk_inv st st'
    /\ (b = true ->
        walk_ok env st st' /\ walked_object env p ∈ seen_objects_table st').

(** The objects still to be seen. *)
Definition unseen (env : DumpEnv) (st : DumpState) : nat :=
  size (dom (heap env) ∖ seen_objects_table st).

(** A walker that may only be entered once [obj] is in the seen table. *)
Definition entered_after_marking (obj : oop)
    (W : oop -> DumpState -> outcome bool) (p : oop) (st : DumpState)
  : outcome bool :=
  if bool_decide (obj ∈ seen_objects_table st) then W p st else Crash.

(** Modelled from the spec: the copy of an archived object is made by the
    Archive Builder collaborator ([ArchiveHeapWriter::write] is not among the
    sources), after the dump pass, from the objects queued by
    [add_source_obj]; the copy carries the header of its source, so a
    restored object reports the hash its source had when copied. *)
Definition copied_hash (st : DumpState) (obj : oop) : option Z :=
  if bool_decide (obj ∈ source_objs st) then mark_hash st !! obj else None.

(** ** A small heap used to exercise the definitions

    Objects 1 and 2 reference each other; 3 is the mirror of class 12 and 4
    its scratch mirror; 5 holds a reference to the mirror 3; 6 is too large
    to archive and 7 holds a reference to it.  The holders 40, 41, 42, 43
    and 44 have one entry field each, at offset 8, holding 1, 6, 5, [null]
    and 7. *)
Module Scenario.

Definition plain (k : klass) (size : Z) (refs : list oop) : ObjDesc :=
  {| o_klass := k; o_size := size; o_refs := refs; o_mirror := None;
     o_is_stackChunk := false; o_supported := true;
     o_archived_module := false; o_enum_refs := None |}.

Definition mirror_of (k : klass) : ObjDesc :=
  {| o_klass := 20%nat; o_size := 14; o_refs := [];
     o_mirror := Some (MirrorKlass k);
     o_is_stackChunk := false; o_supported := true;
     o_archived_module := false; o_enum_refs := None |}.

Definition boot_klass : KlassDesc :=
  {| kd_kind := InstanceK; kd_in_java_base := true; kd_module_named := true;
     kd_package_null := false; kd_is_early := true;
     kd_is_shared_boot_class := true |}.

Definition env : DumpEnv :=
  {| heap := list_to_map
               [(1%nat, plain 11 4 [2%nat]);
                (2%nat, plain 11 4 [1%nat; null]);
                (3%nat, mirror_of 12);
                (4%nat, mirror_of 12);
                (5%nat, plain 13 4 [3%nat]);
                (6%nat, plain 14 1000 []);
                (7%nat, plain 15 4 [6%nat])];
     klass_desc := fun _ => boot_klass;
     get_buffered_klass := fun k => k;
     is_in_buffer_space := fun _ => true;
     String_klass := 30%nat;
     Object_klass := 31%nat;
     objectArrayKlassObj := 32%nat;
     scratch_basic_type_mirrors := fun _ => null;
     scratch_java_mirror_table := {[12%nat := 4%nat]};
     box_klass_mirrors := [];
     static_field := fun k off =>
                       if off =? 8 then
                         match k with
                         | 40%nat => 1%nat
                         | 41%nat => 6%nat
                         | 42%nat => 5%nat
                         | 44%nat => 7%nat
                         | _ => null
                         end
                       else null;
     is_too_large_to_archive := fun size => 100 <? size;
     ArchiveInvokeDynamic := false;
     PRODUCT := false;
     ALLOC_STAT_SLOTS := 16;
     generate_hash := fun seed => seed * 31 + 7 |}.

Definition st0 : DumpState :=
  {| archived_object_cache := ∅;
     seen_objects_table := ∅;
     pending_roots := [];
     dump_time_subgraph_info_table := ∅;
     source_objs := [];
     mark_hash := ∅;
     hash_seed := 1;
     walker_current := None;
     num_new_walked_objs := 0;
     num_new_archived_objs := 0;
     total_obj_count := 0;
     total_obj_size := 0;
     alloc_count := replicate 16 0;
     alloc_size := replicate 16 0 |}.

(** The state inside the recording session of holder [k]. *)
Definition in_session (k : klass) : DumpState :=
  match start_recording_subgraph env k false st0 with
  | Ret _ st => st
  | _ => st0
  end.

(** The state after [archive_object] on object 1. *)
Definition st_archived_1 : DumpState :=
  match archive_object env 1%nat st0 with
  | Ret _ st => st
  | _ => st0
  end.

(** The entry field of holder 42 holds object 5, not the mirror 3. *)
Definition static_field_is_not_mirror : bool :=
  negb (Nat.eqb (static_field env 42%nat 8) 3%nat).

Definition holder_name (k : klass) : string :=
  match k with
  | 40%nat => "Holder40"
  | 41%nat => "Holder41"
  | 42%nat => "Holder42"
  | 43%nat => "Holder43"
  | _ => "Holder44"
  end.

Definition entry (k : klass) : ArchivableStaticFieldInfo :=
  {| klass_name := holder_name k; field_name := "archivedCache";
     fi_klass := k; fi_offset := 8 |}.

(** Run time: a record of holder 40 with one entry (offset 8, root 0) that
    has non-early classes, instrumentation hooks being active; the root
    table ends in two permanent-object segments, the arrays 100 and 101.
    The initializer of class 11 stores 77 into its static field at offset 24
    and takes root 1. *)
Definition record_40 : ArchivedKlassSubGraphInfoRecord :=
  {| r_k := 40%nat;
     r_entry_field_records := Some [8; 0];
     r_subgraph_object_klasses := Some [11%nat];
     r_is_full_module_graph := false;
     r_has_non_early_klasses := true |}.

Definition renv : RunEnv :=
  {| is_in_use := true;
     is_shared := fun _ => true;
     is_loading_full_module_graph := true;
     should_post_class_file_load_hook := true;
     run_time_subgraph_info_table := {[40%nat := record_40]};
     is_MethodType := fun _ => false;
     find_field := fun _ _ => None;
     rt_klass_kind := fun _ => InstanceK;
     resolve_throws := fun _ => false;
     initialize_throws := fun _ => false;
     resolve_or_null := fun k => Some k;
     class_initializer :=
       fun k _ =>
         if Nat.eqb k 11
         then {| ie_stores := [(11%nat, 24, 77%nat)]; ie_roots_taken := [1] |}
         else {| ie_stores := []; ie_roots_taken := [] |};
     obj_array := fun o =>
                    match o with
                    | 100%nat => Some [11%nat; 12%nat]
                    | 101%nat => Some [13%nat]
                    | _ => None
                    end;
     permobj_segments := 2;
     PERMOBJ_SEGMENT_MAX_SHIFT := 3;
     PERMOBJ_SEGMENT_MAX_MASK := 7 |}.

Definition rst_boot : RunState :=
  {| roots := None;
     mirror_fields := ∅;
     loaded := ∅;
     initialized := ∅;
     permanent_index_table := None |}.

Definition rst0 : RunState :=
  {| roots := Some [5%nat; null; 100%nat; 101%nat];
     mirror_fields := ∅;
     loaded := ∅;
     initialized := ∅;
     permanent_index_table := None |}.

(** The state after the permanent index of object 13 was asked for. *)
Definition rst_indexed : RunState :=
  match get_archived_object_permanent_index renv 13%nat rst0 with
  | Some (_, st) => st
  | None => rst0
  end.

Definition fmg_info : KlassSubGraphInfo :=
  {| sg_k := 40%nat;
     sg_subgraph_object_klasses := Some [11%nat];
     sg_subgraph_entry_fields := Some [8; 0];
     sg_is_full_module_graph := true;
     sg_has_non_early_klasses := true |}.

End Scenario.

(** A walker under which the seen table only grows. *)
Definition grows_seen (W : oop -> DumpState -> outcome bool) : Prop :=
  forall p st b st',
    W p st = Ret b st' -> seen_objects_table st ⊆ seen_objects_table st'.

(** The invariant of a recording session in which no entry value was too
    large: the seen table is closed and its objects are archived. *)
Definition session_inv (env : DumpEnv) (st : DumpState) : Prop :=
  seen_closed env (seen_objects_table st)
  /\ seen_objects_table st ⊆ dom (archived_object_cache st).

(** The steps by which the state of the run-time engine changes: the
    operations that touch the root table, and anything else (Java code, class
    loading) that leaves it alone. *)
Inductive rt_step (renv : RunEnv) : RunState -> RunState -> Prop :=
| rt_init_roots r st st' :
    init_roots renv (Some r) st = Some st' -> rt_step renv st st'
| rt_get_root i clear v st st' :
    get_root renv i clear st = Some (v, st') -> rt_step renv st st'
| rt_clear_root i st st' :
    clear_root renv i st = Some st' -> rt_step renv st st'
| rt_resolve k st st' :
    resolve_classes_for_subgraph_of renv k st = Some st' ->
    rt_step renv st st'
| rt_initialize k st st' :
    initialize_from_archived_subgraph renv k st = Some st' ->
    rt_step renv st st'
| rt_permanent_index obj n st st' :
    get_archived_object_permanent_index renv obj st = Some (n, st') ->
    rt_step renv st st'
| rt_other st st' :
    roots st' = roots st -> rt_step renv st st'.

(** The states reached from a start with the [_roots] handle empty. *)
Definition rt_reachable (renv : RunEnv) (st : RunState) : Prop :=
  exists st0, roots st0 = None /\ rtc (rt_step renv) st0 st.

(** ** Notions used to state the further properties *)

(** The (offset, root index) pairs of a list of entry-field records. *)
Fixpoint entry_pairs (efr : list Z) : list (Z * Z) :=
  match efr with
  | off :: idx :: rest => (off, idx) :: entry_pairs rest
  | _ => []
  end.

(** A run of [oop_iterate] that returns: the null fields are passed over and
    the walker succeeds on each of the others, in order. *)
Inductive iterated (W : oop -> DumpState -> outcome bool)
  : list oop -> DumpState -> DumpState -> Prop :=
| iterated_nil st : iterated W [] st st
| iterated_null p rest st st' :
    is_null p = true -> iterated W rest st st' ->
    iterated W (p :: rest) st st'
| iterated_cons p rest st st1 st' :
    is_null p = false -> W p st = Ret true st1 -> iterated W rest st1 st' ->
    iterated W (p :: rest) st st'.

(** The archiving step of a visit: the object marked as seen is already in
    the identity cache, or [archive_object] puts it there. *)
Definition archive_step (env : DumpEnv) (obj : oop) (st st1 : DumpState)
  : Prop :=
  let stm := set_has_been_seen_during_subgraph_recording obj st in
  (has_been_archived obj stm = true /\ st1 = stm)
  \/ (has_been_archived obj stm = false
      /\ archive_object env obj
           (set_session_counters (num_new_walked_objs stm)
              (num_new_archived_objs stm + 1) stm) = Ret true st1).

(** The ways in which the body of the walker returns once it holds the
    object [obj] to work on: [obj] was seen in this session; [obj] is too
    large and the walk is at level 1; or [obj] is marked, archived, its class
    recorded and its references and enum constants walked. *)
Inductive visit (env : DumpEnv) (W : oop -> DumpState -> outcome bool)
    (level : Z) (info : klass) (obj : oop) (od : ObjDesc) (st : DumpState)
  : bool -> DumpState -> Prop :=
| visit_seen :
    obj ∈ seen_objects_table st -> visit env W level info obj od st true st
| visit_too_large st1 :
    obj ∉ seen_objects_table st ->
    has_been_archived obj st = false ->
    archive_object env obj
      (set_session_counters
         (num_new_walked_objs (set_has_been_seen_during_subgraph_recording obj st))
         (num_new_archived_objs (set_has_been_seen_during_subgraph_recording obj st) + 1)
         (set_has_been_seen_during_subgraph_recording obj st)) = Ret false st1 ->
    level = 1 ->
    visit env W level info obj od st false st1
| visit_new st1 st2 st3 st4 :
    obj ∉ seen_objects_table st ->
    archive_step env obj st st1 ->
    add_subgraph_object_klass env info (o_klass od) st1 = Ret tt st2 ->
    iterated W (o_refs od) (set_walker (Some obj) st2) st3 ->
    iterated W (default [] (o_enum_refs od)) st3 st4 ->
    visit env W level info obj od st true (set_walker (walker_current st2) st4).

(** What the dump never takes back: an entry of the identity cache with its
    referrer, a root with its index, a queued source object, an installed
    identity hash, a recorder entry. *)
Definition tables_grow (st st' : DumpState) : Prop :=
  archived_object_cache st ⊆ archived_object_cache st'
  /\ pending_roots st `prefix_of` pending_roots st'
  /\ source_objs st `prefix_of` source_objs st'
  /\ mark_hash st ⊆ mark_hash st'
  /\ dom (dump_time_subgraph_info_table st)
     ⊆ dom (dump_time_subgraph_info_table st').

(** What a walk leaves of a recording session: the seen table only grows, an
    object that was seen keeps its entry in the identity cache or stays out
    of the cache, and no recorder entry is lost. *)
Definition seen_kept (st st' : DumpState) : Prop :=
  seen_objects_table st ⊆ seen_objects_table st'
  /\ (forall o,
        o ∈ seen_objects_table st ->
        archived_object_cache st' !! o = archived_object_cache st !! o)
  /\ dom (dump_time_subgraph_info_table st)
     ⊆ dom (dump_time_subgraph_info_table st').

(** The steps of the recording session of the holder [k]: its entry fields
    handled one after the other. *)
Inductive session_step (env : DumpEnv) (k : klass)
  : DumpState -> DumpState -> Prop :=
| session_entry_field off st st' :
    archive_reachable_objects_from_static_field env k off st = Ret tt st' ->
    session_step env k st st'.

(** The steps of the dump: archiving an object, a walk, a pass over a table
    of entry fields, a root appended, a seen table set up or dropped, a
    recorder entry created, and [copy_java_mirror_hashcode] onto a scratch
    mirror other than [spared]. *)
Inductive dump_step (env : DumpEnv) (spared : oop)
  : DumpState -> DumpState -> Prop :=
| step_archive_object obj b st st' :
    archive_object env obj st = Ret b st' -> dump_step env spared st st'
| step_walk fuel level info obj b st st' :
    archive_reachable_objects_from env fuel level info obj st = Ret b st' ->
    dump_step env spared st st'
| step_pass fields is_full_module_graph st st' :
    archive_object_subgraphs env fields is_full_module_graph st = Ret tt st' ->
    dump_step env spared st st'
| step_append_root obj st :
    dump_step env spared st (snd (append_root obj st))
| step_init_seen st :
    dump_step env spared st (init_seen_objects_table st)
| step_delete_seen st :
    dump_step env spared st (delete_seen_objects_table st)
| step_init_subgraph_info k is_full_module_graph st st' :
    init_subgraph_info env k is_full_module_graph st = Ret tt st' ->
    dump_step env spared st st'
| step_copy_java_mirror_hashcode orig_mirror scratch_m st :
    scratch_m <> spared ->
    dump_step env spared st
      (copy_java_mirror_hashcode env orig_mirror scratch_m st).

(** The entry fields of every recorder entry are complete pairs whose root
    indices are distinct and address the root table, and the root of a pair
    is the value of the static field at the offset of the pair. *)
Definition entry_fields_wf (env : DumpEnv) (st : DumpState) : Prop :=
  forall k info,
    dump_time_subgraph_info_table st !! k = Some info ->
    entries_in_range (length (pending_roots st))
      (default [] (sg_subgraph_entry_fields info))
    /\ NoDup (root_indices (default [] (sg_subgraph_entry_fields info)))
    /\ forall off idx,
         (off, idx) ∈ entry_pairs (default [] (sg_subgraph_entry_fields info)) ->
         pending_roots st !! Z.to_nat idx = Some (static_field env k off).

(** The recorder entry [subgraph_info] with its class list and its
    non-early flag replaced, as [add_subgraph_object_klass] leaves it. *)
Definition store_klasses (subgraph_info : klass) (info : KlassSubGraphInfo)
    (ks : list klass) (non_early : bool) (st : DumpState) : DumpState :=
  set_infos
    (fun t => <[subgraph_info :=
       {| sg_k := sg_k info;
          sg_subgraph_object_klasses := Some ks;
          sg_subgraph_entry_fields := sg_subgraph_entry_fields info;
          sg_is_full_module_graph := sg_is_full_module_graph info;
          sg_has_non_early_klasses := non_early |}]> t) st.

(** The classes [add_subgraph_object_klass] leaves out of the list: the
    holder itself, [String] and [Object], the array class of [Object] and the
    primitive array classes. *)
Definition klass_exempt (env : DumpEnv) (info : KlassSubGraphInfo)
    (orig_k : klass) : Prop :=
  let buffered_k := get_buffered_klass env orig_k in
  sg_k info = buffered_k
  \/ (kd_kind (klass_desc env buffered_k) = InstanceK
      /\ (orig_k = String_klass env \/ orig_k = Object_klass env))
  \/ ((exists abk, kd_kind (klass_desc env buffered_k) = ObjArrayK abk)
      /\ buffered_k = objectArrayKlassObj env)
  \/ kd_kind (klass_desc env buffered_k) = TypeArrayK.

(** The class of an object of the subgraph is in the list of the recorder
    entry, or is one of those left out. *)
Definition klass_accounted (env : DumpEnv) (info : KlassSubGraphInfo)
    (orig_k : klass) : Prop :=
  get_buffered_klass env orig_k ∈ default [] (sg_subgraph_object_klasses info)
  \/ klass_exempt env info orig_k.

(** The kinds of class that enter a class list. *)
Definition recorded_kind_ok (env : DumpEnv) (buffered_k : klass) : Prop :=
  match kd_kind (klass_desc env buffered_k) with
  | InstanceK => True
  | ObjArrayK _ => buffered_k <> objectArrayKlassObj env
  | TypeArrayK => False
  end.

(** The classes whose buffered copy enters a class list: an instance class
    other than [String] and [Object] that [check_allowed_klass] accepts, or
    an object-array class whose bottom class, when an instance class, is
    accepted. *)
Definition allowed_origin (env : DumpEnv) (orig_k : klass) : Prop :=
  match kd_kind (klass_desc env (get_buffered_klass env orig_k)) with
  | InstanceK =>
    orig_k <> String_klass env /\ orig_k <> Object_klass env
    /\ check_allowed_klass env orig_k = Some true
  | ObjArrayK abk =>
    match kd_kind (klass_desc env abk) with
    | InstanceK =>
      exists orig_bottom,
        kd_kind (klass_desc env orig_k) = ObjArrayK orig_bottom
        /\ check_allowed_klass env orig_bottom = Some true
    | _ => True
    end
  | TypeArrayK => False
  end.

(** Every class list is free of duplicates, leaves out the holder of its
    entry and holds classes of the recorded kinds only. *)
Definition subgraph_klasses_wf (env : DumpEnv) (st : DumpState) : Prop :=
  forall k info,
    dump_time_subgraph_info_table st !! k = Some info ->
    NoDup (default [] (sg_subgraph_object_klasses info))
    /\ (sg_k info ∉ default [] (sg_subgraph_object_klasses info))
    /\ Forall (recorded_kind_ok env)
         (default [] (sg_subgraph_object_klasses info)).

(** Every class of a class list is the buffered copy of an allowed class,
    and of an early one as long as the entry is not flagged. *)
Definition subgraph_klasses_origins (env : DumpEnv) (st : DumpState) : Prop :=
  forall k info,
    dump_time_subgraph_info_table st !! k = Some info ->
    forall buffered_k,
      buffered_k ∈ default [] (sg_subgraph_object_klasses info) ->
      exists orig_k,
        buffered_k = get_buffered_klass env orig_k
        /\ allowed_origin env orig_k
        /\ (sg_has_non_early_klasses info = false ->
            is_non_early_klass env orig_k = false).

(** The class list of the recorder entry [k] only grows, and the entry keeps
    its holder. *)
Definition klasses_grow (k : klass) (st st' : DumpState) : Prop :=
  forall i,
    dump_time_subgraph_info_table st !! k = Some i ->
    exists i',
      dump_time_subgraph_info_table st' !! k = Some i'
      /\ sg_k i' = sg_k i
      /\ forall x, x ∈ default [] (sg_subgraph_object_klasses i) ->
                   x ∈ default [] (sg_subgraph_object_klasses i').

(** The class of the object [o] is accounted for in the recorder entry
    [k]. *)
Definition accounted_at (env : DumpEnv) (k : klass) (st : DumpState)
    (o : oop) : Prop :=
  forall od,
    heap env !! o = Some od ->
    exists info,
      dump_time_subgraph_info_table st !! k = Some info
      /\ klass_accounted env info (o_klass od).

(** A reference that the walker and the verifier can enter: it points to an
    object of the heap, and the object to work on in its place, the scratch
    mirror of a class mirror, is there as well. *)
Definition enterable (env : DumpEnv) (p : oop) : Prop :=
  is_Some (heap env !! p)
  /\ walked_object env p <> null
  /\ is_Some (heap env !! walked_object env p).

(** An object of the heap all of whose references can be entered. *)
Definition sound_node (env : DumpEnv) (o : oop) : Prop :=
  exists od,
    heap env !! o = Some od
    /\ forall p, p ∈ out_refs od -> p <> null -> enterable env p.

(** What the verification pass checks of a set of objects: each is in the
    identity cache with its references leading into the set. *)
Definition verifiable (env : DumpEnv) (s : gset oop) (c : gset oop) : Prop :=
  forall o,
    o ∈ s ->
    o ∈ c
    /\ exists od,
         heap env !! o = Some od
         /\ forall p, p ∈ o_refs od -> p <> null ->
                      enterable env p /\ walked_object env p ∈ s.

(** A reference the walker accepts on entry: it is not null, it points to an
    object supported for archiving, and the object to work on in its place
    is in the heap. *)
Definition walkable (env : DumpEnv) (p : oop) : Prop :=
  p <> null
  /\ exists od0,
       heap env !! p = Some od0
       /\ o_supported od0 = true
       /\ walked_object env p <> null
       /\ is_Some (heap env !! walked_object env p).

(** The classes [add_subgraph_object_klass] lets pass for the recorder entry
    of [holder], those it leaves out and those it records: the buffered copy
    is in the buffer space and, unless it is the holder, an instance class is
    a shared boot class (when [ArchiveInvokeDynamic] is off) and is [String],
    [Object] or accepted by [check_allowed_klass], and an object-array class
    of instances has a shared boot class as the bottom class of its buffered
    copy and an accepted bottom class. *)
Definition klass_admitted (env : DumpEnv) (holder : klass) (orig_k : klass)
  : Prop :=
  let buffered_k := get_buffered_klass env orig_k in
  is_in_buffer_space env buffered_k = true
  /\ (holder = buffered_k
      \/ match kd_kind (klass_desc env buffered_k) with
         | InstanceK =>
           (ArchiveInvokeDynamic env = true
            \/ kd_is_shared_boot_class (klass_desc env buffered_k) = true)
           /\ (orig_k = String_klass env \/ orig_k = Object_klass env
               \/ check_allowed_klass env orig_k = Some true)
         | ObjArrayK abk =>
           match kd_kind (klass_desc env abk) with
           | InstanceK =>
             kd_is_shared_boot_class (klass_desc env abk) = true
             /\ exists orig_bottom,
                  kd_kind (klass_desc env orig_k) = ObjArrayK orig_bottom
                  /\ check_allowed_klass env orig_bottom = Some true
           | _ => True
           end
         | TypeArrayK => True
         end).

(** An object the walker can archive for the recorder entry of [holder]: it
    is no stack chunk, not too large, of an admitted class, and each of its
    references can be entered. *)
Definition archivable_object (env : DumpEnv) (holder : klass) (o : oop)
  : Prop :=
  exists od,
    heap env !! o = Some od
    /\ o_is_stackChunk od = false
    /\ is_too_large_to_archive env (o_size od) = false
    /\ klass_admitted env holder (o_klass od)
    /\ forall p, p ∈ out_refs od -> p <> null -> walkable env p.

(** The recorder has an entry for [k], of holder [holder]. *)
Definition holder_is (k holder : klass) (st : DumpState) : Prop :=
  exists i, dump_time_subgraph_info_table st !! k = Some i /\ sg_k i = holder.

(** What loading and initializing classes leaves of the run-time state: the
    root table, the static fields and the permanent-index table are as
    before, and no class is unloaded. *)
Definition rt_frame (st st' : RunState) : Prop :=
  roots st' = roots st
  /\ mirror_fields st' = mirror_fields st
  /\ permanent_index_table st' = permanent_index_table st
  /\ loaded st ⊆ loaded st'
  /\ initialized st ⊆ initialized st'.

(** Every class that is loaded in [st'] and was not in [st] was returned by
    [resolve_or_null] under its own name, no exception pending. *)
Definition loaded_by_resolving (renv : RunEnv) (st st' : RunState) : Prop :=
  forall c,
    c ∈ loaded st' -> c ∉ loaded st ->
    resolve_throws renv c = false /\ resolve_or_null renv c = Some c.

(** What is left of a root table: its length and the roots at [indices]. *)
Definition roots_kept (indices : list Z) (st st' : RunState) : Prop :=
  forall r,
    roots st = Some r ->
    exists r',
      roots st' = Some r' /\ length r' = length r
      /\ forall i, i ∈ indices -> r' !! Z.to_nat i = r !! Z.to_nat i.

(** The initializers of class [c] take none of the roots at [indices]. *)
Definition initializer_spares (renv : RunEnv) (c : klass)
    (indices : list Z) : Prop :=
  forall s i, i ∈ ie_roots_taken (class_initializer renv c s) -> i ∉ indices.

(** The initializers of class [c] store into none of the static fields of
    [k] at [offsets]. *)
Definition initializer_skips (renv : RunEnv) (c k : klass)
    (offsets : list Z) : Prop :=
  forall s off v,
    (k, off, v) ∈ ie_stores (class_initializer renv c s) -> off ∉ offsets.

(** ** Allocation statistics *)

(** [size_t] arithmetic of a 64-bit VM. *)
Definition size_t (z : Z) : Z := z mod 2 ^ 64.

(** The loop of [print_stats] over the slots [i], [i+1], ..., [n] of them:
    what is left of the totals once the counts and sizes of the slots are
    taken off, which the function then logs as the huge objects. *)
Fixpoint print_stats_loop (st : DumpState) (i n : nat)
    (huge_count huge_size : Z) : Z * Z :=
  match n with
  | O => (huge_count, huge_size)
  | S n' =>
    let count := default 0 (alloc_count st !! i) in
    let size := default 0 (alloc_size st !! i) in
    print_stats_loop st (S i) n' (size_t (huge_count - count))
      (size_t (huge_size - size))
  end.

(** [print_stats], as the count and the size of the huge objects it logs. *)
Definition print_stats (env : DumpEnv) (st : DumpState) : Z * Z :=
  print_stats_loop st 0 (ALLOC_STAT_SLOTS env) (total_obj_count st)
    (total_obj_size st).

Definition sum_Z (l : list Z) : Z := foldr Z.add 0 l.

(** ** Scratch objects

    The tables [_scratch_java_mirror_table] and [_scratch_references_table]
    at the time they are filled, before the dump pass reads them; an
    operation yields [None] when it dereferences a table that is not
    allocated or when an assertion fails. *)
Module ScratchObjects.

(** [MetaspaceObjToOopHandleTable]: metadata address -> object. *)
Abbreviation MetaspaceObjToOopHandleTable := (gmap nat oop).

Definition get_oop (t : MetaspaceObjToOopHandleTable) (ptr : nat) : oop :=
  match t !! ptr with
  | Some o => o
  | None => null
  end.

Definition set_oop (t : MetaspaceObjToOopHandleTable) (ptr : nat) (o : oop)
  : option MetaspaceObjToOopHandleTable :=
  match t !! ptr with
  | Some _ => None
  | None => Some (<[ptr := o]> t)
  end.

Definition remove_oop (t : MetaspaceObjToOopHandleTable) (ptr : nat)
  : MetaspaceObjToOopHandleTable :=
  match t !! ptr with
  | Some _ => delete ptr t
  | None => t
  end.

Record tables := {
  mirror_table : option MetaspaceObjToOopHandleTable;
  references_table : option MetaspaceObjToOopHandleTable
}.

(** The two allocations at the end of [init_scratch_objects]. *)
Definition init_scratch_objects (st : tables) : tables :=
  {| mirror_table := Some ∅;
     references_table :=
       match references_table st with
       | None => Some ∅
       | Some t => Some t
       end |}.

Definition add_scratch_resolved_references (src : nat) (dest : oop)
    (st : tables) : option tables :=
  let t := match references_table st with
           | None => ∅
           | Some t => t
           end in
  t' ← set_oop t src dest;
  Some {| mirror_table := mirror_table st; references_table := Some t' |}.

Definition scratch_resolved_references (src : nat) (st : tables)
  : option oop :=
  t ← references_table st; Some (get_oop t src).

(** [scratch_java_mirror] on a class. *)
Definition scratch_java_mirror (k : klass) (st : tables) : option oop :=
  t ← mirror_table st; Some (get_oop t k).

Definition set_scratch_java_mirror (k : klass) (mirror : oop) (st : tables)
  : option tables :=
  t ← mirror_table st;
  t' ← set_oop t k mirror;
  Some {| mirror_table := Some t'; references_table := references_table st |}.

(** [remove_scratch_objects]; [constants] is [Some cp] for an instance class
    with constant pool [cp]. *)
Definition remove_scratch_objects (k : klass) (constants : option nat)
    (st : tables) : option tables :=
  t ← mirror_table st;
  let t := remove_oop t k in
  match constants with
  | None =>
    Some {| mirror_table := Some t; references_table := references_table st |}
  | Some cp =>
    r ← references_table st;
    Some {| mirror_table := Some t; references_table := Some (delete cp r) |}
  end.

End ScratchObjects.

(** ** The table of entry fields before the dump *)

(** What [ArchivableStaticFieldFinder] reads of a [fieldDescriptor]. *)
Record fieldDescriptor := {
  fd_name : string;
  fd_field_type : BasicType;
  fd_offset : Z
}.

(** What [init_subgraph_entry_fields] asks of the class loader and of the
    classes it finds. *)
Record InitEnv := {
  (* [SystemDictionary::resolve_or_fail(klass_name, true, THREAD)]; [None]
     when it leaves an exception pending *)
  resolve_or_fail : string -> option klass;
  (* whether [ik->initialize(CHECK)] leaves an exception pending *)
  init_throws : klass -> bool;
  (* the fields [ik->do_local_static_fields] hands to the closure, in order *)
  local_static_fields : klass -> list fieldDescriptor;
  (* [-XX:ArchiveHeapTestClass]; [None] for [nullptr] *)
  ArchiveHeapTestClass : option string
}.

Record ArchivableStaticFieldFinder := {
  finder_found : bool;
  finder_offset : Z
}.

(** [ArchivableStaticFieldFinder::do_field]; [None] when the assertion that
    no field is overloaded fails. *)
Definition do_field (field_name : string) (fd : fieldDescriptor)
    (finder : ArchivableStaticFieldFinder)
  : option ArchivableStaticFieldFinder :=
  if String.eqb (fd_name fd) field_name then
    if finder_found finder then None
    else if is_reference_type (fd_field_type fd) then
      Some {| finder_found := true; finder_offset := fd_offset fd |}
    else Some finder
  else Some finder.

Fixpoint do_local_static_fields (field_name : string)
    (fds : list fieldDescriptor) (finder : ArchivableStaticFieldFinder)
  : option ArchivableStaticFieldFinder :=
  match fds with
  | [] => Some finder
  | fd :: rest =>
    finder ← do_field field_name fd finder;
    do_local_static_fields field_name rest finder
  end.

(** How [init_subgraph_entry_fields] ends: it returns, it throws an
    [IllegalArgumentException] with a message, the class initializer left an
    exception pending, or an assertion fails. *)
Inductive init_result :=
| InitReturns
| IllegalArgumentException (msg : string)
| PendingException
| AssertFails.

(** [init_subgraph_entry_fields(ArchivableStaticFieldInfo fields[], TRAPS)]
    over the valid entries of a table; the table as the call leaves it, with
    [klass] and [offset] filled in for the entries before the one that
    failed, and the way the call ends. *)
Fixpoint init_subgraph_entry_fields (env : DumpEnv) (ienv : InitEnv)
    (fields : list ArchivableStaticFieldInfo)
  : list ArchivableStaticFieldInfo * init_result :=
  match fields with
  | [] => ([], InitReturns)
  | info :: rest =>
    let is_test_class :=
      if PRODUCT env then false
      else match ArchiveHeapTestClass ienv with
           | Some name => String.eqb (klass_name info) name
           | None => false
           end in
    let test_class_name :=
      if PRODUCT env then EmptyString
      else default EmptyString (ArchiveHeapTestClass ienv) in
    let throw msg := (fields, IllegalArgumentException msg) in
    match resolve_or_fail ienv (klass_name info) with
    | None =>
      throw (String.append "Fail to initialize archive heap: "
               (String.append (klass_name info)
                  " cannot be loaded by the boot loader"))
    | Some k =>
      match kd_kind (klass_desc env k) with
      | InstanceK =>
        let continue :=
          if init_throws ienv k then (fields, PendingException)
          else
            match do_local_static_fields (field_name info)
                    (local_static_fields ienv k)
                    {| finder_found := false; finder_offset := -1 |} with
            | None => (fields, AssertFails)
            | Some finder =>
              if negb (finder_found finder) then
                throw (String.append "Unable to find the static T_OBJECT field "
                         (String.append (klass_name info)
                            (String.append "::" (field_name info))))
              else
                let info' := {| klass_name := klass_name info;
                                field_name := field_name info;
                                fi_klass := k;
                                fi_offset := finder_offset finder |} in
                let '(rest', result) :=
                  init_subgraph_entry_fields env ienv rest in
                (info' :: rest', result)
            end in
        if is_test_class then
          if kd_module_named (klass_desc env k) then
            throw (String.append "ArchiveHeapTestClass "
                     (String.append test_class_name
                        " is not in unnamed module"))
          else if negb (kd_package_null (klass_desc env k)) then
            throw (String.append "ArchiveHeapTestClass "
                     (String.append test_class_name
                        " is not in unnamed package"))
          else continue
        else if negb (kd_in_java_base (klass_desc env k)) then
          throw (String.append (klass_name info) " is not in java.base module")
        else continue
      | _ =>
        throw (String.append "Fail to initialize archive heap: "
                 (String.append (klass_name info)
                    " is not an instance class"))
      end
    end
  end.

Definition is_subgraph_root_class_of (fields : list ArchivableStaticFieldInfo)
    (ik : klass) : bool :=
  existsb (fun f => Nat.eqb (fi_klass f) ik) fields.

Definition is_subgraph_root_class
    (archive_subgraph_entry_fields fmg_archive_subgraph_entry_fields
       : list ArchivableStaticFieldInfo) (ik : klass) : bool :=
  is_subgraph_root_class_of archive_subgraph_entry_fields ik
  || is_subgraph_root_class_of fmg_archive_subgraph_entry_fields ik.

(** An entry of the table as a call of [init_subgraph_entry_fields] that
    returns leaves it. *)
Definition entry_initialized (env : DumpEnv) (ienv : InitEnv)
    (f f' : ArchivableStaticFieldInfo) : Prop :=
  klass_name f' = klass_name f
  /\ field_name f' = field_name f
  /\ resolve_or_fail ienv (klass_name f) = Some (fi_klass f')
  /\ kd_kind (klass_desc env (fi_klass f')) = InstanceK
  /\ (kd_in_java_base (klass_desc env (fi_klass f')) = true
      \/ (PRODUCT env = false
          /\ ArchiveHeapTestClass ienv = Some (klass_name f)
          /\ kd_module_named (klass_desc env (fi_klass f')) = false
          /\ kd_package_null (klass_desc env (fi_klass f')) = true))
  /\ init_throws ienv (fi_klass f') = false
  /\ exists fd,
       fd ∈ local_static_fields ienv (fi_klass f')
       /\ fd_name fd = field_name f
       /\ is_reference_type (fd_field_type fd) = true
       /\ fi_offset f' = fd_offset fd.

(** ** Further examples

    The state the pass over the four entries of the small heap leaves; a
    holder with two entry fields that hold the same object, too large to
    archive; a start of the VM at which the class-file load hook is not
    posted and the classes of holder 40 are loaded; and a table of entry
    fields before its classes are resolved. *)
Module Examples.

Definition after_pass : DumpState :=
  match archive_object_subgraphs Scenario.env
          [Scenario.entry 40%nat; Scenario.entry 41%nat;
           Scenario.entry 42%nat; Scenario.entry 43%nat] false Scenario.st0
  with
  | Ret _ st => st
  | _ => Scenario.st0
  end.

Definition two_fields_env : DumpEnv :=
  {| heap := heap Scenario.env;
     klass_desc := klass_desc Scenario.env;
     get_buffered_klass := get_buffered_klass Scenario.env;
     is_in_buffer_space := is_in_buffer_space Scenario.env;
     String_klass := String_klass Scenario.env;
     Object_klass := Object_klass Scenario.env;
     objectArrayKlassObj := objectArrayKlassObj Scenario.env;
     scratch_basic_type_mirrors := scratch_basic_type_mirrors Scenario.env;
     scratch_java_mirror_table := scratch_java_mirror_table Scenario.env;
     box_klass_mirrors := box_klass_mirrors Scenario.env;
     static_field := fun k off =>
                       if Nat.eqb k 41 && ((off =? 8) || (off =? 16))
                       then 6%nat else null;
     is_too_large_to_archive := is_too_large_to_archive Scenario.env;
     ArchiveInvokeDynamic := ArchiveInvokeDynamic Scenario.env;
     PRODUCT := PRODUCT Scenario.env;
     ALLOC_STAT_SLOTS := ALLOC_STAT_SLOTS Scenario.env;
     generate_hash := generate_hash Scenario.env |}.

(** The small heap with the mirror 8 of class 16 and its scratch mirror 9,
    which holds a reference to the mirror 3 of class 12. *)
Definition mirrors_env : DumpEnv :=
  {| heap := <[8%nat := Scenario.mirror_of 16]>
               (<[9%nat :=
                    {| o_klass := 20%nat; o_size := 14; o_refs := [3%nat];
                       o_mirror := Some (MirrorKlass 16);
                       o_is_stackChunk := false; o_supported := true;
                       o_archived_module := false; o_enum_refs := None |}]>
                  (heap Scenario.env));
     klass_desc := klass_desc Scenario.env;
     get_buffered_klass := get_buffered_klass Scenario.env;
     is_in_buffer_space := is_in_buffer_space Scenario.env;
     String_klass := String_klass Scenario.env;
     Object_klass := Object_klass Scenario.env;
     objectArrayKlassObj := objectArrayKlassObj Scenario.env;
     scratch_basic_type_mirrors := scratch_basic_type_mirrors Scenario.env;
     scratch_java_mirror_table := {[12%nat := 4%nat; 16%nat := 9%nat]};
     box_klass_mirrors := box_klass_mirrors Scenario.env;
     static_field := static_field Scenario.env;
     is_too_large_to_archive := is_too_large_to_archive Scenario.env;
     ArchiveInvokeDynamic := ArchiveInvokeDynamic Scenario.env;
     PRODUCT := PRODUCT Scenario.env;
     ALLOC_STAT_SLOTS := ALLOC_STAT_SLOTS Scenario.env;
     generate_hash := generate_hash Scenario.env |}.

(** The state in which [copy_special_objects] enters [archive_java_mirrors]:
    the recorder entry of [Object] that serves as [_default_subgraph_info],
    and an empty seen table. *)
Definition special_objects_session : DumpState :=
  match init_subgraph_info mirrors_env (Object_klass mirrors_env) false
          Scenario.st0
  with
  | Ret _ st => init_seen_objects_table st
  | _ => Scenario.st0
  end.

Definition renv : RunEnv := with_class_file_load_hook false Scenario.renv.

(** Initializing class 11 throws. *)
Definition renv_throws : RunEnv :=
  {| is_in_use := true;
     is_shared := fun _ => true;
     is_loading_full_module_graph := true;
     should_post_class_file_load_hook := false;
     run_time_subgraph_info_table := {[40%nat := Scenario.record_40]};
     is_MethodType := fun _ => false;
     find_field := fun _ _ => None;
     rt_klass_kind := fun _ => InstanceK;
     resolve_throws := fun _ => false;
     initialize_throws := fun k => Nat.eqb k 11;
     resolve_or_null := fun k => Some k;
     class_initializer := class_initializer Scenario.renv;
     obj_array := fun _ => None;
     permobj_segments := 0;
     PERMOBJ_SEGMENT_MAX_SHIFT := 3;
     PERMOBJ_SEGMENT_MAX_MASK := 7 |}.

Definition rst_loaded : RunState :=
  {| roots := Some [5%nat; null; 100%nat; 101%nat];
     mirror_fields := ∅;
     loaded := {[40%nat; 11%nat]};
     initialized := ∅;
     permanent_index_table := None |}.

(** The root table of the dump, installed at run time. *)
Definition rst_of_dump : RunState :=
  {| roots := Some (pending_roots after_pass);
     mirror_fields := ∅;
     loaded := ∅;
     initialized := ∅;
     permanent_index_table := None |}.

Definition ienv : InitEnv :=
  {| resolve_or_fail := fun name =>
                          if String.eqb name "Holder40" then Some 40%nat
                          else None;
     init_throws := fun _ => false;
     local_static_fields := fun _ =>
       [{| fd_name := "size"; fd_field_type := T_INT; fd_offset := 4 |};
        {| fd_name := "archivedCache"; fd_field_type := T_OBJECT;
           fd_offset := 8 |}];
     ArchiveHeapTestClass := None |}.

(** An entry of the table before the class is resolved. *)
Definition unresolved_entry : ArchivableStaticFieldInfo :=
  {| klass_name := "Holder40"; field_name := "archivedCache";
     fi_klass := 0%nat; fi_offset := 0 |}.

Definition scratch0 : ScratchObjects.tables :=
  ScratchObjects.init_scratch_objects
    {| ScratchObjects.mirror_table := None;
       ScratchObjects.references_table := None |}.

End Examples.

(** The references the verifier follows out of an object: its reference
    fields, a class mirror replaced by its scratch mirror. *)
Definition ref_edge (env : DumpEnv) (o q : oop) : Prop :=
  exists od p,
    heap env !! o = Some od /\ p ∈ o_refs od /\ p <> null
    /\ q = walked_object env p.

(** What a verifier that returns has checked. *)
Definition verifier_spec (env : DumpEnv)
    (W : oop -> DumpState -> outcome bool) : Prop :=
  forall p st b st',
    W p st = Ret b st' ->
    seen_objects_table st ⊆ seen_objects_table st'
    /\ archived_object_cache st' = archived_object_cache st
    /\ walked_object env p ∈ seen_objects_table st'
    /\ forall o,
         o ∈ seen_objects_table st' -> o ∉ seen_objects_table st ->
         o ∈ dom (archived_object_cache st)
         /\ forall q, ref_edge env o q -> q ∈ seen_objects_table st'.

(** * Properties *)

(** ** Root table at run time *)

Section RootTable.

Variable renv : RunEnv.

Lemma roots_obj_at_Some index (st : RunState) (r : list oop) :
  roots st = Some r -> 0 <= index < Z.of_nat (length r) ->
  exists v, roots_obj_at index st = Some v /\ r !! Z.to_nat index = Some v.
Proof.
  intros Hr Hi. unfold roots_obj_at. rewrite Hr. simpl.
  destruct (Z.ltb_spec index 0); [lia|].
  destruct (lookup_lt_is_Some_2 r (Z.to_nat index)) as [v Hv]; [lia|].
  exists v. by rewrite Hv.
Qed.

Lemma clear_root_in_use index (st : RunState) (r : list oop) :
  is_in_use renv = true -> roots st = Some r ->
  0 <= index < Z.of_nat (length r) ->
  clear_root renv index st
  = Some (set_rt_roots (Some (<[Z.to_nat index := null]> r)) st).
Proof.
  intros Hu Hr Hi. unfold clear_root. rewrite Hu, Hr. simpl.
  destruct (Z.ltb_spec index 0); [lia|].
  destruct (Nat.ltb_spec (Z.to_nat index) (length r)); [done|lia].
Qed.

Lemma get_root_clear_in_use (i : Z) (st : RunState) (r : list oop) :
  is_in_use renv = true ->
  roots st = Some r ->
  0 <= i < Z.of_nat (length r) ->
  exists v st',
    r !! Z.to_nat i = Some v
    /\ get_root renv i true st = Some (v, st')
    /\ get_root renv i false st' = Some (null, st').
Proof.
  intros Hu Hr Hi.
  destruct (roots_obj_at_Some i st r Hr Hi) as (v & Hat & Hv).
  exists v, (set_rt_roots (Some (<[Z.to_nat i := null]> r)) st).
  split; [done|]. split.
  - unfold get_root. rewrite Hat. simpl.
    by rewrite (clear_root_in_use i st r Hu Hr Hi).
  - unfold get_root, roots_obj_at. simpl.
    destruct (Z.ltb_spec i 0); [lia|].
    rewrite list_lookup_insert_eq by lia. done.
Qed.

(** The table set up by [init_roots] is one of a heap in use. *)
Lemma init_roots_in_use (r : list oop) (st st' : RunState) :
  init_roots renv (Some r) st = Some st' ->
  is_in_use renv = true /\ roots st' = Some r.
Proof.
  unfold init_roots. destruct (is_in_use renv); [|done].
  intros [= <-]. done.
Qed.

Lemma clear_roots_of_entries_spec (efr : list Z) :
  is_in_use renv = true ->
  forall (st : RunState) (r : list oop),
    roots st = Some r ->
    entries_in_range (length r) efr ->
    exists r',
      clear_roots_of_entries renv efr st = Some (set_rt_roots (Some r') st)
      /\ length r' = length r
      /\ (forall idx, idx ∈ root_indices efr -> r' !! Z.to_nat idx = Some null)
      /\ (forall j, r !! j = Some null -> r' !! j = Some null).
Proof.
  intros Hu st r Hr Hin. revert st Hr.
  remember (length r) as n eqn:Hn. revert r Hn.
  induction Hin as [|off idx rest Hidx Hin IH]; intros r Hn st Hr.
  - exists r. simpl. split; [|split; [done|split]].
    + destruct st; simpl in *; by subst.
    + intros idx Hidx. by apply elem_of_nil in Hidx.
    + done.
  - subst n. simpl.
    rewrite (clear_root_in_use idx st r Hu Hr Hidx). simpl.
    destruct (IH (<[Z.to_nat idx := null]> r)
                (eq_sym (length_insert _ _ _))
                (set_rt_roots (Some (<[Z.to_nat idx := null]> r)) st)
                eq_refl) as (r' & Hc & Hlen & Hcleared & Hkeep).
    exists r'. split; [exact Hc|]. split.
    { rewrite Hlen. by rewrite ?length_insert. }
    split.
    + intros i [->|Hi]%elem_of_cons.
      * apply Hkeep. rewrite list_lookup_insert_eq by lia. done.
      * by apply Hcleared.
    + intros j Hj. apply Hkeep.
      destruct (decide (Z.to_nat idx = j)) as [<-|Hne].
      * rewrite list_lookup_insert_eq by lia. done.
      * by rewrite list_lookup_insert_ne.
Qed.

(** *** A root table is only ever installed in a heap in use *)

Lemma clear_root_not_in_use (i : Z) (st st' : RunState) :
  is_in_use renv = false -> clear_root renv i st = Some st' -> st' = st.
Proof.
  intros Hu. unfold clear_root. rewrite Hu.
  destruct (i <? 0); [done|]. by intros [= <-].
Qed.

Lemma get_root_not_in_use (i : Z) (clear : bool) (v : oop)
    (st st' : RunState) :
  is_in_use renv = false -> get_root renv i clear st = Some (v, st') ->
  st' = st.
Proof.
  intros Hu. unfold get_root.
  destruct (roots_obj_at i st) as [res|]; [|done]. simpl.
  destruct clear; [|by intros [= _ <-]].
  destruct (clear_root renv i st) as [st1|] eqn:Hc; [|done]. simpl.
  intros [= _ <-]. by apply clear_root_not_in_use with i.
Qed.

Lemma resolve_or_init_roots (k : klass) (pending : bool)
    (st st' : RunState) :
  resolve_or_init renv k false st = Some (pending, st') ->
  roots st' = roots st.
Proof.
  unfold resolve_or_init. cbn [negb].
  repeat case_match; intros [= _ <-]; done.
Qed.

Lemma resolve_or_init_klasses_roots (klasses : list klass) :
  forall st pending finished st',
    resolve_or_init_klasses renv klasses false st
    = Some (pending, finished, st') ->
    roots st' = roots st.
Proof.
  induction klasses as [|k rest IH]; intros st pending finished st' H.
  - by injection H as _ _ <-.
  - simpl in H. destruct (negb (is_shared renv k)).
    { by injection H as _ _ <-. }
    destruct (resolve_or_init renv k false st) as [[p st1]|] eqn:Hk; [|done].
    simpl in H. apply resolve_or_init_roots in Hk.
    destruct p.
    + injection H as _ _ <-. done.
    + rewrite <- Hk. by apply (IH st1 pending finished).
Qed.

Lemma resolve_or_init_classes_for_subgraph_of_roots (k : klass)
    (st : RunState) record pending (st' : RunState) :
  resolve_or_init_classes_for_subgraph_of renv k false st
  = Some (record, pending, st') ->
  roots st' = roots st.
Proof.
  unfold resolve_or_init_classes_for_subgraph_of.
  destruct (negb (is_shared renv k)); [by intros [= _ _ <-]|].
  destruct (run_time_subgraph_info_table renv !! k) as [rec|];
    [|by intros [= _ _ <-]].
  destruct (_ && _); [by intros [= _ _ <-]|].
  destruct (_ && _); [by intros [= _ _ <-]|].
  cbn [andb mbind option_bind].
  destruct (resolve_or_init renv k false st) as [[p st2]|] eqn:Hk; [|done].
  apply resolve_or_init_roots in Hk. simpl.
  destruct p; [intros [= _ _ <-]; congruence|].
  destruct (r_subgraph_object_klasses rec) as [klasses|];
    [|intros [= _ _ <-]; congruence].
  destruct (resolve_or_init_klasses renv klasses false st2)
    as [[[p' fin] st3]|] eqn:Hks; [|done].
  apply resolve_or_init_klasses_roots in Hks. simpl.
  destruct fin; intros [= _ _ <-]; congruence.
Qed.

Lemma clear_roots_of_entries_not_in_use (efr : list Z) :
  is_in_use renv = false ->
  forall st st', clear_roots_of_entries renv efr st = Some st' -> st' = st.
Proof.
  intros Hu. induction efr as [efr IH] using (induction_ltof1 _ length).
  intros st st'. destruct efr as [|off [|idx rest]]; simpl.
  - by intros [= <-].
  - done.
  - destruct (clear_root renv idx st) as [st1|] eqn:Hc; [|done]. simpl.
    apply (clear_root_not_in_use _ _ _ Hu) in Hc. subst st1.
    apply IH. unfold ltof. simpl. lia.
Qed.

Lemma init_fields_of_entries_not_in_use (k : klass) (efr : list Z) :
  is_in_use renv = false ->
  forall st st',
    init_fields_of_entries renv k efr st = Some st' -> roots st' = roots st.
Proof.
  intros Hu. induction efr as [efr IH] using (induction_ltof1 _ length).
  intros st st'. destruct efr as [|off [|idx rest]]; simpl.
  - by intros [= <-].
  - done.
  - destruct (get_root renv idx true st) as [[v st1]|] eqn:Hg; [|done]. simpl.
    apply (get_root_not_in_use _ _ _ _ _ Hu) in Hg. subst st1.
    intros H. apply IH in H; [done|]. unfold ltof. simpl. lia.
Qed.

Lemma rt_step_roots (st st' : RunState) :
  rt_step renv st st' ->
  is_Some (roots st') -> is_in_use renv = true \/ is_Some (roots st).
Proof.
  intros Hstep Hsome.
  destruct (is_in_use renv) eqn:Hu; [by left|]. right.
  destruct Hstep as [r st st' H|i clear v st st' H|i st st' H|k st st' H
                    |k st st' H|obj n st st' H|st st' H].
  - unfold init_roots in H. by rewrite Hu in H.
  - by rewrite (get_root_not_in_use _ _ _ _ _ Hu H) in Hsome.
  - by rewrite (clear_root_not_in_use _ _ _ Hu H) in Hsome.
  - unfold resolve_classes_for_subgraph_of in H.
    destruct (resolve_or_init_classes_for_subgraph_of renv k false st)
      as [[[rec p] st1]|] eqn:Hres; [|done]. simpl in H.
    apply resolve_or_init_classes_for_subgraph_of_roots in Hres.
    rewrite <- Hres. destruct rec; [by injection H as <-|].
    unfold clear_archived_roots_of in H.
    destruct (run_time_subgraph_info_table renv !! k) as [rec|];
      [|by injection H as <-].
    destruct (r_entry_field_records rec) as [efr|]; [|by injection H as <-].
    by rewrite (clear_roots_of_entries_not_in_use efr Hu _ _ H) in Hsome.
  - unfold initialize_from_archived_subgraph in H. rewrite Hu in H.
    by injection H as <-.
  - unfold get_archived_object_permanent_index in H.
    destruct (permobj_segments renv <=? 0); [by injection H as _ <-|].
    destruct (roots st); [by eexists|done].
  - by rewrite H in Hsome.
Qed.

Lemma rt_reachable_in_use (st : RunState) :
  rt_reachable renv st -> is_Some (roots st) -> is_in_use renv = true.
Proof.
  intros (st0 & Hboot & Hsteps).
  induction Hsteps as [st|st1 st2 st3 Hstep _ IH].
  - rewrite Hboot. by intros [? [=]].
  - intros Hsome.
    destruct (is_in_use renv) eqn:Hu; [done|].
    assert (roots st2 = None) as H2.
    { destruct (roots st2) as [l|] eqn:Hr2; [|done].
      assert (is_Some (roots st2)) as Hs2 by (rewrite Hr2; by eexists).
      destruct (rt_step_roots st1 st2 Hstep Hs2) as [Hin|Hs1]; [congruence|].
      rewrite Hboot in Hs1. by destruct Hs1 as [? [=]]. }
    by apply IH.
Qed.

(** C6.  In every state the engine reaches, for a valid index of the root
    table, [get_root(i, true)] returns the value the slot held, and a
    following [get_root(i, false)] returns [null]. *)
Theorem get_root_clear_then_null (i : Z) (st : RunState) (r : list oop) :
  rt_reachable renv st ->
  roots st = Some r ->
  0 <= i < Z.of_nat (length r) ->
  exists v st',
    r !! Z.to_nat i = Some v
    /\ get_root renv i true st = Some (v, st')
    /\ get_root renv i false st' = Some (null, st').
Proof.
  intros Hreach Hr Hi. apply get_root_clear_in_use; [|done|done].
  apply (rt_reachable_in_use st Hreach). rewrite Hr. by eexists.
Qed.

End RootTable.

(** ** Compatibility gates of the restoration *)

Section Gates.

Variable renv : RunEnv.

Lemma gate_rejects (k : klass) (record : ArchivedKlassSubGraphInfoRecord)
    (do_init : bool) (st : RunState) :
  is_shared renv k = true ->
  run_time_subgraph_info_table renv !! k = Some record ->
  (r_is_full_module_graph record = true
   /\ is_loading_full_module_graph renv = false)
  \/ (r_has_non_early_klasses record = true
      /\ should_post_class_file_load_hook renv = true) ->
  resolve_or_init_classes_for_subgraph_of renv k do_init st
  = Some (None, false, st).
Proof.
  intros Hs Hrec Hgate. unfold resolve_or_init_classes_for_subgraph_of.
  rewrite Hs, Hrec. simpl.
  destruct Hgate as [[-> ->]|[-> ->]]; simpl; [done|].
  by destruct (_ && _).
Qed.

(** C1.  In every state the engine reaches with a root table, a record that
    fails a compatibility gate is rejected: resolving returns no record and
    changes nothing, the resolve pass clears the root of every entry and
    leaves the static fields alone, and the initialization pass stores
    nothing. *)
Theorem restore_rejected_by_gate (k : klass)
    (record : ArchivedKlassSubGraphInfoRecord) (st : RunState)
    (r : list oop) :
  rt_reachable renv st ->
  is_shared renv k = true ->
  run_time_subgraph_info_table renv !! k = Some record ->
  (r_is_full_module_graph record = true
   /\ is_loading_full_module_graph renv = false)
  \/ (r_has_non_early_klasses record = true
      /\ should_post_class_file_load_hook renv = true) ->
  roots st = Some r ->
  entries_in_range (length r) (default [] (r_entry_field_records record)) ->
  (forall do_init,
      resolve_or_init_classes_for_subgraph_of renv k do_init st
      = Some (None, false, st))
  /\ (exists st',
         resolve_classes_for_subgraph_of renv k st = Some st'
         /\ (forall idx,
                idx ∈ root_indices (default [] (r_entry_field_records record)) ->
                roots_obj_at idx st' = Some null)
         /\ mirror_fields st' = mirror_fields st
         /\ loaded st' = loaded st
         /\ initialized st' = initialized st
         /\ initialize_from_archived_subgraph renv k st' = Some st').
Proof.
  intros Hreach Hs Hrec Hgate Hr Hin.
  assert (is_in_use renv = true) as Hu.
  { apply (rt_reachable_in_use renv st Hreach). rewrite Hr. by eexists. }
  split; [intros; by apply gate_rejects with record|].
  destruct (clear_roots_of_entries_spec renv
              (default [] (r_entry_field_records record)) Hu st r Hr Hin)
    as (r' & Hc & Hlen & Hcleared & _).
  exists (set_rt_roots (Some r') st).
  split; [|split; [|repeat split]].
  - unfold resolve_classes_for_subgraph_of.
    rewrite (gate_rejects k record false st Hs Hrec Hgate). simpl.
    unfold clear_archived_roots_of. rewrite Hrec.
    destruct (r_entry_field_records record) as [efr|]; simpl in *; [done|].
    rewrite <- Hc. done.
  - intros idx Hidx. unfold roots_obj_at. simpl.
    assert (0 <= idx) as Hge.
    { clear -Hin Hidx.
      induction Hin as [|off i rest Hi Hin IH]; simpl in Hidx.
      - by apply elem_of_nil in Hidx.
      - apply elem_of_cons in Hidx as [->|Hidx]; [lia|by apply IH]. }
    destruct (Z.ltb_spec idx 0); [lia|]. by apply Hcleared.
  - unfold initialize_from_archived_subgraph. rewrite Hu. simpl.
    by rewrite (gate_rejects k record true _ Hs Hrec Hgate).
Qed.

End Gates.

Lemma resolve_or_init_klasses_hook (renv : RunEnv) (b : bool)
    (klasses : list klass) (do_init : bool) (st : RunState) :
  resolve_or_init_klasses (with_class_file_load_hook b renv) klasses do_init st
  = resolve_or_init_klasses renv klasses do_init st.
Proof.
  revert st. induction klasses as [|k rest IH]; intros st; [done|].
  simpl. destruct (is_shared renv k); simpl; [|done].
  change (resolve_or_init (with_class_file_load_hook b renv) k do_init st)
    with (resolve_or_init renv k do_init st).
  destruct (resolve_or_init renv k do_init st) as [[[] st']|]; simpl; auto.
Qed.

(** C10.  A record frozen from a full-module-graph recording has
    [has_non_early_klasses] false, whatever was recorded; resolving it does
    not depend on the instrumentation-hook flag, and with the full module
    graph not loaded it is rejected. *)
Theorem full_module_graph_record_ignores_hook (info : KlassSubGraphInfo) :
  sg_is_full_module_graph info = true ->
  r_has_non_early_klasses (ArchivedKlassSubGraphInfoRecord_init info) = false
  /\ r_is_full_module_graph (ArchivedKlassSubGraphInfoRecord_init info) = true
  /\ (forall renv k b do_init st,
         run_time_subgraph_info_table renv !! k
         = Some (ArchivedKlassSubGraphInfoRecord_init info) ->
         resolve_or_init_classes_for_subgraph_of
           (with_class_file_load_hook b renv) k do_init st
         = resolve_or_init_classes_for_subgraph_of renv k do_init st)
  /\ (forall renv k do_init st,
         is_shared renv k = true ->
         run_time_subgraph_info_table renv !! k
         = Some (ArchivedKlassSubGraphInfoRecord_init info) ->
         is_loading_full_module_graph renv = false ->
         resolve_or_init_classes_for_subgraph_of renv k do_init st
         = Some (None, false, st)).
Proof.
  intros Hfmg.
  assert (r_has_non_early_klasses (ArchivedKlassSubGraphInfoRecord_init info)
          = false) as Hne.
  { unfold ArchivedKlassSubGraphInfoRecord_init. simpl. by rewrite Hfmg. }
  split; [exact Hne|]. split; [exact Hfmg|]. split.
  - intros renv k b do_init st Hrec.
    unfold resolve_or_init_classes_for_subgraph_of. simpl.
    destruct (is_shared renv k); simpl; [|done].
    rewrite Hrec, Hne. simpl.
    destruct (_ && _); [done|].
    destruct (if do_init && is_MethodType renv k then _ else _) as [st1|];
      simpl; [|done].
    change (resolve_or_init (with_class_file_load_hook b renv) k do_init st1)
      with (resolve_or_init renv k do_init st1).
    destruct (resolve_or_init renv k do_init st1) as [[[] st2]|]; simpl;
      [done| |done].
    destruct (sg_subgraph_object_klasses info); [|done].
    by rewrite resolve_or_init_klasses_hook.
  - intros renv k do_init st Hs Hrec Hload.
    apply gate_rejects with (ArchivedKlassSubGraphInfoRecord_init info);
      [done|done|]. left. done.
Qed.

(** Every record of the written table obeys the same rule. *)
Lemma written_full_module_graph_record_early (env : DumpEnv) (st : DumpState)
    (k : klass) (record : ArchivedKlassSubGraphInfoRecord) :
  write_subgraph_info_table env st !! k = Some record ->
  r_is_full_module_graph record = true ->
  r_has_non_early_klasses record = false.
Proof.
  unfold write_subgraph_info_table. revert k record.
  apply (map_fold_weak_ind
           (fun (t : gmap klass ArchivedKlassSubGraphInfoRecord)
                (_ : gmap klass KlassSubGraphInfo) =>
              forall k record, t !! k = Some record ->
                r_is_full_module_graph record = true ->
                r_has_non_early_klasses record = false)).
  - intros k record Hk. by rewrite lookup_empty in Hk.
  - intros j info m t Hj IH k record. unfold do_entry.
    destruct (_ || _); [|by apply IH].
    destruct (decide (get_buffered_klass env j = k)) as [<-|Hne].
    + rewrite lookup_insert_eq. intros [= <-]. simpl. by intros ->.
    + rewrite lookup_insert_ne by done. by apply IH.
Qed.

(** ** Permanent-index table *)

Lemma int32_small (z : Z) : - 2 ^ 31 <= z < 2 ^ 31 -> int32 z = z.
Proof.
  intros Hz. unfold int32.
  rewrite Z.mod_small by lia. lia.
Qed.

Lemma lor_shiftl_small (i j s : Z) :
  0 <= s -> 0 <= i -> 0 <= j < 2 ^ s ->
  Z.lor (Z.shiftl i s) j = i * 2 ^ s + j.
Proof.
  intros Hs Hi Hj.
  assert (Z.land (Z.shiftl i s) j = 0) as Hland.
  { apply Z.bits_inj'. intros n Hn.
    rewrite Z.land_spec, Z.bits_0.
    destruct (Z.lt_ge_cases n s) as [Hlt|Hge].
    - rewrite Z.shiftl_spec_low by lia. done.
    - rewrite andb_false_iff. right.
      destruct (Z.eq_dec j 0) as [->|Hj0]; [apply Z.bits_0|].
      assert (2 ^ s <= 2 ^ n) by (apply Z.pow_le_mono_r; lia).
      apply Z.bits_above_log2; [lia|].
      apply Z.log2_lt_pow2; lia. }
  rewrite <- Z.shiftl_mul_pow2 by lia.
  pose proof (Z.add_lor_land (Z.shiftl i s) j) as Hadd.
  rewrite Hland in Hadd. lia.
Qed.

Section PermanentIndex.

Variable renv : RunEnv.

Local Abbreviation SHIFT := (PERMOBJ_SEGMENT_MAX_SHIFT renv).

Lemma put_segment_lookup (obj : oop) (i : Z) (a : list oop) :
  forall (j0 : Z) (t : gmap oop Z),
    (obj ∉ a -> put_segment renv i j0 a t !! obj = t !! obj)
    /\ (obj ∈ a ->
        exists j : nat,
          a !! j = Some obj
          /\ put_segment renv i j0 a t !! obj
             = Some (int32 (int32 (Z.shiftl i SHIFT) + (j0 + Z.of_nat j)))).
Proof.
  induction a as [|o rest IH]; intros j0 t.
  - split; [done|]. intros H. by apply elem_of_nil in H.
  - simpl.
    destruct (IH (j0 + 1) (<[o := int32 (int32 (Z.shiftl i SHIFT) + j0)]> t))
      as [IHout IHin].
    destruct (decide (obj ∈ rest)) as [Hrest|Hrest].
    + split; [intros Hn; exfalso; apply Hn; by right|].
      intros _. destruct (IHin Hrest) as (j & Hj & Hl).
      exists (S j). split; [done|]. rewrite Hl.
      by replace (j0 + 1 + Z.of_nat j) with (j0 + Z.of_nat (S j)) by lia.
    + split.
      * intros Hn. rewrite IHout by done.
        apply lookup_insert_ne. intros ->. apply Hn. by left.
      * intros [->|Hin]%elem_of_cons; [|done].
        exists 0%nat. split; [done|]. rewrite IHout by done.
        rewrite lookup_insert_eq.
        by replace (j0 + Z.of_nat 0) with j0 by lia.
Qed.

Lemma put_segments_lookup (obj : oop) (r : list oop) (first : Z)
    (segs : list (list oop)) :
  forall (i : Z) (t : gmap oop Z),
    0 <= i + first ->
    (forall (m : nat) a, segs !! m = Some a ->
       exists seg, r !! Z.to_nat (i + Z.of_nat m + first) = Some seg
                   /\ obj_array renv seg = Some a) ->
    exists t',
      put_segments renv r first i (length segs) t = Some t'
      /\ ((forall a, a ∈ segs -> obj ∉ a) -> t' !! obj = t !! obj)
      /\ ((exists a, a ∈ segs /\ obj ∈ a) ->
          exists (m : nat) a (j : nat),
            segs !! m = Some a /\ a !! j = Some obj
            /\ t' !! obj
               = Some (int32 (int32 (Z.shiftl (i + Z.of_nat m) SHIFT)
                              + Z.of_nat j))).
Proof.
  induction segs as [|a rest IH]; intros i t Hi Hsegs.
  - exists t. split; [done|]. split; [done|].
    intros (a & Ha & _). by apply elem_of_nil in Ha.
  - simpl. destruct (Z.ltb_spec (i + first) 0); [lia|].
    destruct (Hsegs 0%nat a eq_refl) as (seg & Hseg & Harr).
    replace (i + Z.of_nat 0 + first) with (i + first) in Hseg by lia.
    rewrite Hseg. simpl. rewrite Harr. simpl.
    destruct (IH (i + 1) (put_segment renv i 0 a t)) as (t' & Ht' & Hout & Hin).
    { lia. }
    { intros m b Hm. destruct (Hsegs (S m) b Hm) as (s & Hs & Hb).
      exists s. split; [|done]. rewrite <- Hs. f_equal. lia. }
    exists t'. split; [done|].
    destruct (put_segment_lookup obj i a 0 t) as [Pout Pin].
    split.
    + intros Hnone. rewrite Hout.
      * apply Pout. apply Hnone. by left.
      * intros b Hb. apply Hnone. by right.
    + intros (b & Hb & Hobj).
      destruct (decide (Exists (fun c => obj ∈ c) rest))
        as [Hlater%Exists_exists|Hlater].
      * destruct (Hin Hlater) as (m & c & j & Hm & Hj & Hl).
        exists (S m), c, j. split; [done|]. split; [done|].
        rewrite Hl.
        by replace (i + Z.of_nat (S m)) with (i + 1 + Z.of_nat m) by lia.
      * assert (obj ∈ a) as Ha.
        { apply elem_of_cons in Hb as [->|Hb]; [done|].
          exfalso. apply Hlater, Exists_exists. eauto. }
        destruct (Pin Ha) as (j & Hj & Hl).
        exists 0%nat, a, j. split; [done|]. split; [done|].
        rewrite Hout.
        -- rewrite Hl.
           replace (i + Z.of_nat 0) with i by lia.
           by replace (0 + Z.of_nat j) with (Z.of_nat j) by lia.
        -- intros c Hc Hobjc. apply Hlater, Exists_exists. eauto.
Qed.

Lemma index_decompose (m j s : Z) :
  0 <= s -> 0 <= m -> 0 <= j < 2 ^ s ->
  Z.shiftr (m * 2 ^ s + j) s = m /\ Z.land (m * 2 ^ s + j) (2 ^ s - 1) = j.
Proof.
  intros Hs Hm Hj. split.
  - rewrite Z.shiftr_div_pow2 by lia.
    rewrite Z.div_add_l by lia. rewrite Z.div_small by lia. lia.
  - replace (2 ^ s - 1) with (Z.ones s) by (rewrite Z.ones_equiv; lia).
    rewrite Z.land_ones by lia.
    rewrite Z.add_comm, Z.mod_add by lia. apply Z.mod_small. lia.
Qed.

Lemma layout_index_value (r : list oop) (segs : list (list oop))
    (m j : nat) (a : list oop) :
  permobj_layout renv r segs ->
  segs !! m = Some a -> (j < length a)%nat ->
  int32 (int32 (Z.shiftl (0 + Z.of_nat m) SHIFT) + Z.of_nat j)
  = Z.of_nat m * 2 ^ SHIFT + Z.of_nat j
  /\ 0 <= Z.of_nat j < 2 ^ SHIFT.
Proof.
  intros (Hs & _ & _ & _ & Harr & Hfit) Hm Hj.
  destruct (Harr m a Hm) as (_ & _ & _ & Hlen).
  apply lookup_lt_Some in Hm.
  assert (0 < 2 ^ SHIFT) by (apply Z.pow_pos_nonneg; lia).
  assert ((Z.of_nat m + 1) * 2 ^ SHIFT <= Z.of_nat (length segs) * 2 ^ SHIFT)
    by (apply Z.mul_le_mono_nonneg_r; lia).
  replace (0 + Z.of_nat m) with (Z.of_nat m) by lia.
  rewrite Z.shiftl_mul_pow2 by lia.
  rewrite (int32_small (Z.of_nat m * 2 ^ SHIFT)) by nia.
  rewrite int32_small by nia. lia.
Qed.

Lemma set_permanent_index_table_same (t : gmap oop Z) (st : RunState) :
  permanent_index_table st = Some t -> set_permanent_index_table t st = st.
Proof. destruct st. simpl. by intros ->. Qed.

(** C8.  In every state the engine reaches, whether the permanent-index
    table is still to be built or was built by an earlier call, on any
    object: the permanent index of an object held in a segment of the tail of
    the root table is [(block << SHIFT) | offset] for a position holding the
    object, [get_archived_object] maps that index back to the object, and an
    object held in no segment has index -1.  The call leaves the root table
    as it is and a table built from it, so that the same holds of every
    later call, which changes nothing any more. *)
Theorem permanent_index_round_trip (st : RunState) (r : list oop)
    (segs : list (list oop)) (obj : oop) :
  rt_reachable renv st ->
  roots st = Some r ->
  permanent_index_table_built renv st ->
  permobj_layout renv r segs ->
  exists n st',
    get_archived_object_permanent_index renv obj st = Some (n, st')
    /\ roots st' = Some r
    /\ permanent_index_table_built renv st'
    /\ (segs <> [] -> is_Some (permanent_index_table st'))
    /\ (is_Some (permanent_index_table st) -> st' = st)
    /\ (forall obj',
          exists n',
            get_archived_object_permanent_index renv obj' st'
            = Some (n', st'))
    /\ get_archived_object_permanent_index renv obj st' = Some (n, st')
    /\ ((exists a, a ∈ segs /\ obj ∈ a) ->
        (exists (i j : nat) a,
            segs !! i = Some a /\ a !! j = Some obj
            /\ n = Z.lor (Z.shiftl (Z.of_nat i) SHIFT) (Z.of_nat j))
        /\ get_archived_object renv n st' = Some obj)
    /\ ((forall a, a ∈ segs -> obj ∉ a) -> n = -1).
Proof.
  intros Hreach Hr Hbuilt Hlay.
  assert (is_in_use renv = true) as Hu.
  { apply (rt_reachable_in_use renv st Hreach). rewrite Hr. by eexists. }
  pose proof Hlay as (Hs & Hmask & Hn & Hle & Harr & Hfit).
  destruct (decide (segs = [])) as [->|Hne].
  { exists (-1), st. unfold get_archived_object_permanent_index.
    simpl in Hn. rewrite Hn. simpl.
    split; [done|]. split; [done|]. split; [done|]. split; [done|].
    split; [done|]. split; [by exists (-1)|]. split; [done|].
    split; [|done]. intros (a & Ha & _). by apply elem_of_nil in Ha. }
  assert (0 < Z.of_nat (length segs)) as Hpos
    by (destruct segs; [done|simpl; lia]).
  set (first := Z.of_nat (length r) - permobj_segments renv).
  destruct (put_segments_lookup obj r first segs 0 ∅) as (t & Hput & Hout & Hin).
  { unfold first. lia. }
  { intros m a Hm. destruct (Harr m a Hm) as (seg & Hseg & Ha & _).
    exists seg. split; [|done]. rewrite <- Hseg. f_equal.
    unfold first. lia. }
  assert (put_segments renv r first 0 (Z.to_nat (permobj_segments renv)) ∅
          = Some t) as Hput'
    by (by rewrite Hn, Nat2Z.id).
  assert (forall t0, permanent_index_table st = Some t0 -> t0 = t) as Hsame.
  { intros t0 Ht0. destruct (Hbuilt t0 Ht0) as (r0 & Hr0 & Hput0).
    rewrite Hr in Hr0. injection Hr0 as <-. fold first in Hput0. congruence. }
  set (st' := set_permanent_index_table t st).
  assert (forall o,
            get_archived_object_permanent_index renv o st
            = Some (match t !! o with Some n => n | None => -1 end, st'))
    as Hcall.
  { intros o. unfold get_archived_object_permanent_index.
    destruct (Z.leb_spec (permobj_segments renv) 0); [lia|].
    rewrite Hr. cbn [mbind option_bind]. fold first.
    destruct (permanent_index_table st) as [t0|] eqn:Ht0.
    - rewrite (Hsame t0 eq_refl). done.
    - rewrite Hput'. done. }
  assert (forall o,
            get_archived_object_permanent_index renv o st'
            = Some (match t !! o with Some n => n | None => -1 end, st'))
    as Hcall'.
  { intros o. unfold get_archived_object_permanent_index.
    destruct (Z.leb_spec (permobj_segments renv) 0); [lia|].
    cbn [roots permanent_index_table set_permanent_index_table st'].
    rewrite Hr. done. }
  exists (match t !! obj with Some n => n | None => -1 end), st'.
  split; [by apply Hcall|]. split; [done|]. split.
  { intros t0 [= <-]. exists r. split; [done|]. exact Hput'. }
  split; [intros _; by eexists|]. split.
  { intros [t0 Ht0]. unfold st'. rewrite <- (Hsame t0 Ht0).
    by apply set_permanent_index_table_same. }
  split; [intros o; eexists; by apply Hcall'|].
  split; [by apply Hcall'|]. split.
  - intros Hex. destruct (Hin Hex) as (m & a & j & Hm & Hj & Hl).
    rewrite Hl.
    destruct (layout_index_value r segs m j a Hlay Hm
                (lookup_lt_Some _ _ _ Hj)) as [Hval Hjs].
    rewrite Hval. split.
    + exists m, j, a. split; [done|]. split; [done|].
      symmetry. apply lor_shiftl_small; lia.
    + unfold get_archived_object. rewrite Hu.
      destruct (Z.leb_spec (permobj_segments renv) 0); [lia|].
      cbn [negb roots set_permanent_index_table st'].
      rewrite Hr. cbn [mbind option_bind].
      destruct (index_decompose (Z.of_nat m) (Z.of_nat j) SHIFT)
        as [Hup Hlow]; [lia|lia|lia|].
      rewrite Hmask, Hup, Hlow.
      unfold roots_obj_at. cbn [roots set_permanent_index_table st'].
      rewrite Hr. cbn [mbind option_bind].
      destruct (Harr m a Hm) as (seg & Hseg & Ha & _).
      apply lookup_lt_Some in Hm.
      destruct (Z.ltb_spec (Z.of_nat m + (Z.of_nat (length r)
                                          - permobj_segments renv)) 0);
        [lia|].
      replace (Z.to_nat (Z.of_nat m + (Z.of_nat (length r)
                                       - permobj_segments renv)))
        with (length r - length segs + m)%nat by lia.
      rewrite Hseg. cbn [mbind option_bind]. rewrite Ha.
      cbn [mbind option_bind]. by rewrite Nat2Z.id.
  - intros Hnone. rewrite (Hout Hnone), lookup_empty. done.
Qed.

End PermanentIndex.

(** ** Identity cache *)

Section IdentityCache.

Variable env : DumpEnv.

Lemma has_been_archived_true (obj : oop) (st : DumpState) :
  has_been_archived obj st = true <-> obj ∈ dom (archived_object_cache st).
Proof.
  unfold has_been_archived. rewrite bool_decide_eq_true. by rewrite elem_of_dom.
Qed.

Lemma has_been_archived_false (obj : oop) (st : DumpState) :
  has_been_archived obj st = false <-> archived_object_cache st !! obj = None.
Proof.
  unfold has_been_archived. rewrite bool_decide_eq_false.
  by rewrite eq_None_not_Some.
Qed.

Lemma count_allocation_frame (size : Z) (st : DumpState) :
  exists cnt sz ac asz,
    count_allocation env size st = set_alloc_stats cnt sz ac asz st.
Proof.
  unfold count_allocation. destruct (alloc_stat_slot _ _ _); eauto.
Qed.

Lemma identity_hash_frame (obj : oop) (st : DumpState) :
  exists m seed, snd (identity_hash env obj st) = set_hash m seed st
                 /\ m !! obj = Some (fst (identity_hash env obj st)).
Proof.
  unfold identity_hash. destruct (mark_hash st !! obj) as [h|] eqn:Hh; simpl.
  - exists (mark_hash st), (hash_seed st). split; [by destruct st|done].
  - eexists _, _. split; [done|]. by rewrite lookup_insert_eq.
Qed.

(** What [archive_object] can return. *)
Lemma archive_object_inv (obj : oop) (st : DumpState) (b : bool)
    (st' : DumpState) :
  archive_object env obj st = Ret b st' ->
  exists od,
    heap env !! obj = Some od /\ o_is_stackChunk od = false
    /\ ((has_been_archived obj st = true /\ b = true /\ st' = st)
        \/ (has_been_archived obj st = false
            /\ is_too_large_to_archive env (o_size od) = true
            /\ b = false /\ st' = st)
        \/ (has_been_archived obj st = false
            /\ is_too_large_to_archive env (o_size od) = false
            /\ b = true /\ st' = archived_state env obj od st)).
Proof.
  unfold archive_object.
  destruct (heap env !! obj) as [od|]; [|done].
  destruct (o_is_stackChunk od) eqn:Hsc; [done|].
  intros H. exists od. split; [done|]. split; [done|].
  destruct (has_been_archived obj st) eqn:Ha.
  { injection H as <- <-. by left. }
  destruct (is_too_large_to_archive env (o_size od)) eqn:Hl.
  { injection H as <- <-. right. by left. }
  injection H as <- <-. right. right. done.
Qed.

Lemma archived_state_frame (obj : oop) (od : ObjDesc) (st : DumpState) :
  seen_objects_table (archived_state env obj od st) = seen_objects_table st
  /\ num_new_walked_objs (archived_state env obj od st) = num_new_walked_objs st
  /\ num_new_archived_objs (archived_state env obj od st)
     = num_new_archived_objs st
  /\ walker_current (archived_state env obj od st) = walker_current st
  /\ dump_time_subgraph_info_table (archived_state env obj od st)
     = dump_time_subgraph_info_table st
  /\ archived_object_cache (archived_state env obj od st)
     = <[obj := make_cached_oop_info st]> (archived_object_cache st)
  /\ source_objs (archived_state env obj od st) = source_objs st ++ [obj]
  /\ mark_hash (archived_state env obj od st)
     = mark_hash (snd (identity_hash env obj st)).
Proof.
  unfold archived_state.
  destruct (count_allocation_frame (o_size od) st)
    as (cnt & sz & ac & asz & ->).
  unfold identity_hash, make_cached_oop_info. simpl.
  destruct (mark_hash st !! obj); destruct (o_archived_module od); simpl;
    repeat split; reflexivity.
Qed.

(** C2.  After a successful [archive_object(obj)] the object is in the
    identity cache, a second call returns the same success value and leaves
    every table as it is, and the first call added at most the one entry
    for [obj]. *)
Theorem archive_object_idempotent (obj : oop) (st st1 : DumpState) :
  archive_object env obj st = Ret true st1 ->
  archive_object env obj st1 = Ret true st1
  /\ has_been_archived obj st1 = true
  /\ size (archived_object_cache st1)
     = (if has_been_archived obj st then size (archived_object_cache st)
        else S (size (archived_object_cache st)))
  /\ NoDup (fst <$> map_to_list (archived_object_cache st1)).
Proof.
  intros H.
  destruct (archive_object_inv obj st true st1 H)
    as (od & Hod & Hsc & [(Ha & _ & ->)|[(_ & _ & [=] & _)|(Ha & Hl & _ & ->)]]).
  - split; [done|]. split; [done|]. rewrite Ha. split; [done|].
    apply NoDup_fst_map_to_list.
  - destruct (archived_state_frame obj od st)
      as (_ & _ & _ & _ & _ & Hc & _).
    assert (has_been_archived obj (archived_state env obj od st) = true) as Ha'.
    { apply has_been_archived_true. rewrite Hc. set_solver. }
    split; [|split; [done|split]].
    + unfold archive_object. by rewrite Hod, Hsc, Ha'.
    + rewrite Ha, Hc. apply map_size_insert_None.
      by apply has_been_archived_false.
    + apply NoDup_fst_map_to_list.
Qed.

End IdentityCache.

(** ** Graph walker *)

Section Walker.

Variable env : DumpEnv.

Lemma info_kept_refl (i : KlassSubGraphInfo) : info_kept i i.
Proof. done. Qed.

Lemma info_kept_trans (i1 i2 i3 : KlassSubGraphInfo) :
  info_kept i1 i2 -> info_kept i2 i3 -> info_kept i1 i3.
Proof.
  intros (A1 & A2 & A3) (B1 & B2 & B3). repeat split; congruence.
Qed.

Lemma walk_inv_refl (st : DumpState) : walk_inv st st.
Proof.
  repeat split; try done. intros k i Hk. exists i. split; [done|].
  apply info_kept_refl.
Qed.

Lemma walk_inv_trans (st1 st2 st3 : DumpState) :
  walk_inv st1 st2 -> walk_inv st2 st3 -> walk_inv st1 st3.
Proof.
  intros (A1 & A2 & A3 & A4 & A5 & A6 & A7) (B1 & B2 & B3 & B4 & B5 & B6 & B7).
  repeat split.
  - by etrans.
  - by etrans.
  - lia.
  - intros k i Hk. destruct (A4 k i Hk) as (i2 & Hk2 & Hi2).
    destruct (B4 k i2 Hk2) as (i3 & Hk3 & Hi3).
    exists i3. split; [done|]. by apply info_kept_trans with i2.
  - by etrans.
  - by etrans.
  - by etrans.
Qed.

Lemma walk_ok_refl (st : DumpState) : walk_ok env st st.
Proof.
  split; [apply walk_inv_refl|]. split; [done|]. intros o Ho Hn. done.
Qed.

Lemma walk_ok_trans (st1 st2 st3 : DumpState) :
  walk_ok env st1 st2 -> walk_ok env st2 st3 -> walk_ok env st1 st3.
Proof.
  intros (A & Ac & Anew) (B & Bc & Bnew).
  split; [by apply walk_inv_trans with st2|]. split; [lia|].
  intros o Ho Hn.
  destruct (decide (o ∈ seen_objects_table st2)) as [Ho2|Ho2].
  - destruct (Anew o Ho2 Hn) as [Hc Hq]. split.
    + destruct B as (_ & B2 & _). by apply (elem_of_weaken _ _ _ Hc).
    + intros q Hedge. destruct B as (B1 & _).
      by apply (elem_of_weaken _ _ _ (Hq q Hedge)).
  - by apply Bnew.
Qed.

Lemma walk_ok_inv (st st' : DumpState) : walk_ok env st st' -> walk_inv st st'.
Proof. by intros [H _]. Qed.

(** A step that leaves the seen table and the cache alone. *)
Lemma walk_ok_same_tables (st st' : DumpState) :
  walk_inv st st' ->
  seen_objects_table st' = seen_objects_table st ->
  archived_object_cache st' = archived_object_cache st ->
  num_new_archived_objs st' = num_new_archived_objs st ->
  walk_ok env st st'.
Proof.
  intros Hinv Hs Hc Hn. split; [done|]. split; [by rewrite Hc, Hn|].
  intros o Ho Hno. by rewrite Hs in Ho.
Qed.

Lemma set_infos_inv (st : DumpState) (k : klass) (i i' : KlassSubGraphInfo) :
  dump_time_subgraph_info_table st !! k = Some i ->
  info_kept i i' ->
  walk_inv st (set_infos (fun t => <[k := i']> t) st).
Proof.
  intros Hk Hkept. repeat split; try done. simpl.
  intros j ij Hj. destruct (decide (k = j)) as [<-|Hne].
  - exists i'. rewrite lookup_insert_eq. split; [done|]. congruence.
  - exists ij. rewrite lookup_insert_ne by done. split; [done|].
    apply info_kept_refl.
Qed.

Lemma add_subgraph_object_klass_ok (subgraph_info orig_k : klass)
    (st : DumpState) (u : unit) (st' : DumpState) :
  add_subgraph_object_klass env subgraph_info orig_k st = Ret u st' ->
  walk_ok env st st'.
Proof.
  unfold add_subgraph_object_klass, get_subgraph_info.
  destruct (dump_time_subgraph_info_table st !! subgraph_info) as [info|] eqn:Hi;
    [|done].
  intros H.
  assert (exists ks ne,
             st' = set_infos
                     (fun t => <[subgraph_info :=
                        {| sg_k := sg_k info;
                           sg_subgraph_object_klasses := Some ks;
                           sg_subgraph_entry_fields := sg_subgraph_entry_fields info;
                           sg_is_full_module_graph := sg_is_full_module_graph info;
                           sg_has_non_early_klasses := ne |}]> t) st)
    as (ks & ne & ->).
  { repeat case_match; try discriminate; injection H as <-; eauto. }
  apply walk_ok_same_tables; try done.
  by apply set_infos_inv with info.
Qed.

Lemma set_has_been_seen_inv (obj : oop) (st : DumpState) :
  obj ∉ seen_objects_table st ->
  walk_inv st (set_has_been_seen_during_subgraph_recording obj st).
Proof.
  intros Hn. repeat split; try done; simpl.
  - set_solver.
  - rewrite size_union by set_solver. rewrite size_singleton. lia.
  - intros k i Hk. exists i. split; [done|]. apply info_kept_refl.
Qed.

Lemma identity_hash_inv (obj : oop) (st : DumpState) :
  mark_hash st ⊆ mark_hash (snd (identity_hash env obj st)).
Proof.
  unfold identity_hash. destruct (mark_hash st !! obj) eqn:Hh; simpl; [done|].
  by apply insert_subseteq.
Qed.

Lemma archived_state_inv_seen (obj : oop) (od : ObjDesc) (st : DumpState) :
  seen_objects_table (archived_state env obj od st) = seen_objects_table st.
Proof. by destruct (archived_state_frame env obj od st) as (Hs & _). Qed.

Lemma archived_state_inv (obj : oop) (od : ObjDesc) (st : DumpState) :
  archived_object_cache st !! obj = None ->
  walk_inv st (archived_state env obj od st)
  /\ size (archived_object_cache (archived_state env obj od st))
     = S (size (archived_object_cache st))
  /\ num_new_archived_objs (archived_state env obj od st)
     = num_new_archived_objs st
  /\ seen_objects_table (archived_state env obj od st) = seen_objects_table st
  /\ obj ∈ dom (archived_object_cache (archived_state env obj od st)).
Proof.
  intros Hnone.
  destruct (archived_state_frame env obj od st)
    as (Hs & Hw & Ha & _ & Hi & Hc & Hsrc & Hh).
  split; [|split; [|split; [done|split; [done|]]]].
  - repeat split.
    + by rewrite Hs.
    + rewrite Hc, dom_insert_L. apply union_subseteq_r.
    + by rewrite Hs, Hw.
    + intros k i Hk. exists i. rewrite Hi. split; [done|]. apply info_kept_refl.
    + unfold archived_state.
      destruct (count_allocation_frame env (o_size od) st)
        as (cnt & sz & ac & asz & ->).
      unfold identity_hash. simpl.
      destruct (mark_hash st !! obj); destruct (o_archived_module od); simpl;
        try done; by apply prefix_app_r.
    + rewrite Hsrc. by apply prefix_app_r.
    + rewrite Hh. apply identity_hash_inv.
  - rewrite Hc. by apply map_size_insert_None.
  - rewrite Hc, dom_insert_L. apply elem_of_union_l. by apply elem_of_singleton.
Qed.

Lemma is_null_false (p : oop) : is_null p = false <-> p <> null.
Proof. unfold is_null. apply Nat.eqb_neq. Qed.

Lemma oop_iterate_spec (W : oop -> DumpState -> outcome bool) :
  walker_spec env W ->
  forall (refs : list oop) (st : DumpState) (u : unit) (st' : DumpState),
    oop_iterate W refs st = Ret u st' ->
    walk_ok env st st'
    /\ forall p, p ∈ refs -> p <> null ->
                 walked_object env p ∈ seen_objects_table st'.
Proof.
  intros HW refs. induction refs as [|p rest IH]; intros st u st' H.
  - injection H as _ <-. split; [apply walk_ok_refl|].
    intros p Hp. by apply elem_of_nil in Hp.
  - simpl in H. destruct (is_null p) eqn:Hp.
    + destruct (IH st u st' H) as [Hok Hin]. split; [done|].
      intros q [->|Hq]%elem_of_cons Hnn; [|by apply Hin].
      apply is_null_false in Hnn. congruence.
    + destruct (W p st) as [b st1| | |] eqn:HWp; try done. simpl in H.
      destruct b; [|done].
      destruct (HW p st true st1 HWp) as [_ Hp1].
      destruct (Hp1 eq_refl) as [Hok1 Hseen1].
      destruct (IH st1 u st' H) as [Hok Hin].
      split; [by apply walk_ok_trans with st1|].
      intros q [->|Hq]%elem_of_cons Hnn; [|by apply Hin].
      destruct Hok as ((Hsub & _) & _).
      by apply (elem_of_weaken _ _ _ Hseen1).
Qed.

Lemma walked_object_eq (orig : oop) (od0 : ObjDesc) :
  heap env !! orig = Some od0 ->
  walked_object env orig
  = match o_mirror od0 with
    | Some m => scratch_java_mirror env orig m
    | None => orig
    end.
Proof. intros H. unfold walked_object. by rewrite H. Qed.

Lemma archive_reachable_objects_from_body_spec
    (W : oop -> DumpState -> outcome bool) (level : Z) (info : klass) :
  walker_spec env W ->
  walker_spec env (archive_reachable_objects_from_body env W level info).
Proof.
  intros HW orig st b st'. unfold archive_reachable_objects_from_body.
  destruct (is_null orig); [done|].
  destruct (heap env !! orig) as [od0|] eqn:Hod0; [|done].
  destruct (negb (o_supported od0)); [done|].
  rewrite (walked_object_eq orig od0 Hod0).
  set (obj := match o_mirror od0 with
              | Some m => scratch_java_mirror env orig m
              | None => orig
              end).
  destruct (is_null obj); [done|].
  destruct (heap env !! obj) as [od|] eqn:Hod; [|done].
  unfold has_been_seen_during_subgraph_recording.
  destruct (bool_decide (obj ∈ seen_objects_table st)) eqn:Hseen.
  { intros [= <- <-]. split; [apply walk_inv_refl|]. intros _.
    split; [apply walk_ok_refl|]. by apply bool_decide_eq_true in Hseen. }
  apply bool_decide_eq_false in Hseen.
  set (st1 := set_has_been_seen_during_subgraph_recording obj st).
  pose proof (set_has_been_seen_inv obj st Hseen) as Hinv1. fold st1 in Hinv1.
  match goal with |- bind _ ?f = _ -> _ => set (cont := f) end.
  assert (forall st2,
             walk_inv st st2 ->
             seen_objects_table st2 = {[obj]} ∪ seen_objects_table st ->
             obj ∈ dom (archived_object_cache st2) ->
             num_new_archived_objs st2
             - Z.of_nat (size (archived_object_cache st2))
             = num_new_archived_objs st
               - Z.of_nat (size (archived_object_cache st)) ->
             cont true st2 = Ret b st' ->
             walk_inv st st'
             /\ (b = true ->
                 walk_ok env st st' /\ obj ∈ seen_objects_table st'))
    as Hcont.
  { intros st2 Hinv2 Hseen2 Hc2 Hn2. unfold cont. simpl.
    destruct (add_subgraph_object_klass env info (o_klass od) st2)
      as [u st3| | |] eqn:Hadd; try done. simpl.
    pose proof (add_subgraph_object_klass_ok info (o_klass od) st2 u st3 Hadd)
      as Hok3.
    destruct (oop_iterate W (o_refs od) (set_walker (Some obj) st3))
      as [u4 st4| | |] eqn:Hit; try done. simpl.
    destruct (oop_iterate_spec W HW _ _ _ _ Hit) as [Hok4 Hrefs].
    destruct (match o_enum_refs od with
              | Some constants => handle_enum_obj W constants st4
              | None => Ret tt st4
              end) as [u5 st5| | |] eqn:Henum; try done. simpl.
    intros [= <- <-].
    assert (oop_iterate W (default [] (o_enum_refs od)) st4 = Ret u5 st5)
      as Hit5.
    { destruct (o_enum_refs od); simpl; [done|]. by destruct u5. }
    destruct (oop_iterate_spec W HW _ _ _ _ Hit5) as [Hok5 Henums].
    assert (walk_ok env st2 st5) as Hok25.
    { apply walk_ok_trans with st3; [done|].
      apply walk_ok_trans with st4; [exact Hok4|exact Hok5]. }
    pose proof Hok25 as (Hinv25 & Hcnt25 & Hnew25).
    pose proof Hinv25 as (Hsub25 & Hdom25 & _).
    assert (walk_inv st st5) as Hinv5 by (by apply walk_inv_trans with st2).
    split; [exact Hinv5|]. intros _. split.
    - split; [exact Hinv5|]. split; [simpl in *; lia|].
      simpl. intros o Ho Hno.
      destruct (decide (o = obj)) as [->|Hne].
      + split; [by apply (elem_of_weaken _ _ _ Hc2)|].
        intros q (od' & p & Hod' & Hp & Hnn & ->).
        rewrite Hod in Hod'. injection Hod' as <-.
        unfold out_refs in Hp. apply elem_of_app in Hp as [Hp|Hp].
        * destruct Hok5 as ((Hsub45 & _) & _).
          by apply (elem_of_weaken _ _ _ (Hrefs p Hp Hnn)).
        * by apply Henums.
      + apply Hnew25; [done|]. rewrite Hseen2.
        by intros [?%elem_of_singleton|?]%elem_of_union.
    - simpl. apply Hsub25. rewrite Hseen2.
      by apply elem_of_union_l, elem_of_singleton. }
  destruct (has_been_archived obj st1) eqn:Harch.
  { simpl. apply Hcont; try done.
    by apply has_been_archived_true in Harch. }
  set (st1' := set_session_counters (num_new_walked_objs st1)
                 (num_new_archived_objs st1 + 1) st1).
  destruct (archive_object env obj st1') as [ok st2| | |] eqn:Hao; try done.
  destruct (archive_object_inv env obj st1' ok st2 Hao)
    as (od' & Hod' & _ & [(Ha & _)|[(_ & _ & -> & ->)|(Ha & _ & -> & ->)]]).
  - change (has_been_archived obj st1 = true) in Ha. congruence.
  - simpl. destruct (level =? 1); [|done]. simpl.
    intros [= <- <-]. split; [exact Hinv1|]. done.
  - simpl. rewrite Hod in Hod'. injection Hod' as <-.
    apply has_been_archived_false in Ha.
    destruct (archived_state_inv obj od st1' Ha)
      as (Hinv2 & Hsz & Hn & Hs & Hc).
    apply Hcont; try done.
    + apply walk_inv_trans with st1'; [exact Hinv1|exact Hinv2].
    + simpl in *. lia.
Qed.

Lemma archive_reachable_objects_from_spec (fuel : nat) :
  forall level info,
    walker_spec env (archive_reachable_objects_from env fuel level info).
Proof.
  induction fuel as [|fuel IH]; intros level info.
  - intros p st b st' H. done.
  - simpl. apply archive_reachable_objects_from_body_spec. apply IH.
Qed.

(** *** Termination *)

Lemma unseen_mono (st st' : DumpState) :
  seen_objects_table st ⊆ seen_objects_table st' ->
  (unseen env st' <= unseen env st)%nat.
Proof.
  intros Hsub. unfold unseen. apply subseteq_size.
  intros x [Hx Hn]%elem_of_difference. apply elem_of_difference.
  split; [done|]. intros Hx'. apply Hn. by apply Hsub.
Qed.

Lemma unseen_inv (st st' : DumpState) :
  walk_inv st st' -> (unseen env st' <= unseen env st)%nat.
Proof. intros (Hsub & _). by apply unseen_mono. Qed.

Lemma unseen_mark (obj : oop) (od : ObjDesc) (st : DumpState) :
  heap env !! obj = Some od ->
  obj ∉ seen_objects_table st ->
  (unseen env (set_has_been_seen_during_subgraph_recording obj st)
   < unseen env st)%nat.
Proof.
  intros Hod Hn. unfold unseen. simpl. apply subset_size. split.
  - intros x [Hx Hnx]%elem_of_difference. apply elem_of_difference.
    split; [done|]. intros Hx'. apply Hnx. by apply elem_of_union_r.
  - intros Hsub.
    assert (obj ∈ dom (heap env) ∖ seen_objects_table st) as Hobj.
    { apply elem_of_difference. split; [|done]. apply elem_of_dom. eauto. }
    apply Hsub in Hobj. apply elem_of_difference in Hobj as [_ Hobj].
    apply Hobj. by apply elem_of_union_l, elem_of_singleton.
Qed.

Lemma unseen_bound (st : DumpState) : (unseen env st < walk_bound env)%nat.
Proof.
  unfold unseen, walk_bound. rewrite <- (size_dom (heap env)).
  apply Nat.lt_succ_r, subseteq_size.
  by intros x [Hx _]%elem_of_difference.
Qed.

Lemma add_subgraph_object_klass_fuel (info orig_k : klass) (st : DumpState) :
  add_subgraph_object_klass env info orig_k st <> OutOfFuel.
Proof. unfold add_subgraph_object_klass. repeat case_match; done. Qed.

Lemma archive_object_fuel (obj : oop) (st : DumpState) :
  archive_object env obj st <> OutOfFuel.
Proof. unfold archive_object. repeat case_match; done. Qed.

Lemma walker_spec_grows (W : oop -> DumpState -> outcome bool) :
  walker_spec env W -> grows_seen W.
Proof. intros HW p st b st' H. by destruct (HW p st b st' H) as [(Hsub & _) _]. Qed.

Lemma oop_iterate_grows (W : oop -> DumpState -> outcome bool) :
  grows_seen W ->
  forall (refs : list oop) (st : DumpState) (u : unit) (st' : DumpState),
    oop_iterate W refs st = Ret u st' ->
    seen_objects_table st ⊆ seen_objects_table st'.
Proof.
  intros HW refs. induction refs as [|p rest IH]; intros st u st' H.
  - by injection H as _ <-.
  - simpl in H. destruct (is_null p); [by apply (IH st u)|].
    destruct (W p st) as [b st1| | |] eqn:HWp; try done. simpl in H.
    destruct b; [|done]. etrans; [by apply (HW p st true st1)|].
    by apply (IH st1 u).
Qed.

Lemma oop_iterate_total (W : oop -> DumpState -> outcome bool) (n : nat) :
  grows_seen W ->
  (forall p st, (unseen env st < n)%nat -> W p st <> OutOfFuel) ->
  forall (refs : list oop) (st : DumpState),
    (unseen env st < n)%nat -> oop_iterate W refs st <> OutOfFuel.
Proof.
  intros HW Htot refs. induction refs as [|p rest IH]; intros st Hn; [done|].
  simpl. destruct (is_null p); [by apply IH|].
  destruct (W p st) as [b st1| | |] eqn:HWp; simpl; try done.
  - destruct b; [|done]. apply IH.
    pose proof (unseen_mono st st1 (HW p st true st1 HWp)). lia.
  - by apply Htot in HWp.
Qed.

Lemma archive_reachable_objects_from_body_total
    (W : oop -> DumpState -> outcome bool) (n : nat) (level : Z)
    (info : klass) (orig : oop) (st : DumpState) :
  walker_spec env W ->
  (forall p st, (unseen env st < n)%nat -> W p st <> OutOfFuel) ->
  (unseen env st < S n)%nat ->
  archive_reachable_objects_from_body env W level info orig st <> OutOfFuel.
Proof.
  intros HW Htot Hn. unfold archive_reachable_objects_from_body.
  destruct (is_null orig); [done|].
  destruct (heap env !! orig) as [od0|]; [|done].
  destruct (negb (o_supported od0)); [done|].
  set (obj := match o_mirror od0 with
              | Some m => scratch_java_mirror env orig m
              | None => orig
              end).
  destruct (is_null obj); [done|].
  destruct (heap env !! obj) as [od|] eqn:Hod; [|done].
  unfold has_been_seen_during_subgraph_recording.
  destruct (bool_decide (obj ∈ seen_objects_table st)) eqn:Hseen; [done|].
  apply bool_decide_eq_false in Hseen.
  set (st1 := set_has_been_seen_during_subgraph_recording obj st).
  pose proof (unseen_mark obj od st Hod Hseen) as Hlt. fold st1 in Hlt.
  match goal with |- bind _ ?f <> _ => set (cont := f) end.
  assert (forall st2,
             seen_objects_table st2 = seen_objects_table st1 ->
             cont true st2 <> OutOfFuel) as Hcont.
  { intros st2 Hs2. unfold cont. simpl.
    destruct (add_subgraph_object_klass env info (o_klass od) st2)
      as [u st3| | |] eqn:Hadd; try done;
      [|by apply add_subgraph_object_klass_fuel in Hadd].
    simpl.
    destruct (add_subgraph_object_klass_ok info (o_klass od) st2 u st3 Hadd)
      as (Hinv3 & _).
    pose proof (unseen_inv st2 st3 Hinv3) as H3.
    assert (unseen env st2 = unseen env st1) as H21
      by (unfold unseen; by rewrite Hs2).
    destruct (oop_iterate W (o_refs od) (set_walker (Some obj) st3))
      as [u4 st4| | |] eqn:Hit; simpl; try done.
    - destruct (oop_iterate_spec W HW _ _ _ _ Hit) as [(Hinv4 & _) _].
      pose proof (unseen_inv _ _ Hinv4) as H4.
      change (unseen env (set_walker (Some obj) st3)) with (unseen env st3)
        in H4.
      assert (oop_iterate W (default [] (o_enum_refs od)) st4 <> OutOfFuel)
        as Henum
          by (apply (oop_iterate_total W n (walker_spec_grows W HW) Htot); lia).
      destruct (o_enum_refs od) as [constants|]; simpl in *; [|done].
      unfold handle_enum_obj.
      destruct (oop_iterate W constants st4); simpl; done.
    - apply (oop_iterate_total W n (walker_spec_grows W HW) Htot) in Hit;
        [done|].
      change (unseen env (set_walker (Some obj) st3)) with (unseen env st3).
      lia. }
  destruct (has_been_archived obj st1); [by apply Hcont|].
  set (st1' := set_session_counters (num_new_walked_objs st1)
                 (num_new_archived_objs st1 + 1) st1).
  destruct (archive_object env obj st1') as [ok st2| | |] eqn:Hao; try done;
    [|by apply archive_object_fuel in Hao].
  destruct (archive_object_inv env obj st1' ok st2 Hao)
    as (od' & Hod' & _ & [(_ & -> & ->)|[(_ & _ & -> & ->)|(_ & _ & -> & ->)]]).
  - simpl. by apply Hcont.
  - simpl. by destruct (level =? 1).
  - simpl. apply Hcont.
    by rewrite archived_state_inv_seen.
Qed.

Lemma archive_reachable_objects_from_total (fuel : nat) :
  forall level info p st,
    (unseen env st < fuel)%nat ->
    archive_reachable_objects_from env fuel level info p st <> OutOfFuel.
Proof.
  induction fuel as [|fuel IH]; intros level info p st Hn; [lia|].
  simpl. apply archive_reachable_objects_from_body_total with fuel.
  - apply archive_reachable_objects_from_spec.
  - intros q st0 Hq. by apply IH.
  - done.
Qed.

(** *** The mark precedes the recursion *)

Lemma oop_iterate_entered (obj : oop)
    (W : oop -> DumpState -> outcome bool) :
  walker_spec env W ->
  forall (refs : list oop) (st : DumpState),
    obj ∈ seen_objects_table st ->
    oop_iterate (entered_after_marking obj W) refs st = oop_iterate W refs st.
Proof.
  intros HW refs. induction refs as [|p rest IH]; intros st Hs; [done|].
  simpl. destruct (is_null p); [by apply IH|].
  unfold entered_after_marking at 1. rewrite bool_decide_eq_true_2 by done.
  destruct (W p st) as [b st1| | |] eqn:HWp; simpl; try done.
  destruct b; [|done]. apply IH.
  destruct (HW p st true st1 HWp) as [(Hsub & _) _]. by apply Hsub.
Qed.

Lemma archive_reachable_objects_from_body_entered
    (W : oop -> DumpState -> outcome bool) (level : Z) (info : klass)
    (orig : oop) (st : DumpState) :
  walker_spec env W ->
  archive_reachable_objects_from_body env
    (entered_after_marking (walked_object env orig) W) level info orig st
  = archive_reachable_objects_from_body env W level info orig st.
Proof.
  intros HW. unfold archive_reachable_objects_from_body.
  destruct (is_null orig); [done|].
  destruct (heap env !! orig) as [od0|] eqn:Hod0; [|done].
  destruct (negb (o_supported od0)); [done|].
  rewrite (walked_object_eq orig od0 Hod0).
  set (obj := match o_mirror od0 with
              | Some m => scratch_java_mirror env orig m
              | None => orig
              end).
  destruct (is_null obj); [done|].
  destruct (heap env !! obj) as [od|] eqn:Hod; [|done].
  unfold has_been_seen_during_subgraph_recording.
  destruct (bool_decide (obj ∈ seen_objects_table st)) eqn:Hseen; [done|].
  apply bool_decide_eq_false in Hseen.
  set (st1 := set_has_been_seen_during_subgraph_recording obj st).
  assert (forall b st2,
             seen_objects_table st1 ⊆ seen_objects_table st2 ->
             (if negb b then Ret false st2
              else bind (add_subgraph_object_klass env info (o_klass od) st2)
                     (fun _ st =>
                        bind (oop_iterate (entered_after_marking obj W)
                                (o_refs od) (set_walker (Some obj) st))
                          (fun _ st0 =>
                             bind (match o_enum_refs od with
                                   | Some constants =>
                                     handle_enum_obj
                                       (entered_after_marking obj W)
                                       constants st0
                                   | None => Ret tt st0
                                   end)
                               (fun _ st4 =>
                                  Ret true (set_walker (walker_current st) st4)))))
             = (if negb b then Ret false st2
                else bind (add_subgraph_object_klass env info (o_klass od) st2)
                       (fun _ st =>
                          bind (oop_iterate W (o_refs od)
                                  (set_walker (Some obj) st))
                            (fun _ st0 =>
                               bind (match o_enum_refs od with
                                     | Some constants =>
                                       handle_enum_obj W constants st0
                                     | None => Ret tt st0
                                     end)
                                 (fun _ st4 =>
                                    Ret true
                                      (set_walker (walker_current st) st4))))))
    as Hcont.
  { intros b st2 Hsub. destruct b; [|done]. simpl.
    destruct (add_subgraph_object_klass env info (o_klass od) st2)
      as [u st3| | |] eqn:Hadd; try done. simpl.
    destruct (add_subgraph_object_klass_ok info (o_klass od) st2 u st3 Hadd)
      as ((Hsub3 & _) & _).
    assert (obj ∈ seen_objects_table st3) as Hobj3.
    { apply Hsub3, Hsub. simpl. by apply elem_of_union_l, elem_of_singleton. }
    rewrite (oop_iterate_entered obj W HW) by done.
    destruct (oop_iterate W (o_refs od) (set_walker (Some obj) st3))
      as [u4 st4| | |] eqn:Hit; try done. simpl.
    destruct (oop_iterate_spec W HW _ _ _ _ Hit) as [((Hsub4 & _) & _) _].
    destruct (o_enum_refs od) as [constants|]; [|done].
    unfold handle_enum_obj.
    rewrite (oop_iterate_entered obj W HW); [done|]. by apply Hsub4. }
  destruct (has_been_archived obj st1) eqn:Harch.
  { simpl. by apply (Hcont true). }
  set (st1' := set_session_counters (num_new_walked_objs st1)
                 (num_new_archived_objs st1 + 1) st1).
  destruct (archive_object env obj st1') as [ok st2| | |] eqn:Hao; try done.
  destruct (archive_object_inv env obj st1' ok st2 Hao)
    as (od' & Hod' & _ & [(_ & -> & ->)|[(_ & _ & -> & ->)|(_ & _ & -> & ->)]]).
  - simpl. by apply (Hcont true).
  - simpl. by destruct (level =? 1).
  - simpl. apply (Hcont true). by rewrite archived_state_inv_seen.
Qed.

(** *** The result does not depend on the recursion bound *)

Lemma oop_iterate_agree (W W' : oop -> DumpState -> outcome bool) :
  (forall p st, W p st <> OutOfFuel -> W' p st = W p st) ->
  forall (refs : list oop) (st : DumpState),
    oop_iterate W refs st <> OutOfFuel ->
    oop_iterate W' refs st = oop_iterate W refs st.
Proof.
  intros Hagree refs. induction refs as [|p rest IH]; intros st Hfuel; [done|].
  simpl in *. destruct (is_null p); [by apply IH|].
  destruct (W p st) as [b st1| | |] eqn:HWp.
  - rewrite Hagree by (by rewrite HWp). rewrite HWp. simpl in *.
    destruct b; [by apply IH|done].
  - rewrite Hagree by (by rewrite HWp). by rewrite HWp.
  - rewrite Hagree by (by rewrite HWp). by rewrite HWp.
  - done.
Qed.

Lemma archive_reachable_objects_from_body_agree
    (W W' : oop -> DumpState -> outcome bool) (level : Z) (info : klass)
    (orig : oop) (st : DumpState) :
  (forall p st, W p st <> OutOfFuel -> W' p st = W p st) ->
  archive_reachable_objects_from_body env W level info orig st <> OutOfFuel ->
  archive_reachable_objects_from_body env W' level info orig st
  = archive_reachable_objects_from_body env W level info orig st.
Proof.
  intros Hagree. unfold archive_reachable_objects_from_body.
  destruct (is_null orig); [done|].
  destruct (heap env !! orig) as [od0|]; [|done].
  destruct (negb (o_supported od0)); [done|].
  set (obj := match o_mirror od0 with
              | Some m => scratch_java_mirror env orig m
              | None => orig
              end).
  destruct (is_null obj); [done|].
  destruct (heap env !! obj) as [od|]; [|done].
  destruct (has_been_seen_during_subgraph_recording obj st); [done|].
  set (st1 := set_has_been_seen_during_subgraph_recording obj st).
  assert (forall st2,
             bind (add_subgraph_object_klass env info (o_klass od) st2)
               (fun _ st =>
                  bind (oop_iterate W (o_refs od) (set_walker (Some obj) st))
                    (fun _ st0 =>
                       bind (match o_enum_refs od with
                             | Some constants => handle_enum_obj W constants st0
                             | None => Ret tt st0
                             end)
                         (fun _ st4 =>
                            Ret true (set_walker (walker_current st) st4))))
             <> OutOfFuel ->
             bind (add_subgraph_object_klass env info (o_klass od) st2)
               (fun _ st =>
                  bind (oop_iterate W' (o_refs od) (set_walker (Some obj) st))
                    (fun _ st0 =>
                       bind (match o_enum_refs od with
                             | Some constants => handle_enum_obj W' constants st0
                             | None => Ret tt st0
                             end)
                         (fun _ st4 =>
                            Ret true (set_walker (walker_current st) st4))))
             = bind (add_subgraph_object_klass env info (o_klass od) st2)
                 (fun _ st =>
                    bind (oop_iterate W (o_refs od) (set_walker (Some obj) st))
                      (fun _ st0 =>
                         bind (match o_enum_refs od with
                               | Some constants => handle_enum_obj W constants st0
                               | None => Ret tt st0
                               end)
                           (fun _ st4 =>
                              Ret true (set_walker (walker_current st) st4)))))
    as Hcont.
  { intros st2.
    destruct (add_subgraph_object_klass env info (o_klass od) st2)
      as [u st3| | |]; try done. simpl. intros Hfuel.
    assert (oop_iterate W (o_refs od) (set_walker (Some obj) st3) <> OutOfFuel)
      as Hrefs by (intros Heq; by rewrite Heq in Hfuel).
    rewrite (oop_iterate_agree W W' Hagree _ _ Hrefs).
    destruct (oop_iterate W (o_refs od) (set_walker (Some obj) st3))
      as [u4 st4| | |]; try done. simpl in *.
    destruct (o_enum_refs od) as [constants|]; [|done].
    unfold handle_enum_obj in *.
    rewrite (oop_iterate_agree W W' Hagree); [done|].
    intros Heq. by rewrite Heq in Hfuel. }
  destruct (has_been_archived obj st1); [simpl; by apply Hcont|].
  destruct (archive_object env obj _) as [ok st2| | |]; try done. simpl.
  destruct ok; simpl; [by apply Hcont|]. by destruct (level =? 1).
Qed.

Lemma archive_reachable_objects_from_fuel_S (fuel : nat) :
  forall level info p st,
    archive_reachable_objects_from env fuel level info p st <> OutOfFuel ->
    archive_reachable_objects_from env (S fuel) level info p st
    = archive_reachable_objects_from env fuel level info p st.
Proof.
  induction fuel as [|fuel IH]; intros level info p st Hfuel; [done|].
  change (archive_reachable_objects_from_body env
            (archive_reachable_objects_from env (S fuel) (level + 1) info)
            level info p st
          = archive_reachable_objects_from_body env
              (archive_reachable_objects_from env fuel (level + 1) info)
              level info p st).
  apply archive_reachable_objects_from_body_agree; [|exact Hfuel].
  intros q st0. apply IH.
Qed.

Lemma archive_reachable_objects_from_fuel_le (fuel fuel' : nat) :
  (fuel <= fuel')%nat ->
  forall level info p st,
    archive_reachable_objects_from env fuel level info p st <> OutOfFuel ->
    archive_reachable_objects_from env fuel' level info p st
    = archive_reachable_objects_from env fuel level info p st.
Proof.
  induction 1 as [|fuel' Hle IH]; intros level info p st Hfuel; [done|].
  rewrite archive_reachable_objects_from_fuel_S; rewrite IH; done.
Qed.

(** *** Coverage *)

Lemma seen_closed_after (st st' : DumpState) :
  seen_closed env (seen_objects_table st) ->
  walk_ok env st st' ->
  seen_closed env (seen_objects_table st').
Proof.
  intros Hcl ((Hsub & _) & _ & Hnew) o q Ho Hedge.
  destruct (decide (o ∈ seen_objects_table st)) as [Hin|Hnin].
  - apply Hsub. by apply (Hcl o q).
  - by apply (Hnew o Ho Hnin).
Qed.

Lemma seen_closed_reachable (s : gset oop) (o q : oop) :
  seen_closed env s -> o ∈ s -> rtc (walk_edge env) o q -> q ∈ s.
Proof.
  intros Hcl Ho Hr. induction Hr as [|x y z Hxy _ IH]; [done|].
  apply IH. by apply (Hcl x y).
Qed.

Lemma seen_closed_empty : seen_closed env ∅.
Proof. intros o q Ho. by apply not_elem_of_empty in Ho. Qed.

(** C4.  A walk over any heap, cyclic or not, returns within the recursion
    bound [walk_bound], and a larger bound gives the same result; each
    object is put into the seen table before the walk recurses out of it;
    after a successful walk the two counters have advanced by exactly the
    number of objects put into the seen table and into the identity cache,
    and, under the session invariant (which holds at the start of a
    session), every object reachable from the root is in the seen table and
    in the identity cache. *)
Theorem archive_reachable_objects_from_cycle_safe (level : Z) (info : klass)
    (root : oop) (st : DumpState) :
  archive_reachable_objects_from env (walk_bound env) level info root st
  <> OutOfFuel
  /\ (forall fuel,
         (walk_bound env <= fuel)%nat ->
         archive_reachable_objects_from env fuel level info root st
         = archive_reachable_objects_from env (walk_bound env) level info
             root st)
  /\ (forall fuel,
         archive_reachable_objects_from env (S fuel) level info root st
         = archive_reachable_objects_from_body env
             (entered_after_marking (walked_object env root)
                (archive_reachable_objects_from env fuel (level + 1) info))
             level info root st)
  /\ (forall fuel st',
         archive_reachable_objects_from env fuel level info root st
         = Ret true st' ->
         num_new_walked_objs st' - num_new_walked_objs st
         = Z.of_nat (size (seen_objects_table st' ∖ seen_objects_table st))
         /\ num_new_archived_objs st' - num_new_archived_objs st
            = Z.of_nat (size (dom (archived_object_cache st')
                              ∖ dom (archived_object_cache st)))
         /\ (session_inv env st ->
             forall q,
               rtc (walk_edge env) (walked_object env root) q ->
               q ∈ seen_objects_table st' /\ has_been_archived q st' = true)).
Proof.
  split; [|split; [|split]].
  - apply archive_reachable_objects_from_total, unseen_bound.
  - intros fuel Hle. apply archive_reachable_objects_from_fuel_le; [done|].
    apply archive_reachable_objects_from_total, unseen_bound.
  - intros fuel. simpl. symmetry.
    apply archive_reachable_objects_from_body_entered.
    apply archive_reachable_objects_from_spec.
  - intros fuel st' Hret.
    destruct (archive_reachable_objects_from_spec fuel level info root st
                true st' Hret) as [_ Hok].
    destruct (Hok eq_refl) as [Hwok Hroot].
    pose proof Hwok as ((Hsub & Hdom & Hwalked & _) & Hcnt & Hnew).
    split; [|split].
    + rewrite size_difference by done.
      pose proof (subseteq_size _ _ Hsub). lia.
    + rewrite size_difference by done.
      pose proof (subseteq_size _ _ Hdom) as Hsz.
      rewrite !size_dom. rewrite !size_dom in Hsz. lia.
    + intros [Hcl Harch] q Hq.
      assert (q ∈ seen_objects_table st') as Hqs.
      { apply (seen_closed_reachable _ (walked_object env root)); [|done|done].
        by apply seen_closed_after with st. }
      split; [done|]. apply has_been_archived_true.
      destruct (decide (q ∈ seen_objects_table st)) as [Hin|Hnin].
      * by apply Hdom, Harch.
      * by apply (Hnew q Hqs Hnin).
Qed.

End Walker.

(** ** Entry points *)

Section EntryPoints.

Variable env : DumpEnv.

Lemma add_subgraph_entry_field_spec (k : klass) (off : Z) (v : oop)
    (st : DumpState) (info : KlassSubGraphInfo) :
  get_subgraph_info k st = Some info ->
  exists st' info',
    add_subgraph_entry_field k off v st = Ret tt st'
    /\ get_subgraph_info k st' = Some info'
    /\ sg_subgraph_entry_fields info'
       = Some (default [] (sg_subgraph_entry_fields info)
               ++ [off; Z.of_nat (length (pending_roots st))])
    /\ pending_roots st' = pending_roots st ++ [v]
    /\ archived_object_cache st' = archived_object_cache st.
Proof.
  intros Hinfo. unfold add_subgraph_entry_field. rewrite Hinfo. simpl.
  eexists _, _. split; [reflexivity|].
  unfold get_subgraph_info. simpl. rewrite lookup_insert_eq. done.
Qed.

(** The walk of an object too large to archive. *)
Lemma archive_reachable_objects_from_too_large
    (W : oop -> DumpState -> outcome bool) (level : Z) (info : klass)
    (f : oop) (od0 od : ObjDesc) (st : DumpState) :
  f <> null ->
  heap env !! f = Some od0 ->
  o_supported od0 = true ->
  walked_object env f <> null ->
  heap env !! walked_object env f = Some od ->
  o_is_stackChunk od = false ->
  is_too_large_to_archive env (o_size od) = true ->
  walked_object env f ∉ seen_objects_table st ->
  archived_object_cache st !! walked_object env f = None ->
  archive_reachable_objects_from_body env W level info f st
  = if level =? 1
    then Ret false
           (set_session_counters (num_new_walked_objs st + 1)
              (num_new_archived_objs st + 1)
              (set_seen (fun s => {[walked_object env f]} ∪ s) st))
    else VMExit.
Proof.
  intros Hf Hod0 Hsup Hobj Hod Hsc Hlarge Hseen Hcache.
  unfold archive_reachable_objects_from_body.
  apply is_null_false in Hf. rewrite Hf, Hod0, Hsup. cbn [negb].
  rewrite <- (walked_object_eq env f od0 Hod0).
  apply is_null_false in Hobj. rewrite Hobj, Hod.
  unfold has_been_seen_during_subgraph_recording.
  rewrite bool_decide_eq_false_2 by done.
  set (st1 := set_has_been_seen_during_subgraph_recording
                (walked_object env f) st).
  assert (has_been_archived (walked_object env f) st1 = false) as Ha
    by (by apply has_been_archived_false).
  rewrite Ha. unfold archive_object. rewrite Hod, Hsc.
  change (has_been_archived (walked_object env f)
            (set_session_counters (num_new_walked_objs st1)
               (num_new_archived_objs st1 + 1) st1))
    with (has_been_archived (walked_object env f) st1).
  rewrite Ha, Hlarge. simpl. by destruct (level =? 1).
Qed.

Lemma static_field_walk (k : klass) (off : Z) (st : DumpState)
    (info : KlassSubGraphInfo) :
  get_subgraph_info k st = Some info ->
  static_field env k off <> null ->
  archive_reachable_objects_from_static_field env k off st
  = bind (archive_reachable_objects_from env (walk_bound env) 1 k
            (static_field env k off) st)
      (fun success st1 =>
         if success
         then add_subgraph_entry_field k off (static_field env k off) st1
         else Ret tt st1).
Proof.
  intros Hinfo Hf. unfold archive_reachable_objects_from_static_field.
  rewrite Hinfo. apply is_null_false in Hf. rewrite Hf. cbn [negb].
  destruct (archive_reachable_objects_from _ _ _ _ _ _) as [[] st1| | |]; done.
Qed.


(** C3.  An entry value too large to archive: at level 1 the walk returns
    false without touching the recorder or the root table, the entry is
    skipped and the pass over the table completes; at any other level the VM
    exits. *)
Theorem too_large_root_is_skipped (k : klass) (off : Z) (od0 od : ObjDesc) :
  static_field env k off <> null ->
  heap env !! static_field env k off = Some od0 ->
  o_supported od0 = true ->
  walked_object env (static_field env k off) <> null ->
  heap env !! walked_object env (static_field env k off) = Some od ->
  o_is_stackChunk od = false ->
  is_too_large_to_archive env (o_size od) = true ->
  (forall fuel level info st,
      walked_object env (static_field env k off) ∉ seen_objects_table st ->
      archived_object_cache st !! walked_object env (static_field env k off)
      = None ->
      (level = 1 ->
       exists st1,
         archive_reachable_objects_from env (S fuel) level info
           (static_field env k off) st = Ret false st1
         /\ dump_time_subgraph_info_table st1 = dump_time_subgraph_info_table st
         /\ pending_roots st1 = pending_roots st
         /\ archived_object_cache st1 = archived_object_cache st)
      /\ (level <> 1 ->
          archive_reachable_objects_from env (S fuel) level info
            (static_field env k off) st = VMExit))
  /\ (forall st info,
         get_subgraph_info k st = Some info ->
         walked_object env (static_field env k off) ∉ seen_objects_table st ->
         archived_object_cache st !! walked_object env (static_field env k off)
         = None ->
         exists st1,
           archive_reachable_objects_from_static_field env k off st
           = Ret tt st1
           /\ get_subgraph_info k st1 = Some info
           /\ pending_roots st1 = pending_roots st)
  /\ (forall name fname is_fmg st,
         dump_time_subgraph_info_table st !! k = None ->
         archived_object_cache st !! walked_object env (static_field env k off)
         = None ->
         archived_object_cache st !! static_field env k off = None ->
         exists st',
           archive_object_subgraphs env
             [{| klass_name := name; field_name := fname;
                 fi_klass := k; fi_offset := off |}] is_fmg st
           = Ret tt st'
           /\ get_subgraph_info k st'
              = Some (new_KlassSubGraphInfo (get_buffered_klass env k) is_fmg)
           /\ pending_roots st' = pending_roots st).
Proof.
  intros Hf Hod0 Hsup Hobj Hod Hsc Hlarge.
  assert (forall W level info st,
             walked_object env (static_field env k off) ∉ seen_objects_table st ->
             archived_object_cache st !! walked_object env (static_field env k off)
             = None ->
             archive_reachable_objects_from_body env W level info
               (static_field env k off) st
             = if level =? 1
               then Ret false
                      (set_session_counters (num_new_walked_objs st + 1)
                         (num_new_archived_objs st + 1)
                         (set_seen
                            (fun s => {[walked_object env (static_field env k off)]} ∪ s)
                            st))
               else VMExit) as Hbody.
  { intros W level info st Hseen Hcache.
    by apply archive_reachable_objects_from_too_large with od0 od. }
  split; [|split].
  - intros fuel level info st Hseen Hcache. split.
    + intros ->. cbn [archive_reachable_objects_from].
      rewrite (Hbody _ 1 info st Hseen Hcache). cbn [Z.eqb Pos.eqb].
      eexists. split; [reflexivity|done].
    + intros Hl. simpl. rewrite (Hbody _ level info st Hseen Hcache).
      by destruct (Z.eqb_spec level 1).
  - intros st info Hinfo Hseen Hcache.
    rewrite (static_field_walk k off st info Hinfo Hf).
    unfold walk_bound. simpl.
    rewrite (Hbody _ 1 k st Hseen Hcache). simpl.
    eexists. split; [done|]. done.
  - intros name fname is_fmg st Hk Hcache Hcachef.
    unfold archive_object_subgraphs. simpl.
    unfold start_recording_subgraph, init_subgraph_info. rewrite Hk.
    cbn [bind]. rewrite String.eqb_refl. cbn [negb].
    set (st_a := set_session_counters 0 0 (init_seen_objects_table _)).
    assert (get_subgraph_info k st_a
            = Some (new_KlassSubGraphInfo (get_buffered_klass env k) is_fmg))
      as Hinfo.
    { unfold get_subgraph_info, st_a. simpl. by rewrite lookup_insert_eq. }
    rewrite (static_field_walk k off st_a _ Hinfo Hf).
    unfold walk_bound. cbn [archive_reachable_objects_from].
    rewrite (Hbody _ 1 k st_a); [|by apply not_elem_of_empty|done].
    cbn [bind Z.eqb Pos.eqb archive_object_subgraphs_loop].
    destruct (PRODUCT env).
    + eexists. split; [done|]. done.
    + cbn [verify_all bind]. unfold verify_subgraph_from_static_field.
      apply is_null_false in Hf. rewrite Hf. cbn [negb].
      unfold verify_subgraph_from.
      match goal with
      | |- context [has_been_archived ?o ?s] =>
        assert (has_been_archived o s = false) as ->
            by (by apply has_been_archived_false)
      end.
      cbn [negb bind]. eexists. split; [done|]. done.
Qed.

(** *** The session invariant *)

Lemma session_inv_start (k : klass) (is_fmg : bool) (st : DumpState)
    (u : unit) (st' : DumpState) :
  start_recording_subgraph env k is_fmg st = Ret u st' ->
  session_inv env st'.
Proof.
  unfold start_recording_subgraph, init_subgraph_info.
  destruct (dump_time_subgraph_info_table st !! k); [done|].
  intros [= _ <-]. split; simpl.
  - apply seen_closed_empty.
  - apply empty_subseteq.
Qed.

Lemma session_inv_walk (fuel : nat) (level : Z) (info : klass) (p : oop)
    (st st' : DumpState) :
  session_inv env st ->
  archive_reachable_objects_from env fuel level info p st = Ret true st' ->
  session_inv env st'.
Proof.
  intros [Hcl Harch] Hrun.
  destruct (archive_reachable_objects_from_spec env fuel level info p st
              true st' Hrun) as [_ Hok].
  destruct (Hok eq_refl) as [Hwok _]. split.
  - by apply seen_closed_after with st.
  - destruct Hwok as ((_ & Hdom & _) & _ & Hnew). intros o Ho.
    destruct (decide (o ∈ seen_objects_table st)) as [Hin|Hnin].
    + by apply Hdom, Harch.
    + by apply (Hnew o Ho Hnin).
Qed.

(** *** The pass over the entry table always returns *)

Lemma verify_reachable_objects_from_grows (fuel : nat) :
  grows_seen (verify_reachable_objects_from env fuel).
Proof.
  induction fuel as [|fuel IH]; intros p st b st' H; [done|].
  simpl in H. unfold verify_reachable_objects_from_body in H.
  destruct (heap env !! p) as [od0|]; [|done].
  destruct (is_null _); [done|].
  destruct (heap env !! _) as [od|]; [|done].
  destruct (has_been_seen_during_subgraph_recording _ st).
  { by injection H as _ <-. }
  destruct (negb _); [done|].
  destruct (oop_iterate _ _ _) as [u st1| | |] eqn:Hit; try done.
  injection H as _ <-.
  apply (oop_iterate_grows _ IH) in Hit. simpl in Hit.
  etrans; [|exact Hit]. apply union_subseteq_r.
Qed.

Lemma verify_reachable_objects_from_total (fuel : nat) :
  forall p st,
    (unseen env st < fuel)%nat ->
    verify_reachable_objects_from env fuel p st <> OutOfFuel.
Proof.
  induction fuel as [|fuel IH]; intros p st Hn; [lia|].
  simpl. unfold verify_reachable_objects_from_body.
  destruct (heap env !! p) as [od0|]; [|done].
  set (obj := match o_mirror od0 with
              | Some m => scratch_java_mirror env p m
              | None => p
              end).
  destruct (is_null obj); [done|].
  destruct (heap env !! obj) as [od|] eqn:Hod; [|done].
  unfold has_been_seen_during_subgraph_recording.
  destruct (bool_decide (obj ∈ seen_objects_table st)) eqn:Hseen; [done|].
  apply bool_decide_eq_false in Hseen.
  destruct (negb _); [done|].
  pose proof (unseen_mark env obj od st Hod Hseen) as Hlt.
  assert (oop_iterate (verify_reachable_objects_from env fuel) (o_refs od)
            (set_has_been_seen_during_subgraph_recording obj st)
          <> OutOfFuel) as Hit.
  { apply (oop_iterate_total env _ fuel); [|exact IH|lia].
    apply verify_reachable_objects_from_grows. }
  by destruct (oop_iterate _ _ _).
Qed.

Lemma add_subgraph_entry_field_fuel (k : klass) (off : Z) (v : oop)
    (st : DumpState) :
  add_subgraph_entry_field k off v st <> OutOfFuel.
Proof.
  unfold add_subgraph_entry_field. by destruct (get_subgraph_info k st).
Qed.

Lemma archive_reachable_objects_from_static_field_total (k : klass) (off : Z)
    (st : DumpState) :
  archive_reachable_objects_from_static_field env k off st <> OutOfFuel.
Proof.
  unfold archive_reachable_objects_from_static_field.
  destruct (get_subgraph_info k st); [|done].
  destruct (negb _); [|apply add_subgraph_entry_field_fuel].
  pose proof (archive_reachable_objects_from_total env (walk_bound env) 1 k
                (static_field env k off) st (unseen_bound env st)) as Hwalk.
  destruct (archive_reachable_objects_from _ _ _ _ _ _)
    as [[] st1| | |]; simpl; try done.
  apply add_subgraph_entry_field_fuel.
Qed.

Lemma archive_fields_of_klass_total (name : string)
    (fields : list ArchivableStaticFieldInfo) :
  forall st, archive_fields_of_klass env name fields st <> OutOfFuel.
Proof.
  induction fields as [|f rest IH]; intros st; [done|].
  simpl. destruct (negb _); [done|].
  pose proof (archive_reachable_objects_from_static_field_total
                (fi_klass f) (fi_offset f) st) as Hf.
  destruct (archive_reachable_objects_from_static_field _ _ _ _)
    as [u st1| | |]; simpl; done.
Qed.

Lemma archive_fields_of_klass_rest (name : string)
    (fields : list ArchivableStaticFieldInfo) :
  forall st rest st',
    archive_fields_of_klass env name fields st = Ret rest st' ->
    (length rest <= length fields)%nat
    /\ forall f tl, fields = f :: tl -> klass_name f = name ->
                    (length rest <= length tl)%nat.
Proof.
  induction fields as [|f rest0 IH]; intros st rest st' H.
  - injection H as <- _. split; [done|]. by intros f tl.
  - simpl in H. destruct (String.eqb_spec (klass_name f) name) as [Heq|Hne];
      simpl in H.
    + destruct (archive_reachable_objects_from_static_field _ _ _ _)
        as [u st1| | |]; try done. simpl in H.
      destruct (IH st1 rest st' H) as [Hle _].
      split; [simpl; lia|]. intros f' tl [= <- <-] _. done.
    + injection H as <- _. split; [done|].
      intros f' tl [= <- <-] Hname. done.
Qed.

Lemma archive_object_subgraphs_loop_total (n : nat) :
  forall fields is_fmg st,
    (length fields <= n)%nat ->
    archive_object_subgraphs_loop env n fields is_fmg st <> OutOfFuel.
Proof.
  induction n as [|n IH]; intros fields is_fmg st Hlen.
  - destruct fields; [done|]. simpl in Hlen. lia.
  - destruct fields as [|info tl]; [done|]. simpl in Hlen.
    cbn [archive_object_subgraphs_loop].
    unfold start_recording_subgraph, init_subgraph_info.
    destruct (dump_time_subgraph_info_table st !! fi_klass info); [done|].
    cbn [bind].
    match goal with
    | |- bind (archive_fields_of_klass _ _ _ ?s) _ <> _ =>
      pose proof (archive_fields_of_klass_total (klass_name info)
                    (info :: tl) s) as Htot;
      pose proof (archive_fields_of_klass_rest (klass_name info)
                    (info :: tl) s) as Hrest;
      destruct (archive_fields_of_klass env (klass_name info) (info :: tl) s)
        as [rest st1| | |]; try done
    end.
    cbn [bind]. apply IH.
    destruct (Hrest rest st1 eq_refl) as [_ Htl].
    specialize (Htl info tl eq_refl eq_refl). lia.
Qed.

Lemma verify_all_total (fields : list ArchivableStaticFieldInfo) :
  forall st, verify_all env fields st <> OutOfFuel.
Proof.
  induction fields as [|f rest IH]; intros st; [done|].
  simpl. unfold verify_subgraph_from_static_field.
  destruct (negb (is_null _)); [|by apply IH].
  unfold verify_subgraph_from.
  destruct (negb (has_been_archived _ _)); [by apply IH|].
  match goal with
  | |- bind (bind (verify_reachable_objects_from _ _ ?o ?s) _) _ <> _ =>
    pose proof (verify_reachable_objects_from_total (walk_bound env) o s
                  (unseen_bound env s)) as Hv;
    destruct (verify_reachable_objects_from env (walk_bound env) o s)
      as [b st1| | |]; try done
  end.
  simpl. apply IH.
Qed.

(** [archive_object_subgraphs] never stops at a recursion bound of the
    model: on every table and in every state it returns, exits the VM or
    fails a sanity check. *)
Lemma archive_object_subgraphs_total
    (fields : list ArchivableStaticFieldInfo) (is_fmg : bool)
    (st : DumpState) :
  archive_object_subgraphs env fields is_fmg st <> OutOfFuel.
Proof.
  unfold archive_object_subgraphs.
  pose proof (archive_object_subgraphs_loop_total (length fields) fields
                is_fmg st (Nat.le_refl _)) as Hloop.
  destruct (archive_object_subgraphs_loop _ _ _ _ _) as [u st1| | |];
    try done.
  simpl. destruct (PRODUCT env); [done|]. apply verify_all_total.
Qed.

End EntryPoints.

(** ** Class mirrors met by the walker *)

Section Mirrors.

Variable env : DumpEnv.

(** What the walker does with a class mirror.  Entry point or not, accepted
    by [can_mirror_be_used_in_subgraph] or not, the mirror is replaced by its
    scratch mirror, and the walk goes on exactly as on the scratch mirror;
    the walk stops on a mirror only when it has no scratch mirror. *)
Theorem class_mirror_is_substituted (p : oop) (od0 : ObjDesc) (m : MirrorOf) :
  p <> null ->
  heap env !! p = Some od0 ->
  o_mirror od0 = Some m ->
  o_supported od0 = true ->
  (forall fuel level info st od_s,
      heap env !! scratch_java_mirror env p m = Some od_s ->
      o_supported od_s = true ->
      walked_object env (scratch_java_mirror env p m)
      = scratch_java_mirror env p m ->
      archive_reachable_objects_from env fuel level info p st
      = archive_reachable_objects_from env fuel level info
          (scratch_java_mirror env p m) st)
  /\ (forall fuel level info st,
         scratch_java_mirror env p m = null ->
         archive_reachable_objects_from env (S fuel) level info p st = Crash)
  /\ (forall fuel level info st,
         scratch_java_mirror env p m <> null ->
         is_Some (heap env !! scratch_java_mirror env p m) ->
         scratch_java_mirror env p m ∈ seen_objects_table st ->
         archive_reachable_objects_from env (S fuel) level info p st
         = Ret true st).
Proof.
  intros Hp Hod0 Hm Hsup. apply is_null_false in Hp. split; [|split].
  - intros fuel level info st od_s Hods Hsups Hfix.
    destruct fuel as [|fuel]; [done|]. simpl.
    unfold archive_reachable_objects_from_body.
    rewrite Hp, Hod0, Hm, Hsup. cbn [negb].
    set (s := scratch_java_mirror env p m) in *.
    rewrite Hods, Hsups. cbn [negb].
    rewrite <- (walked_object_eq env s od_s Hods), Hfix, Hods.
    destruct (is_null s); done.
  - intros fuel level info st Hnull. simpl.
    unfold archive_reachable_objects_from_body.
    rewrite Hp, Hod0, Hm, Hsup. cbn [negb]. by rewrite Hnull.
  - intros fuel level info st Hnn [od_s Hods] Hseen. simpl.
    unfold archive_reachable_objects_from_body.
    rewrite Hp, Hod0, Hm, Hsup. cbn [negb].
    apply is_null_false in Hnn. rewrite Hnn, Hods.
    unfold has_been_seen_during_subgraph_recording.
    by rewrite bool_decide_eq_true_2.
Qed.

End Mirrors.

(** ** The definitions at work on the small heap *)

Example walk_of_cycle :
  match archive_reachable_objects_from Scenario.env
          (walk_bound Scenario.env) 1 40%nat 1%nat (Scenario.in_session 40%nat)
  with
  | Ret true st =>
    has_been_archived 1%nat st && has_been_archived 2%nat st
    && (num_new_walked_objs st =? 2) && (num_new_archived_objs st =? 2)
  | _ => false
  end = true.
Proof. vm_compute. reflexivity. Qed.

(** One pass over four entries: the cycle, the too-large value, the object
    holding a mirror and the [null] field.  The second holder gets no entry;
    the others get the roots 0, 1 and 2, the last of them [null]. *)
Example pass_over_four_entries :
  match archive_object_subgraphs Scenario.env
          [Scenario.entry 40%nat; Scenario.entry 41%nat;
           Scenario.entry 42%nat; Scenario.entry 43%nat] false Scenario.st0
  with
  | Ret _ st =>
    (sg_subgraph_entry_fields <$> get_subgraph_info 40%nat st,
     sg_subgraph_entry_fields <$> get_subgraph_info 41%nat st,
     sg_subgraph_entry_fields <$> get_subgraph_info 42%nat st,
     sg_subgraph_entry_fields <$> get_subgraph_info 43%nat st,
     pending_roots st)
  | _ => (None, None, None, None, [])
  end
  = (Some (Some [8; 0]), Some None, Some (Some [8; 1]), Some (Some [8; 2]),
     [1%nat; 5%nat; null]).
Proof. vm_compute. reflexivity. Qed.

(** An object too large to archive that is met below the entry value ends
    the dump. *)
Example too_large_mid_graph_exits :
  archive_object_subgraphs Scenario.env [Scenario.entry 44%nat] false
    Scenario.st0 = VMExit.
Proof. vm_compute. reflexivity. Qed.

Lemma get_root_clear_then_null_witness :
  exists st',
    get_root Scenario.renv 0 true Scenario.rst0 = Some (5%nat, st')
    /\ get_root Scenario.renv 0 false st' = Some (null, st').
Proof.
  destruct (get_root_clear_then_null Scenario.renv 0 Scenario.rst0
              [5%nat; null; 100%nat; 101%nat])
    as (v & st' & Hv & Hget & Hnull).
  - exists Scenario.rst_boot. split; [reflexivity|].
    apply rtc_once.
    apply (rt_init_roots _ [5%nat; null; 100%nat; 101%nat]). reflexivity.
  - reflexivity.
  - simpl. lia.
  - exists st'. injection Hv as <-. split; assumption.
Defined.

Lemma restore_rejected_by_gate_witness :
  resolve_or_init_classes_for_subgraph_of Scenario.renv 40%nat true
    Scenario.rst0
  = Some (None, false, Scenario.rst0)
  /\ exists st',
      resolve_classes_for_subgraph_of Scenario.renv 40%nat Scenario.rst0
      = Some st'
      /\ roots_obj_at 0 st' = Some null
      /\ mirror_fields st' = ∅
      /\ initialize_from_archived_subgraph Scenario.renv 40%nat st' = Some st'.
Proof.
  destruct (restore_rejected_by_gate Scenario.renv 40%nat Scenario.record_40
              Scenario.rst0 [5%nat; null; 100%nat; 101%nat])
    as [Hres (st' & Hpass & Hcleared & Hfields & _ & _ & Hinit)].
  - exists Scenario.rst_boot. split; [reflexivity|].
    apply rtc_once.
    apply (rt_init_roots _ [5%nat; null; 100%nat; 101%nat]). reflexivity.
  - reflexivity.
  - vm_compute. reflexivity.
  - right. split; reflexivity.
  - reflexivity.
  - simpl. apply entries_in_range_cons; [simpl; lia|].
    apply entries_in_range_nil.
  - split; [apply Hres|]. exists st'.
    split; [exact Hpass|]. split; [|split; [exact Hfields|exact Hinit]].
    apply Hcleared. simpl. constructor.
Defined.

Lemma permanent_index_round_trip_witness :
  is_Some (permanent_index_table Scenario.rst_indexed)
  /\ get_archived_object_permanent_index Scenario.renv 12%nat
       Scenario.rst_indexed = Some (1, Scenario.rst_indexed)
  /\ get_archived_object Scenario.renv 1 Scenario.rst_indexed = Some 12%nat.
Proof.
  destruct (permanent_index_round_trip Scenario.renv Scenario.rst_indexed
              [5%nat; null; 100%nat; 101%nat]
              [[11%nat; 12%nat]; [13%nat]] 12%nat)
    as (n & st' & Hidx & _ & _ & _ & Hsame & _ & _ & Hin & _).
  - exists Scenario.rst_boot. split; [reflexivity|].
    eapply rtc_l.
    { apply (rt_init_roots _ [5%nat; null; 100%nat; 101%nat]). reflexivity. }
    apply rtc_once.
    apply (rt_permanent_index Scenario.renv 13%nat 8
             Scenario.rst0 Scenario.rst_indexed).
    vm_compute. reflexivity.
  - reflexivity.
  - intros t Ht. exists [5%nat; null; 100%nat; 101%nat].
    split; [reflexivity|]. vm_compute in Ht. injection Ht as <-.
    vm_compute. reflexivity.
  - unfold permobj_layout. simpl.
    split; [lia|]. split; [reflexivity|]. split; [reflexivity|].
    split; [lia|]. split; [|lia].
    intros [|[|i]] a Ha; simpl in Ha; [| |discriminate Ha];
      injection Ha as <-; eexists; (split; [reflexivity|]);
      (split; [reflexivity|]); simpl; lia.
  - assert (st' = Scenario.rst_indexed) as ->
      by (apply Hsame; vm_compute; by eexists).
    destruct Hin as [_ Hback].
    { exists [11%nat; 12%nat]. split; [constructor|].
      constructor. constructor. }
    assert (n = 1) as ->.
    { vm_compute in Hidx. by injection Hidx as <-. }
    split; [vm_compute; by eexists|]. split; [exact Hidx|exact Hback].
Defined.

Lemma full_module_graph_record_ignores_hook_witness :
  r_has_non_early_klasses
    (ArchivedKlassSubGraphInfoRecord_init Scenario.fmg_info) = false.
Proof.
  destruct (full_module_graph_record_ignores_hook Scenario.fmg_info)
    as [H _].
  - reflexivity.
  - exact H.
Defined.

Lemma archive_object_idempotent_witness :
  archive_object Scenario.env 1%nat Scenario.st_archived_1
  = Ret true Scenario.st_archived_1
  /\ has_been_archived 1%nat Scenario.st_archived_1 = true.
Proof.
  destruct (archive_object_idempotent Scenario.env 1%nat Scenario.st0
              Scenario.st_archived_1) as (Hagain & Hin & _).
  - vm_compute. reflexivity.
  - split; assumption.
Defined.

Lemma too_large_root_is_skipped_witness :
  exists st',
    archive_object_subgraphs Scenario.env [Scenario.entry 41%nat] false
      Scenario.st0 = Ret tt st'
    /\ get_subgraph_info 41%nat st' = Some (new_KlassSubGraphInfo 41%nat false)
    /\ pending_roots st' = [].
Proof.
  destruct (too_large_root_is_skipped Scenario.env 41%nat 8
              (Scenario.plain 14 1000 []) (Scenario.plain 14 1000 []))
    as (_ & _ & Hpass).
  - vm_compute. discriminate.
  - vm_compute. reflexivity.
  - reflexivity.
  - vm_compute. discriminate.
  - vm_compute. reflexivity.
  - reflexivity.
  - reflexivity.
  - apply (Hpass "Holder41" "archivedCache" false Scenario.st0);
      vm_compute; reflexivity.
Defined.


Lemma class_mirror_is_substituted_witness :
  archive_reachable_objects_from Scenario.env 2 2 42%nat 3%nat
    (Scenario.in_session 42%nat)
  = archive_reachable_objects_from Scenario.env 2 2 42%nat 4%nat
      (Scenario.in_session 42%nat).
Proof.
  destruct (class_mirror_is_substituted Scenario.env 3%nat
              (Scenario.mirror_of 12) (MirrorKlass 12)) as (Hsame & _).
  - discriminate.
  - vm_compute. reflexivity.
  - reflexivity.
  - reflexivity.
  - apply (Hsame 2%nat 2 42%nat (Scenario.in_session 42%nat)
             (Scenario.mirror_of 12)); vm_compute; reflexivity.
Defined.

(** C5.  The code does not refuse a mirror that the claim, and the comments
    of the code on [can_mirror_be_used_in_subgraph] and on the restrictions
    of sub-graph archiving, say it must refuse.  Object 5 is walked from the
    entry field of holder 42 and its field references the mirror 3 of class
    12, which is not the entry value and which
    [can_mirror_be_used_in_subgraph] does not accept; the walk succeeds, and
    the scratch mirror 4 is archived with object 5 as its referrer.  The
    check sits in a block that [#if 0] disables. *)
Lemma mirror_mid_graph_is_archived :
  Scenario.static_field_is_not_mirror = true
  /\ can_mirror_be_used_in_subgraph Scenario.env 3%nat (MirrorKlass 12) = false
  /\ exists st',
      archive_reachable_objects_from Scenario.env (walk_bound Scenario.env) 1
        42%nat 5%nat (Scenario.in_session 42%nat) = Ret true st'
      /\ archived_object_cache st' !! 4%nat = Some 5%nat.
Proof.
  split; [reflexivity|]. split; [reflexivity|].
  eexists. split; [vm_compute; reflexivity|]. vm_compute. reflexivity.
Qed.

Lemma archive_reachable_objects_from_cycle_safe_witness :
  exists st',
    archive_reachable_objects_from Scenario.env (walk_bound Scenario.env) 1
      40%nat 1%nat (Scenario.in_session 40%nat) = Ret true st'
    /\ has_been_archived 2%nat st' = true
    /\ num_new_walked_objs st' = 2.
Proof.
  destruct (archive_reachable_objects_from Scenario.env
              (walk_bound Scenario.env) 1 40%nat 1%nat
              (Scenario.in_session 40%nat)) as [[] st'| | |] eqn:Hrun;
    try (vm_compute in Hrun; discriminate Hrun).
  destruct (archive_reachable_objects_from_cycle_safe Scenario.env 1 40%nat
              1%nat (Scenario.in_session 40%nat)) as (_ & _ & _ & Hcover).
  destruct (Hcover _ st' Hrun) as (Hwalked & _ & Hreach).
  exists st'. split; [reflexivity|]. split.
  - apply Hreach.
    + split; [apply seen_closed_empty|].
      intros x Hx. apply not_elem_of_empty in Hx. destruct Hx.
    + apply rtc_once. exists (Scenario.plain 11 4 [2%nat]), 2%nat.
      split; [vm_compute; reflexivity|]. split; [constructor|].
      split; [discriminate|reflexivity].
  - vm_compute in Hrun. injection Hrun as <-. reflexivity.
Defined.

(** * Further properties *)

(** ** The steps of a walk *)

Section WalkSteps.

Variable env : DumpEnv.

Lemma oop_iterate_iterated (W : oop -> DumpState -> outcome bool)
    (refs : list oop) :
  forall (st : DumpState) (u : unit) (st' : DumpState),
    oop_iterate W refs st = Ret u st' -> iterated W refs st st'.
Proof.
  induction refs as [|p rest IH]; intros st u st' Hrun; simpl in Hrun.
  - injection Hrun as _ <-. constructor.
  - destruct (is_null p) eqn:Hp.
    + apply iterated_null; [done|]. by eapply IH.
    + destruct (W p st) as [[] st1| | |] eqn:HW; simpl in Hrun; try done.
      eapply iterated_cons; [done|exact HW|]. by eapply IH.
Qed.

Lemma archive_reachable_objects_from_body_inv
    (W : oop -> DumpState -> outcome bool) (level : Z) (info : klass)
    (p : oop) (st : DumpState) (b : bool) (st' : DumpState) :
  archive_reachable_objects_from_body env W level info p st = Ret b st' ->
  exists od0 od,
    p <> null /\ heap env !! p = Some od0 /\ o_supported od0 = true
    /\ walked_object env p <> null
    /\ heap env !! walked_object env p = Some od
    /\ visit env W level info (walked_object env p) od st b st'.
Proof.
  unfold archive_reachable_objects_from_body. intros Hrun.
  destruct (is_null p) eqn:Hp; [done|].
  destruct (heap env !! p) as [od0|] eqn:Hod0; [|done].
  destruct (o_supported od0) eqn:Hsup; [|done]. cbn [negb] in Hrun.
  rewrite <- (walked_object_eq env p od0 Hod0) in Hrun.
  set (obj := walked_object env p) in *.
  destruct (is_null obj) eqn:Hobj; [done|].
  destruct (heap env !! obj) as [od|] eqn:Hod; [|done].
  exists od0, od.
  split; [by apply is_null_false|]. split; [done|]. split; [done|].
  split; [by apply is_null_false|]. split; [done|].
  unfold has_been_seen_during_subgraph_recording in Hrun.
  case_bool_decide as Hseen.
  { injection Hrun as <- <-. by apply visit_seen. }
  set (stm := set_has_been_seen_during_subgraph_recording obj st) in *.
  destruct (has_been_archived obj stm) eqn:Harch.
  - cbn [bind negb] in Hrun.
    destruct (add_subgraph_object_klass env info (o_klass od) stm)
      as [[] st2| | |] eqn:Hk; cbn [bind] in Hrun; try done.
    destruct (oop_iterate W (o_refs od) (set_walker (Some obj) st2))
      as [[] st3| | |] eqn:Hit; cbn [bind] in Hrun; try done.
    destruct (o_enum_refs od) as [constants|] eqn:Henum.
    + unfold handle_enum_obj in Hrun.
      destruct (oop_iterate W constants st3) as [[] st4| | |] eqn:Hit2;
        cbn [bind] in Hrun; try done.
      injection Hrun as <- <-.
      eapply (visit_new _ _ _ _ _ _ _ stm st2 st3 st4); try done.
      * by left.
      * by eapply oop_iterate_iterated.
      * rewrite Henum. by eapply oop_iterate_iterated.
    + cbn [bind] in Hrun. injection Hrun as <- <-.
      eapply (visit_new _ _ _ _ _ _ _ stm st2 st3 st3); try done.
      * by left.
      * by eapply oop_iterate_iterated.
      * rewrite Henum. constructor.
  - destruct (archive_object env obj
                (set_session_counters (num_new_walked_objs stm)
                   (num_new_archived_objs stm + 1) stm))
      as [[] st1| | |] eqn:Hao; cbn [bind negb] in Hrun; try done.
    + destruct (add_subgraph_object_klass env info (o_klass od) st1)
        as [[] st2| | |] eqn:Hk; cbn [bind] in Hrun; try done.
      destruct (oop_iterate W (o_refs od) (set_walker (Some obj) st2))
        as [[] st3| | |] eqn:Hit; cbn [bind] in Hrun; try done.
      destruct (o_enum_refs od) as [constants|] eqn:Henum.
      * unfold handle_enum_obj in Hrun.
        destruct (oop_iterate W constants st3) as [[] st4| | |] eqn:Hit2;
          cbn [bind] in Hrun; try done.
        injection Hrun as <- <-.
        eapply (visit_new _ _ _ _ _ _ _ st1 st2 st3 st4); try done.
        -- by right.
        -- by eapply oop_iterate_iterated.
        -- rewrite Henum. by eapply oop_iterate_iterated.
      * cbn [bind] in Hrun. injection Hrun as <- <-.
        eapply (visit_new _ _ _ _ _ _ _ st1 st2 st3 st3); try done.
        -- by right.
        -- by eapply oop_iterate_iterated.
        -- rewrite Henum. constructor.
    + destruct (level =? 1) eqn:Hl; cbn [bind negb] in Hrun; [|done].
      injection Hrun as <- <-.
      apply visit_too_large; try done. by apply Z.eqb_eq.
Qed.

End WalkSteps.

(** ** Relations kept by every step of a walk and of the pass *)

Section WalkRelation.

Variable env : DumpEnv.
Variable R : DumpState -> DumpState -> Prop.

Hypothesis R_refl : forall st, R st st.
Hypothesis R_trans : forall st1 st2 st3, R st1 st2 -> R st2 st3 -> R st1 st3.
Hypothesis R_mark :
  forall obj st,
    obj ∉ seen_objects_table st ->
    R st (set_has_been_seen_during_subgraph_recording obj st).
Hypothesis R_counters : forall w a st, R st (set_session_counters w a st).
Hypothesis R_archive :
  forall obj st b st', archive_object env obj st = Ret b st' -> R st st'.
Hypothesis R_klass :
  forall info k st u st',
    add_subgraph_object_klass env info k st = Ret u st' -> R st st'.
Hypothesis R_scope :
  forall st obj st',
    R (set_walker (Some obj) st) st' ->
    R st (set_walker (walker_current st) st').

Lemma iterated_rel (W : oop -> DumpState -> outcome bool) :
  (forall p st b st', W p st = Ret b st' -> R st st') ->
  forall refs st st', iterated W refs st st' -> R st st'.
Proof.
  intros HW refs st st'. induction 1; eauto.
Qed.

Lemma archive_step_rel (obj : oop) (st st1 : DumpState) :
  obj ∉ seen_objects_table st -> archive_step env obj st st1 -> R st st1.
Proof.
  intros Hseen [[_ ->]|[_ Hao]]; [by apply R_mark|].
  eapply R_trans; [by apply R_mark|].
  eapply R_trans; [apply R_counters|]. by eapply R_archive.
Qed.

Lemma visit_rel (W : oop -> DumpState -> outcome bool) (level : Z)
    (info : klass) (obj : oop) (od : ObjDesc) (st : DumpState) (b : bool)
    (st' : DumpState) :
  (forall p st b st', W p st = Ret b st' -> R st st') ->
  visit env W level info obj od st b st' -> R st st'.
Proof.
  intros HW Hv.
  destruct Hv as [Hseen|st1 Hseen Harch Hao Hl|st1 st2 st3 st4 Hseen Hst Hk H1 H2].
  - apply R_refl.
  - eapply R_trans; [by apply R_mark|].
    eapply R_trans; [apply R_counters|]. by eapply R_archive.
  - eapply R_trans; [by eapply archive_step_rel|].
    eapply R_trans; [by eapply R_klass|].
    apply R_scope with obj.
    eapply R_trans; by eapply iterated_rel.
Qed.

Lemma archive_reachable_objects_from_rel (fuel : nat) :
  forall level info p st b st',
    archive_reachable_objects_from env fuel level info p st = Ret b st' ->
    R st st'.
Proof.
  induction fuel as [|fuel IH]; intros level info p st b st' Hrun; [done|].
  simpl in Hrun.
  apply archive_reachable_objects_from_body_inv in Hrun
    as (od0 & od & _ & _ & _ & _ & _ & Hv).
  eapply visit_rel; [|exact Hv]. intros q s c s' Hq. by eapply IH.
Qed.

Lemma verify_reachable_objects_from_rel (fuel : nat) :
  forall p st b st',
    verify_reachable_objects_from env fuel p st = Ret b st' -> R st st'.
Proof.
  induction fuel as [|fuel IH]; intros p st b st' Hrun; [done|].
  simpl in Hrun. unfold verify_reachable_objects_from_body in Hrun.
  destruct (heap env !! p) as [od0|]; [|done].
  destruct (is_null _); [done|].
  destruct (heap env !! _) as [od|]; [|done].
  unfold has_been_seen_during_subgraph_recording in Hrun.
  case_bool_decide as Hseen.
  { injection Hrun as _ <-. apply R_refl. }
  destruct (negb _); [done|].
  destruct (oop_iterate _ _ _) as [[] st3| | |] eqn:Hit; cbn [bind] in Hrun;
    try done.
  injection Hrun as _ <-.
  eapply R_trans; [by apply R_mark|].
  apply oop_iterate_iterated in Hit.
  eapply iterated_rel; [|exact Hit]. intros q s c s' Hq. by eapply IH.
Qed.

Hypothesis R_init :
  forall k is_fmg st u st',
    init_subgraph_info env k is_fmg st = Ret u st' -> R st st'.
Hypothesis R_clear : forall st, R st (set_seen (fun _ => ∅) st).
Hypothesis R_entry :
  forall k off st u st',
    add_subgraph_entry_field k off (static_field env k off) st = Ret u st' ->
    R st st'.

Lemma archive_reachable_objects_from_static_field_rel (k : klass) (off : Z)
    (st : DumpState) (u : unit) (st' : DumpState) :
  archive_reachable_objects_from_static_field env k off st = Ret u st' ->
  R st st'.
Proof.
  unfold archive_reachable_objects_from_static_field. intros Hrun.
  destruct (get_subgraph_info k st); [|done].
  destruct (is_null (static_field env k off)) eqn:Hnull; cbn [negb] in Hrun.
  - apply Nat.eqb_eq in Hnull. rewrite <- Hnull in Hrun. by eapply R_entry.
  - destruct (archive_reachable_objects_from _ _ _ _ _ _)
      as [[] st1| | |] eqn:Hw; cbn [bind negb] in Hrun; try done.
    + eapply R_trans; [by eapply archive_reachable_objects_from_rel|].
      by eapply R_entry.
    + injection Hrun as _ <-. by eapply archive_reachable_objects_from_rel.
Qed.

Lemma start_recording_subgraph_rel (k : klass) (is_fmg : bool)
    (st : DumpState) (u : unit) (st' : DumpState) :
  start_recording_subgraph env k is_fmg st = Ret u st' -> R st st'.
Proof.
  unfold start_recording_subgraph. intros Hrun.
  destruct (init_subgraph_info env k is_fmg st) as [[] st1| | |] eqn:Hi;
    cbn [bind] in Hrun; try done.
  injection Hrun as _ <-.
  eapply R_trans; [by eapply R_init|].
  eapply R_trans; [apply R_clear|]. apply R_counters.
Qed.

Lemma archive_fields_of_klass_rel (name : string)
    (fields : list ArchivableStaticFieldInfo) :
  forall st rest st',
    archive_fields_of_klass env name fields st = Ret rest st' -> R st st'.
Proof.
  induction fields as [|f fields IH]; intros st rest st' Hrun; simpl in Hrun.
  - injection Hrun as _ <-. apply R_refl.
  - destruct (negb _).
    + injection Hrun as _ <-. apply R_refl.
    + destruct (archive_reachable_objects_from_static_field _ _ _ _)
        as [[] st1| | |] eqn:Hf; cbn [bind] in Hrun; try done.
      eapply R_trans; [by eapply archive_reachable_objects_from_static_field_rel|].
      by eapply IH.
Qed.

Lemma archive_object_subgraphs_loop_rel (n : nat) :
  forall fields is_fmg st u st',
    archive_object_subgraphs_loop env n fields is_fmg st = Ret u st' ->
    R st st'.
Proof.
  induction n as [|n IH]; intros fields is_fmg st u st' Hrun;
    destruct fields as [|f fields];
    cbn [archive_object_subgraphs_loop] in Hrun; try done;
    try (injection Hrun as _ <-; apply R_refl).
  destruct (start_recording_subgraph _ _ _ _) as [[] st1| | |] eqn:Hs;
    cbn [bind] in Hrun; try done.
  destruct (archive_fields_of_klass _ _ _ _) as [rest st2| | |] eqn:Hf;
    cbn [bind] in Hrun; try done.
  eapply R_trans; [by eapply start_recording_subgraph_rel|].
  eapply R_trans; [by eapply archive_fields_of_klass_rel|].
  eapply R_trans; [apply R_clear|]. by eapply IH.
Qed.

Lemma verify_all_rel (fields : list ArchivableStaticFieldInfo) :
  forall st u st', verify_all env fields st = Ret u st' -> R st st'.
Proof.
  induction fields as [|f fields IH]; intros st u st' Hrun;
    cbn [verify_all] in Hrun.
  - injection Hrun as _ <-. apply R_refl.
  - destruct (verify_subgraph_from_static_field _ _ _ _)
      as [[] st1| | |] eqn:Hv; cbn [bind] in Hrun; try done.
    eapply R_trans; [|by eapply IH].
    unfold verify_subgraph_from_static_field, verify_subgraph_from in Hv.
    destruct (negb (is_null _)); [|injection Hv as <-; apply R_refl].
    destruct (negb (has_been_archived _ _));
      [injection Hv as <-; apply R_refl|].
    destruct (verify_reachable_objects_from _ _ _ _)
      as [c st2| | |] eqn:Hw; cbn [bind] in Hv; try done.
    injection Hv as <-.
    eapply R_trans; [apply R_clear|].
    eapply R_trans; [by eapply verify_reachable_objects_from_rel|].
    apply R_clear.
Qed.

Lemma archive_object_subgraphs_rel
    (fields : list ArchivableStaticFieldInfo) (is_fmg : bool)
    (st : DumpState) (u : unit) (st' : DumpState) :
  archive_object_subgraphs env fields is_fmg st = Ret u st' -> R st st'.
Proof.
  unfold archive_object_subgraphs. intros Hrun.
  destruct (archive_object_subgraphs_loop _ _ _ _ _) as [[] st1| | |] eqn:Hl;
    cbn [bind] in Hrun; try done.
  eapply R_trans; [by eapply archive_object_subgraphs_loop_rel|].
  destruct (PRODUCT env).
  - injection Hrun as _ <-. apply R_refl.
  - by eapply verify_all_rel.
Qed.

End WalkRelation.

(** ** The tables of the dump only grow *)

Section TablesGrow.

Variable env : DumpEnv.

Lemma tables_grow_refl (st : DumpState) : tables_grow st st.
Proof. by repeat split. Qed.

Lemma tables_grow_trans (st1 st2 st3 : DumpState) :
  tables_grow st1 st2 -> tables_grow st2 st3 -> tables_grow st1 st3.
Proof.
  intros (?&?&?&?&?) (?&?&?&?&?). repeat split; by etrans.
Qed.

Lemma archive_object_tables_grow (obj : oop) (st : DumpState) (b : bool)
    (st' : DumpState) :
  archive_object env obj st = Ret b st' -> tables_grow st st'.
Proof.
  intros Hrun. apply archive_object_inv in Hrun as (od & _ & _ & Hcase).
  destruct Hcase as [(_&_&->)|[(_&_&_&->)|(Hnew&_&_&->)]];
    try apply tables_grow_refl.
  apply has_been_archived_false in Hnew.
  destruct (archived_state_inv env obj od st Hnew)
    as ((_&_&_&_&Hroots&Hsrc&Hmark)&_).
  destruct (archived_state_frame env obj od st) as (_&_&_&_&Htab&Hcache&_).
  split; [|split; [done|split; [done|split; [done|by rewrite Htab]]]].
  rewrite Hcache. by apply insert_subseteq.
Qed.

Lemma add_subgraph_object_klass_inv (i orig_k : klass) (st : DumpState)
    (u : unit) (st' : DumpState) :
  add_subgraph_object_klass env i orig_k st = Ret u st' ->
  exists info,
    dump_time_subgraph_info_table st !! i = Some info
    /\ ((klass_exempt env info orig_k
         /\ st' = store_klasses i info
                    (default [] (sg_subgraph_object_klasses info))
                    (sg_has_non_early_klasses info) st)
        \/ (sg_k info <> get_buffered_klass env orig_k
            /\ recorded_kind_ok env (get_buffered_klass env orig_k)
            /\ allowed_origin env orig_k
            /\ st' = store_klasses i info
                       (append_if_missing (get_buffered_klass env orig_k)
                          (default [] (sg_subgraph_object_klasses info)))
                       (sg_has_non_early_klasses info
                        || is_non_early_klass env orig_k) st)).
Proof.
  unfold add_subgraph_object_klass, get_subgraph_info. intros Hrun.
  destruct (dump_time_subgraph_info_table st !! i) as [info|]; [|done].
  exists info. split; [done|].
  unfold klass_exempt, recorded_kind_ok, allowed_origin.
  destruct (is_in_buffer_space env (get_buffered_klass env orig_k));
    cbn [negb] in Hrun; [|done].
  destruct (Nat.eqb (sg_k info) (get_buffered_klass env orig_k)) eqn:Hk.
  { apply Nat.eqb_eq in Hk. injection Hrun as _ <-. left. by split; [left|]. }
  apply Nat.eqb_neq in Hk.
  destruct (kd_kind (klass_desc env (get_buffered_klass env orig_k)))
    as [|abk|] eqn:Hkind.
  - destruct (negb (ArchiveInvokeDynamic env) && negb _); [done|].
    destruct (Nat.eqb orig_k (String_klass env)) eqn:HS.
    { apply Nat.eqb_eq in HS. injection Hrun as _ <-. left.
      split; [|done]. right. left. split; [done|by left]. }
    destruct (Nat.eqb orig_k (Object_klass env)) eqn:HO.
    { apply Nat.eqb_eq in HO. injection Hrun as _ <-. left.
      split; [|done]. right. left. split; [done|by right]. }
    apply Nat.eqb_neq in HS, HO. cbn [orb] in Hrun.
    destruct (check_allowed_klass env orig_k) as [[]|] eqn:Hal; [|done|done].
    injection Hrun as _ <-. right. by repeat split.
  - destruct (kd_kind (klass_desc env abk)) eqn:Habk.
    + destruct (negb (kd_is_shared_boot_class _)); [done|].
      destruct (kd_kind (klass_desc env orig_k)) as [|ob|] eqn:Horig;
        try done.
      destruct (check_allowed_klass env ob) as [[]|] eqn:Hal; [|done|done].
      destruct (Nat.eqb _ (objectArrayKlassObj env)) eqn:Hoa.
      * apply Nat.eqb_eq in Hoa. injection Hrun as _ <-. left.
        split; [|done]. right. right. left. split; [by exists abk|done].
      * apply Nat.eqb_neq in Hoa. injection Hrun as _ <-. right.
        split; [done|]. split; [done|]. split; [by exists ob|done].
    + destruct (Nat.eqb _ (objectArrayKlassObj env)) eqn:Hoa.
      * apply Nat.eqb_eq in Hoa. injection Hrun as _ <-. left.
        split; [|done]. right. right. left. split; [by exists abk|done].
      * apply Nat.eqb_neq in Hoa. injection Hrun as _ <-. right.
        by repeat split.
    + destruct (Nat.eqb _ (objectArrayKlassObj env)) eqn:Hoa.
      * apply Nat.eqb_eq in Hoa. injection Hrun as _ <-. left.
        split; [|done]. right. right. left. split; [by exists abk|done].
      * apply Nat.eqb_neq in Hoa. injection Hrun as _ <-. right.
        by repeat split.
  - injection Hrun as _ <-. left. split; [|done]. by right; right; right.
Qed.

Lemma add_subgraph_object_klass_tables_grow (info k : klass) (st : DumpState)
    (u : unit) (st' : DumpState) :
  add_subgraph_object_klass env info k st = Ret u st' -> tables_grow st st'.
Proof.
  intros Hrun.
  apply add_subgraph_object_klass_inv in Hrun as (i & Hi & [[_ ->]|(_&_&_&->)]);
    (repeat split; try done; simpl; rewrite dom_insert_L;
     apply union_subseteq_r).
Qed.

Lemma init_subgraph_info_inv (k : klass) (is_fmg : bool) (st : DumpState)
    (u : unit) (st' : DumpState) :
  init_subgraph_info env k is_fmg st = Ret u st' ->
  dump_time_subgraph_info_table st !! k = None
  /\ st' = set_infos
             (fun t => <[k := new_KlassSubGraphInfo (get_buffered_klass env k)
                                is_fmg]> t) st.
Proof.
  unfold init_subgraph_info.
  destruct (dump_time_subgraph_info_table st !! k); [done|].
  by intros [= _ <-].
Qed.

Lemma add_subgraph_entry_field_inv (k : klass) (off : Z) (v : oop)
    (st : DumpState) (u : unit) (st' : DumpState) :
  add_subgraph_entry_field k off v st = Ret u st' ->
  exists info,
    dump_time_subgraph_info_table st !! k = Some info
    /\ st' = set_infos
               (fun t => <[k :=
                  {| sg_k := sg_k info;
                     sg_subgraph_object_klasses :=
                       sg_subgraph_object_klasses info;
                     sg_subgraph_entry_fields :=
                       Some (default [] (sg_subgraph_entry_fields info)
                             ++ [off; Z.of_nat (length (pending_roots st))]);
                     sg_is_full_module_graph := sg_is_full_module_graph info;
                     sg_has_non_early_klasses :=
                       sg_has_non_early_klasses info |}]> t)
               (set_roots (fun l => l ++ [v]) st).
Proof.
  unfold add_subgraph_entry_field, get_subgraph_info.
  destruct (dump_time_subgraph_info_table st !! k) as [info|]; [|done].
  intros [= _ <-]. by exists info.
Qed.

Lemma archive_object_subgraphs_tables_grow
    (fields : list ArchivableStaticFieldInfo) (is_fmg : bool)
    (st : DumpState) (u : unit) (st' : DumpState) :
  archive_object_subgraphs env fields is_fmg st = Ret u st' ->
  tables_grow st st'.
Proof.
  apply (archive_object_subgraphs_rel env tables_grow).
  - apply tables_grow_refl.
  - apply tables_grow_trans.
  - intros. by repeat split.
  - intros. by repeat split.
  - intros. by eapply archive_object_tables_grow.
  - intros. by eapply add_subgraph_object_klass_tables_grow.
  - intros s obj s' H. exact H.
  - intros k fmg s v s' H. apply init_subgraph_info_inv in H as [_ ->].
    repeat split; try done. simpl. rewrite dom_insert_L.
    apply union_subseteq_r.
  - intros. by repeat split.
  - intros k off s v s' H.
    apply add_subgraph_entry_field_inv in H as (info & _ & ->).
    repeat split; try done.
    + simpl. by apply prefix_app_r.
    + simpl. rewrite dom_insert_L. apply union_subseteq_r.
Qed.

(** X1.  Whatever a pass over a table of entry fields put into the tables of
    the dump before, it finds there afterwards: an archived object keeps its
    cache entry and its referrer, a root its index, a queued source object its
    place in the queue, and an object its installed identity hash. *)
Theorem archive_object_subgraphs_keeps_tables
    (fields : list ArchivableStaticFieldInfo) (is_fmg : bool)
    (st st' : DumpState) :
  archive_object_subgraphs env fields is_fmg st = Ret tt st' ->
  (forall obj referrer,
      archived_object_cache st !! obj = Some referrer ->
      archived_object_cache st' !! obj = Some referrer)
  /\ (forall (i : nat) v,
         pending_roots st !! i = Some v -> pending_roots st' !! i = Some v)
  /\ (forall (i : nat) v,
         source_objs st !! i = Some v -> source_objs st' !! i = Some v)
  /\ (forall obj h,
         mark_hash st !! obj = Some h -> mark_hash st' !! obj = Some h)
  /\ (forall k,
         is_Some (get_subgraph_info k st) -> is_Some (get_subgraph_info k st')).
Proof.
  intros Hrun.
  apply archive_object_subgraphs_tables_grow in Hrun
    as (Hcache & Hroots & Hsrc & Hmark & Hdom).
  split; [intros obj r H; by eapply lookup_weaken|].
  split; [intros i v H; by eapply prefix_lookup_Some|].
  split; [intros i v H; by eapply prefix_lookup_Some|].
  split; [intros obj h H; by eapply lookup_weaken|].
  intros k Hk. unfold get_subgraph_info in *.
  apply elem_of_dom. apply Hdom. by apply elem_of_dom.
Qed.

End TablesGrow.

(** ** The entry fields of the recorder *)

Lemma entries_in_range_mono (n m : nat) (l : list Z) :
  (n <= m)%nat -> entries_in_range n l -> entries_in_range m l.
Proof.
  intros Hle. induction 1 as [|off idx rest Hidx _ IH]; constructor;
    [lia|done].
Qed.

Lemma entries_in_range_snoc (n : nat) (l : list Z) (off : Z) :
  entries_in_range n l -> entries_in_range (S n) (l ++ [off; Z.of_nat n]).
Proof.
  induction 1 as [|o idx rest Hidx _ IH]; simpl.
  - constructor; [lia|constructor].
  - constructor; [lia|done].
Qed.

Lemma root_indices_snoc (n : nat) (l : list Z) (off idx : Z) :
  entries_in_range n l ->
  root_indices (l ++ [off; idx]) = root_indices l ++ [idx].
Proof.
  induction 1 as [|o i rest _ _ IH]; simpl; [done|by rewrite IH].
Qed.

Lemma entry_pairs_snoc (n : nat) (l : list Z) (off idx : Z) :
  entries_in_range n l ->
  entry_pairs (l ++ [off; idx]) = entry_pairs l ++ [(off, idx)].
Proof.
  induction 1 as [|o i rest _ _ IH]; simpl; [done|by rewrite IH].
Qed.

Lemma root_indices_bound (n : nat) (l : list Z) :
  entries_in_range n l ->
  forall idx, idx ∈ root_indices l -> 0 <= idx < Z.of_nat n.
Proof.
  induction 1 as [|o i rest Hi _ IH]; simpl; intros idx Hin.
  - by apply elem_of_nil in Hin.
  - apply elem_of_cons in Hin as [->|Hin]; [done|by apply IH].
Qed.

Section EntryFields.

Variable env : DumpEnv.

Lemma archive_object_table (obj : oop) (st : DumpState) (b : bool)
    (st' : DumpState) :
  archive_object env obj st = Ret b st' ->
  dump_time_subgraph_info_table st' = dump_time_subgraph_info_table st.
Proof.
  intros Hrun. apply archive_object_inv in Hrun as (od & _ & _ & Hcase).
  destruct Hcase as [(_&_&->)|[(_&_&_&->)|(_&_&_&->)]]; try done.
  by destruct (archived_state_frame env obj od st) as (_&_&_&_&Htab&_).
Qed.

Lemma entry_fields_wf_kept (st st' : DumpState) :
  (forall k i',
      dump_time_subgraph_info_table st' !! k = Some i' ->
      sg_subgraph_entry_fields i' = None
      \/ exists i, dump_time_subgraph_info_table st !! k = Some i
                   /\ sg_subgraph_entry_fields i' = sg_subgraph_entry_fields i) ->
  pending_roots st `prefix_of` pending_roots st' ->
  entry_fields_wf env st -> entry_fields_wf env st'.
Proof.
  intros Htab Hroots Hwf k i' Hi'.
  destruct (Htab k i' Hi') as [->|(i & Hi & ->)].
  - simpl. split; [constructor|]. split; [constructor|].
    intros off idx Hin. by apply elem_of_nil in Hin.
  - destruct (Hwf k i Hi) as (Hrange & Hnodup & Hval).
    split; [|split; [done|]].
    + eapply entries_in_range_mono; [|exact Hrange].
      by apply prefix_length.
    + intros off idx Hin. eapply prefix_lookup_Some; [|exact Hroots].
      by apply Hval.
Qed.

Lemma add_subgraph_entry_field_wf (k : klass) (off : Z) (st : DumpState)
    (u : unit) (st' : DumpState) :
  add_subgraph_entry_field k off (static_field env k off) st = Ret u st' ->
  entry_fields_wf env st -> entry_fields_wf env st'.
Proof.
  intros Hrun Hwf.
  apply add_subgraph_entry_field_inv in Hrun as (info & Hinfo & ->).
  intros k' i' Hi'. simpl in Hi'.
  assert (length (pending_roots st ++ [static_field env k off])
          = S (length (pending_roots st))) as Hlen
    by (rewrite length_app; simpl; lia).
  destruct (decide (k' = k)) as [->|Hne].
  - rewrite lookup_insert_eq in Hi'. injection Hi' as <-. simpl.
    destruct (Hwf k info Hinfo) as (Hrange & Hnodup & Hval).
    rewrite Hlen.
    split; [by apply entries_in_range_snoc|]. split.
    + rewrite (root_indices_snoc _ _ _ _ Hrange).
      apply NoDup_app. split; [done|]. split; [|apply NoDup_singleton].
      intros idx Hidx Hin. apply list_elem_of_singleton in Hin as ->.
      apply (root_indices_bound _ _ Hrange) in Hidx. lia.
    + intros o idx Hin. rewrite (entry_pairs_snoc _ _ _ _ Hrange) in Hin.
      apply elem_of_app in Hin as [Hin|Hin].
      * apply lookup_app_l_Some. by apply Hval.
      * apply list_elem_of_singleton in Hin. injection Hin as -> ->.
        rewrite Nat2Z.id. by apply list_lookup_middle.
  - rewrite lookup_insert_ne in Hi' by done.
    destruct (Hwf k' i' Hi') as (Hrange & Hnodup & Hval).
    split; [|split; [done|]].
    + simpl. rewrite Hlen. eapply entries_in_range_mono; [|exact Hrange]. lia.
    + intros o idx Hin. simpl. apply lookup_app_l_Some. by apply Hval.
Qed.

Lemma archive_object_subgraphs_entry_fields_wf
    (fields : list ArchivableStaticFieldInfo) (is_fmg : bool)
    (st : DumpState) (u : unit) (st' : DumpState) :
  archive_object_subgraphs env fields is_fmg st = Ret u st' ->
  entry_fields_wf env st -> entry_fields_wf env st'.
Proof.
  apply (archive_object_subgraphs_rel env
           (fun s s' => entry_fields_wf env s -> entry_fields_wf env s')).
  - done.
  - intros s1 s2 s3 H1 H2 H. auto.
  - intros obj s _ H. exact H.
  - intros w a s H. exact H.
  - intros obj s b s' Hrun. apply entry_fields_wf_kept.
    + intros k i' Hi'. right. exists i'.
      by rewrite <- (archive_object_table _ _ _ _ Hrun).
    + by apply archive_object_tables_grow in Hrun as (_&?&_).
  - intros info k s v s' Hrun. apply entry_fields_wf_kept.
    + intros k' i' Hi'. right.
      apply add_subgraph_object_klass_inv in Hrun
        as (i & Hi & [[_ ->]|(_&_&_&->)]); simpl in Hi';
        (destruct (decide (k' = info)) as [->|Hne];
         [rewrite lookup_insert_eq in Hi'; injection Hi' as <-; by exists i
         |rewrite lookup_insert_ne in Hi' by done; by exists i']).
    + by apply add_subgraph_object_klass_tables_grow in Hrun as (_&?&_).
  - intros s obj s' H Hwf. by apply H.
  - intros k fmg s v s' Hrun. apply entry_fields_wf_kept.
    + intros k' i' Hi'. apply init_subgraph_info_inv in Hrun as [_ ->].
      simpl in Hi'. destruct (decide (k' = k)) as [->|Hne].
      * rewrite lookup_insert_eq in Hi'. injection Hi' as <-. by left.
      * rewrite lookup_insert_ne in Hi' by done. right. by exists i'.
    + by apply init_subgraph_info_inv in Hrun as [_ ->].
  - intros s H. exact H.
  - intros k off s v s'. apply add_subgraph_entry_field_wf.
Qed.

(** X2.  The pass keeps the entry fields of the recorder well formed: each
    recorder entry holds complete (offset, root index) pairs, the root
    indices of an entry are distinct and address the root table, and the
    root of a pair is the value of the static field of the holder at the
    offset of the pair. *)
Theorem archive_object_subgraphs_entry_fields
    (fields : list ArchivableStaticFieldInfo) (is_fmg : bool)
    (st st' : DumpState) :
  entry_fields_wf env st ->
  archive_object_subgraphs env fields is_fmg st = Ret tt st' ->
  forall k info,
    get_subgraph_info k st' = Some info ->
    entries_in_range (length (pending_roots st'))
      (default [] (sg_subgraph_entry_fields info))
    /\ NoDup (root_indices (default [] (sg_subgraph_entry_fields info)))
    /\ forall off idx,
         (off, idx) ∈ entry_pairs (default [] (sg_subgraph_entry_fields info)) ->
         pending_roots st' !! Z.to_nat idx = Some (static_field env k off).
Proof.
  intros Hwf Hrun.
  by apply (archive_object_subgraphs_entry_fields_wf _ _ _ _ _ Hrun).
Qed.

End EntryFields.

(** ** The class lists of the recorder *)

Lemma elem_of_append_if_missing (x k : klass) (l : list klass) :
  x ∈ append_if_missing k l <-> x ∈ l \/ x = k.
Proof.
  unfold append_if_missing. destruct (existsb (Nat.eqb k) l) eqn:Hex.
  - apply existsb_exists in Hex as (y & Hy & Heq).
    apply Nat.eqb_eq in Heq as <-. apply list_elem_of_In in Hy.
    split; [by left|]. by intros [?| ->].
  - rewrite elem_of_app, list_elem_of_singleton. done.
Qed.

Lemma NoDup_append_if_missing (k : klass) (l : list klass) :
  NoDup l -> NoDup (append_if_missing k l).
Proof.
  intros Hl. unfold append_if_missing.
  destruct (existsb (Nat.eqb k) l) eqn:Hex; [done|].
  apply NoDup_app. split; [done|]. split; [|apply NoDup_singleton].
  intros x Hx Hin. apply list_elem_of_singleton in Hin as ->.
  assert (existsb (Nat.eqb k) l = true) as Habs; [|congruence].
  apply existsb_exists. exists k. split; [by apply list_elem_of_In|].
  by apply Nat.eqb_eq.
Qed.

Section ClassLists.

Variable env : DumpEnv.

(** A relation on the recorder entries that the steps other than
    [add_subgraph_object_klass] keep. *)
Lemma klass_lists_kept (I : DumpEnv -> DumpState -> Prop) :
  (forall st st',
      (forall k i',
          dump_time_subgraph_info_table st' !! k = Some i' ->
          sg_subgraph_object_klasses i' = None
          \/ exists i, dump_time_subgraph_info_table st !! k = Some i
                       /\ sg_subgraph_object_klasses i'
                          = sg_subgraph_object_klasses i
                       /\ sg_k i' = sg_k i
                       /\ sg_has_non_early_klasses i'
                          = sg_has_non_early_klasses i) ->
      I env st -> I env st') ->
  (forall info k st u st',
      add_subgraph_object_klass env info k st = Ret u st' ->
      I env st -> I env st') ->
  forall fields is_fmg st u st',
    archive_object_subgraphs env fields is_fmg st = Ret u st' ->
    I env st -> I env st'.
Proof.
  intros Hkept Hadd fields is_fmg st u st'.
  apply (archive_object_subgraphs_rel env (fun s s' => I env s -> I env s')).
  - done.
  - intros s1 s2 s3 H1 H2 H. auto.
  - intros obj s _ H. revert H. apply Hkept.
    intros k i' Hi'. right. by exists i'.
  - intros w a s H. revert H. apply Hkept.
    intros k i' Hi'. right. by exists i'.
  - intros obj s b s' Hrun. apply Hkept.
    intros k i' Hi'. right. exists i'.
    by rewrite <- (archive_object_table _ _ _ _ _ Hrun).
  - exact Hadd.
  - intros s obj s' H HI.
    apply (Hkept s'); [intros k i' Hi'; right; by exists i'|].
    apply H. revert HI. apply Hkept.
    intros k i' Hi'. right. by exists i'.
  - intros k fmg s v s' Hrun. apply Hkept.
    intros k' i' Hi'. apply init_subgraph_info_inv in Hrun as [_ ->].
    simpl in Hi'. destruct (decide (k' = k)) as [->|Hne].
    + rewrite lookup_insert_eq in Hi'. injection Hi' as <-. by left.
    + rewrite lookup_insert_ne in Hi' by done. right. by exists i'.
  - intros s. apply Hkept. intros k i' Hi'. right. by exists i'.
  - intros k off s v s' Hrun. apply Hkept.
    intros k' i' Hi'. right.
    apply add_subgraph_entry_field_inv in Hrun as (i & Hi & ->).
    simpl in Hi'. destruct (decide (k' = k)) as [->|Hne].
    + rewrite lookup_insert_eq in Hi'. injection Hi' as <-. by exists i.
    + rewrite lookup_insert_ne in Hi' by done. by exists i'.
Qed.

Lemma subgraph_klasses_wf_pass
    (fields : list ArchivableStaticFieldInfo) (is_fmg : bool)
    (st : DumpState) (u : unit) (st' : DumpState) :
  archive_object_subgraphs env fields is_fmg st = Ret u st' ->
  subgraph_klasses_wf env st -> subgraph_klasses_wf env st'.
Proof.
  apply (klass_lists_kept subgraph_klasses_wf).
  - intros s s' Htab Hwf k i' Hi'.
    destruct (Htab k i' Hi') as [->|(i & Hi & -> & -> & _)].
    + simpl. split; [constructor|]. split; [apply not_elem_of_nil|constructor].
    + by apply Hwf with k.
  - intros info k s v s' Hrun Hwf k' i' Hi'.
    apply add_subgraph_object_klass_inv in Hrun
      as (i & Hi & [[_ ->]|(Hk & Hkind & _ & ->)]); simpl in Hi'.
    + destruct (decide (k' = info)) as [->|Hne].
      * rewrite lookup_insert_eq in Hi'. injection Hi' as <-. simpl.
        by apply Hwf with info.
      * rewrite lookup_insert_ne in Hi' by done. by apply Hwf with k'.
    + destruct (decide (k' = info)) as [->|Hne].
      * rewrite lookup_insert_eq in Hi'. injection Hi' as <-. simpl.
        destruct (Hwf info i Hi) as (Hnodup & Hholder & Hkinds).
        split; [by apply NoDup_append_if_missing|]. split.
        -- intros Hin. apply elem_of_append_if_missing in Hin as [Hin|Heq];
             [by apply Hholder|by apply Hk].
        -- apply Forall_forall. intros x Hx.
           apply elem_of_append_if_missing in Hx as [Hx| ->]; [|done].
           by eapply Forall_forall in Hkinds.
      * rewrite lookup_insert_ne in Hi' by done. by apply Hwf with k'.
Qed.

Lemma subgraph_klasses_origins_pass
    (fields : list ArchivableStaticFieldInfo) (is_fmg : bool)
    (st : DumpState) (u : unit) (st' : DumpState) :
  archive_object_subgraphs env fields is_fmg st = Ret u st' ->
  subgraph_klasses_origins env st -> subgraph_klasses_origins env st'.
Proof.
  apply (klass_lists_kept subgraph_klasses_origins).
  - intros s s' Htab Hwf k i' Hi' bk Hbk.
    destruct (Htab k i' Hi') as [Hnone|(i & Hi & Hks & _ & Hflag)].
    + rewrite Hnone in Hbk. by apply elem_of_nil in Hbk.
    + rewrite Hks in Hbk. rewrite Hflag. by apply Hwf with k.
  - intros info k s v s' Hrun Hwf k' i' Hi' bk Hbk.
    apply add_subgraph_object_klass_inv in Hrun
      as (i & Hi & [[_ ->]|(_ & _ & Hallowed & ->)]); simpl in Hi'.
    + destruct (decide (k' = info)) as [->|Hne].
      * rewrite lookup_insert_eq in Hi'. injection Hi' as <-. simpl in *.
        by apply Hwf with info.
      * rewrite lookup_insert_ne in Hi' by done. by apply Hwf with k'.
    + destruct (decide (k' = info)) as [->|Hne].
      * rewrite lookup_insert_eq in Hi'. injection Hi' as <-. simpl in *.
        apply elem_of_append_if_missing in Hbk as [Hbk| ->].
        -- destruct (Hwf info i Hi bk Hbk) as (orig & Horig & Hal & Hearly).
           exists orig. split; [done|]. split; [done|].
           intros Hflag. apply orb_false_iff in Hflag as [Hflag _]. auto.
        -- exists k. split; [done|]. split; [done|].
           intros Hflag. by apply orb_false_iff in Hflag as [_ Hflag].
      * rewrite lookup_insert_ne in Hi' by done. by apply Hwf with k'.
Qed.

(** X3.  The pass keeps the class lists of the recorder well formed: a list
    holds no class twice, never the holder of its entry, never a primitive
    array class and never the array class of [Object]. *)
Theorem archive_object_subgraphs_klass_lists
    (fields : list ArchivableStaticFieldInfo) (is_fmg : bool)
    (st st' : DumpState) :
  subgraph_klasses_wf env st ->
  archive_object_subgraphs env fields is_fmg st = Ret tt st' ->
  forall k info,
    get_subgraph_info k st' = Some info ->
    NoDup (default [] (sg_subgraph_object_klasses info))
    /\ (sg_k info ∉ default [] (sg_subgraph_object_klasses info))
    /\ forall buffered_k,
         buffered_k ∈ default [] (sg_subgraph_object_klasses info) ->
         kd_kind (klass_desc env buffered_k) <> TypeArrayK
         /\ ((exists abk, kd_kind (klass_desc env buffered_k) = ObjArrayK abk) ->
             buffered_k <> objectArrayKlassObj env).
Proof.
  intros Hwf Hrun k info Hinfo.
  destruct (subgraph_klasses_wf_pass _ _ _ _ _ Hrun Hwf k info Hinfo)
    as (Hnodup & Hholder & Hkinds).
  split; [done|]. split; [done|].
  intros bk Hbk. eapply Forall_forall in Hkinds; [|exact Hbk].
  unfold recorded_kind_ok in Hkinds.
  destruct (kd_kind (klass_desc env bk)) eqn:Hkind; [| |done].
  - split; [done|]. by intros [abk Habk].
  - split; [done|]. by intros _.
Qed.

(** X4.  Every class the pass records is the buffered copy of a class that
    [check_allowed_klass] accepts (for an object-array class, its bottom
    class), never of [String] or [Object]; and an entry whose
    [_has_non_early_klasses] flag is still unset holds the copies of early
    classes only. *)
Theorem archive_object_subgraphs_klass_origins
    (fields : list ArchivableStaticFieldInfo) (is_fmg : bool)
    (st st' : DumpState) :
  subgraph_klasses_origins env st ->
  archive_object_subgraphs env fields is_fmg st = Ret tt st' ->
  forall k info buffered_k,
    get_subgraph_info k st' = Some info ->
    buffered_k ∈ default [] (sg_subgraph_object_klasses info) ->
    exists orig_k,
      buffered_k = get_buffered_klass env orig_k
      /\ allowed_origin env orig_k
      /\ (sg_has_non_early_klasses info = false ->
          is_non_early_klass env orig_k = false).
Proof.
  intros Hwf Hrun k info bk Hinfo Hbk.
  by apply (subgraph_klasses_origins_pass _ _ _ _ _ Hrun Hwf k info Hinfo).
Qed.

End ClassLists.

(** ** The classes of a subgraph are all accounted for *)

Section ClassCoverage.

Variable env : DumpEnv.
Variable k : klass.

Lemma klasses_grow_refl (st : DumpState) : klasses_grow k st st.
Proof. intros i Hi. by exists i. Qed.

Lemma klasses_grow_trans (st1 st2 st3 : DumpState) :
  klasses_grow k st1 st2 -> klasses_grow k st2 st3 -> klasses_grow k st1 st3.
Proof.
  intros H1 H2 i Hi. destruct (H1 i Hi) as (i2 & Hi2 & Hk2 & Hs2).
  destruct (H2 i2 Hi2) as (i3 & Hi3 & Hk3 & Hs3).
  exists i3. split; [done|]. split; [congruence|]. auto.
Qed.

Lemma klasses_grow_same_table (st st' : DumpState) :
  dump_time_subgraph_info_table st' = dump_time_subgraph_info_table st ->
  klasses_grow k st st'.
Proof. intros Heq i Hi. exists i. by rewrite Heq. Qed.

Lemma add_subgraph_object_klass_grow (info orig_k : klass) (st : DumpState)
    (u : unit) (st' : DumpState) :
  add_subgraph_object_klass env info orig_k st = Ret u st' ->
  klasses_grow k st st'.
Proof.
  intros Hrun i Hi.
  apply add_subgraph_object_klass_inv in Hrun
    as (i0 & Hi0 & [[_ ->]|(_ & _ & _ & ->)]); simpl;
    (destruct (decide (k = info)) as [->|Hne];
     [rewrite lookup_insert_eq; eexists; split; [done|];
      assert (i0 = i) as -> by congruence; simpl; split; [done|]
     |rewrite lookup_insert_ne by done; by exists i]).
  - done.
  - intros x Hx. apply elem_of_append_if_missing. by left.
Qed.

Lemma archive_reachable_objects_from_grow (fuel : nat) (level : Z)
    (info : klass) (p : oop) (st : DumpState) (b : bool) (st' : DumpState) :
  archive_reachable_objects_from env fuel level info p st = Ret b st' ->
  klasses_grow k st st'.
Proof.
  apply (archive_reachable_objects_from_rel env (klasses_grow k)).
  - apply klasses_grow_refl.
  - apply klasses_grow_trans.
  - intros. by apply klasses_grow_same_table.
  - intros. by apply klasses_grow_same_table.
  - intros obj s c s' Hrun. apply klasses_grow_same_table.
    by eapply archive_object_table.
  - intros. by eapply add_subgraph_object_klass_grow.
  - intros s obj s' H. exact H.
Qed.

Lemma accounted_at_grow (st st' : DumpState) (o : oop) :
  klasses_grow k st st' -> accounted_at env k st o -> accounted_at env k st' o.
Proof.
  intros Hgrow Hacc od Hod. destruct (Hacc od Hod) as (i & Hi & Hk).
  destruct (Hgrow i Hi) as (i' & Hi' & Hsame & Hsub).
  exists i'. split; [done|]. destruct Hk as [Hin|Hex]; [left; auto|].
  right. unfold klass_exempt in *. by rewrite Hsame.
Qed.

Lemma add_subgraph_object_klass_accounted (orig_k : klass) (st : DumpState)
    (u : unit) (st' : DumpState) :
  add_subgraph_object_klass env k orig_k st = Ret u st' ->
  exists info,
    dump_time_subgraph_info_table st' !! k = Some info
    /\ klass_accounted env info orig_k.
Proof.
  intros Hrun.
  apply add_subgraph_object_klass_inv in Hrun
    as (i & Hi & [[Hex ->]|(_ & _ & _ & ->)]); simpl;
    rewrite lookup_insert_eq; eexists; (split; [done|]).
  - by right.
  - left. simpl. apply elem_of_append_if_missing. by right.
Qed.

Lemma archive_step_seen (obj : oop) (st st1 : DumpState) :
  archive_step env obj st st1 ->
  seen_objects_table st1 = {[obj]} ∪ seen_objects_table st.
Proof.
  intros [[_ ->]|[_ Hao]]; [done|].
  apply archive_object_inv in Hao as (od & _ & _ & Hcase).
  destruct Hcase as [(_&_&->)|[(_&_&?&_)|(_&_&_&->)]]; try done.
  by rewrite archived_state_inv_seen.
Qed.

Lemma add_subgraph_object_klass_seen (info orig_k : klass) (st : DumpState)
    (u : unit) (st' : DumpState) :
  add_subgraph_object_klass env info orig_k st = Ret u st' ->
  seen_objects_table st' = seen_objects_table st.
Proof.
  intros Hrun.
  by apply add_subgraph_object_klass_inv in Hrun
    as (i & Hi & [[_ ->]|(_ & _ & _ & ->)]).
Qed.

Lemma iterated_accounted (W : oop -> DumpState -> outcome bool) :
  (forall p st b st', W p st = Ret b st' -> klasses_grow k st st') ->
  (forall p st st',
      W p st = Ret true st' ->
      forall o, o ∈ seen_objects_table st' -> o ∉ seen_objects_table st ->
                accounted_at env k st' o) ->
  forall refs st st',
    iterated W refs st st' ->
    klasses_grow k st st'
    /\ forall o, o ∈ seen_objects_table st' -> o ∉ seen_objects_table st ->
                 accounted_at env k st' o.
Proof.
  intros Hgrow Hacc refs st st'.
  induction 1 as [st|p rest st st' _ _ IH|p rest st st1 st' _ HW _ IH].
  - split; [apply klasses_grow_refl|]. intros o Ho Hn. by destruct Hn.
  - done.
  - destruct IH as (Hg & Hnew).
    split; [eapply klasses_grow_trans; [by eapply Hgrow|done]|].
    intros o Ho Hn.
    destruct (decide (o ∈ seen_objects_table st1)) as [Hin|Hout].
    + eapply accounted_at_grow; [exact Hg|]. by eapply Hacc.
    + by apply Hnew.
Qed.

Lemma archive_reachable_objects_from_accounted (fuel : nat) :
  forall level p st st',
    archive_reachable_objects_from env fuel level k p st = Ret true st' ->
    forall o, o ∈ seen_objects_table st' -> o ∉ seen_objects_table st ->
              accounted_at env k st' o.
Proof.
  induction fuel as [|fuel IH]; intros level p st st' Hrun o Ho Hn; [done|].
  simpl in Hrun.
  apply archive_reachable_objects_from_body_inv in Hrun
    as (od0 & od & _ & _ & _ & _ & Hod & Hv).
  inversion Hv as [Hseen|?|st1 st2 st3 st4 Hseen Hst Hk H1 H2]; subst.
  { done. }
  simpl in Ho.
  set (W := archive_reachable_objects_from env fuel (level + 1) k) in *.
  assert (forall q s b s', W q s = Ret b s' -> klasses_grow k s s') as HWg
    by (intros q s b s'; apply archive_reachable_objects_from_grow).
  assert (forall q s s',
             W q s = Ret true s' ->
             forall o, o ∈ seen_objects_table s' -> o ∉ seen_objects_table s ->
                       accounted_at env k s' o) as HWa
    by (intros q s s'; apply IH).
  destruct (iterated_accounted W HWg HWa _ _ _ H1) as (Hg1 & Hn1).
  destruct (iterated_accounted W HWg HWa _ _ _ H2) as (Hg2 & Hn2).
  assert (seen_objects_table st2
          = {[walked_object env p]} ∪ seen_objects_table st) as Hseen2.
  { rewrite (add_subgraph_object_klass_seen _ _ _ _ _ Hk).
    by apply archive_step_seen. }
  assert (klasses_grow k st2 st4) as Hg24.
  { eapply klasses_grow_trans; [|exact Hg2]. exact Hg1. }
  intros od' Hod'.
  assert (accounted_at env k st4 o) as Hfin; [|by apply Hfin].
  destruct (decide (o ∈ seen_objects_table st2)) as [Hin|Hout].
  - rewrite Hseen2 in Hin. apply elem_of_union in Hin as [Hin|Hin]; [|done].
    apply elem_of_singleton in Hin as ->.
    eapply accounted_at_grow; [exact Hg24|].
    intros od1 Hod1. assert (od1 = od) as -> by congruence.
    by eapply add_subgraph_object_klass_accounted.
  - destruct (decide (o ∈ seen_objects_table st3)) as [Hin3|Hout3].
    + eapply accounted_at_grow; [exact Hg2|]. by apply Hn1.
    + by apply Hn2.
Qed.

(** X5.  After a walk of a fresh session that succeeded, the class of every
    object the walker can reach from the root is accounted for in the
    recorder entry of the session: its buffered copy is in the class list,
    unless it is the holder, [String], [Object], the array class of [Object]
    or a primitive array class.  This holds for the objects that were
    archived before the session as well. *)
Theorem archive_reachable_objects_from_records_klasses (fuel : nat)
    (level : Z) (root : oop) (st st' : DumpState) :
  seen_objects_table st = ∅ ->
  archive_reachable_objects_from env fuel level k root st = Ret true st' ->
  forall q od,
    rtc (walk_edge env) (walked_object env root) q ->
    heap env !! q = Some od ->
    exists info,
      get_subgraph_info k st' = Some info
      /\ klass_accounted env info (o_klass od).
Proof.
  intros Hfresh Hrun q od Hreach Hod.
  destruct (archive_reachable_objects_from_spec env fuel level k root st
              true st' Hrun) as (_ & Hok).
  destruct (Hok eq_refl) as (Hwok & Hroot).
  assert (q ∈ seen_objects_table st') as Hq.
  { eapply seen_closed_reachable; [|exact Hroot|exact Hreach].
    eapply seen_closed_after; [|exact Hwok].
    rewrite Hfresh. apply seen_closed_empty. }
  apply (archive_reachable_objects_from_accounted fuel level root st st' Hrun
           q Hq); [|done].
  rewrite Hfresh. apply not_elem_of_empty.
Qed.

End ClassCoverage.

(** ** The referrer recorded with an archived object *)

Section Referrers.

Variable env : DumpEnv.

Lemma archive_reachable_objects_from_tables_grow (fuel : nat) (level : Z)
    (info : klass) (p : oop) (st : DumpState) (b : bool) (st' : DumpState) :
  archive_reachable_objects_from env fuel level info p st = Ret b st' ->
  tables_grow st st'.
Proof.
  apply (archive_reachable_objects_from_rel env tables_grow).
  - apply tables_grow_refl.
  - apply tables_grow_trans.
  - intros. by repeat split.
  - intros. by repeat split.
  - intros. by eapply archive_object_tables_grow.
  - intros. by eapply add_subgraph_object_klass_tables_grow.
  - intros s obj s' H. exact H.
Qed.

Lemma archive_step_cache (obj : oop) (st st1 : DumpState) :
  archive_step env obj st st1 ->
  walker_current st1 = walker_current st
  /\ (archived_object_cache st1 = archived_object_cache st
      \/ archived_object_cache st1
         = <[obj := make_cached_oop_info st]> (archived_object_cache st)).
Proof.
  intros [[_ ->]|[_ Hao]]; [by split; [|left]|].
  apply archive_object_inv in Hao as (od & _ & _ & Hcase).
  destruct Hcase as [(_&_&->)|[(_&_&?&_)|(_&_&_&->)]]; try done.
  - by split; [|left].
  - destruct (archived_state_frame env obj od
                (set_session_counters
                   (num_new_walked_objs
                      (set_has_been_seen_during_subgraph_recording obj st))
                   (num_new_archived_objs
                      (set_has_been_seen_during_subgraph_recording obj st) + 1)
                   (set_has_been_seen_during_subgraph_recording obj st)))
      as (_&_&_&Hw&_&Hc&_).
    split; [by rewrite Hw|]. right. by rewrite Hc.
Qed.

Lemma add_subgraph_object_klass_cache (info orig_k : klass) (st : DumpState)
    (u : unit) (st' : DumpState) :
  add_subgraph_object_klass env info orig_k st = Ret u st' ->
  walker_current st' = walker_current st
  /\ archived_object_cache st' = archived_object_cache st.
Proof.
  intros Hrun.
  by apply add_subgraph_object_klass_inv in Hrun
    as (i & Hi & [[_ ->]|(_ & _ & _ & ->)]).
Qed.

Lemma iterated_referrers (W : oop -> DumpState -> outcome bool)
    (obj : oop) (od : ObjDesc) :
  heap env !! obj = Some od ->
  (forall p st b st',
      W p st = Ret b st' ->
      walker_current st' = walker_current st
      /\ seen_objects_table st ⊆ seen_objects_table st'
      /\ archived_object_cache st ⊆ archived_object_cache st'
      /\ forall o r,
           archived_object_cache st' !! o = Some r ->
           archived_object_cache st !! o = None ->
           (o = walked_object env p /\ r = make_cached_oop_info st)
           \/ (r ∈ seen_objects_table st' /\ walk_edge env r o)) ->
  forall refs st st',
    iterated W refs st st' ->
    (forall p, p ∈ refs -> p ∈ out_refs od) ->
    walker_current st = Some obj ->
    obj ∈ seen_objects_table st ->
    walker_current st' = Some obj
    /\ seen_objects_table st ⊆ seen_objects_table st'
    /\ archived_object_cache st ⊆ archived_object_cache st'
    /\ forall o r,
         archived_object_cache st' !! o = Some r ->
         archived_object_cache st !! o = None ->
         r ∈ seen_objects_table st' /\ walk_edge env r o.
Proof.
  intros Hod HW refs st st'.
  induction 1 as [st|p rest st st' _ _ IH|p rest st st1 st' Hp Hrun _ IH];
    intros Hrefs Hcur Hobj.
  - split; [done|]. split; [done|]. split; [done|]. congruence.
  - apply IH; [|done|done]. intros q Hq. apply Hrefs. by right.
  - destruct (HW p st true st1 Hrun) as (Hw1 & Hs1 & Hc1 & Hn1).
    destruct IH as (Hw2 & Hs2 & Hc2 & Hn2).
    { intros q Hq. apply Hrefs. by right. }
    { congruence. }
    { by apply Hs1. }
    split; [done|]. split; [by etrans|]. split; [by etrans|].
    intros o r Ho Hnone.
    destruct (archived_object_cache st1 !! o) as [r1|] eqn:Ho1.
    + assert (r1 = r) as ->.
      { eapply lookup_weaken in Ho1; [|exact Hc2]. congruence. }
      destruct (Hn1 o r Ho1 Hnone) as [[-> ->]|[Hr He]].
      * unfold make_cached_oop_info. rewrite Hcur.
        split; [by apply Hs2, Hs1|].
        exists od, p. split; [done|]. split; [apply Hrefs; by left|].
        split; [by apply is_null_false|done].
      * split; [by apply Hs2|done].
    + by apply Hn2.
Qed.

Lemma archive_reachable_objects_from_referrers (fuel : nat) :
  forall level info p st b st',
    archive_reachable_objects_from env fuel level info p st = Ret b st' ->
    walker_current st' = walker_current st
    /\ forall o r,
         archived_object_cache st' !! o = Some r ->
         archived_object_cache st !! o = None ->
         (o = walked_object env p /\ r = make_cached_oop_info st)
         \/ (r ∈ seen_objects_table st' /\ walk_edge env r o).
Proof.
  induction fuel as [|fuel IH]; intros level info p st b st' Hrun; [done|].
  simpl in Hrun.
  apply archive_reachable_objects_from_body_inv in Hrun
    as (od0 & od & _ & _ & _ & _ & Hod & Hv).
  inversion Hv as [Hseen|st1 Hseen Harch Hao Hl
                  |st1 st2 st3 st4 Hseen Hst Hk H1 H2]; subst.
  - split; [done|]. congruence.
  - apply archive_object_inv in Hao as (od' & _ & _ & Hcase).
    destruct Hcase as [(_&?&_)|[(_&_&_&->)|(_&_&?&_)]]; try done.
    split; [done|]. simpl. congruence.
  - set (obj := walked_object env p) in *.
    set (W := archive_reachable_objects_from env fuel (level + 1) info) in *.
    assert (forall q s c s',
               W q s = Ret c s' ->
               walker_current s' = walker_current s
               /\ seen_objects_table s ⊆ seen_objects_table s'
               /\ archived_object_cache s ⊆ archived_object_cache s'
               /\ forall o r,
                    archived_object_cache s' !! o = Some r ->
                    archived_object_cache s !! o = None ->
                    (o = walked_object env q /\ r = make_cached_oop_info s)
                    \/ (r ∈ seen_objects_table s' /\ walk_edge env r o)) as HW.
    { intros q s c s' Hq. destruct (IH _ _ _ _ _ _ Hq) as (Hw & Hn).
      split; [done|]. split.
      { by destruct (archive_reachable_objects_from_spec env fuel (level + 1)
                       info q s c s' Hq) as ((?&_)&_). }
      split; [|done].
      by destruct (archive_reachable_objects_from_tables_grow _ _ _ _ _ _ _ Hq). }
    destruct (archive_step_cache _ _ _ Hst) as (Hw1 & Hc1).
    destruct (add_subgraph_object_klass_cache _ _ _ _ _ Hk) as (Hw2 & Hc2).
    assert (seen_objects_table st2 = {[obj]} ∪ seen_objects_table st) as Hs2.
    { rewrite (add_subgraph_object_klass_seen _ _ _ _ _ _ Hk).
      by apply (archive_step_seen env). }
    destruct (iterated_referrers W obj od Hod HW _ _ _ H1)
      as (Hw3 & Hs3 & Hc3 & Hn3).
    { intros q Hq. unfold out_refs. apply elem_of_app. by left. }
    { done. }
    { simpl. rewrite Hs2. by apply elem_of_union_l, elem_of_singleton. }
    destruct (iterated_referrers W obj od Hod HW _ _ _ H2)
      as (Hw4 & Hs4 & Hc4 & Hn4).
    { intros q Hq. unfold out_refs. apply elem_of_app. by right. }
    { done. }
    { apply Hs3. simpl. rewrite Hs2.
      by apply elem_of_union_l, elem_of_singleton. }
    split; [simpl; congruence|].
    intros o r Ho Hnone. simpl in Ho, Hc3.
    destruct (archived_object_cache st2 !! o) as [r2|] eqn:Ho2.
    + assert (r2 = r) as ->.
      { eapply lookup_weaken in Ho2; [|etrans; [exact Hc3|exact Hc4]].
        congruence. }
      rewrite Hc2 in Ho2. destruct Hc1 as [Hc1|Hc1]; rewrite Hc1 in Ho2;
        [congruence|].
      destruct (decide (o = obj)) as [->|Hne].
      * rewrite lookup_insert_eq in Ho2. left. split; [done|congruence].
      * rewrite lookup_insert_ne in Ho2 by done. congruence.
    + right. destruct (archived_object_cache st3 !! o) as [r3|] eqn:Ho3.
      * assert (r3 = r) as ->.
        { eapply lookup_weaken in Ho3; [|exact Hc4]. congruence. }
        destruct (Hn3 o r Ho3 Ho2) as [Hr He]. split; [by apply Hs4|done].
      * by apply Hn4.
Qed.

(** X6.  The referrer stored with an object that a walk archives is the
    object through which the walk first reached it: for the root of the walk
    it is the object the closure was working on when the walk was entered
    ([null] for a walk entered from an entry point), for any other object it
    is an object of the session that holds a reference to it.  The walk leaves
    the closure's current object as it found it. *)
Theorem archive_reachable_objects_from_referrer (fuel : nat) (level : Z)
    (info : klass) (root : oop) (st : DumpState) (b : bool)
    (st' : DumpState) :
  archive_reachable_objects_from env fuel level info root st = Ret b st' ->
  walker_current st' = walker_current st
  /\ forall obj referrer,
       archived_object_cache st !! obj = None ->
       archived_object_cache st' !! obj = Some referrer ->
       (obj = walked_object env root
        /\ referrer = default null (walker_current st))
       \/ (referrer ∈ seen_objects_table st'
           /\ walk_edge env referrer obj).
Proof.
  intros Hrun.
  destruct (archive_reachable_objects_from_referrers _ _ _ _ _ _ _ Hrun)
    as (Hw & Hn).
  split; [done|]. intros obj r Hnone Hsome.
  destruct (Hn obj r Hsome Hnone) as [[-> ->]|?]; [left|by right].
  split; [done|]. unfold make_cached_oop_info.
  by destruct (walker_current st).
Qed.

End Referrers.

(** ** Identity hash *)

Section IdentityHash.

Variable env : DumpEnv.

Lemma identity_hash_fixed (obj : oop) (st : DumpState) (h : Z) :
  mark_hash st !! obj = Some h -> identity_hash env obj st = (h, st).
Proof. intros H. unfold identity_hash. by rewrite H. Qed.

Lemma copy_java_mirror_hashcode_frame (orig_mirror scratch_m : oop)
    (st : DumpState) :
  source_objs (copy_java_mirror_hashcode env orig_mirror scratch_m st)
  = source_objs st
  /\ mark_hash (copy_java_mirror_hashcode env orig_mirror scratch_m st)
       !! scratch_m
     = Some (fst (identity_hash env orig_mirror st))
  /\ forall o h,
       o <> scratch_m ->
       mark_hash st !! o = Some h ->
       mark_hash (copy_java_mirror_hashcode env orig_mirror scratch_m st) !! o
       = Some h.
Proof.
  unfold copy_java_mirror_hashcode, identity_hash.
  destruct (mark_hash st !! orig_mirror) as [h0|] eqn:Horig; simpl.
  - split; [done|]. split; [by rewrite lookup_insert_eq|].
    intros o h Hne Ho. by rewrite lookup_insert_ne.
  - split; [done|]. split; [by rewrite lookup_insert_eq|].
    intros o h Hne Ho. rewrite lookup_insert_ne by done.
    rewrite lookup_insert_ne; [done|]. intros ->. congruence.
Qed.

(** A queued object keeps its place in the queue and its hash over every
    step of the dump but [copy_java_mirror_hashcode] onto it. *)
Lemma dump_step_keeps_hash (obj : oop) (h : Z) (st st' : DumpState) :
  dump_step env obj st st' ->
  obj ∈ source_objs st /\ mark_hash st !! obj = Some h ->
  obj ∈ source_objs st' /\ mark_hash st' !! obj = Some h.
Proof.
  intros Hstep [Hsrc Hh].
  assert (tables_grow st st' ->
          obj ∈ source_objs st' /\ mark_hash st' !! obj = Some h) as Hgrow.
  { intros (_ & _ & [l ->] & Hmark & _). split.
    - apply elem_of_app. by left.
    - by eapply lookup_weaken. }
  destruct Hstep as [o b st st' H|fuel level info o b st st' H
                    |fields fmg st st' H|o st|st|st|k fmg st st' H
                    |orig m st Hne].
  - apply Hgrow. by eapply archive_object_tables_grow.
  - apply Hgrow. by eapply archive_reachable_objects_from_tables_grow.
  - apply Hgrow. by eapply archive_object_subgraphs_tables_grow.
  - done.
  - done.
  - done.
  - apply init_subgraph_info_inv in H as [_ ->]. done.
  - destruct (copy_java_mirror_hashcode_frame orig m st) as (-> & _ & Hkeep).
    split; [done|]. by apply Hkeep.
Qed.

Lemma dump_steps_keep_hash (obj : oop) (h : Z) (st st' : DumpState) :
  rtc (dump_step env obj) st st' ->
  obj ∈ source_objs st /\ mark_hash st !! obj = Some h ->
  obj ∈ source_objs st' /\ mark_hash st' !! obj = Some h.
Proof.
  induction 1 as [|st1 st2 st3 Hstep _ IH]; [done|].
  intros H. by apply IH, (dump_step_keeps_hash obj h st1 st2).
Qed.

(** C9, as the code has it.  A first successful [archive_object(obj)]
    installs the identity hash in the header of [obj] in the call that queues
    the object for copying: the hash is the one [identity_hash] yields in the
    state before, and it is what every later call returns.  Through every
    further step of the dump but one it stays the hash of the header, so
    that the copy carries it.  The one step is [copy_java_mirror_hashcode]
    onto [obj] as a scratch mirror: it replaces the hash by the identity hash
    of the mirror that [obj] stands for, and from then on the copy carries
    that one. *)
Theorem archive_object_fixes_identity_hash (obj : oop) (st st1 : DumpState) :
  has_been_archived obj st = false ->
  archive_object env obj st = Ret true st1 ->
  mark_hash st1 !! obj = Some (fst (identity_hash env obj st))
  /\ (mark_hash st !! obj = None ->
      fst (identity_hash env obj st) = generate_hash env (hash_seed st))
  /\ identity_hash env obj st1 = (fst (identity_hash env obj st), st1)
  /\ source_objs st1 = source_objs st ++ [obj]
  /\ (forall st2,
         rtc (dump_step env obj) st1 st2 ->
         mark_hash st2 !! obj = Some (fst (identity_hash env obj st))
         /\ copied_hash st2 obj = Some (fst (identity_hash env obj st)))
  /\ (forall st2 orig_mirror st3,
         rtc (dump_step env obj) st1 st2 ->
         rtc (dump_step env obj)
           (copy_java_mirror_hashcode env orig_mirror obj st2) st3 ->
         copied_hash st3 obj
         = Some (fst (identity_hash env orig_mirror st2))).
Proof.
  intros Hnot H.
  destruct (archive_object_inv env obj st true st1 H)
    as (od & Hod & Hsc & [(Ha & _)|[(_ & _ & [=] & _)|(_ & _ & _ & ->)]]);
    [congruence|].
  destruct (archived_state_frame env obj od st)
    as (_ & _ & _ & _ & _ & _ & Hsrc & Hh).
  destruct (identity_hash_frame env obj st) as (m & seed & Hst & Hm).
  assert (mark_hash (archived_state env obj od st) !! obj
          = Some (fst (identity_hash env obj st))) as Hmark.
  { rewrite Hh, Hst. done. }
  assert (obj ∈ source_objs (archived_state env obj od st)) as Hqueued.
  { rewrite Hsrc. apply elem_of_app. right. by apply list_elem_of_singleton. }
  assert (forall s h,
            obj ∈ source_objs s /\ mark_hash s !! obj = Some h ->
            copied_hash s obj = Some h) as Hcopy.
  { intros s h [Hin Hhs]. unfold copied_hash.
    by rewrite bool_decide_eq_true_2. }
  split; [done|]. split.
  { intros Hnone. unfold identity_hash. by rewrite Hnone. }
  split; [by apply identity_hash_fixed|]. split; [done|]. split.
  - intros st2 Hsteps.
    pose proof (dump_steps_keep_hash obj _ _ _ Hsteps (conj Hqueued Hmark))
      as Hkept.
    split; [by destruct Hkept|by apply Hcopy].
  - intros st2 orig_mirror st3 Hsteps Hlater.
    destruct (dump_steps_keep_hash obj _ _ _ Hsteps (conj Hqueued Hmark))
      as [Hin2 _].
    destruct (copy_java_mirror_hashcode_frame orig_mirror obj st2)
      as (Hsrc3 & Hnew & _).
    apply Hcopy. apply (dump_steps_keep_hash obj _ _ _ Hlater).
    split; [by rewrite Hsrc3|done].
Qed.

End IdentityHash.

(** ** A root that is too large, met a second time in its session *)

Section TooLargeAgain.

Variable env : DumpEnv.

Lemma archive_reachable_objects_from_body_seen
    (W : oop -> DumpState -> outcome bool) (level : Z) (info : klass)
    (p : oop) (od0 od : ObjDesc) (st : DumpState) :
  p <> null ->
  heap env !! p = Some od0 ->
  o_supported od0 = true ->
  walked_object env p <> null ->
  heap env !! walked_object env p = Some od ->
  walked_object env p ∈ seen_objects_table st ->
  archive_reachable_objects_from_body env W level info p st = Ret true st.
Proof.
  intros Hp Hod0 Hsup Hw Hod Hseen.
  unfold archive_reachable_objects_from_body.
  apply is_null_false in Hp. rewrite Hp, Hod0, Hsup. cbn [negb].
  rewrite <- (walked_object_eq env p od0 Hod0).
  apply is_null_false in Hw. rewrite Hw, Hod.
  unfold has_been_seen_during_subgraph_recording.
  by rewrite bool_decide_eq_true_2.
Qed.

Lemma seen_kept_refl (st : DumpState) : seen_kept st st.
Proof. by repeat split. Qed.

Lemma seen_kept_trans (st1 st2 st3 : DumpState) :
  seen_kept st1 st2 -> seen_kept st2 st3 -> seen_kept st1 st3.
Proof.
  intros (Hs1 & Hc1 & Hd1) (Hs2 & Hc2 & Hd2).
  split; [by etrans|]. split; [|by etrans].
  intros o Ho. rewrite Hc2 by (by apply Hs1). by apply Hc1.
Qed.

Lemma archive_step_seen_kept (obj : oop) (st st1 : DumpState) :
  obj ∉ seen_objects_table st -> archive_step env obj st st1 ->
  seen_kept st st1.
Proof.
  intros Hseen [[_ ->]|[_ Hao]].
  - split; [simpl; apply union_subseteq_r|]. by split.
  - apply archive_object_inv in Hao
      as (od & _ & _ & [(_&_&->)|[(_&_&[=]&_)|(_&_&_&->)]]).
    + split; [simpl; apply union_subseteq_r|]. by split.
    + destruct (archived_state_frame env obj od
                  (set_session_counters
                     (num_new_walked_objs
                        (set_has_been_seen_during_subgraph_recording obj st))
                     (num_new_archived_objs
                        (set_has_been_seen_during_subgraph_recording obj st)
                      + 1)
                     (set_has_been_seen_during_subgraph_recording obj st)))
        as (Hs & _ & _ & _ & Ht & Hc & _).
      split; [rewrite Hs; simpl; apply union_subseteq_r|].
      split; [|by rewrite Ht].
      intros o Ho. rewrite Hc. simpl. apply lookup_insert_ne.
      intros <-. done.
Qed.

Lemma visit_seen_kept (W : oop -> DumpState -> outcome bool) (level : Z)
    (info : klass) (obj : oop) (od : ObjDesc) (st : DumpState) (b : bool)
    (st' : DumpState) :
  (forall p st b st', W p st = Ret b st' -> seen_kept st st') ->
  visit env W level info obj od st b st' -> seen_kept st st'.
Proof.
  intros HW Hv.
  destruct Hv as [Hseen|st1 Hseen Harch Hao Hl|st1 st2 st3 st4 Hseen Hst Hk H1 H2].
  - apply seen_kept_refl.
  - apply archive_object_inv in Hao
      as (od' & _ & _ & [(_&[=]&_)|[(_&_&_&->)|(_&_&[=]&_)]]).
    split; [simpl; apply union_subseteq_r|]. by split.
  - eapply seen_kept_trans; [by eapply archive_step_seen_kept|].
    assert (seen_kept st1 st2) as H12.
    { apply add_subgraph_object_klass_inv in Hk
        as (i & Hi & [[_ ->]|(_&_&_&->)]);
        (split; [done|]; split; [done|]; simpl; rewrite dom_insert_L;
         apply union_subseteq_r). }
    pose proof (iterated_rel seen_kept seen_kept_refl seen_kept_trans W HW
                  _ _ _ H1) as H23.
    pose proof (iterated_rel seen_kept seen_kept_refl seen_kept_trans W HW
                  _ _ _ H2) as H34.
    change (seen_kept st2 st3) in H23.
    change (seen_kept st1 st4).
    eapply seen_kept_trans; [exact H12|]. by eapply seen_kept_trans.
Qed.

Lemma archive_reachable_objects_from_seen_kept (fuel : nat) :
  forall level info p st b st',
    archive_reachable_objects_from env fuel level info p st = Ret b st' ->
    seen_kept st st'.
Proof.
  induction fuel as [|fuel IH]; intros level info p st b st' Hrun; [done|].
  simpl in Hrun.
  apply archive_reachable_objects_from_body_inv in Hrun
    as (od0 & od & _ & _ & _ & _ & _ & Hv).
  eapply visit_seen_kept; [|exact Hv]. intros q s c s' Hq. by eapply IH.
Qed.

Lemma session_step_seen_kept (k : klass) (st st' : DumpState) :
  session_step env k st st' -> seen_kept st st'.
Proof.
  intros [off st0 st1 Hrun].
  unfold archive_reachable_objects_from_static_field in Hrun.
  destruct (get_subgraph_info k st0); [|done].
  assert (forall v s s',
            add_subgraph_entry_field k off v s = Ret tt s' ->
            seen_kept s s') as Hentry.
  { intros v s s' H. apply add_subgraph_entry_field_inv in H as (i & _ & ->).
    split; [done|]. split; [done|]. simpl. rewrite dom_insert_L.
    apply union_subseteq_r. }
  destruct (negb (is_null (static_field env k off))); [|by eapply Hentry].
  destruct (archive_reachable_objects_from _ _ _ _ _ _)
    as [[] st2| | |] eqn:Hw; cbn [bind negb] in Hrun; try done.
  - eapply seen_kept_trans;
      [by eapply archive_reachable_objects_from_seen_kept|by eapply Hentry].
  - injection Hrun as <-. by eapply archive_reachable_objects_from_seen_kept.
Qed.

Lemma session_steps_seen_kept (k : klass) (st st' : DumpState) :
  rtc (session_step env k) st st' -> seen_kept st st'.
Proof.
  induction 1 as [|st1 st2 st3 Hstep _ IH]; [apply seen_kept_refl|].
  eapply seen_kept_trans; [by eapply session_step_seen_kept|done].
Qed.

(** X7.  A root that failed as too large stays in the seen table, and out of
    the identity cache, for the rest of the recording session of its holder,
    whatever entry fields of the holder are handled in between.  When a later
    entry field of the holder holds the same object, the walker finds it in
    the seen table and reports success: the field is recorded as an entry
    point and its value becomes a root, although the object is not in the
    identity cache. *)
Theorem too_large_root_seen_again (k : klass) (off : Z)
    (od0 od : ObjDesc) (st : DumpState) (info : KlassSubGraphInfo) :
  static_field env k off <> null ->
  heap env !! static_field env k off = Some od0 ->
  o_supported od0 = true ->
  walked_object env (static_field env k off) <> null ->
  heap env !! walked_object env (static_field env k off) = Some od ->
  o_is_stackChunk od = false ->
  is_too_large_to_archive env (o_size od) = true ->
  get_subgraph_info k st = Some info ->
  walked_object env (static_field env k off) ∉ seen_objects_table st ->
  archived_object_cache st !! walked_object env (static_field env k off)
  = None ->
  exists st1,
    archive_reachable_objects_from_static_field env k off st = Ret tt st1
    /\ get_subgraph_info k st1 = Some info
    /\ pending_roots st1 = pending_roots st
    /\ forall st2,
         rtc (session_step env k) st1 st2 ->
         walked_object env (static_field env k off) ∈ seen_objects_table st2
         /\ has_been_archived (walked_object env (static_field env k off)) st2
            = false
         /\ forall off',
              static_field env k off' = static_field env k off ->
              exists info2 st3 info3,
                get_subgraph_info k st2 = Some info2
                /\ archive_reachable_objects_from_static_field env k off' st2
                   = Ret tt st3
                /\ get_subgraph_info k st3 = Some info3
                /\ sg_subgraph_entry_fields info3
                   = Some (default [] (sg_subgraph_entry_fields info2)
                           ++ [off'; Z.of_nat (length (pending_roots st2))])
                /\ pending_roots st3
                   = pending_roots st2 ++ [static_field env k off]
                /\ has_been_archived
                     (walked_object env (static_field env k off)) st3
                   = false.
Proof.
  intros Hf Hod0 Hsup Hw Hod Hchunk Hlarge Hinfo Hseen Hcache.
  set (f := static_field env k off) in *.
  set (st1 := set_session_counters (num_new_walked_objs st + 1)
                (num_new_archived_objs st + 1)
                (set_seen (fun s => {[walked_object env f]} ∪ s) st)).
  assert (archive_reachable_objects_from env (walk_bound env) 1 k f st
          = Ret false st1) as Hfirst.
  { unfold walk_bound. cbn [archive_reachable_objects_from].
    by rewrite (archive_reachable_objects_from_too_large env _ 1 k f od0 od st). }
  exists st1. split.
  { rewrite (static_field_walk env k off st info Hinfo Hf).
    fold f. by rewrite Hfirst. }
  split; [done|]. split; [done|].
  intros st2 Hsteps.
  destruct (session_steps_seen_kept k st1 st2 Hsteps) as (Hs & Hc & Hd).
  assert (walked_object env f ∈ seen_objects_table st1) as Hseen1
    by (simpl; by apply elem_of_union_l, elem_of_singleton).
  assert (walked_object env f ∈ seen_objects_table st2) as Hseen2
    by (by apply Hs).
  assert (archived_object_cache st2 !! walked_object env f = None) as Hcache2
    by (by rewrite Hc).
  split; [done|]. split; [by apply has_been_archived_false|].
  intros off' Hsame.
  assert (is_Some (get_subgraph_info k st2)) as [info2 Hinfo2].
  { unfold get_subgraph_info. apply elem_of_dom, Hd, elem_of_dom.
    by exists info. }
  assert (archive_reachable_objects_from env (walk_bound env) 1 k f st2
          = Ret true st2) as Hsecond.
  { unfold walk_bound. cbn [archive_reachable_objects_from].
    by apply (archive_reachable_objects_from_body_seen _ _ _ _ od0 od). }
  destruct (add_subgraph_entry_field_spec k off' f st2 info2 Hinfo2)
    as (st3 & info3 & Hadd & Hinfo3 & Hent & Hroots & Hc3).
  exists info2, st3, info3. split; [done|]. split.
  { rewrite (static_field_walk env k off' st2 info2 Hinfo2);
      rewrite Hsame; [|done].
    fold f. by rewrite Hsecond. }
  split; [done|]. split; [done|]. split; [done|].
  apply has_been_archived_false. by rewrite Hc3.
Qed.

End TooLargeAgain.

(** ** The verification pass after a walk *)

Section VerifyAfterArchive.

Variable env : DumpEnv.

Lemma iterated_sound (W : oop -> DumpState -> outcome bool) :
  (forall p st st',
      W p st = Ret true st' ->
      enterable env p
      /\ forall o, o ∈ seen_objects_table st' -> o ∉ seen_objects_table st ->
                   sound_node env o) ->
  forall refs st st',
    iterated W refs st st' ->
    (forall p, p ∈ refs -> p <> null -> enterable env p)
    /\ forall o, o ∈ seen_objects_table st' -> o ∉ seen_objects_table st ->
                 sound_node env o.
Proof.
  intros HW refs st st'.
  induction 1 as [st|p rest st st' Hp _ IH|p rest st st1 st' Hp Hrun _ IH].
  - split; [intros p Hp; by apply elem_of_nil in Hp|]. by intros o ? [].
  - destruct IH as (Hent & Hnew). split; [|done].
    intros q Hq Hnn. apply elem_of_cons in Hq as [->|Hq]; [|by apply Hent].
    apply Nat.eqb_eq in Hp. by destruct Hnn.
  - destruct IH as (Hent & Hnew). destruct (HW p st st1 Hrun) as (Hep & Hn1).
    split.
    + intros q Hq Hnn. apply elem_of_cons in Hq as [->|Hq]; [done|].
      by apply Hent.
    + intros o Ho Hn.
      destruct (decide (o ∈ seen_objects_table st1)); [by apply Hn1|].
      by apply Hnew.
Qed.

Lemma archive_reachable_objects_from_sound (fuel : nat) :
  forall level info p st st',
    archive_reachable_objects_from env fuel level info p st = Ret true st' ->
    enterable env p
    /\ forall o, o ∈ seen_objects_table st' -> o ∉ seen_objects_table st ->
                 sound_node env o.
Proof.
  induction fuel as [|fuel IH]; intros level info p st st' Hrun; [done|].
  simpl in Hrun.
  apply archive_reachable_objects_from_body_inv in Hrun
    as (od0 & od & _ & Hod0 & _ & Hw & Hod & Hv).
  split; [by repeat split|].
  inversion Hv as [Hseen|?|st1 st2 st3 st4 Hseen Hst Hk H1 H2]; subst;
    [done|].
  set (W := archive_reachable_objects_from env fuel (level + 1) info) in *.
  assert (forall q s s',
             W q s = Ret true s' ->
             enterable env q
             /\ forall o, o ∈ seen_objects_table s' -> o ∉ seen_objects_table s ->
                          sound_node env o) as HW
    by (intros q s s'; apply IH).
  destruct (iterated_sound W HW _ _ _ H1) as (He1 & Hn1).
  destruct (iterated_sound W HW _ _ _ H2) as (He2 & Hn2).
  assert (seen_objects_table st2
          = {[walked_object env p]} ∪ seen_objects_table st) as Hs2.
  { rewrite (add_subgraph_object_klass_seen _ _ _ _ _ _ Hk).
    by apply (archive_step_seen env). }
  intros o Ho Hn. simpl in Ho.
  destruct (decide (o ∈ seen_objects_table st2)) as [Hin|Hout].
  - rewrite Hs2 in Hin. apply elem_of_union in Hin as [Hin|Hin]; [|done].
    apply elem_of_singleton in Hin as ->.
    exists od. split; [done|]. intros q Hq Hnn.
    apply elem_of_app in Hq as [Hq|Hq]; [by apply He1|by apply He2].
  - destruct (decide (o ∈ seen_objects_table st3)); [by apply Hn1|].
    by apply Hn2.
Qed.

Section Verify.

Variable s : gset oop.
Variable c : gset oop.
Hypothesis Hver : verifiable env s c.

Lemma oop_iterate_verified (W : oop -> DumpState -> outcome bool) :
  (forall p st,
      enterable env p -> walked_object env p ∈ s ->
      c ⊆ dom (archived_object_cache st) ->
      W p st = OutOfFuel
      \/ exists st', W p st = Ret true st'
                     /\ archived_object_cache st' = archived_object_cache st) ->
  forall refs st,
    (forall p, p ∈ refs -> p <> null ->
               enterable env p /\ walked_object env p ∈ s) ->
    c ⊆ dom (archived_object_cache st) ->
    oop_iterate W refs st = OutOfFuel
    \/ exists st', oop_iterate W refs st = Ret tt st'
                   /\ archived_object_cache st' = archived_object_cache st.
Proof.
  intros HW refs. induction refs as [|p rest IH]; intros st Hrefs Hc; simpl.
  - right. by exists st.
  - assert (forall q, q ∈ rest -> q <> null ->
                      enterable env q /\ walked_object env q ∈ s) as Hrest
      by (intros q Hq; apply Hrefs; by right).
    destruct (is_null p) eqn:Hp; [by apply IH|].
    apply is_null_false in Hp.
    destruct (Hrefs p) as (Hep & Hwp); [by left|done|].
    destruct (HW p st Hep Hwp Hc) as [->|(st1 & -> & Hc1)]; [by left|].
    cbn [bind]. destruct (IH st1 Hrest) as [->|(st2 & -> & Hc2)].
    + by rewrite Hc1.
    + by left.
    + right. exists st2. split; [done|congruence].
Qed.

Lemma verify_reachable_objects_from_verified (fuel : nat) :
  forall p st,
    enterable env p -> walked_object env p ∈ s ->
    c ⊆ dom (archived_object_cache st) ->
    verify_reachable_objects_from env fuel p st = OutOfFuel
    \/ exists st',
         verify_reachable_objects_from env fuel p st = Ret true st'
         /\ archived_object_cache st' = archived_object_cache st.
Proof.
  induction fuel as [|fuel IH]; intros p st Hep Hwp Hc; [by left|].
  cbn [verify_reachable_objects_from].
  unfold verify_reachable_objects_from_body.
  destruct Hep as ([od0 Hod0] & Hnn & [od Hod]).
  rewrite Hod0. rewrite <- (walked_object_eq env p od0 Hod0).
  apply is_null_false in Hnn. rewrite Hnn, Hod.
  unfold has_been_seen_during_subgraph_recording.
  case_bool_decide as Hseen; [right; by exists st|].
  destruct (Hver _ Hwp) as (Hin & od' & Hod' & Hrefs).
  assert (od' = od) as -> by congruence.
  assert (has_been_archived (walked_object env p)
            (set_has_been_seen_during_subgraph_recording
               (walked_object env p) st) = true) as ->.
  { apply has_been_archived_true. simpl. by apply Hc. }
  cbn [negb].
  destruct (oop_iterate_verified (verify_reachable_objects_from env fuel) IH
              (o_refs od)
              (set_has_been_seen_during_subgraph_recording
                 (walked_object env p) st) Hrefs Hc)
    as [->|(st' & -> & Hc')]; [by left|].
  right. exists st'. by split.
Qed.

End Verify.

(** X8.  What the verification pass of debug builds checks holds after every
    walk of a fresh session that succeeded: run on the root of the walk, at
    any later point of the dump, [verify_subgraph_from] returns; no assertion
    of it fails, and it leaves the identity cache as it is. *)
Theorem verify_subgraph_from_after_archive (fuel : nat) (level : Z)
    (info : klass) (root : oop) (st st1 st2 : DumpState) :
  seen_objects_table st = ∅ ->
  archive_reachable_objects_from env fuel level info root st = Ret true st1 ->
  dom (archived_object_cache st1) ⊆ dom (archived_object_cache st2) ->
  exists st3,
    verify_subgraph_from env root st2 = Ret tt st3
    /\ archived_object_cache st3 = archived_object_cache st2.
Proof.
  intros Hfresh Hrun Hcache.
  unfold verify_subgraph_from.
  destruct (has_been_archived root st2); cbn [negb]; [|by exists st2].
  destruct (archive_reachable_objects_from_spec env fuel level info root st
              true st1 Hrun) as (_ & Hok).
  destruct (Hok eq_refl) as ((_ & _ & Hnew) & Hroot).
  destruct (archive_reachable_objects_from_sound _ _ _ _ _ _ Hrun)
    as (Hent & Hsound).
  assert (verifiable env (seen_objects_table st1)
            (dom (archived_object_cache st1))) as Hver.
  { intros o Ho.
    assert (o ∉ seen_objects_table st) as Hn
      by (rewrite Hfresh; apply not_elem_of_empty).
    destruct (Hnew o Ho Hn) as (Harch & Hedges).
    destruct (Hsound o Ho Hn) as (od & Hod & Hrefs).
    split; [done|]. exists od. split; [done|]. intros p Hp Hnn.
    assert (p ∈ out_refs od) as Hout
      by (unfold out_refs; apply elem_of_app; by left).
    split; [by apply Hrefs|].
    apply Hedges. by exists od, p. }
  destruct (verify_reachable_objects_from_verified _ _ Hver (walk_bound env)
              root (init_seen_objects_table st2) Hent Hroot Hcache)
    as [Hfuel|(st3 & -> & Hc3)].
  - exfalso. revert Hfuel. apply verify_reachable_objects_from_total.
    apply unseen_bound.
  - cbn [bind]. eexists. split; [done|]. exact Hc3.
Qed.

End VerifyAfterArchive.

(** ** A walk over archivable objects succeeds *)

Section WalkSucceeds.

Variable env : DumpEnv.
Variable k : klass.
Variable holder : klass.
Variable root : oop.

Hypothesis Hgood :
  forall q,
    rtc (walk_edge env) (walked_object env root) q ->
    archivable_object env holder q.

Lemma add_subgraph_object_klass_admitted (orig_k : klass) (st : DumpState) :
  holder_is k holder st ->
  klass_admitted env holder orig_k ->
  exists st', add_subgraph_object_klass env k orig_k st = Ret tt st'.
Proof.
  intros (i & Hi & Hh) [Hbuf Hadm].
  unfold add_subgraph_object_klass, get_subgraph_info. rewrite Hi, Hh, Hbuf.
  cbn [negb].
  destruct (Nat.eqb holder (get_buffered_klass env orig_k)) eqn:Hk;
    [by eexists|].
  apply Nat.eqb_neq in Hk. destruct Hadm as [Hadm|Hadm]; [done|].
  destruct (kd_kind (klass_desc env (get_buffered_klass env orig_k)))
    as [|abk|].
  - destruct Hadm as [Hboot Hadm].
    assert (negb (ArchiveInvokeDynamic env)
            && negb (kd_is_shared_boot_class
                       (klass_desc env (get_buffered_klass env orig_k)))
            = false) as ->.
    { destruct Hboot as [->| ->]; [done|apply andb_false_r]. }
    destruct Hadm as [->|[->|Hal]].
    + rewrite Nat.eqb_refl. by eexists.
    + rewrite Nat.eqb_refl, orb_true_r. by eexists.
    + rewrite Hal. destruct (_ || _); by eexists.
  - destruct (kd_kind (klass_desc env abk)).
    + destruct Hadm as (-> & ob & -> & ->). cbn [negb].
      destruct (Nat.eqb _ _); by eexists.
    + destruct (Nat.eqb _ _); by eexists.
    + destruct (Nat.eqb _ _); by eexists.
  - by eexists.
Qed.

Lemma holder_is_grow (st st' : DumpState) :
  klasses_grow k st st' -> holder_is k holder st -> holder_is k holder st'.
Proof.
  intros Hg (i & Hi & Hh). destruct (Hg i Hi) as (i' & Hi' & Hk & _).
  exists i'. split; [done|congruence].
Qed.

Lemma oop_iterate_progress (W : oop -> DumpState -> outcome bool) :
  (forall p st,
      walkable env p ->
      rtc (walk_edge env) (walked_object env root) (walked_object env p) ->
      holder_is k holder st ->
      W p st = OutOfFuel
      \/ exists st', W p st = Ret true st' /\ holder_is k holder st') ->
  forall refs st,
    (forall p, p ∈ refs -> p <> null ->
               walkable env p
               /\ rtc (walk_edge env) (walked_object env root)
                    (walked_object env p)) ->
    holder_is k holder st ->
    oop_iterate W refs st = OutOfFuel
    \/ exists st', oop_iterate W refs st = Ret tt st'
                   /\ holder_is k holder st'.
Proof.
  intros HW refs. induction refs as [|p rest IH]; intros st Hrefs Hh; simpl.
  - right. by exists st.
  - assert (forall q, q ∈ rest -> q <> null ->
                      walkable env q
                      /\ rtc (walk_edge env) (walked_object env root)
                           (walked_object env q)) as Hrest
      by (intros q Hq; apply Hrefs; by right).
    destruct (is_null p) eqn:Hp; [by apply IH|].
    apply is_null_false in Hp.
    destruct (Hrefs p) as (Hwp & Hreach); [by left|done|].
    destruct (HW p st Hwp Hreach Hh) as [->|(st1 & -> & Hh1)]; [by left|].
    cbn [bind]. by apply IH.
Qed.

Lemma archive_reachable_objects_from_progress (fuel : nat) :
  forall level p st,
    walkable env p ->
    rtc (walk_edge env) (walked_object env root) (walked_object env p) ->
    holder_is k holder st ->
    archive_reachable_objects_from env fuel level k p st = OutOfFuel
    \/ exists st',
         archive_reachable_objects_from env fuel level k p st = Ret true st'
         /\ holder_is k holder st'.
Proof.
  induction fuel as [|fuel IH]; intros level p st Hwp Hreach Hh; [by left|].
  assert (forall st',
             archive_reachable_objects_from env (S fuel) level k p st
             = Ret true st' -> holder_is k holder st') as Hkeep.
  { intros st' Hrun. eapply holder_is_grow; [|exact Hh].
    by eapply archive_reachable_objects_from_grow. }
  cut (archive_reachable_objects_from env (S fuel) level k p st = OutOfFuel
       \/ exists st',
            archive_reachable_objects_from env (S fuel) level k p st
            = Ret true st').
  { intros [?|(st' & Hrun)]; [by left|]. right. exists st'. split; [done|].
    by apply Hkeep. }
  clear Hkeep. cbn [archive_reachable_objects_from].
  unfold archive_reachable_objects_from_body.
  destruct Hwp as (Hp & od0 & Hod0 & Hsup & Hnn & _).
  apply is_null_false in Hp. rewrite Hp, Hod0, Hsup. cbn [negb].
  rewrite <- (walked_object_eq env p od0 Hod0).
  set (obj := walked_object env p) in *.
  destruct (Hgood obj Hreach) as (od & Hod & Hchunk & Hlarge & Hadm & Hrefs).
  apply is_null_false in Hnn. rewrite Hnn, Hod.
  unfold has_been_seen_during_subgraph_recording.
  case_bool_decide as Hseen; [right; by exists st|].
  set (stm := set_has_been_seen_during_subgraph_recording obj st).
  set (W := archive_reachable_objects_from env fuel (level + 1) k).
  assert (forall q, q ∈ out_refs od -> q <> null ->
                    walkable env q
                    /\ rtc (walk_edge env) (walked_object env root)
                         (walked_object env q)) as Hout.
  { intros q Hq Hqn. split; [by apply Hrefs|].
    eapply rtc_r; [exact Hreach|]. by exists od, q. }
  assert (forall st1,
             holder_is k holder st1 ->
             bind (add_subgraph_object_klass env k (o_klass od) st1)
               (fun _ st =>
                  let last := walker_current st in
                  let st := set_walker (Some obj) st in
                  bind (oop_iterate W (o_refs od) st)
                    (fun _ st =>
                       bind
                         (match o_enum_refs od with
                          | Some constants => handle_enum_obj W constants st
                          | None => Ret tt st
                          end)
                         (fun _ st => Ret true (set_walker last st))))
             = OutOfFuel
             \/ exists st',
                  bind (add_subgraph_object_klass env k (o_klass od) st1)
                    (fun _ st =>
                       let last := walker_current st in
                       let st := set_walker (Some obj) st in
                       bind (oop_iterate W (o_refs od) st)
                         (fun _ st =>
                            bind
                              (match o_enum_refs od with
                               | Some constants =>
                                 handle_enum_obj W constants st
                               | None => Ret tt st
                               end)
                              (fun _ st => Ret true (set_walker last st))))
                  = Ret true st') as Htail.
  { intros st1 Hh1.
    destruct (add_subgraph_object_klass_admitted (o_klass od) st1 Hh1 Hadm)
      as (st2 & Hk).
    rewrite Hk. cbn [bind].
    assert (holder_is k holder st2) as Hh2'.
    { eapply holder_is_grow; [|exact Hh1].
      by eapply add_subgraph_object_klass_grow. }
    assert (holder_is k holder (set_walker (Some obj) st2)) as Hh2
      by exact Hh2'.
    destruct (oop_iterate_progress W (IH (level + 1)) (o_refs od)
                (set_walker (Some obj) st2)) as [->|(st3 & -> & Hh3)];
      [|done|by left|].
    { intros q Hq. apply Hout. unfold out_refs. apply elem_of_app. by left. }
    cbn [bind]. destruct (o_enum_refs od) as [constants|] eqn:Henum.
    - unfold handle_enum_obj.
      destruct (oop_iterate_progress W (IH (level + 1)) constants st3)
        as [->|(st4 & -> & Hh4)]; [|done|by left|].
      { intros q Hq. apply Hout. unfold out_refs. apply elem_of_app.
        right. by rewrite Henum. }
      right. by eexists.
    - right. by eexists. }
  destruct (has_been_archived obj stm) eqn:Harch.
  - cbn [bind negb]. apply Htail. exact Hh.
  - unfold archive_object. rewrite Hod, Hchunk.
    replace (has_been_archived obj
               (set_session_counters (num_new_walked_objs stm)
                  (num_new_archived_objs stm + 1) stm)) with false by done.
    rewrite Hlarge. cbn [bind negb]. apply Htail.
    change (holder_is k holder
              (archived_state env obj od
                 (set_session_counters (num_new_walked_objs stm)
                    (num_new_archived_objs stm + 1) stm))).
    destruct Hh as (i & Hi & Hhold). exists i. split; [|done].
    destruct (archived_state_frame env obj od
                (set_session_counters (num_new_walked_objs stm)
                   (num_new_archived_objs stm + 1) stm))
      as (_&_&_&_&->&_).
    exact Hi.
Qed.

End WalkSucceeds.

(** X9.  A walk cannot fail on a graph of archivable objects: when the root
    can be entered and every object the walker can reach from it is no stack
    chunk, not too large, of a class the recorder admits, and refers to
    objects that can be entered, the walk returns [true]; it does not exit
    the VM and none of its assertions fails. *)
Theorem archive_reachable_objects_from_succeeds (env : DumpEnv) (k : klass)
    (level : Z) (root : oop) (st : DumpState) (info : KlassSubGraphInfo) :
  get_subgraph_info k st = Some info ->
  walkable env root ->
  (forall q,
      rtc (walk_edge env) (walked_object env root) q ->
      archivable_object env (sg_k info) q) ->
  exists st',
    archive_reachable_objects_from env (walk_bound env) level k root st
    = Ret true st'.
Proof.
  intros Hinfo Hroot Hgood.
  destruct (archive_reachable_objects_from_progress env k (sg_k info) root
              Hgood (walk_bound env) level root st Hroot)
    as [Hfuel|(st' & Hrun & _)].
  - apply rtc_refl.
  - by exists info.
  - exfalso. revert Hfuel. apply archive_reachable_objects_from_total.
    apply unseen_bound.
  - by exists st'.
Qed.

(** ** Restoring the entry fields at run time *)

Section Restore.

Variable renv : RunEnv.

Lemma get_root_clear_value (idx : Z) (st : RunState) (r : list oop) (v : oop) :
  is_in_use renv = true ->
  roots st = Some r ->
  0 <= idx < Z.of_nat (length r) ->
  r !! Z.to_nat idx = Some v ->
  get_root renv idx true st
  = Some (v, set_rt_roots (Some (<[Z.to_nat idx := null]> r)) st).
Proof.
  intros Huse Hr Hidx Hv. unfold get_root, roots_obj_at.
  rewrite Hr. cbn [mbind option_bind].
  destruct (idx <? 0) eqn:Hneg; [apply Z.ltb_lt in Hneg; lia|].
  rewrite Hv. cbn [mbind option_bind].
  by rewrite (clear_root_in_use renv idx st r Huse Hr Hidx).
Qed.

Lemma entry_pairs_root_index (l : list Z) (n : nat) (off idx : Z) :
  entries_in_range n l -> (off, idx) ∈ entry_pairs l -> idx ∈ root_indices l.
Proof.
  induction 1 as [|o i rest _ _ IH]; simpl; intros Hin.
  - by apply elem_of_nil in Hin.
  - apply elem_of_cons in Hin as [[= -> ->]|Hin]; [by left|].
    right. by apply IH.
Qed.

Lemma init_fields_of_entries_spec (k : klass) (n : nat) (efr : list Z) :
  is_in_use renv = true ->
  entries_in_range n efr ->
  forall (st : RunState) (r : list oop),
    length r = n ->
    roots st = Some r ->
    NoDup (root_indices efr) ->
    exists st' r',
      init_fields_of_entries renv k efr st = Some st'
      /\ roots st' = Some r'
      /\ length r' = n
      /\ (forall idx, idx ∈ root_indices efr -> r' !! Z.to_nat idx = Some null)
      /\ (forall j : nat, Z.of_nat j ∉ root_indices efr -> r' !! j = r !! j)
      /\ (forall off,
             off ∈ (entry_pairs efr).*1 ->
             exists idx v,
               (off, idx) ∈ entry_pairs efr
               /\ r !! Z.to_nat idx = Some v
               /\ obj_field k off st' = v)
      /\ (forall k' off',
             (k' = k -> off' ∉ (entry_pairs efr).*1) ->
             mirror_fields st' !! (k', off') = mirror_fields st !! (k', off'))
      /\ loaded st' = loaded st
      /\ initialized st' = initialized st
      /\ permanent_index_table st' = permanent_index_table st.
Proof.
  intros Huse. induction 1 as [|off idx rest Hidx Hrest IH];
    intros st r Hlen Hr Hnodup.
  - exists st, r. split; [done|]. split; [done|]. split; [done|].
    split; [intros idx Hin; by apply elem_of_nil in Hin|].
    split; [done|].
    split; [intros off Hin; by apply elem_of_nil in Hin|]. done.
  - cbn [root_indices] in Hnodup. apply NoDup_cons in Hnodup as [Hfresh Hnodup].
    destruct (lookup_lt_is_Some_2 r (Z.to_nat idx)) as [v Hv]; [lia|].
    set (r1 := <[Z.to_nat idx := null]> r).
    set (st2 := obj_field_put k off v (set_rt_roots (Some r1) st)).
    assert (init_fields_of_entries renv k (off :: idx :: rest) st
            = init_fields_of_entries renv k rest st2) as Hstep.
    { cbn [init_fields_of_entries].
      rewrite (get_root_clear_value idx st r v Huse Hr); [done|lia|done]. }
    destruct (IH st2 r1) as (st' & r' & Hrun & Hr' & Hlen' & Hnull & Hkeep
                             & Hval & Hframe & Hl & Hi & Hp);
      [by unfold r1; rewrite length_insert|done|done|].
    exists st', r'. rewrite Hstep.
    split; [done|]. split; [done|]. split; [done|].
    assert (forall i, i ∈ root_indices rest -> Z.to_nat i <> Z.to_nat idx)
      as Hdiff.
    { intros i Hi' Heq. pose proof (root_indices_bound _ _ Hrest i Hi').
      assert (i = idx) as -> by lia. done. }
    split; [|split; [|split; [|split]]].
    + intros i Hin. cbn [root_indices] in Hin.
      apply elem_of_cons in Hin as [->|Hin]; [|by apply Hnull].
      rewrite Hkeep; [|by rewrite Z2Nat.id by lia].
      unfold r1. apply list_lookup_insert_eq. lia.
    + intros j Hj. cbn [root_indices] in Hj.
      apply not_elem_of_cons in Hj as [Hne Hj].
      rewrite (Hkeep j Hj). unfold r1. apply list_lookup_insert_ne. lia.
    + intros o Ho. cbn [entry_pairs fmap list_fmap] in Ho. simpl in Ho.
      destruct (decide (o ∈ (entry_pairs rest).*1)) as [Hin|Hout].
      * destruct (Hval o Hin) as (i & w & Hpair & Hw & Hfield).
        exists i, w. split; [by right|]. split; [|done].
        unfold r1 in Hw. rewrite list_lookup_insert_ne in Hw; [done|].
        intros Heq. eapply Hdiff; [|by symmetry].
        by eapply entry_pairs_root_index.
      * apply elem_of_cons in Ho as [->|Ho]; [|done].
        exists idx, v. split; [by left|]. split; [done|].
        unfold obj_field. rewrite (Hframe k off); [|done].
        unfold st2. simpl. by rewrite lookup_insert_eq.
    + intros k' off' Hout. rewrite Hframe.
      * unfold st2. simpl. apply lookup_insert_ne.
        intros [= <- <-]. apply Hout; [done|]. simpl. by left.
      * intros Hk Hin. apply Hout; [done|]. simpl. by right.
    + done.
Qed.

(** X10.  With the heap in use, [init_archived_fields_for] stores into each
    entry field the root of one of the pairs that name it, whatever the field
    held before, and takes each root it reads out of the root table; the
    other fields and the other roots stay as they were. *)
Theorem init_archived_fields_for_restores (k : klass)
    (record : ArchivedKlassSubGraphInfoRecord) (efr : list Z)
    (st : RunState) (r : list oop) :
  is_in_use renv = true ->
  r_entry_field_records record = Some efr ->
  roots st = Some r ->
  entries_in_range (length r) efr ->
  NoDup (root_indices efr) ->
  exists st',
    init_archived_fields_for renv k record st = Some st'
    /\ (forall off,
           off ∈ (entry_pairs efr).*1 ->
           exists idx v,
             (off, idx) ∈ entry_pairs efr
             /\ roots_obj_at idx st = Some v
             /\ obj_field k off st' = v)
    /\ (forall idx,
           idx ∈ root_indices efr -> roots_obj_at idx st' = Some null)
    /\ (forall idx,
           0 <= idx -> idx ∉ root_indices efr ->
           roots_obj_at idx st' = roots_obj_at idx st)
    /\ (forall k' off',
           (k' = k -> off' ∉ (entry_pairs efr).*1) ->
           obj_field k' off' st' = obj_field k' off' st).
Proof.
  intros Huse Hefr Hr Hrange Hnodup.
  destruct (init_fields_of_entries_spec k _ efr Huse Hrange st r eq_refl Hr
              Hnodup)
    as (st' & r' & Hrun & Hr' & Hlen & Hnull & Hkeep & Hval & Hframe & _).
  exists st'. unfold init_archived_fields_for. rewrite Hefr.
  split; [done|].
  assert (forall s l i, roots s = Some l -> 0 <= i ->
                        roots_obj_at i s = l !! Z.to_nat i) as Hat.
  { intros s l i Hs Hi. unfold roots_obj_at. rewrite Hs.
    cbn [mbind option_bind].
    destruct (i <? 0) eqn:Hneg; [apply Z.ltb_lt in Hneg; lia|done]. }
  split; [|split; [|split]].
  - intros off Hoff. destruct (Hval off Hoff) as (idx & v & Hpair & Hv & Hf).
    exists idx, v. split; [done|]. split; [|done].
    rewrite (Hat st r idx Hr); [done|].
    apply (root_indices_bound _ _ Hrange).
    by eapply entry_pairs_root_index.
  - intros idx Hidx. rewrite (Hat st' r' idx Hr'); [by apply Hnull|].
    by apply (root_indices_bound _ _ Hrange).
  - intros idx Hpos Hout.
    rewrite (Hat st' r' idx Hr' Hpos), (Hat st r idx Hr Hpos).
    apply Hkeep. by rewrite Z2Nat.id.
  - intros k' off' Hout. unfold obj_field. by rewrite Hframe.
Qed.

Lemma rt_frame_refl (st : RunState) : rt_frame st st.
Proof. by repeat split. Qed.

Lemma rt_frame_trans (st1 st2 st3 : RunState) :
  rt_frame st1 st2 -> rt_frame st2 st3 -> rt_frame st1 st3.
Proof.
  intros (?&?&?&?&?) (?&?&?&?&?).
  repeat split; try congruence; by etrans.
Qed.

(** *** The resolution pass *)

Lemma loaded_by_resolving_refl (st : RunState) :
  loaded_by_resolving renv st st.
Proof. by intros c Hin Hout. Qed.

Lemma loaded_by_resolving_trans (st1 st2 st3 : RunState) :
  loaded_by_resolving renv st1 st2 -> loaded_by_resolving renv st2 st3 ->
  loaded_by_resolving renv st1 st3.
Proof.
  intros H12 H23 c Hin Hout.
  destruct (decide (c ∈ loaded st2)); [by apply H12|by apply H23].
Qed.

Lemma resolve_or_init_frame (k : klass) (pending : bool)
    (st st' : RunState) :
  resolve_or_init renv k false st = Some (pending, st') ->
  rt_frame st st'
  /\ initialized st' = initialized st
  /\ loaded_by_resolving renv st st'
  /\ (pending = false -> k ∈ loaded st').
Proof.
  unfold resolve_or_init. cbn [negb]. case_bool_decide as Hl.
  - intros [= <- <-]. split; [apply rt_frame_refl|]. split; [done|].
    split; [apply loaded_by_resolving_refl|done].
  - destruct (resolve_throws renv k) eqn:Hthrow.
    + intros [= <- <-]. split; [apply rt_frame_refl|]. split; [done|].
      split; [apply loaded_by_resolving_refl|done].
    + destruct (resolve_or_null renv k) as [resolved_k|] eqn:Hnull; [|done].
      destruct (Nat.eqb resolved_k k) eqn:Heq; [|done].
      apply Nat.eqb_eq in Heq as ->.
      intros [= <- <-]. split; [|split; [done|split]].
      * repeat split; try done. simpl. apply union_subseteq_r.
      * intros c Hin Hout. simpl in Hin.
        apply elem_of_union in Hin as [->%elem_of_singleton|Hin]; done.
      * intros _. simpl. by apply elem_of_union_l, elem_of_singleton.
Qed.

Lemma resolve_or_init_klasses_frame (klasses : list klass) :
  forall st pending finished st',
    resolve_or_init_klasses renv klasses false st
    = Some (pending, finished, st') ->
    rt_frame st st'
    /\ initialized st' = initialized st
    /\ loaded_by_resolving renv st st'
    /\ (finished = true ->
        pending = false
        /\ forall c, c ∈ klasses ->
             is_shared renv c = true /\ c ∈ loaded st').
Proof.
  induction klasses as [|c rest IH]; intros st pending finished st' Hrun;
    simpl in Hrun.
  - injection Hrun as <- <- <-. split; [apply rt_frame_refl|].
    split; [done|]. split; [apply loaded_by_resolving_refl|].
    intros _. split; [done|].
    intros c Hc. by apply elem_of_nil in Hc.
  - destruct (is_shared renv c) eqn:Hsh; cbn [negb] in Hrun.
    2:{ injection Hrun as <- <- <-. split; [apply rt_frame_refl|].
        split; [done|]. split; [apply loaded_by_resolving_refl|done]. }
    destruct (resolve_or_init renv c false st) as [[p st1]|] eqn:Hc;
      cbn [mbind option_bind] in Hrun; [|done].
    destruct (resolve_or_init_frame _ _ _ _ Hc) as (Hf1 & Hi1 & Hn1 & Hl1).
    destruct p.
    { injection Hrun as <- <- <-. by split. }
    destruct (IH _ _ _ _ Hrun) as (Hf2 & Hi2 & Hn2 & Hfin).
    split; [by eapply rt_frame_trans|]. split; [congruence|].
    split; [by eapply loaded_by_resolving_trans|].
    intros ->. destruct (Hfin eq_refl) as (-> & Hall). split; [done|].
    intros c' Hc'. apply elem_of_cons in Hc' as [->|Hc']; [|by apply Hall].
    split; [done|]. destruct Hf2 as (_&_&_&Hl2&_). by apply Hl2, Hl1.
Qed.

Lemma resolve_classes_inv (k : klass) (st : RunState)
    (rec : option ArchivedKlassSubGraphInfoRecord) (pending : bool)
    (st' : RunState) :
  resolve_or_init_classes_for_subgraph_of renv k false st
  = Some (rec, pending, st') ->
  rt_frame st st'
  /\ initialized st' = initialized st
  /\ loaded_by_resolving renv st st'
  /\ forall record,
       rec = Some record ->
       pending = false
       /\ is_shared renv k = true
       /\ run_time_subgraph_info_table renv !! k = Some record
       /\ (r_is_full_module_graph record = true ->
           is_loading_full_module_graph renv = true)
       /\ (r_has_non_early_klasses record = true ->
           should_post_class_file_load_hook renv = false)
       /\ k ∈ loaded st'
       /\ forall c, c ∈ default [] (r_subgraph_object_klasses record) ->
            is_shared renv c = true /\ c ∈ loaded st'.
Proof.
  assert (forall s, rt_frame s s /\ initialized s = initialized s
                    /\ loaded_by_resolving renv s s) as Hsame
    by (intros s; split; [apply rt_frame_refl|];
        split; [done|apply loaded_by_resolving_refl]).
  unfold resolve_or_init_classes_for_subgraph_of.
  destruct (is_shared renv k) eqn:Hsh; cbn [negb].
  2:{ intros [= <- <- <-]. destruct (Hsame st) as (?&?&?). by repeat split. }
  destruct (run_time_subgraph_info_table renv !! k) as [record|] eqn:Hrec.
  2:{ intros [= <- <- <-]. destruct (Hsame st) as (?&?&?). by repeat split. }
  destruct (r_is_full_module_graph record
            && negb (is_loading_full_module_graph renv)) eqn:Hg1.
  { intros [= <- <- <-]. destruct (Hsame st) as (?&?&?). by repeat split. }
  destruct (r_has_non_early_klasses record
            && should_post_class_file_load_hook renv) eqn:Hg2.
  { intros [= <- <- <-]. destruct (Hsame st) as (?&?&?). by repeat split. }
  assert (r_is_full_module_graph record = true ->
          is_loading_full_module_graph renv = true) as Hgate1.
  { intros Hf. rewrite Hf in Hg1.
    by destruct (is_loading_full_module_graph renv). }
  assert (r_has_non_early_klasses record = true ->
          should_post_class_file_load_hook renv = false) as Hgate2.
  { intros Hf. rewrite Hf in Hg2.
    by destruct (should_post_class_file_load_hook renv). }
  cbn [andb mbind option_bind].
  destruct (resolve_or_init renv k false st) as [[p st1]|] eqn:Hk;
    cbn [mbind option_bind]; [|done].
  destruct (resolve_or_init_frame _ _ _ _ Hk) as (Hf1 & Hi1 & Hn1 & Hl1).
  destruct p.
  { intros [= <- <- <-]. split; [done|]. split; [done|]. by split. }
  destruct (r_subgraph_object_klasses record) as [klasses|] eqn:Hks.
  - destruct (resolve_or_init_klasses renv klasses false st1)
      as [[[p2 fin] st2]|] eqn:Hloop; cbn [mbind option_bind]; [|done].
    destruct (resolve_or_init_klasses_frame _ _ _ _ _ Hloop)
      as (Hf2 & Hi2 & Hn2 & Hfin).
    destruct fin; intros [= <- <- <-].
    + split; [by eapply rt_frame_trans|]. split; [congruence|].
      split; [by eapply loaded_by_resolving_trans|].
      intros ? [= <-]. destruct (Hfin eq_refl) as (_ & Hall).
      destruct Hf2 as (_&_&_&Hl2&_).
      split; [done|]. split; [done|]. split; [done|]. split; [done|].
      split; [done|]. split; [by apply Hl2, Hl1|].
      rewrite Hks. exact Hall.
    + split; [by eapply rt_frame_trans|]. split; [congruence|].
      split; [by eapply loaded_by_resolving_trans|]. done.
  - intros [= <- <- <-]. split; [done|]. split; [done|]. split; [done|].
    intros ? [= <-].
    split; [done|]. split; [done|]. split; [done|]. split; [done|].
    split; [done|]. split; [by apply Hl1|].
    rewrite Hks. intros c Hc. by apply elem_of_nil in Hc.
Qed.

Lemma resolve_or_init_klasses_total (klasses : list klass) :
  (forall c, c ∈ klasses ->
     resolve_throws renv c = false -> resolve_or_null renv c = Some c) ->
  forall st,
    exists pending finished st',
      resolve_or_init_klasses renv klasses false st
      = Some (pending, finished, st').
Proof.
  induction klasses as [|c rest IH]; intros Hsame st; simpl;
    [by eexists _, _, _|].
  assert (forall c', c' ∈ rest ->
            resolve_throws renv c' = false ->
            resolve_or_null renv c' = Some c') as Hrest
    by (intros c' Hc'; apply Hsame; by right).
  destruct (is_shared renv c); cbn [negb]; [|by eexists _, _, _].
  unfold resolve_or_init. cbn [negb].
  case_bool_decide; cbn [mbind option_bind]; [by apply IH|].
  destruct (resolve_throws renv c) eqn:Hthrow; cbn [mbind option_bind];
    [by eexists _, _, _|].
  rewrite (Hsame c) by (done || by left). rewrite Nat.eqb_refl.
  cbn [mbind option_bind]. by apply IH.
Qed.

Lemma resolve_classes_total (k : klass)
    (record : ArchivedKlassSubGraphInfoRecord) (st : RunState) :
  run_time_subgraph_info_table renv !! k = Some record ->
  (forall c,
      c = k \/ c ∈ default [] (r_subgraph_object_klasses record) ->
      resolve_throws renv c = false -> resolve_or_null renv c = Some c) ->
  exists rec pending st',
    resolve_or_init_classes_for_subgraph_of renv k false st
    = Some (rec, pending, st').
Proof.
  intros Hrec Hsame. unfold resolve_or_init_classes_for_subgraph_of.
  destruct (is_shared renv k); cbn [negb]; [|by eexists _, _, _].
  rewrite Hrec.
  destruct (_ && negb _); [by eexists _, _, _|].
  destruct (_ && _); [by eexists _, _, _|].
  cbn [andb mbind option_bind].
  assert (exists p st1, resolve_or_init renv k false st = Some (p, st1))
    as (p & st1 & ->).
  { unfold resolve_or_init. cbn [negb]. case_bool_decide; [by eexists _, _|].
    destruct (resolve_throws renv k) eqn:Hthrow; [by eexists _, _|].
    rewrite (Hsame k) by (done || by left). rewrite Nat.eqb_refl.
    by eexists _, _. }
  cbn [mbind option_bind]. destruct p; [by eexists _, _, _|].
  destruct (r_subgraph_object_klasses record) as [klasses|] eqn:Hks;
    [|by eexists _, _, _].
  destruct (resolve_or_init_klasses_total klasses) with (st := st1)
    as (p2 & fin & st2 & ->).
  { intros c Hc. apply Hsame. by right. }
  cbn [mbind option_bind]. destruct fin; by eexists _, _, _.
Qed.

(** X12.  The resolution pass hands out the record of a holder only when the
    holder is shared, the record passed both gates, and the holder and every
    class of the record are shared and loaded, no exception pending.  Every
    class the pass loaded was returned by [resolve_or_null] under its own
    name, which is what [resolve_or_init] asserts; the root table, the static
    fields and the initialized classes are as before. *)
Theorem resolve_classes_resolved (k : klass) (st : RunState)
    (record : ArchivedKlassSubGraphInfoRecord) (pending : bool)
    (st' : RunState) :
  resolve_or_init_classes_for_subgraph_of renv k false st
  = Some (Some record, pending, st') ->
  pending = false
  /\ is_shared renv k = true
  /\ run_time_subgraph_info_table renv !! k = Some record
  /\ (r_is_full_module_graph record = true ->
      is_loading_full_module_graph renv = true)
  /\ (r_has_non_early_klasses record = true ->
      should_post_class_file_load_hook renv = false)
  /\ k ∈ loaded st'
  /\ (forall c, c ∈ default [] (r_subgraph_object_klasses record) ->
        is_shared renv c = true /\ c ∈ loaded st')
  /\ (forall c,
        c ∈ loaded st' -> c ∉ loaded st ->
        resolve_throws renv c = false /\ resolve_or_null renv c = Some c)
  /\ roots st' = roots st
  /\ mirror_fields st' = mirror_fields st
  /\ initialized st' = initialized st
  /\ resolve_classes_for_subgraph_of renv k st = Some st'.
Proof.
  intros Hres.
  destruct (resolve_classes_inv k st _ _ _ Hres)
    as ((Hr & Hm & _) & Hi & Hn & Hinv).
  destruct (Hinv record eq_refl) as (Hp & Hsh & Hrec & Hg1 & Hg2 & Hl & Hc).
  split; [done|]. split; [done|]. split; [done|]. split; [done|].
  split; [done|]. split; [done|]. split; [done|]. split; [done|].
  split; [done|]. split; [done|]. split; [done|].
  unfold resolve_classes_for_subgraph_of. rewrite Hres.
  by cbn [mbind option_bind].
Qed.

(** X13.  With a heap in use, and no class of the record replaced by
    another under its name (which [resolve_or_init] asserts), the resolution
    pass returns, and when it does not hand out the record of a holder,
    whatever the cause, it takes every root of the record out of the root
    table; no static field is written.  The causes include a holder or a
    recorded class that is not shared, and an exception while loading. *)
Theorem resolve_classes_rejected_clears_roots (k : klass)
    (record : ArchivedKlassSubGraphInfoRecord) (st : RunState)
    (r : list oop) :
  is_in_use renv = true ->
  run_time_subgraph_info_table renv !! k = Some record ->
  roots st = Some r ->
  entries_in_range (length r) (default [] (r_entry_field_records record)) ->
  (forall c,
      c = k \/ c ∈ default [] (r_subgraph_object_klasses record) ->
      resolve_throws renv c = false -> resolve_or_null renv c = Some c) ->
  exists rec pending st1 st',
    resolve_or_init_classes_for_subgraph_of renv k false st
    = Some (rec, pending, st1)
    /\ resolve_classes_for_subgraph_of renv k st = Some st'
    /\ mirror_fields st' = mirror_fields st
    /\ (rec = None ->
        forall idx,
          idx ∈ root_indices (default [] (r_entry_field_records record)) ->
          roots_obj_at idx st' = Some null)
    /\ (is_shared renv k = false
        \/ (exists c, c ∈ default [] (r_subgraph_object_klasses record)
                      /\ is_shared renv c = false)
        \/ pending = true ->
        rec = None).
Proof.
  intros Huse Hrec Hr Hrange Hsame.
  destruct (resolve_classes_total k record st Hrec Hsame)
    as (rec & pending & st1 & Hres).
  destruct (resolve_classes_inv k st _ _ _ Hres)
    as ((Hr1 & Hm1 & _) & _ & _ & Hinv).
  assert (is_shared renv k = false
          \/ (exists c, c ∈ default [] (r_subgraph_object_klasses record)
                        /\ is_shared renv c = false)
          \/ pending = true -> rec = None) as Hcause.
  { intros Hc. destruct rec as [record'|]; [|done].
    destruct (Hinv record' eq_refl) as (Hp & Hsh & Hrec' & _ & _ & _ & Hall).
    assert (record' = record) as -> by congruence.
    destruct Hc as [Hc|[(c & Hin & Hc)|Hc]]; [congruence| |congruence].
    destruct (Hall c Hin) as (Hshc & _). congruence. }
  unfold resolve_classes_for_subgraph_of. rewrite Hres.
  cbn [mbind option_bind]. destruct rec as [record'|].
  - exists (Some record'), pending, st1, st1. by repeat split.
  - unfold clear_archived_roots_of. rewrite Hrec.
    destruct (r_entry_field_records record) as [efr|] eqn:Hefr.
    + destruct (clear_roots_of_entries_spec renv efr Huse st1 r)
        as (r' & Hclear & Hlen & Hnull & _); [congruence|done|].
      exists None, pending, st1, (set_rt_roots (Some r') st1).
      split; [done|]. split; [done|]. split; [done|]. split; [|done].
      intros _ idx Hidx. unfold roots_obj_at. simpl.
      pose proof (root_indices_bound _ _ Hrange idx Hidx) as Hb.
      destruct (idx <? 0) eqn:Hneg; [apply Z.ltb_lt in Hneg; lia|].
      by apply Hnull.
    + exists None, pending, st1, st1. split; [done|]. split; [done|].
      split; [done|]. split; [|done].
      intros _ idx Hidx. by apply elem_of_nil in Hidx.
Qed.

(** *** The initialization pass *)

Lemma roots_kept_refl (indices : list Z) (st : RunState) :
  roots_kept indices st st.
Proof. intros r Hr. by exists r. Qed.

Lemma roots_kept_trans (indices : list Z) (st1 st2 st3 : RunState) :
  roots_kept indices st1 st2 -> roots_kept indices st2 st3 ->
  roots_kept indices st1 st3.
Proof.
  intros H12 H23 r Hr. destruct (H12 r Hr) as (r2 & Hr2 & Hl2 & Hk2).
  destruct (H23 r2 Hr2) as (r3 & Hr3 & Hl3 & Hk3).
  exists r3. split; [done|]. split; [congruence|].
  intros i Hi. by rewrite Hk3, Hk2.
Qed.

Lemma take_roots_kept (indices taken : list Z) :
  (forall i, i ∈ indices -> 0 <= i) ->
  (forall i, i ∈ taken -> i ∉ indices) ->
  forall st st',
    take_roots renv taken st = Some st' ->
    roots_kept indices st st'
    /\ mirror_fields st' = mirror_fields st
    /\ loaded st' = loaded st
    /\ initialized st' = initialized st.
Proof.
  intros Hpos. induction taken as [|i rest IH]; intros Hout st st' Hrun;
    simpl in Hrun.
  - injection Hrun as <-. split; [apply roots_kept_refl|done].
  - destruct (get_root renv i true st) as [[v st1]|] eqn:Hget;
      cbn [mbind option_bind] in Hrun; [|done].
    destruct (IH (fun j Hj => Hout j (list_elem_of_further _ _ _ Hj)) _ _ Hrun)
      as (Hk2 & Hm2 & Hl2 & Hi2).
    assert (roots_kept indices st st1
            /\ mirror_fields st1 = mirror_fields st
            /\ loaded st1 = loaded st
            /\ initialized st1 = initialized st) as (Hk1 & Hm1 & Hl1 & Hi1).
    { unfold get_root, roots_obj_at in Hget.
      destruct (roots st) as [r|] eqn:Hr; [|done].
      cbn [mbind option_bind] in Hget.
      destruct (i <? 0) eqn:Hneg; [done|]. apply Z.ltb_ge in Hneg.
      destruct (r !! Z.to_nat i) as [x|]; [|done].
      cbn [mbind option_bind] in Hget. unfold clear_root in Hget.
      destruct (i <? 0); [done|].
      destruct (is_in_use renv).
      2:{ injection Hget as _ <-. split; [apply roots_kept_refl|done]. }
      rewrite Hr in Hget. cbn [mbind option_bind] in Hget.
      destruct (Z.to_nat i <? length r)%nat; [|done].
      injection Hget as _ <-. split; [|done].
      intros r0 Hr0. rewrite Hr in Hr0. injection Hr0 as <-.
      eexists. split; [done|]. split; [by rewrite length_insert|].
      intros j Hj. apply list_lookup_insert_ne.
      pose proof (Hpos j Hj). intros Heq.
      apply (Hout i); [by left|].
      by replace i with j by lia. }
    split; [by eapply roots_kept_trans|]. split; [congruence|].
    split; congruence.
Qed.

Lemma stores_kept (stores : list (klass * Z * oop)) :
  forall st,
    let st' := foldl (fun s '(c, offset, v) => obj_field_put c offset v s)
                 st stores in
    roots st' = roots st
    /\ loaded st' = loaded st
    /\ initialized st' = initialized st
    /\ permanent_index_table st' = permanent_index_table st
    /\ forall k off,
         (forall v, (k, off, v) ∉ stores) ->
         obj_field k off st' = obj_field k off st.
Proof.
  induction stores as [|[[c o] v] rest IH]; intros st; simpl; [done|].
  destruct (IH (obj_field_put c o v st)) as (Hr & Hl & Hi & Hp & Hf).
  split; [done|]. split; [done|]. split; [done|]. split; [done|].
  intros k off Hnot. rewrite Hf.
  - unfold obj_field. simpl. rewrite lookup_insert_ne; [done|].
    intros [= -> ->]. apply (Hnot v). by left.
  - intros w Hw. apply (Hnot w). by right.
Qed.

Lemma initialize_inv (k : klass) (indices offsets : list Z) (c : klass)
    (pending : bool) (st st' : RunState) :
  (forall i, i ∈ indices -> 0 <= i) ->
  initializer_spares renv c indices ->
  initializer_skips renv c k offsets ->
  initialize renv c st = Some (pending, st') ->
  roots_kept indices st st'
  /\ (forall off, off ∈ offsets -> obj_field k off st' = obj_field k off st)
  /\ loaded st' = loaded st
  /\ initialized st ⊆ initialized st'
  /\ pending = initialize_throws renv c
  /\ (pending = false -> c ∈ initialized st').
Proof.
  intros Hpos Hspare Hskip. unfold initialize.
  destruct (stores_kept (ie_stores (class_initializer renv c st)) st)
    as (Hr & Hl & Hi & _ & Hf).
  set (st1 := foldl _ st _) in *.
  destruct (if is_in_use renv then _ else _) as [st2|] eqn:Htake;
    cbn [mbind option_bind]; [|done].
  assert (roots_kept indices st1 st2
          /\ mirror_fields st2 = mirror_fields st1
          /\ loaded st2 = loaded st1
          /\ initialized st2 = initialized st1) as (Hk2 & Hm2 & Hl2 & Hi2).
  { destruct (is_in_use renv).
    - apply (take_roots_kept indices _ Hpos (Hspare st) _ _ Htake).
    - injection Htake as <-. split; [apply roots_kept_refl|done]. }
  assert (roots_kept indices st st2) as Hk.
  { intros r Hr0. apply Hk2. by rewrite Hr. }
  assert (forall off, off ∈ offsets ->
            obj_field k off st2 = obj_field k off st) as Hfields.
  { intros off Hoff. unfold obj_field at 1. rewrite Hm2.
    apply Hf. intros v Hv. by apply (Hskip st off v). }
  destruct (initialize_throws renv c); intros [= <- <-].
  - split; [done|]. split; [done|]. split; [congruence|].
    split; [by rewrite Hi2, Hi|done].
  - split; [done|]. split; [done|]. split; [simpl; congruence|].
    split; [simpl; rewrite Hi2, Hi; apply union_subseteq_r|].
    split; [done|]. intros _. simpl.
    by apply elem_of_union_l, elem_of_singleton.
Qed.

Lemma resolve_or_init_init_inv (k : klass) (indices offsets : list Z)
    (c : klass) (pending : bool) (st st' : RunState) :
  (forall i, i ∈ indices -> 0 <= i) ->
  initializer_spares renv c indices ->
  initializer_skips renv c k offsets ->
  resolve_or_init renv c true st = Some (pending, st') ->
  roots_kept indices st st'
  /\ (forall off, off ∈ offsets -> obj_field k off st' = obj_field k off st)
  /\ loaded st' = loaded st
  /\ initialized st ⊆ initialized st'
  /\ (pending = true -> initialize_throws renv c = true)
  /\ (pending = false -> rt_klass_kind renv c <> TypeArrayK ->
      c ∈ initialized st').
Proof.
  intros Hpos Hspare Hskip. unfold resolve_or_init. cbn [negb].
  case_bool_decide as Hl; cbn [negb]; [|done].
  assert (forall p s,
            initialize renv c st = Some (p, s) ->
            roots_kept indices st s
            /\ (forall off, off ∈ offsets ->
                  obj_field k off s = obj_field k off st)
            /\ loaded s = loaded st
            /\ initialized st ⊆ initialized s
            /\ (p = true -> initialize_throws renv c = true)
            /\ (p = false -> rt_klass_kind renv c <> TypeArrayK ->
                c ∈ initialized s)) as Hinit.
  { intros p s Hrun.
    destruct (initialize_inv k indices offsets c p st s Hpos Hspare Hskip Hrun)
      as (?&?&?&?&Hp&Hin).
    split; [done|]. split; [done|]. split; [done|]. split; [done|].
    split; [congruence|]. intros Hf _. by apply Hin. }
  destruct (rt_klass_kind renv c); [by apply Hinit| by apply Hinit|].
  intros [= <- <-]. split; [apply roots_kept_refl|]. by repeat split.
Qed.

Lemma resolve_or_init_klasses_init_inv (k : klass) (indices offsets : list Z)
    (klasses : list klass) :
  (forall i, i ∈ indices -> 0 <= i) ->
  (forall c, c ∈ klasses ->
     initializer_spares renv c indices
     /\ initializer_skips renv c k offsets) ->
  forall st pending finished st',
    resolve_or_init_klasses renv klasses true st
    = Some (pending, finished, st') ->
    roots_kept indices st st'
    /\ (forall off, off ∈ offsets -> obj_field k off st' = obj_field k off st)
    /\ loaded st' = loaded st
    /\ initialized st ⊆ initialized st'
    /\ (pending = true ->
        finished = false
        /\ exists c, c ∈ klasses /\ initialize_throws renv c = true)
    /\ (pending = false -> finished = false ->
        exists c, c ∈ klasses /\ is_shared renv c = false)
    /\ (finished = true ->
        forall c, c ∈ klasses -> rt_klass_kind renv c <> TypeArrayK ->
                  c ∈ initialized st').
Proof.
  intros Hpos. induction klasses as [|c rest IH];
    intros Hall st pending finished st' Hrun; simpl in Hrun.
  - injection Hrun as <- <- <-. split; [apply roots_kept_refl|].
    split; [done|]. split; [done|]. split; [done|]. split; [done|].
    split; [done|]. intros _ c Hc. by apply elem_of_nil in Hc.
  - destruct (is_shared renv c) eqn:Hsh; cbn [negb] in Hrun.
    2:{ injection Hrun as <- <- <-. split; [apply roots_kept_refl|].
        split; [done|]. split; [done|]. split; [done|]. split; [done|].
        split; [|done]. intros _ _. exists c. split; [by left|done]. }
    destruct (resolve_or_init renv c true st) as [[p st1]|] eqn:Hc;
      cbn [mbind option_bind] in Hrun; [|done].
    destruct (Hall c) as [Hspare Hskip]; [by left|].
    destruct (resolve_or_init_init_inv k indices offsets c p st st1 Hpos
                Hspare Hskip Hc) as (Hk1 & Hf1 & Hl1 & Hi1 & Hp1 & Hin1).
    destruct p.
    { injection Hrun as <- <- <-. split; [done|]. split; [done|].
      split; [done|]. split; [done|]. split; [|done].
      intros _. split; [done|]. exists c. split; [by left|by apply Hp1]. }
    destruct (IH (fun c' Hc' => Hall c' (list_elem_of_further _ _ _ Hc'))
                _ _ _ _ Hrun)
      as (Hk2 & Hf2 & Hl2 & Hi2 & Hp2 & Hs2 & Hin2).
    split; [by eapply roots_kept_trans|].
    split; [intros off Hoff; by rewrite Hf2, Hf1|].
    split; [congruence|]. split; [by etrans|]. split; [|split].
    + intros Hp. destruct (Hp2 Hp) as (-> & c' & Hc' & Ht).
      split; [done|]. exists c'. split; [by right|done].
    + intros Hp Hf. destruct (Hs2 Hp Hf) as (c' & Hc' & Hs).
      exists c'. split; [by right|done].
    + intros Hf c' Hc' Hkind.
      apply elem_of_cons in Hc' as [->|Hc']; [|by apply Hin2].
      by apply Hi2, Hin1.
Qed.

(** What the initialization of the classes of a record that passes the
    gates leaves, when the initializers run for it take none of the roots at
    [indices] and store into none of the holder's fields at [offsets]. *)
Lemma initialize_classes_inv (k : klass)
    (record : ArchivedKlassSubGraphInfoRecord) (indices offsets : list Z)
    (st : RunState) (rec : option ArchivedKlassSubGraphInfoRecord)
    (pending : bool) (st' : RunState) :
  is_shared renv k = true ->
  run_time_subgraph_info_table renv !! k = Some record ->
  (r_is_full_module_graph record = true ->
   is_loading_full_module_graph renv = true) ->
  (r_has_non_early_klasses record = true ->
   should_post_class_file_load_hook renv = false) ->
  is_MethodType renv k = false ->
  (forall i, i ∈ indices -> 0 <= i) ->
  (forall c,
      c = k \/ c ∈ default [] (r_subgraph_object_klasses record) ->
      initializer_spares renv c indices
      /\ initializer_skips renv c k offsets) ->
  resolve_or_init_classes_for_subgraph_of renv k true st
  = Some (rec, pending, st') ->
  roots_kept indices st st'
  /\ (forall off, off ∈ offsets -> obj_field k off st' = obj_field k off st)
  /\ loaded st' = loaded st
  /\ initialized st ⊆ initialized st'
  /\ (pending = true ->
      rec = None
      /\ exists c,
           (c = k \/ c ∈ default [] (r_subgraph_object_klasses record))
           /\ initialize_throws renv c = true)
  /\ (pending = false -> rec = None ->
      exists c, c ∈ default [] (r_subgraph_object_klasses record)
                /\ is_shared renv c = false)
  /\ (is_Some rec ->
      rec = Some record
      /\ pending = false
      /\ forall c,
           c = k \/ c ∈ default [] (r_subgraph_object_klasses record) ->
           rt_klass_kind renv c <> TypeArrayK -> c ∈ initialized st').
Proof.
  intros Hsh Hrec Hg1 Hg2 HMT Hpos Hall.
  unfold resolve_or_init_classes_for_subgraph_of.
  rewrite Hsh, Hrec. cbn [negb].
  assert (r_is_full_module_graph record
          && negb (is_loading_full_module_graph renv) = false) as ->.
  { destruct (r_is_full_module_graph record); [|done]. by rewrite Hg1. }
  assert (r_has_non_early_klasses record
          && should_post_class_file_load_hook renv = false) as ->.
  { destruct (r_has_non_early_klasses record); [|done]. by rewrite Hg2. }
  rewrite HMT. cbn [andb mbind option_bind].
  destruct (resolve_or_init renv k true st) as [[p st1]|] eqn:Hk;
    cbn [mbind option_bind]; [|done].
  destruct (Hall k) as [Hspare Hskip]; [by left|].
  destruct (resolve_or_init_init_inv k indices offsets k p st st1 Hpos
              Hspare Hskip Hk) as (Hk1 & Hf1 & Hl1 & Hi1 & Hp1 & Hin1).
  destruct p.
  { intros [= <- <- <-]. split; [done|]. split; [done|]. split; [done|].
    split; [done|]. split; [|split; [done|by intros [? [=]]]].
    intros _. split; [done|]. exists k. split; [by left|by apply Hp1]. }
  destruct (r_subgraph_object_klasses record) as [klasses|] eqn:Hks.
  - destruct (resolve_or_init_klasses renv klasses true st1)
      as [[[p2 fin] st2]|] eqn:Hloop; cbn [mbind option_bind]; [|done].
    destruct (resolve_or_init_klasses_init_inv k indices offsets klasses Hpos
                (fun c Hc => Hall c (or_intror Hc)) _ _ _ _ Hloop)
      as (Hk2 & Hf2 & Hl2 & Hi2 & Hp2 & Hs2 & Hin2).
    assert (roots_kept indices st st2) as Hk12
      by (by eapply roots_kept_trans).
    assert (forall off, off ∈ offsets ->
              obj_field k off st2 = obj_field k off st) as Hf12
      by (intros off Hoff; by rewrite Hf2, Hf1).
    destruct fin; intros [= <- <- <-].
    + split; [done|]. split; [done|]. split; [congruence|].
      split; [by etrans|]. split; [done|]. split; [done|].
      intros _. split; [done|]. split; [done|].
      intros c [->|Hc] Hkind; [by apply Hi2, Hin1|by apply Hin2].
    + split; [done|]. split; [done|]. split; [congruence|].
      split; [by etrans|]. split; [|split; [|by intros [? [=]]]].
      * intros Hp. destruct (Hp2 Hp) as (_ & c & Hc & Ht).
        split; [done|]. exists c. split; [by right|done].
      * intros Hp _. by apply Hs2.
  - intros [= <- <- <-]. split; [done|]. split; [done|]. split; [done|].
    split; [done|]. split; [done|]. split; [done|].
    intros _. split; [done|]. split; [done|].
    intros c [->|Hc] Hkind; [by apply Hin1|by apply elem_of_nil in Hc].
Qed.


(** X14.  When initializing a class for a holder other than [MethodType]
    leaves an exception pending, [initialize_from_archived_subgraph] stores
    nothing and takes no root: it returns the state the initializers left,
    in which the roots of the record and the entry fields of the holder are
    as on entry, as far as the initializers run on the way leave them
    alone. *)
Theorem initialize_from_archived_subgraph_exception (k : klass)
    (record : ArchivedKlassSubGraphInfoRecord) (efr : list Z)
    (st : RunState) (r : list oop)
    (rec : option ArchivedKlassSubGraphInfoRecord) (st1 : RunState) :
  is_in_use renv = true ->
  is_shared renv k = true ->
  run_time_subgraph_info_table renv !! k = Some record ->
  (r_is_full_module_graph record = true ->
   is_loading_full_module_graph renv = true) ->
  (r_has_non_early_klasses record = true ->
   should_post_class_file_load_hook renv = false) ->
  is_MethodType renv k = false ->
  r_entry_field_records record = Some efr ->
  roots st = Some r ->
  entries_in_range (length r) efr ->
  (forall c,
      c = k \/ c ∈ default [] (r_subgraph_object_klasses record) ->
      initializer_spares renv c (root_indices efr)
      /\ initializer_skips renv c k (entry_pairs efr).*1) ->
  resolve_or_init_classes_for_subgraph_of renv k true st
  = Some (rec, true, st1) ->
  initialize_from_archived_subgraph renv k st = Some st1
  /\ (exists c,
         (c = k \/ c ∈ default [] (r_subgraph_object_klasses record))
         /\ initialize_throws renv c = true)
  /\ (forall off,
         off ∈ (entry_pairs efr).*1 ->
         obj_field k off st1 = obj_field k off st)
  /\ (forall idx,
         idx ∈ root_indices efr ->
         roots_obj_at idx st1 = roots_obj_at idx st).
Proof.
  intros Huse Hsh Hrec Hg1 Hg2 HMT Hefr Hr Hrange Hall Hres.
  destruct (initialize_classes_inv k record (root_indices efr)
              (entry_pairs efr).*1 st rec true st1 Hsh Hrec Hg1 Hg2 HMT)
    as (Hkept & Hfields & _ & _ & Hthrow & _); [|done|done|].
  { intros i Hi. by apply (root_indices_bound _ _ Hrange). }
  split; [|split; [by apply Hthrow|split; [done|]]].
  - unfold initialize_from_archived_subgraph. rewrite Huse. cbn [negb].
    rewrite Hres. by cbn [mbind option_bind].
  - intros idx Hidx. destruct (Hkept r Hr) as (r1 & Hr1 & _ & Hsame).
    unfold roots_obj_at. rewrite Hr, Hr1. cbn [mbind option_bind].
    destruct (idx <? 0); [done|]. by apply Hsame.
Qed.

End Restore.

(** ** The table of frozen records *)

Section WriteTable.

Variable env : DumpEnv.

Lemma map_fold_do_entry (m : gmap klass KlassSubGraphInfo) :
  (forall k1 k2,
      is_Some (m !! k1) -> is_Some (m !! k2) ->
      get_buffered_klass env k1 = get_buffered_klass env k2 -> k1 = k2) ->
  (forall k info,
      m !! k = Some info ->
      map_fold (do_entry env) ∅ m !! get_buffered_klass env k
      = if bool_decide (is_Some (sg_subgraph_object_klasses info))
           || bool_decide (is_Some (sg_subgraph_entry_fields info))
        then Some (ArchivedKlassSubGraphInfoRecord_init info)
        else None)
  /\ (forall bk record,
         map_fold (do_entry env) ∅ m !! bk = Some record ->
         exists k info,
           m !! k = Some info
           /\ bk = get_buffered_klass env k
           /\ record = ArchivedKlassSubGraphInfoRecord_init info).
Proof.
  apply (map_fold_weak_ind
           (fun (t : gmap klass ArchivedKlassSubGraphInfoRecord)
                (m : gmap klass KlassSubGraphInfo) =>
              (forall k1 k2,
                  is_Some (m !! k1) -> is_Some (m !! k2) ->
                  get_buffered_klass env k1 = get_buffered_klass env k2 ->
                  k1 = k2) ->
              (forall k info,
                  m !! k = Some info ->
                  t !! get_buffered_klass env k
                  = if bool_decide (is_Some (sg_subgraph_object_klasses info))
                       || bool_decide (is_Some (sg_subgraph_entry_fields info))
                    then Some (ArchivedKlassSubGraphInfoRecord_init info)
                    else None)
              /\ (forall bk record,
                     t !! bk = Some record ->
                     exists k info,
                       m !! k = Some info
                       /\ bk = get_buffered_klass env k
                       /\ record = ArchivedKlassSubGraphInfoRecord_init info))).
  - intros _. split; [intros k info Hk; by rewrite lookup_empty in Hk|].
    intros bk record Hbk. by rewrite lookup_empty in Hbk.
  - intros i x m0 t Hfresh IH Hinj.
    destruct IH as (Hfwd & Hback).
    { intros k1 k2 [x1 H1] [x2 H2]. apply Hinj.
      - destruct (decide (k1 = i)) as [->|?]; [congruence|].
        rewrite lookup_insert_ne by done. by eexists.
      - destruct (decide (k2 = i)) as [->|?]; [congruence|].
        rewrite lookup_insert_ne by done. by eexists. }
    assert (t !! get_buffered_klass env i = None) as Hnone.
    { destruct (t !! get_buffered_klass env i) as [record|] eqn:Hl; [|done].
      destruct (Hback _ _ Hl) as (k & info & Hk & Heq & _).
      assert (i = k) as ->; [|congruence].
      apply Hinj; [rewrite lookup_insert_eq; by eexists| |done].
      destruct (decide (k = i)) as [->|?]; [congruence|].
      rewrite lookup_insert_ne by done. by eexists. }
    split.
    + intros k info Hk. unfold do_entry.
      destruct (decide (k = i)) as [->|Hne].
      * rewrite lookup_insert_eq in Hk. injection Hk as ->.
        destruct (_ || _); [by rewrite lookup_insert_eq|done].
      * rewrite lookup_insert_ne in Hk by done.
        assert (get_buffered_klass env i <> get_buffered_klass env k) as Hb.
        { intros Heq. apply Hne. symmetry. apply Hinj; [| |done].
          - rewrite lookup_insert_eq. by eexists.
          - rewrite lookup_insert_ne by done. by eexists. }
        destruct (bool_decide (is_Some (sg_subgraph_object_klasses x))
                  || bool_decide (is_Some (sg_subgraph_entry_fields x)));
          [rewrite lookup_insert_ne by done|]; by apply Hfwd.
    + intros bk record Hbk. unfold do_entry in Hbk.
      destruct (bool_decide (is_Some (sg_subgraph_object_klasses x))
                || bool_decide (is_Some (sg_subgraph_entry_fields x))).
      * destruct (decide (bk = get_buffered_klass env i)) as [->|Hne].
        -- rewrite lookup_insert_eq in Hbk. injection Hbk as <-.
           exists i, x. by rewrite lookup_insert_eq.
        -- rewrite lookup_insert_ne in Hbk by done.
           destruct (Hback _ _ Hbk) as (k & info & Hk & Heq & Hr).
           exists k, info. split; [|done].
           rewrite lookup_insert_ne; [done|]. congruence.
      * destruct (Hback _ _ Hbk) as (k & info & Hk & Heq & Hr).
        exists k, info. split; [|done].
        rewrite lookup_insert_ne; [done|]. congruence.
Qed.

(** X15.  Written under the buffered addresses of the holders, which are
    distinct, the table of frozen records holds for each recorder entry that
    has entry fields or classes the record made of it, with these entry
    fields and classes, and nothing for an entry that has neither; it holds
    no other record. *)
Theorem write_subgraph_info_table_lookup (st : DumpState) :
  (forall k1 k2,
      is_Some (get_subgraph_info k1 st) -> is_Some (get_subgraph_info k2 st) ->
      get_buffered_klass env k1 = get_buffered_klass env k2 -> k1 = k2) ->
  (forall k info,
      get_subgraph_info k st = Some info ->
      match write_subgraph_info_table env st !! get_buffered_klass env k with
      | Some record =>
        (is_Some (sg_subgraph_object_klasses info)
         \/ is_Some (sg_subgraph_entry_fields info))
        /\ r_k record = sg_k info
        /\ r_entry_field_records record = sg_subgraph_entry_fields info
        /\ r_subgraph_object_klasses record = sg_subgraph_object_klasses info
        /\ r_is_full_module_graph record = sg_is_full_module_graph info
      | None =>
        sg_subgraph_object_klasses info = None
        /\ sg_subgraph_entry_fields info = None
      end)
  /\ (forall bk record,
         write_subgraph_info_table env st !! bk = Some record ->
         exists k info,
           get_subgraph_info k st = Some info
           /\ bk = get_buffered_klass env k
           /\ record = ArchivedKlassSubGraphInfoRecord_init info).
Proof.
  intros Hinj. unfold write_subgraph_info_table, get_subgraph_info in *.
  destruct (map_fold_do_entry (dump_time_subgraph_info_table st) Hinj)
    as (Hfwd & Hback).
  split; [|done].
  intros k info Hk. rewrite (Hfwd k info Hk).
  destruct (sg_subgraph_object_klasses info) as [ks|] eqn:Hks;
    destruct (sg_subgraph_entry_fields info) as [efr|] eqn:Hefr; simpl;
    rewrite ?Hks, ?Hefr; try done;
    (split; [first [by left; eexists|by right; eexists]|done]).
Qed.

End WriteTable.

(** ** Allocation statistics *)

Section Statistics.

Variable env : DumpEnv.

Lemma alloc_stat_slot_spec (size : Z) (n : nat) :
  forall i : nat,
    match alloc_stat_slot size i n with
    | Some s =>
      (i <= s < i + n)%nat /\ size <= 2 ^ Z.of_nat s
      /\ forall j : nat, (i <= j < s)%nat -> 2 ^ Z.of_nat j < size
    | None => forall j : nat, (i <= j < i + n)%nat -> 2 ^ Z.of_nat j < size
    end.
Proof.
  induction n as [|n IH]; intros i; simpl; [intros j Hj; lia|].
  rewrite Z.shiftl_1_l.
  destruct (size <=? 2 ^ Z.of_nat i) eqn:Hle.
  - apply Z.leb_le in Hle. split; [lia|]. split; [done|]. intros j Hj. lia.
  - apply Z.leb_gt in Hle. specialize (IH (S i)).
    destruct (alloc_stat_slot size (S i) n) as [s|].
    + destruct IH as (Hs & Hsize & Hmin). split; [lia|]. split; [done|].
      intros j Hj. destruct (decide (j = i)) as [->|Hne]; [done|].
      apply Hmin. lia.
    + intros j Hj. destruct (decide (j = i)) as [->|Hne]; [done|].
      apply IH. lia.
Qed.

(** X16.  [count_allocation] counts every object in the totals and files it
    under the first slot whose power of two is not below its size: slot [s]
    takes the sizes above [2^(s-1)] and up to [2^s], and an object larger
    than the last power of two is filed under no slot. *)
Theorem count_allocation_slot (size : Z) (st : DumpState) :
  total_obj_count (count_allocation env size st) = total_obj_count st + 1
  /\ total_obj_size (count_allocation env size st) = total_obj_size st + size
  /\ match alloc_stat_slot size 0 (ALLOC_STAT_SLOTS env) with
     | Some s =>
       (s < ALLOC_STAT_SLOTS env)%nat /\ size <= 2 ^ Z.of_nat s
       /\ (forall j : nat, (j < s)%nat -> 2 ^ Z.of_nat j < size)
       /\ alloc_count (count_allocation env size st)
          = alter Z.succ s (alloc_count st)
       /\ alloc_size (count_allocation env size st)
          = alter (fun total => total + size) s (alloc_size st)
     | None =>
       (forall j : nat, (j < ALLOC_STAT_SLOTS env)%nat -> 2 ^ Z.of_nat j < size)
       /\ alloc_count (count_allocation env size st) = alloc_count st
       /\ alloc_size (count_allocation env size st) = alloc_size st
     end.
Proof.
  pose proof (alloc_stat_slot_spec size (ALLOC_STAT_SLOTS env) 0) as Hspec.
  unfold count_allocation.
  destruct (alloc_stat_slot size 0 (ALLOC_STAT_SLOTS env)) as [s|].
  - destruct Hspec as (Hs & Hsize & Hmin). split; [done|]. split; [done|].
    split; [lia|]. split; [done|]. split; [|done].
    intros j Hj. apply Hmin. lia.
  - split; [done|]. split; [done|]. split; [|done].
    intros j Hj. apply Hspec. lia.
Qed.

Lemma sum_Z_alter (f : Z -> Z) (l : list Z) :
  forall (s : nat) (x : Z),
    l !! s = Some x -> sum_Z (alter f s l) = sum_Z l + (f x - x).
Proof.
  unfold sum_Z.
  induction l as [|y l IH]; intros [|s] x Hx; try done.
  - injection Hx as ->. cbn. lia.
  - cbn. cbn in Hx. rewrite (IH s x Hx). lia.
Qed.

Lemma size_t_sub (a b : Z) : size_t (size_t a - b) = size_t (a - b).
Proof. unfold size_t. by rewrite Zminus_mod_idemp_l. Qed.

Lemma size_t_add (a b : Z) : size_t (size_t a + b) = size_t (a + b).
Proof. unfold size_t. by rewrite Zplus_mod_idemp_l. Qed.

Lemma print_stats_loop_eq (st : DumpState) (n : nat) :
  forall (i : nat) (a b : Z),
    (i + n <= length (alloc_count st))%nat ->
    (i + n <= length (alloc_size st))%nat ->
    print_stats_loop st i n (size_t a) (size_t b)
    = (size_t (a - sum_Z (take n (drop i (alloc_count st)))),
       size_t (b - sum_Z (take n (drop i (alloc_size st))))).
Proof.
  induction n as [|n IH]; intros i a b Hc Hs; cbn [print_stats_loop take].
  - unfold sum_Z. simpl. by rewrite !Z.sub_0_r.
  - destruct (lookup_lt_is_Some_2 (alloc_count st) i) as [x Hx]; [lia|].
    destruct (lookup_lt_is_Some_2 (alloc_size st) i) as [y Hy]; [lia|].
    rewrite Hx, Hy. cbn [default]. rewrite !size_t_sub.
    rewrite IH by lia.
    rewrite (drop_S _ _ _ Hx), (drop_S _ _ _ Hy). cbn [take].
    unfold sum_Z, id. cbn [foldr]. f_equal; f_equal; lia.
Qed.

Lemma print_stats_eq (st : DumpState) :
  (0 < ALLOC_STAT_SLOTS env)%nat ->
  length (alloc_count st) = ALLOC_STAT_SLOTS env ->
  length (alloc_size st) = ALLOC_STAT_SLOTS env ->
  print_stats env st
  = (size_t (total_obj_count st - sum_Z (alloc_count st)),
     size_t (total_obj_size st - sum_Z (alloc_size st))).
Proof.
  intros Hpos Hc Hs. unfold print_stats.
  destruct (ALLOC_STAT_SLOTS env) as [|n] eqn:Hn; [lia|].
  cbn [print_stats_loop].
  destruct (lookup_lt_is_Some_2 (alloc_count st) 0) as [x Hx]; [lia|].
  destruct (lookup_lt_is_Some_2 (alloc_size st) 0) as [y Hy]; [lia|].
  rewrite Hx, Hy. cbn [default]. rewrite print_stats_loop_eq by lia.
  destruct (alloc_count st) as [|x' cs]; [done|].
  destruct (alloc_size st) as [|y' ss]; [done|].
  injection Hx as ->. injection Hy as ->. simpl in Hc, Hs.
  cbn [drop]. rewrite !drop_0, !take_ge by lia.
  unfold sum_Z, id. cbn [foldr]. f_equal; f_equal; lia.
Qed.

(** X17.  The numbers [print_stats] logs for the huge objects follow the
    objects counted: an object filed under a slot leaves them as they are,
    and an object filed under no slot adds one to the count and its size to
    the size, in [size_t] arithmetic. *)
Theorem print_stats_huge_objects (size : Z) (st : DumpState) :
  (0 < ALLOC_STAT_SLOTS env)%nat ->
  length (alloc_count st) = ALLOC_STAT_SLOTS env ->
  length (alloc_size st) = ALLOC_STAT_SLOTS env ->
  length (alloc_count (count_allocation env size st)) = ALLOC_STAT_SLOTS env
  /\ length (alloc_size (count_allocation env size st)) = ALLOC_STAT_SLOTS env
  /\ print_stats env (count_allocation env size st)
     = match alloc_stat_slot size 0 (ALLOC_STAT_SLOTS env) with
       | Some _ => print_stats env st
       | None =>
         (size_t (fst (print_stats env st) + 1),
          size_t (snd (print_stats env st) + size))
       end.
Proof.
  intros Hpos Hc Hs.
  pose proof (alloc_stat_slot_spec size (ALLOC_STAT_SLOTS env) 0) as Hspec.
  assert (length (alloc_count (count_allocation env size st))
          = ALLOC_STAT_SLOTS env
          /\ length (alloc_size (count_allocation env size st))
             = ALLOC_STAT_SLOTS env) as [Hc' Hs'].
  { unfold count_allocation.
    destruct (alloc_stat_slot size 0 (ALLOC_STAT_SLOTS env)); simpl;
      by rewrite ?length_alter. }
  split; [done|]. split; [done|].
  rewrite (print_stats_eq _ Hpos Hc' Hs'), (print_stats_eq st Hpos Hc Hs).
  unfold count_allocation.
  destruct (alloc_stat_slot size 0 (ALLOC_STAT_SLOTS env)) as [s|]; simpl.
  - destruct Hspec as (Hlt & _).
    destruct (lookup_lt_is_Some_2 (alloc_count st) s) as [x Hx]; [lia|].
    destruct (lookup_lt_is_Some_2 (alloc_size st) s) as [y Hy]; [lia|].
    rewrite (sum_Z_alter _ _ _ _ Hx), (sum_Z_alter _ _ _ _ Hy).
    f_equal; f_equal; lia.
  - rewrite !size_t_add. f_equal; f_equal; lia.
Qed.

End Statistics.

(** ** Scratch objects *)

(** X18.  A scratch mirror registered for a class is the one
    [scratch_java_mirror] returns for it from then on, and the scratch
    mirrors of the other classes are not affected; the class cannot be
    given a second scratch mirror.  Once [remove_scratch_objects] ran for the
    class, be it an instance class (whose constant pool then loses its
    resolved-references array, the table of these being allocated) or not,
    the class has no scratch mirror and can be given one again; the other
    classes and the other constant pools keep what they had. *)
Theorem scratch_java_mirror_round_trip (k : klass) (mirror : oop)
    (st st1 : ScratchObjects.tables) :
  ScratchObjects.set_scratch_java_mirror k mirror st = Some st1 ->
  ScratchObjects.scratch_java_mirror k st = Some null
  /\ ScratchObjects.scratch_java_mirror k st1 = Some mirror
  /\ (forall k', k' <> k ->
        ScratchObjects.scratch_java_mirror k' st1
        = ScratchObjects.scratch_java_mirror k' st)
  /\ (forall mirror',
        ScratchObjects.set_scratch_java_mirror k mirror' st1 = None)
  /\ forall constants : option nat,
       constants = None \/ is_Some (ScratchObjects.references_table st) ->
       exists st2,
         ScratchObjects.remove_scratch_objects k constants st1 = Some st2
         /\ ScratchObjects.scratch_java_mirror k st2 = Some null
         /\ (forall k', k' <> k ->
               ScratchObjects.scratch_java_mirror k' st2
               = ScratchObjects.scratch_java_mirror k' st)
         /\ (forall mirror',
               is_Some (ScratchObjects.set_scratch_java_mirror k mirror' st2))
         /\ (forall cp,
               constants = Some cp ->
               ScratchObjects.scratch_resolved_references cp st2 = Some null)
         /\ (forall cp,
               constants <> Some cp ->
               ScratchObjects.scratch_resolved_references cp st2
               = ScratchObjects.scratch_resolved_references cp st).
Proof.
  unfold ScratchObjects.set_scratch_java_mirror,
    ScratchObjects.scratch_java_mirror, ScratchObjects.set_oop,
    ScratchObjects.get_oop.
  destruct (ScratchObjects.mirror_table st) as [t|] eqn:Ht; [|done].
  cbn [mbind option_bind].
  destruct (t !! k) eqn:Hk; [done|]. cbn [mbind option_bind].
  intros [= <-]. simpl.
  rewrite lookup_insert_eq. simpl.
  split; [done|]. split; [done|].
  split; [intros k' Hne; by rewrite lookup_insert_ne|].
  split; [done|].
  intros constants Hrefs.
  unfold ScratchObjects.remove_scratch_objects, ScratchObjects.remove_oop,
    ScratchObjects.scratch_resolved_references, ScratchObjects.get_oop.
  simpl. rewrite lookup_insert_eq.
  assert (forall k', k' <> k ->
            match delete k (<[k := mirror]> t) !! k' with
            | Some o => o
            | None => null
            end
            = match t !! k' with Some o => o | None => null end) as Hothers.
  { intros k' Hne. rewrite lookup_delete_ne by done.
    by rewrite lookup_insert_ne. }
  destruct constants as [cp|].
  - destruct Hrefs as [[=]|[r Hr]]. rewrite Hr. cbn [mbind option_bind].
    eexists. split; [done|]. simpl. rewrite lookup_delete_eq. simpl.
    split; [done|].
    split; [intros k' Hne; f_equal; by apply Hothers|].
    split; [intros mirror'; by eexists|]. split.
    + intros cp' [= <-]. by rewrite lookup_delete_eq.
    + intros cp' Hne. rewrite lookup_delete_ne; [done|]. congruence.
  - eexists. split; [done|]. simpl. rewrite lookup_delete_eq. simpl.
    split; [done|].
    split; [intros k' Hne; f_equal; by apply Hothers|].
    split; [intros mirror'; by eexists|]. split; [done|]. done.
Qed.

(** X25.  The resolved-references array registered for a constant pool is
    the one [scratch_resolved_references] returns for it from then on; the
    table is allocated by the first registration when it was not before; the
    constant pool cannot be given a second array; the scratch mirrors are not
    touched; and [remove_scratch_objects] for an instance class takes its
    scratch mirror and the array of its constant pool out of the tables. *)
Theorem scratch_resolved_references_round_trip (cp : nat) (rr : oop)
    (st st1 : ScratchObjects.tables) :
  ScratchObjects.add_scratch_resolved_references cp rr st = Some st1 ->
  ScratchObjects.scratch_resolved_references cp st1 = Some rr
  /\ (forall rr',
        ScratchObjects.add_scratch_resolved_references cp rr' st1 = None)
  /\ (forall cp', cp' <> cp ->
        ScratchObjects.scratch_resolved_references cp' st1
        = Some (match ScratchObjects.references_table st with
                | Some t => ScratchObjects.get_oop t cp'
                | None => null
                end))
  /\ ScratchObjects.mirror_table st1 = ScratchObjects.mirror_table st
  /\ forall k,
       is_Some (ScratchObjects.mirror_table st) ->
       exists st2,
         ScratchObjects.remove_scratch_objects k (Some cp) st1 = Some st2
         /\ ScratchObjects.scratch_resolved_references cp st2 = Some null
         /\ ScratchObjects.scratch_java_mirror k st2 = Some null.
Proof.
  unfold ScratchObjects.add_scratch_resolved_references,
    ScratchObjects.scratch_resolved_references, ScratchObjects.set_oop,
    ScratchObjects.get_oop.
  set (t := match ScratchObjects.references_table st with
            | Some t => t
            | None => ∅
            end).
  destruct (t !! cp) eqn:Hcp; [done|]. cbn [mbind option_bind].
  intros [= <-]. simpl. rewrite lookup_insert_eq. simpl.
  split; [done|]. split; [done|]. split.
  { intros cp' Hne. rewrite lookup_insert_ne by done. unfold t.
    destruct (ScratchObjects.references_table st); [done|].
    by rewrite lookup_empty. }
  split; [done|].
  intros k [m Hm].
  unfold ScratchObjects.remove_scratch_objects, ScratchObjects.remove_oop,
    ScratchObjects.scratch_java_mirror, ScratchObjects.get_oop.
  simpl. rewrite Hm. simpl. eexists. split; [done|]. simpl.
  rewrite lookup_delete_eq. split; [done|].
  destruct (m !! k) eqn:Hk; [by rewrite lookup_delete_eq|by rewrite Hk].
Qed.

(** ** The table of entry fields before the dump *)

Lemma do_local_static_fields_found (name : string)
    (fds : list fieldDescriptor) :
  forall finder finder',
    do_local_static_fields name fds finder = Some finder' ->
    finder_found finder' = true ->
    (finder_found finder = true /\ finder' = finder)
    \/ exists fd,
         fd ∈ fds /\ fd_name fd = name
         /\ is_reference_type (fd_field_type fd) = true
         /\ finder_offset finder' = fd_offset fd.
Proof.
  induction fds as [|fd rest IH]; intros finder finder' Hrun Hfound;
    simpl in Hrun.
  - injection Hrun as <-. by left.
  - destruct (do_field name fd finder) as [f1|] eqn:Hfd;
      cbn [mbind option_bind] in Hrun; [|done].
    unfold do_field in Hfd.
    destruct (IH f1 finder' Hrun Hfound) as [[Hf1 ->]|(fd' & Hin & Hrest)].
    + destruct (String.eqb (fd_name fd) name) eqn:Hname.
      * apply String.eqb_eq in Hname.
        destruct (finder_found finder) eqn:Hf; [done|].
        destruct (is_reference_type (fd_field_type fd)) eqn:Href.
        -- injection Hfd as <-. right. exists fd. split; [by left|]. done.
        -- injection Hfd as <-. congruence.
      * injection Hfd as <-. by left.
    + right. exists fd'. split; [by right|done].
Qed.

(** One round of the loop of [init_subgraph_entry_fields] that goes on to
    the next entry. *)
Lemma init_subgraph_entry_fields_cons (env : DumpEnv) (ienv : InitEnv)
    (info : ArchivableStaticFieldInfo)
    (rest fields' : list ArchivableStaticFieldInfo) :
  init_subgraph_entry_fields env ienv (info :: rest)
  = (fields', InitReturns) ->
  exists info' rest',
    fields' = info' :: rest'
    /\ entry_initialized env ienv info info'
    /\ init_subgraph_entry_fields env ienv rest = (rest', InitReturns).
Proof.
  intros Hrun.
  cbn [init_subgraph_entry_fields] in Hrun.
  destruct (resolve_or_fail ienv (klass_name info)) as [k|] eqn:Hk; [|done].
  destruct (kd_kind (klass_desc env k)) eqn:Hkind; try done.
  assert (kd_in_java_base (klass_desc env k) = true
          \/ (PRODUCT env = false
              /\ ArchiveHeapTestClass ienv = Some (klass_name info)
              /\ kd_module_named (klass_desc env k) = false
              /\ kd_package_null (klass_desc env k) = true)) as Hwhere.
  { destruct (PRODUCT env) eqn:Hprod.
    - destruct (kd_in_java_base (klass_desc env k)); [by left|done].
    - destruct (ArchiveHeapTestClass ienv) as [name|] eqn:Htest.
      + destruct (String.eqb (klass_name info) name) eqn:Hname.
        * apply String.eqb_eq in Hname as <-.
          destruct (kd_module_named (klass_desc env k)); [done|].
          destruct (kd_package_null (klass_desc env k)); [|done].
          by right.
        * destruct (kd_in_java_base (klass_desc env k)); [by left|done].
      + destruct (kd_in_java_base (klass_desc env k)); [by left|done]. }
  assert ((if init_throws ienv k then (info :: rest, PendingException)
           else
             match do_local_static_fields (field_name info)
                     (local_static_fields ienv k)
                     {| finder_found := false; finder_offset := -1 |} with
             | None => (info :: rest, AssertFails)
             | Some finder =>
               if negb (finder_found finder) then
                 (info :: rest,
                  IllegalArgumentException
                    (String.append "Unable to find the static T_OBJECT field "
                       (String.append (klass_name info)
                          (String.append "::" (field_name info)))))
               else
                 let info' := {| klass_name := klass_name info;
                                 field_name := field_name info;
                                 fi_klass := k;
                                 fi_offset := finder_offset finder |} in
                 let '(rest', result) :=
                   init_subgraph_entry_fields env ienv rest in
                 (info' :: rest', result)
             end) = (fields', InitReturns)) as Hcont.
  { destruct (if PRODUCT env then false
              else match ArchiveHeapTestClass ienv with
                   | Some name => String.eqb (klass_name info) name
                   | None => false
                   end).
    - destruct (kd_module_named (klass_desc env k)); [done|].
      destruct (negb (kd_package_null (klass_desc env k))); [done|].
      exact Hrun.
    - destruct (negb (kd_in_java_base (klass_desc env k))); [done|].
      exact Hrun. }
  clear Hrun.
  destruct (init_throws ienv k) eqn:Hinit; [done|].
  destruct (do_local_static_fields (field_name info)
              (local_static_fields ienv k)
              {| finder_found := false; finder_offset := -1 |})
    as [finder|] eqn:Hfind; [|done].
  destruct (finder_found finder) eqn:Hfound; cbn [negb] in Hcont; [|done].
  cbn zeta in Hcont.
  destruct (init_subgraph_entry_fields env ienv rest) as [rest' result]
    eqn:Hrest.
  injection Hcont as <- ->.
  eexists _, rest'. split; [done|]. split; [|done].
  split; [done|]. split; [done|]. split; [done|]. split; [done|].
  split; [done|]. split; [done|].
  destruct (do_local_static_fields_found _ _ _ _ Hfind Hfound)
    as [[Habs _]|Hfd]; [done|exact Hfd].
Qed.

(** X19.  When [init_subgraph_entry_fields] returns, every entry of the
    table names the class the boot loader resolved for its class name, an
    instance class of [java.base] (or, in a debug build, the test class, in
    the unnamed package of the unnamed module) that initialized without an
    exception, and the offset of a static field of that class with the name
    of the entry and a reference type; a static field of that name with a
    primitive type is not accepted.  The names of the entries are as before. *)
Theorem init_subgraph_entry_fields_returns (env : DumpEnv) (ienv : InitEnv)
    (fields fields' : list ArchivableStaticFieldInfo) :
  init_subgraph_entry_fields env ienv fields = (fields', InitReturns) ->
  Forall2 (entry_initialized env ienv) fields fields'.
Proof.
  revert fields'. induction fields as [|info rest IH]; intros fields' Hrun.
  - injection Hrun as <-. constructor.
  - apply init_subgraph_entry_fields_cons in Hrun
      as (info' & rest' & -> & Hinfo & Hrest).
    constructor; [exact Hinfo|]. by apply IH.
Qed.

(** ** From the dump to the restored fields *)

(** X20.  The entry fields come back as they were archived: when the root
    table installed at run time is the root table the dump left, with the
    objects named as in the dump, [init_archived_fields_for] run on the
    frozen record of a recorder entry stores into each entry field the value
    the static field had when it was archived. *)
Theorem entry_fields_round_trip (env : DumpEnv) (st : DumpState) (k : klass)
    (info : KlassSubGraphInfo) (renv : RunEnv) (rst : RunState)
    (buffered_k : klass) :
  entry_fields_wf env st ->
  get_subgraph_info k st = Some info ->
  is_in_use renv = true ->
  roots rst = Some (pending_roots st) ->
  exists rst',
    init_archived_fields_for renv buffered_k
      (ArchivedKlassSubGraphInfoRecord_init info) rst = Some rst'
    /\ forall off,
         off ∈ (entry_pairs (default [] (sg_subgraph_entry_fields info))).*1 ->
         obj_field buffered_k off rst' = static_field env k off.
Proof.
  intros Hwf Hinfo Huse Hroots.
  destruct (Hwf k info Hinfo) as (Hrange & Hnodup & Hval).
  unfold init_archived_fields_for. simpl.
  destruct (sg_subgraph_entry_fields info) as [efr|] eqn:Hefr; simpl in *.
  - destruct (init_fields_of_entries_spec renv buffered_k _ efr Huse Hrange
                rst (pending_roots st) eq_refl Hroots Hnodup)
      as (rst' & r' & Hrun & _ & _ & _ & _ & Hfield & _).
    exists rst'. split; [done|]. intros off Hoff.
    destruct (Hfield off Hoff) as (idx & v & Hpair & Hv & <-).
    rewrite (Hval off idx Hpair) in Hv. by injection Hv.
  - exists rst. split; [done|]. intros off Hoff.
    by apply elem_of_nil in Hoff.
Qed.

(** ** Every holder gets a recorder entry *)

Section Holders.

Variable env : DumpEnv.

Lemma archive_reachable_objects_from_static_field_tables_grow (k : klass)
    (off : Z) (st : DumpState) (u : unit) (st' : DumpState) :
  archive_reachable_objects_from_static_field env k off st = Ret u st' ->
  tables_grow st st'.
Proof.
  apply (archive_reachable_objects_from_static_field_rel env tables_grow).
  - apply tables_grow_refl.
  - apply tables_grow_trans.
  - intros. by repeat split.
  - intros. by repeat split.
  - intros. by eapply archive_object_tables_grow.
  - intros. by eapply add_subgraph_object_klass_tables_grow.
  - intros s obj s' H. exact H.
  - intros k0 off0 s v s' H.
    apply add_subgraph_entry_field_inv in H as (info & _ & ->).
    repeat split; try done.
    + simpl. by apply prefix_app_r.
    + simpl. rewrite dom_insert_L. apply union_subseteq_r.
Qed.

Lemma tables_grow_info (k : klass) (st st' : DumpState) :
  tables_grow st st' ->
  is_Some (get_subgraph_info k st) -> is_Some (get_subgraph_info k st').
Proof.
  intros (_&_&_&_&Hdom) Hk. unfold get_subgraph_info in *.
  apply elem_of_dom. apply Hdom. by apply elem_of_dom.
Qed.

Lemma archive_fields_of_klass_holders (name : string)
    (fields : list ArchivableStaticFieldInfo) :
  forall st rest st',
    archive_fields_of_klass env name fields st = Ret rest st' ->
    tables_grow st st'
    /\ exists processed,
         fields = processed ++ rest
         /\ (forall f, f ∈ processed ->
                       is_Some (get_subgraph_info (fi_klass f) st'))
         /\ (forall f tl, fields = f :: tl -> klass_name f = name ->
                          processed <> []).
Proof.
  induction fields as [|f fields IH]; intros st rest st' Hrun; simpl in Hrun.
  - injection Hrun as <- <-. split; [apply tables_grow_refl|].
    exists []. split; [done|]. split; [|done].
    intros f Hf. by apply elem_of_nil in Hf.
  - destruct (String.eqb (klass_name f) name) eqn:Hname; cbn [negb] in Hrun.
    + destruct (archive_reachable_objects_from_static_field env (fi_klass f)
                  (fi_offset f) st) as [[] st1| | |] eqn:Hf;
        cbn [bind] in Hrun; try done.
      destruct (IH _ _ _ Hrun) as (Hg & processed & -> & Hall & _).
      pose proof (archive_reachable_objects_from_static_field_tables_grow
                    _ _ _ _ _ Hf) as Hg1.
      split; [by eapply tables_grow_trans|].
      exists (f :: processed). split; [done|]. split; [|done].
      intros f' Hf'. apply elem_of_cons in Hf' as [->|Hf']; [|by apply Hall].
      apply (tables_grow_info _ st1); [done|].
      unfold archive_reachable_objects_from_static_field in Hf.
      destruct (get_subgraph_info (fi_klass f) st) eqn:Hinfo; [|done].
      apply (tables_grow_info _ st); [done|]. by rewrite Hinfo.
    + injection Hrun as <- <-. split; [apply tables_grow_refl|].
      exists []. split; [done|]. split.
      * intros f' Hf'. by apply elem_of_nil in Hf'.
      * intros f' tl [= <- <-] Heq. apply String.eqb_neq in Hname. done.
Qed.

Lemma archive_object_subgraphs_loop_holders (n : nat) :
  forall fields is_fmg st st',
    archive_object_subgraphs_loop env n fields is_fmg st = Ret tt st' ->
    tables_grow st st'
    /\ forall f, f ∈ fields -> is_Some (get_subgraph_info (fi_klass f) st').
Proof.
  induction n as [|n IH]; intros fields is_fmg st st' Hrun;
    destruct fields as [|f fields];
    cbn [archive_object_subgraphs_loop] in Hrun; try done;
    try (injection Hrun as <-; split; [apply tables_grow_refl|];
         intros f Hf; by apply elem_of_nil in Hf).
  destruct (start_recording_subgraph env (fi_klass f) is_fmg st)
    as [[] st1| | |] eqn:Hs; cbn [bind] in Hrun; try done.
  destruct (archive_fields_of_klass env (klass_name f) (f :: fields) st1)
    as [rest st2| | |] eqn:Hf; cbn [bind] in Hrun; try done.
  assert (tables_grow st st1) as Hg1.
  { unfold start_recording_subgraph in Hs.
    destruct (init_subgraph_info env (fi_klass f) is_fmg st)
      as [[] st0| | |] eqn:Hi; cbn [bind] in Hs; try done.
    injection Hs as <-. apply init_subgraph_info_inv in Hi as [_ ->].
    repeat split; try done. simpl. rewrite dom_insert_L.
    apply union_subseteq_r. }
  destruct (archive_fields_of_klass_holders _ _ _ _ _ Hf)
    as (Hg2 & processed & Heq & Hall & _).
  destruct (IH _ _ _ _ Hrun) as (Hg3 & Hrest).
  assert (tables_grow st2 st') as Hg3' by exact Hg3.
  split.
  { eapply tables_grow_trans; [exact Hg1|].
    eapply tables_grow_trans; [exact Hg2|exact Hg3']. }
  intros f' Hf'. rewrite Heq in Hf'.
  apply elem_of_app in Hf' as [Hf'|Hf']; [|by apply Hrest].
  apply (tables_grow_info _ st2); [done|]. by apply Hall.
Qed.

(** X21.  After the pass, the class of every entry of the table has a
    recorder entry, also the classes none of whose fields gave an entry
    point. *)
Theorem archive_object_subgraphs_records_holders
    (fields : list ArchivableStaticFieldInfo) (is_fmg : bool)
    (st st' : DumpState) :
  archive_object_subgraphs env fields is_fmg st = Ret tt st' ->
  forall f, f ∈ fields -> is_Some (get_subgraph_info (fi_klass f) st').
Proof.
  intros Hrun f Hf. unfold archive_object_subgraphs in Hrun.
  destruct (archive_object_subgraphs_loop env (length fields) fields is_fmg st)
    as [[] st1| | |] eqn:Hloop; cbn [bind] in Hrun; try done.
  destruct (archive_object_subgraphs_loop_holders _ _ _ _ _ Hloop)
    as (_ & Hall).
  destruct (PRODUCT env).
  - injection Hrun as <-. by apply Hall.
  - apply (tables_grow_info _ st1); [|by apply Hall].
    apply (verify_all_rel env tables_grow tables_grow_refl tables_grow_trans)
      with fields tt; [| |done].
    + intros. by repeat split.
    + intros. by repeat split.
Qed.

End Holders.


(** ** What the verification pass establishes *)

Section VerifierSound.

Variable env : DumpEnv.

Lemma iterated_verifier (W : oop -> DumpState -> outcome bool) :
  verifier_spec env W ->
  forall refs st st',
    iterated W refs st st' ->
    seen_objects_table st ⊆ seen_objects_table st'
    /\ archived_object_cache st' = archived_object_cache st
    /\ (forall p, p ∈ refs -> p <> null ->
                  walked_object env p ∈ seen_objects_table st')
    /\ forall o,
         o ∈ seen_objects_table st' -> o ∉ seen_objects_table st ->
         o ∈ dom (archived_object_cache st)
         /\ forall q, ref_edge env o q -> q ∈ seen_objects_table st'.
Proof.
  intros HW refs st st'.
  induction 1 as [st|p rest st st' Hp _ IH|p rest st st1 st' Hp Hrun _ IH].
  - split; [done|]. split; [done|].
    split; [intros p Hp; by apply elem_of_nil in Hp|]. by intros o ? [].
  - destruct IH as (Hs & Hc & Hrefs & Hnew).
    split; [done|]. split; [done|]. split; [|done].
    intros q Hq Hnn. apply elem_of_cons in Hq as [->|Hq]; [|by apply Hrefs].
    apply Nat.eqb_eq in Hp. by destruct Hnn.
  - destruct (HW p st true st1 Hrun) as (Hs1 & Hc1 & Hp1 & Hn1).
    destruct IH as (Hs & Hc & Hrefs & Hnew).
    split; [by etrans|]. split; [congruence|]. split.
    + intros q Hq Hnn. apply elem_of_cons in Hq as [->|Hq]; [by apply Hs|].
      by apply Hrefs.
    + intros o Ho Hn.
      destruct (decide (o ∈ seen_objects_table st1)) as [Hin|Hout].
      * destruct (Hn1 o Hin Hn) as (Harch & Hedges).
        split; [done|]. intros q Hq. by apply Hs, Hedges.
      * destruct (Hnew o Ho Hout) as (Harch & Hedges).
        split; [by rewrite <- Hc1|done].
Qed.

Lemma verify_reachable_objects_from_spec (fuel : nat) :
  verifier_spec env (verify_reachable_objects_from env fuel).
Proof.
  induction fuel as [|fuel IH]; intros p st b st' Hrun; [done|].
  cbn [verify_reachable_objects_from] in Hrun.
  unfold verify_reachable_objects_from_body in Hrun.
  destruct (heap env !! p) as [od0|] eqn:Hod0; [|done].
  rewrite <- (walked_object_eq env p od0 Hod0) in Hrun.
  set (obj := walked_object env p) in *.
  destruct (is_null obj) eqn:Hobj; [done|].
  destruct (heap env !! obj) as [od|] eqn:Hod; [|done].
  unfold has_been_seen_during_subgraph_recording in Hrun.
  case_bool_decide as Hseen.
  { injection Hrun as _ <-. split; [done|]. split; [done|]. split; [done|].
    by intros o ? []. }
  destruct (has_been_archived obj
              (set_has_been_seen_during_subgraph_recording obj st))
    eqn:Harch; cbn [negb] in Hrun; [|done].
  destruct (oop_iterate (verify_reachable_objects_from env fuel) (o_refs od)
              (set_has_been_seen_during_subgraph_recording obj st))
    as [[] st3| | |] eqn:Hit; cbn [bind] in Hrun; try done.
  injection Hrun as _ <-.
  apply oop_iterate_iterated in Hit.
  destruct (iterated_verifier _ IH _ _ _ Hit) as (Hs & Hc & Hrefs & Hnew).
  simpl in Hs, Hc, Hnew.
  assert (obj ∈ seen_objects_table st3) as Hin
    by (by apply Hs, elem_of_union_l, elem_of_singleton).
  split; [etrans; [|exact Hs]; apply union_subseteq_r|].
  split; [done|]. split; [done|].
  intros o Ho Hn. destruct (decide (o = obj)) as [->|Hne].
  - split; [by apply has_been_archived_true in Harch|].
    intros q (od' & r & Hod' & Hr & Hnn & ->).
    assert (od' = od) as -> by congruence. by apply Hrefs.
  - apply Hnew; [done|]. intros Hin'.
    apply elem_of_union in Hin' as [Hin'|Hin']; [|done].
    by apply elem_of_singleton in Hin'.
Qed.

(** X22.  What the verification pass of debug builds establishes: when
    [verify_subgraph_from] returns for a root that is in the identity cache,
    every object that can be reached from the root through reference fields,
    a class mirror replaced by its scratch mirror, is in the identity
    cache. *)
Theorem verify_subgraph_from_sound (root : oop) (st st' : DumpState) :
  has_been_archived root st = true ->
  verify_subgraph_from env root st = Ret tt st' ->
  forall q,
    rtc (ref_edge env) (walked_object env root) q ->
    has_been_archived q st = true.
Proof.
  intros Harch Hrun q Hreach. unfold verify_subgraph_from in Hrun.
  rewrite Harch in Hrun. cbn [negb] in Hrun.
  destruct (verify_reachable_objects_from env (walk_bound env) root
              (init_seen_objects_table st)) as [b st1| | |] eqn:Hv;
    cbn [bind] in Hrun; try done.
  destruct (verify_reachable_objects_from_spec _ _ _ _ _ Hv)
    as (_ & _ & Hroot & Hnew).
  simpl in Hnew.
  assert (forall o, o ∈ seen_objects_table st1 ->
                    o ∈ dom (archived_object_cache st)
                    /\ forall q', ref_edge env o q' ->
                                  q' ∈ seen_objects_table st1) as Hall.
  { intros o Ho. apply Hnew; [done|]. apply not_elem_of_empty. }
  assert (q ∈ seen_objects_table st1) as Hq.
  { clear Hrun Hv. induction Hreach as [o|o1 o2 o3 Hedge _ IH]; [done|].
    apply IH. by apply (Hall o1). }
  apply has_been_archived_true. by apply Hall.
Qed.

End VerifierSound.

(** ** The only way a walk returns false *)

(** X23.  [archive_reachable_objects_from] returns [false] in one case only:
    at level 1, for a root that was not seen in the session, was not in the
    identity cache and is too large to archive; the root is then marked as
    seen and counted, and nothing else has changed.  A walk from a reference
    field or an enum constant never returns [false]. *)
Theorem archive_reachable_objects_from_false (env : DumpEnv) (fuel : nat)
    (level : Z) (info : klass) (p : oop) (st st' : DumpState) :
  archive_reachable_objects_from env fuel level info p st = Ret false st' ->
  level = 1
  /\ (walked_object env p ∉ seen_objects_table st)
  /\ has_been_archived (walked_object env p) st = false
  /\ (exists od,
         heap env !! walked_object env p = Some od
         /\ is_too_large_to_archive env (o_size od) = true)
  /\ st' = set_session_counters (num_new_walked_objs st + 1)
             (num_new_archived_objs st + 1)
             (set_seen (fun s => {[walked_object env p]} ∪ s) st).
Proof.
  destruct fuel as [|fuel]; [done|]. cbn [archive_reachable_objects_from].
  intros Hrun.
  apply archive_reachable_objects_from_body_inv in Hrun
    as (od0 & od & _ & _ & _ & _ & Hod & Hv).
  inversion Hv as [|st1 Hseen Harch Hao Hl|]; subst.
  apply archive_object_inv in Hao as (od' & Hod' & _ & Hcase).
  assert (od' = od) as -> by congruence.
  destruct Hcase as [(_&?&_)|[(_&Hlarge&_&->)|(_&_&?&_)]]; try done.
  split; [done|]. split; [done|]. split; [done|].
  split; [by exists od|done].
Qed.

(** ** The classes of the table of entry fields *)

Lemma is_subgraph_root_class_of_initialized (env : DumpEnv) (ienv : InitEnv)
    (fields fields' : list ArchivableStaticFieldInfo) (ik : klass) :
  init_subgraph_entry_fields env ienv fields = (fields', InitReturns) ->
  is_subgraph_root_class_of fields' ik = true
  <-> exists f, f ∈ fields /\ resolve_or_fail ienv (klass_name f) = Some ik.
Proof.
  unfold is_subgraph_root_class_of. rewrite existsb_exists.
  revert fields'. induction fields as [|f rest IH]; intros fields' Hrun.
  - injection Hrun as <-. split; [by intros (? & [] & _)|].
    intros (f & Hf & _). by apply elem_of_nil in Hf.
  - apply init_subgraph_entry_fields_cons in Hrun
      as (f' & rest' & -> & Hf & Hrest).
    specialize (IH rest' Hrest).
    destruct Hf as (_ & _ & Hres & _). split.
    + intros (x & [<-|Hx] & Heq).
      * apply Nat.eqb_eq in Heq as <-. exists f. split; [by left|done].
      * destruct IH as [IH _]. destruct IH as (g & Hg & Hgk); [by exists x|].
        exists g. split; [by right|done].
    + intros (g & Hg & Hgk). apply elem_of_cons in Hg as [->|Hg].
      * exists f'. split; [by left|]. apply Nat.eqb_eq. congruence.
      * destruct IH as [_ IH]. destruct IH as (x & Hx & Heq); [by exists g|].
        exists x. split; [by right|done].
Qed.

(** X24.  Once [init_subgraph_entry_fields] returned for the two tables of
    entry fields, [is_subgraph_root_class] holds of exactly the classes that
    the boot loader resolved for the class names of the tables. *)
Theorem is_subgraph_root_class_initialized (env : DumpEnv) (ienv : InitEnv)
    (fields fields' fmg_fields fmg_fields' : list ArchivableStaticFieldInfo)
    (ik : klass) :
  init_subgraph_entry_fields env ienv fields = (fields', InitReturns) ->
  init_subgraph_entry_fields env ienv fmg_fields
  = (fmg_fields', InitReturns) ->
  is_subgraph_root_class fields' fmg_fields' ik = true
  <-> exists f,
        f ∈ fields ++ fmg_fields
        /\ resolve_or_fail ienv (klass_name f) = Some ik.
Proof.
  intros H1 H2. unfold is_subgraph_root_class. rewrite orb_true_iff.
  rewrite (is_subgraph_root_class_of_initialized _ _ _ _ ik H1).
  rewrite (is_subgraph_root_class_of_initialized _ _ _ _ ik H2).
  split.
  - intros [(f & Hf & Hk)|(f & Hf & Hk)]; exists f;
      (split; [apply elem_of_app; auto|done]).
  - intros (f & Hf & Hk). apply elem_of_app in Hf as [Hf|Hf];
      [left|right]; by exists f.
Qed.

(** ** The further properties at work on the examples *)

Lemma archive_object_subgraphs_keeps_tables_witness :
  exists st',
    archive_object_subgraphs Scenario.env [Scenario.entry 40%nat] false
      Scenario.st_archived_1 = Ret tt st'
    /\ archived_object_cache st' !! 1%nat = Some null
    /\ archived_object_cache st' !! 2%nat = Some 1%nat.
Proof.
  destruct (archive_object_subgraphs Scenario.env [Scenario.entry 40%nat]
              false Scenario.st_archived_1) as [[] st'| | |] eqn:Hrun;
    try (vm_compute in Hrun; discriminate Hrun).
  destruct (archive_object_subgraphs_keeps_tables Scenario.env _ _ _ _ Hrun)
    as (Hcache & _).
  exists st'. split; [reflexivity|]. split.
  - apply Hcache. vm_compute. reflexivity.
  - vm_compute in Hrun. injection Hrun as <-. vm_compute. reflexivity.
Defined.

Lemma entry_fields_wf_empty (env : DumpEnv) (st : DumpState) :
  dump_time_subgraph_info_table st = ∅ -> entry_fields_wf env st.
Proof. intros Hempty k info Hk. rewrite Hempty in Hk. done. Qed.

Lemma archive_object_subgraphs_entry_fields_witness :
  exists st' info,
    archive_object_subgraphs Scenario.env
      [Scenario.entry 40%nat; Scenario.entry 41%nat;
       Scenario.entry 42%nat; Scenario.entry 43%nat] false Scenario.st0
    = Ret tt st'
    /\ get_subgraph_info 42%nat st' = Some info
    /\ sg_subgraph_entry_fields info = Some [8; 1]
    /\ pending_roots st' !! 1%nat = Some 5%nat.
Proof.
  destruct (archive_object_subgraphs Scenario.env
              [Scenario.entry 40%nat; Scenario.entry 41%nat;
               Scenario.entry 42%nat; Scenario.entry 43%nat] false
              Scenario.st0) as [[] st'| | |] eqn:Hrun;
    try (vm_compute in Hrun; discriminate Hrun).
  destruct (get_subgraph_info 42%nat st') as [info|] eqn:Hinfo.
  2:{ vm_compute in Hrun. injection Hrun as <-. vm_compute in Hinfo.
      discriminate Hinfo. }
  assert (sg_subgraph_entry_fields info = Some [8; 1]) as Hfields.
  { vm_compute in Hrun. injection Hrun as <-. vm_compute in Hinfo.
    injection Hinfo as <-. reflexivity. }
  destruct (archive_object_subgraphs_entry_fields Scenario.env _ _ _ _
              (entry_fields_wf_empty Scenario.env Scenario.st0 eq_refl) Hrun 42%nat info Hinfo)
    as (_ & _ & Hval).
  exists st', info. split; [reflexivity|]. split; [exact Hinfo|].
  split; [exact Hfields|].
  apply (Hval 8 1). rewrite Hfields. simpl. left.
Defined.

Lemma subgraph_klasses_wf_empty (env : DumpEnv) (st : DumpState) :
  dump_time_subgraph_info_table st = ∅ -> subgraph_klasses_wf env st.
Proof. intros Hempty k info Hk. rewrite Hempty in Hk. done. Qed.

Lemma subgraph_klasses_origins_empty (env : DumpEnv) (st : DumpState) :
  dump_time_subgraph_info_table st = ∅ -> subgraph_klasses_origins env st.
Proof. intros Hempty k info Hk. rewrite Hempty in Hk. done. Qed.

Lemma archive_object_subgraphs_klass_lists_witness :
  exists st' info,
    archive_object_subgraphs Scenario.env
      [Scenario.entry 40%nat; Scenario.entry 42%nat] false Scenario.st0
    = Ret tt st'
    /\ get_subgraph_info 42%nat st' = Some info
    /\ sg_subgraph_object_klasses info = Some [13%nat; 20%nat]
    /\ (sg_k info ∉ default [] (sg_subgraph_object_klasses info)).
Proof.
  destruct (archive_object_subgraphs Scenario.env
              [Scenario.entry 40%nat; Scenario.entry 42%nat] false
              Scenario.st0) as [[] st'| | |] eqn:Hrun;
    try (vm_compute in Hrun; discriminate Hrun).
  destruct (get_subgraph_info 42%nat st') as [info|] eqn:Hinfo.
  2:{ vm_compute in Hrun. injection Hrun as <-. vm_compute in Hinfo.
      discriminate Hinfo. }
  destruct (archive_object_subgraphs_klass_lists Scenario.env _ _ _ _
              (subgraph_klasses_wf_empty Scenario.env Scenario.st0 eq_refl) Hrun 42%nat info Hinfo)
    as (_ & Hholder & _).
  exists st', info. split; [reflexivity|]. split; [exact Hinfo|].
  split; [|exact Hholder].
  vm_compute in Hrun. injection Hrun as <-. vm_compute in Hinfo.
  injection Hinfo as <-. reflexivity.
Defined.

Lemma archive_object_subgraphs_klass_origins_witness :
  exists st' info orig_k,
    archive_object_subgraphs Scenario.env
      [Scenario.entry 40%nat; Scenario.entry 42%nat] false Scenario.st0
    = Ret tt st'
    /\ get_subgraph_info 42%nat st' = Some info
    /\ 13%nat = get_buffered_klass Scenario.env orig_k
    /\ allowed_origin Scenario.env orig_k.
Proof.
  destruct (archive_object_subgraphs Scenario.env
              [Scenario.entry 40%nat; Scenario.entry 42%nat] false
              Scenario.st0) as [[] st'| | |] eqn:Hrun;
    try (vm_compute in Hrun; discriminate Hrun).
  destruct (get_subgraph_info 42%nat st') as [info|] eqn:Hinfo.
  2:{ vm_compute in Hrun. injection Hrun as <-. vm_compute in Hinfo.
      discriminate Hinfo. }
  destruct (archive_object_subgraphs_klass_origins Scenario.env _ _ _ _
              (subgraph_klasses_origins_empty Scenario.env Scenario.st0 eq_refl) Hrun 42%nat info
              13%nat Hinfo) as (orig_k & Horig & Hallowed & _).
  { vm_compute in Hrun. injection Hrun as <-. vm_compute in Hinfo.
    injection Hinfo as <-. simpl. left. }
  exists st', info, orig_k. split; [reflexivity|]. split; [exact Hinfo|].
  split; [exact Horig|exact Hallowed].
Defined.

Lemma edge_1_2 :
  rtc (walk_edge Scenario.env) (walked_object Scenario.env 1%nat) 2%nat.
Proof.
  apply rtc_once. exists (Scenario.plain 11 4 [2%nat]), 2%nat.
  split; [vm_compute; reflexivity|]. split; [constructor|].
  split; [discriminate|reflexivity].
Qed.

Lemma archive_reachable_objects_from_records_klasses_witness :
  exists st' info,
    archive_reachable_objects_from Scenario.env (walk_bound Scenario.env) 1
      40%nat 1%nat (Scenario.in_session 40%nat) = Ret true st'
    /\ get_subgraph_info 40%nat st' = Some info
    /\ klass_accounted Scenario.env info 11%nat.
Proof.
  destruct (archive_reachable_objects_from Scenario.env
              (walk_bound Scenario.env) 1 40%nat 1%nat
              (Scenario.in_session 40%nat)) as [[] st'| | |] eqn:Hrun;
    try (vm_compute in Hrun; discriminate Hrun).
  destruct (archive_reachable_objects_from_records_klasses Scenario.env 40%nat
              _ 1 1%nat (Scenario.in_session 40%nat) st' eq_refl Hrun 2%nat
              (Scenario.plain 11 4 [1%nat; null]) edge_1_2)
    as (info & Hinfo & Hacc).
  { vm_compute. reflexivity. }
  exists st', info. split; [reflexivity|]. split; [exact Hinfo|exact Hacc].
Defined.

Lemma archive_reachable_objects_from_referrer_witness :
  exists st',
    archive_reachable_objects_from Scenario.env (walk_bound Scenario.env) 1
      40%nat 1%nat (Scenario.in_session 40%nat) = Ret true st'
    /\ walker_current st' = None
    /\ archived_object_cache st' !! 2%nat = Some 1%nat
    /\ walk_edge Scenario.env 1%nat 2%nat.
Proof.
  destruct (archive_reachable_objects_from Scenario.env
              (walk_bound Scenario.env) 1 40%nat 1%nat
              (Scenario.in_session 40%nat)) as [[] st'| | |] eqn:Hrun;
    try (vm_compute in Hrun; discriminate Hrun).
  destruct (archive_reachable_objects_from_referrer Scenario.env _ _ _ _ _ _
              _ Hrun) as (Hcur & Hnew).
  assert (archived_object_cache st' !! 2%nat = Some 1%nat) as H2.
  { vm_compute in Hrun. injection Hrun as <-. vm_compute. reflexivity. }
  exists st'. split; [reflexivity|]. split; [exact Hcur|].
  split; [exact H2|].
  destruct (Hnew 2%nat 1%nat) as [[Habs _]|[_ Hedge]].
  - vm_compute. reflexivity.
  - exact H2.
  - vm_compute in Habs. discriminate Habs.
  - exact Hedge.
Defined.

Lemma archive_object_fixes_identity_hash_witness :
  mark_hash Scenario.st_archived_1 !! 1%nat = Some 38
  /\ copied_hash Scenario.st_archived_1 1%nat = Some 38
  /\ copied_hash
       (copy_java_mirror_hashcode Scenario.env 3%nat 4%nat
          Scenario.st_archived_1) 1%nat = Some 38.
Proof.
  destruct (archive_object_fixes_identity_hash Scenario.env 1%nat Scenario.st0
              Scenario.st_archived_1) as (Hmark & _ & _ & _ & Hkept & _).
  - vm_compute. reflexivity.
  - vm_compute. reflexivity.
  - split; [exact Hmark|]. split.
    + apply Hkept. apply rtc_refl.
    + apply Hkept. apply rtc_once.
      apply step_copy_java_mirror_hashcode. discriminate.
Defined.

(** C9, as stated, fails for a scratch mirror.  Two rounds of the loop of
    [archive_java_mirrors] over the classes 16 and 12: the walk from the
    mirror 8 of class 16 archives its scratch mirror 9 and, through the
    reference that 9 holds, the scratch mirror 4 of class 12, for which
    [archive_object] draws the hash 69; in the next round
    [copy_java_mirror_hashcode] gives 4 the hash 100 of the mirror 3, the
    walk from 3 finds 4 seen, and the copy of 4 carries 100. *)
Lemma scratch_mirror_hash_is_replaced :
  let env := Examples.mirrors_env in
  let st_b :=
    copy_java_mirror_hashcode env 8%nat 9%nat
      Examples.special_objects_session in
  exists st_c st_e,
    has_been_archived 4%nat st_b = false
    /\ archive_reachable_objects_from env (walk_bound env) 1 31%nat 8%nat st_b
       = Ret true st_c
    /\ archived_object_cache st_c !! 4%nat = Some 9%nat
    /\ mark_hash st_c !! 4%nat = Some 69
    /\ copied_hash st_c 4%nat = Some 69
    /\ archive_reachable_objects_from env (walk_bound env) 1 31%nat 3%nat
         (copy_java_mirror_hashcode env 3%nat 4%nat
            (snd (append_root 9%nat st_c)))
       = Ret true st_e
    /\ copied_hash st_e 4%nat = Some 100.
Proof.
  intros env st_b.
  destruct (archive_reachable_objects_from env (walk_bound env) 1 31%nat 8%nat
              st_b) as [[] st_c| | |] eqn:Hfirst;
    try (vm_compute in Hfirst; discriminate Hfirst).
  destruct (archive_reachable_objects_from env (walk_bound env) 1 31%nat 3%nat
              (copy_java_mirror_hashcode env 3%nat 4%nat
                 (snd (append_root 9%nat st_c))))
    as [[] st_e| | |] eqn:Hsecond;
    try (vm_compute in Hfirst; injection Hfirst as <-;
         vm_compute in Hsecond; discriminate Hsecond).
  exists st_c, st_e.
  vm_compute in Hfirst. injection Hfirst as <-.
  vm_compute in Hsecond. injection Hsecond as <-.
  repeat split; vm_compute; reflexivity.
Qed.

Lemma too_large_root_seen_again_witness :
  exists st1 st2 st3 info3,
    archive_reachable_objects_from_static_field Examples.two_fields_env
      41%nat 8 (Scenario.in_session 41%nat) = Ret tt st1
    /\ archive_reachable_objects_from_static_field Examples.two_fields_env
         41%nat 24 st1 = Ret tt st2
    /\ 6%nat ∈ seen_objects_table st2
    /\ archive_reachable_objects_from_static_field Examples.two_fields_env
         41%nat 16 st2 = Ret tt st3
    /\ get_subgraph_info 41%nat st3 = Some info3
    /\ sg_subgraph_entry_fields info3 = Some [24; 0; 16; 1]
    /\ pending_roots st3 = [null; 6%nat]
    /\ has_been_archived 6%nat st3 = false.
Proof.
  destruct (too_large_root_seen_again Examples.two_fields_env 41%nat 8
              (Scenario.plain 14 1000 []) (Scenario.plain 14 1000 [])
              (Scenario.in_session 41%nat)
              (new_KlassSubGraphInfo 41%nat false))
    as (st1 & H1 & _ & _ & Hlater).
  - discriminate.
  - vm_compute. reflexivity.
  - reflexivity.
  - discriminate.
  - vm_compute. reflexivity.
  - reflexivity.
  - reflexivity.
  - vm_compute. reflexivity.
  - assert (seen_objects_table (Scenario.in_session 41%nat) = ∅) as ->
      by (vm_compute; reflexivity).
    apply not_elem_of_empty.
  - vm_compute. reflexivity.
  - destruct (archive_reachable_objects_from_static_field
                Examples.two_fields_env 41%nat 24 st1)
      as [[] st2| | |] eqn:H2;
      try (vm_compute in H1; injection H1 as <-;
           vm_compute in H2; discriminate H2).
    destruct (Hlater st2) as (Hseen & _ & Hagain).
    { apply rtc_once. by apply (session_entry_field _ _ 24). }
    destruct (Hagain 16) as (info2 & st3 & info3 & Hinfo2 & H3 & Hinfo3
                             & Hent & Hroots & Harch); [reflexivity|].
    exists st1, st2, st3, info3.
    split; [exact H1|]. split; [exact H2|]. split; [exact Hseen|].
    split; [exact H3|]. split; [exact Hinfo3|].
    vm_compute in H1. injection H1 as <-.
    vm_compute in H2. injection H2 as <-.
    vm_compute in Hinfo2. injection Hinfo2 as <-.
    split; [exact Hent|]. split; [exact Hroots|exact Harch].
Defined.

Lemma verify_subgraph_from_after_archive_witness :
  exists st1 st3,
    archive_reachable_objects_from Scenario.env (walk_bound Scenario.env) 1
      40%nat 1%nat (Scenario.in_session 40%nat) = Ret true st1
    /\ verify_subgraph_from Scenario.env 1%nat st1 = Ret tt st3
    /\ archived_object_cache st3 = archived_object_cache st1.
Proof.
  destruct (archive_reachable_objects_from Scenario.env
              (walk_bound Scenario.env) 1 40%nat 1%nat
              (Scenario.in_session 40%nat)) as [[] st1| | |] eqn:Hrun;
    try (vm_compute in Hrun; discriminate Hrun).
  destruct (verify_subgraph_from_after_archive Scenario.env
              (walk_bound Scenario.env) 1 40%nat 1%nat
              (Scenario.in_session 40%nat) st1 st1)
    as (st3 & Hverify & Hcache).
  - vm_compute. reflexivity.
  - exact Hrun.
  - reflexivity.
  - exists st1, st3. split; [reflexivity|]. split; [exact Hverify|].
    exact Hcache.
Defined.

Lemma cycle_closed : seen_closed Scenario.env {[1%nat; 2%nat]}.
Proof.
  intros o q Ho (od & p & Hod & Hp & Hnn & ->).
  apply elem_of_union in Ho as [Ho|Ho]; apply elem_of_singleton in Ho as ->;
    vm_compute in Hod; injection Hod as <-; unfold out_refs in Hp;
    simpl in Hp.
  - apply list_elem_of_singleton in Hp as ->.
    apply elem_of_union_r. by apply elem_of_singleton.
  - apply elem_of_cons in Hp as [->|Hp].
    + apply elem_of_union_l. by apply elem_of_singleton.
    + apply list_elem_of_singleton in Hp as ->. by destruct Hnn.
Qed.

Lemma cycle_archivable (q : oop) :
  rtc (walk_edge Scenario.env) (walked_object Scenario.env 1%nat) q ->
  archivable_object Scenario.env 40%nat q.
Proof.
  intros Hreach.
  assert (q ∈ ({[1%nat; 2%nat]} : gset oop)) as Hq.
  { eapply seen_closed_reachable; [apply cycle_closed| |exact Hreach].
    apply elem_of_union_l. by apply elem_of_singleton. }
  assert (forall p, p = 1%nat \/ p = 2%nat -> walkable Scenario.env p) as Hw.
  { intros p [->| ->]; (split; [discriminate|]); eexists;
      (split; [vm_compute; reflexivity|]); (split; [reflexivity|]);
      (split; [discriminate|]); vm_compute; by eexists. }
  apply elem_of_union in Hq as [Hq|Hq]; apply elem_of_singleton in Hq as ->;
    eexists; (split; [vm_compute; reflexivity|]);
    (split; [reflexivity|]); (split; [reflexivity|]);
    (split; [split; [reflexivity|]; right; simpl;
             split; [right; reflexivity|right; right; reflexivity]|]);
    intros p Hp Hnn; unfold out_refs in Hp; simpl in Hp.
  - apply list_elem_of_singleton in Hp as ->. apply Hw. by right.
  - apply elem_of_cons in Hp as [->|Hp]; [apply Hw; by left|].
    apply list_elem_of_singleton in Hp as ->. by destruct Hnn.
Qed.

Lemma archive_reachable_objects_from_succeeds_witness :
  exists st',
    archive_reachable_objects_from Scenario.env (walk_bound Scenario.env) 1
      40%nat 1%nat (Scenario.in_session 40%nat) = Ret true st'.
Proof.
  apply (archive_reachable_objects_from_succeeds Scenario.env 40%nat 1 1%nat
           (Scenario.in_session 40%nat) (new_KlassSubGraphInfo 40%nat false)).
  - vm_compute. reflexivity.
  - split; [discriminate|]. eexists. split; [vm_compute; reflexivity|].
    split; [reflexivity|]. split; [discriminate|]. vm_compute. by eexists.
  - exact cycle_archivable.
Defined.

Lemma init_archived_fields_for_restores_witness :
  exists st',
    init_archived_fields_for Scenario.renv 40%nat Scenario.record_40
      Scenario.rst0 = Some st'
    /\ roots_obj_at 0 st' = Some null
    /\ obj_field 41%nat 8 st' = obj_field 41%nat 8 Scenario.rst0.
Proof.
  destruct (init_archived_fields_for_restores Scenario.renv 40%nat
              Scenario.record_40 [8; 0] Scenario.rst0
              [5%nat; null; 100%nat; 101%nat])
    as (st' & Hrun & _ & Hnull & _ & Hframe).
  - reflexivity.
  - reflexivity.
  - reflexivity.
  - constructor; [simpl; lia|constructor].
  - simpl. apply NoDup_singleton.
  - exists st'. split; [exact Hrun|]. split.
    + apply Hnull. simpl. left.
    + apply Hframe. discriminate.
Defined.


Lemma resolve_classes_resolved_witness :
  exists st',
    resolve_classes_for_subgraph_of Examples.renv 40%nat Scenario.rst0
    = Some st'
    /\ 11%nat ∈ loaded st'
    /\ roots st' = roots Scenario.rst0.
Proof.
  destruct (resolve_or_init_classes_for_subgraph_of Examples.renv 40%nat false
              Scenario.rst0) as [[[[record|] pending] st']|] eqn:Hres;
    try (vm_compute in Hres; discriminate Hres).
  destruct (resolve_classes_resolved Examples.renv _ _ _ _ _ Hres)
    as (_ & _ & Hrec & _ & _ & _ & Hall & _ & Hroots & _ & _ & Hrun).
  exists st'. split; [exact Hrun|]. split; [|exact Hroots].
  apply Hall. vm_compute in Hrec. injection Hrec as <-. simpl. left.
Defined.

Lemma resolve_classes_rejected_clears_roots_witness :
  exists st',
    resolve_classes_for_subgraph_of Scenario.renv 40%nat Scenario.rst0
    = Some st'
    /\ roots_obj_at 0 st' = Some null
    /\ mirror_fields st' = mirror_fields Scenario.rst0.
Proof.
  destruct (resolve_classes_rejected_clears_roots Scenario.renv 40%nat
              Scenario.record_40 Scenario.rst0
              [5%nat; null; 100%nat; 101%nat])
    as (rec & pending & st1 & st' & Hres & Hrun & Hfields & Hnull & _).
  - reflexivity.
  - reflexivity.
  - reflexivity.
  - simpl. constructor; [simpl; lia|constructor].
  - reflexivity.
  - exists st'. split; [exact Hrun|]. split; [|exact Hfields].
    apply Hnull; [|simpl; left].
    vm_compute in Hres. by injection Hres as <- _ _.
Defined.

Lemma initialize_from_archived_subgraph_exception_witness :
  exists st1,
    initialize_from_archived_subgraph Examples.renv_throws 40%nat
      Examples.rst_loaded = Some st1
    /\ obj_field 40%nat 8 st1 = null
    /\ roots_obj_at 0 st1 = Some 5%nat
    /\ obj_field 11%nat 24 st1 = 77%nat.
Proof.
  destruct (resolve_or_init_classes_for_subgraph_of Examples.renv_throws
              40%nat true Examples.rst_loaded)
    as [[[rec [|]] st1]|] eqn:Hres;
    try (vm_compute in Hres; discriminate Hres).
  destruct (initialize_from_archived_subgraph_exception Examples.renv_throws
              40%nat Scenario.record_40 [8; 0] Examples.rst_loaded
              [5%nat; null; 100%nat; 101%nat] rec st1)
    as (Hrun & _ & Hfields & Hroots).
  - reflexivity.
  - reflexivity.
  - reflexivity.
  - discriminate.
  - reflexivity.
  - reflexivity.
  - reflexivity.
  - reflexivity.
  - constructor; [simpl; lia|constructor].
  - intros c Hc. split.
    + intros s i Hi. simpl in Hi. destruct (Nat.eqb c 11); simpl in Hi.
      * apply list_elem_of_singleton in Hi as ->. simpl.
        intros Hin. apply list_elem_of_singleton in Hin. discriminate Hin.
      * by apply elem_of_nil in Hi.
    + intros s off v Hin. simpl in Hin. destruct (Nat.eqb c 11); simpl in Hin.
      * apply list_elem_of_singleton in Hin. discriminate Hin.
      * by apply elem_of_nil in Hin.
  - exact Hres.
  - exists st1. split; [exact Hrun|]. split.
    { rewrite Hfields; [reflexivity|simpl; left]. }
    split.
    { rewrite Hroots; [reflexivity|simpl; left]. }
    vm_compute in Hres. injection Hres as _ <-. reflexivity.
Defined.

Lemma write_subgraph_info_table_lookup_witness :
  match write_subgraph_info_table Scenario.env Examples.after_pass !! 40%nat
  with
  | Some record => r_entry_field_records record = Some [8; 0]
  | None => False
  end
  /\ write_subgraph_info_table Scenario.env Examples.after_pass !! 41%nat
     = None.
Proof.
  destruct (write_subgraph_info_table_lookup Scenario.env Examples.after_pass)
    as (Hfwd & _).
  - intros k1 k2 _ _ Heq. exact Heq.
  - split.
    + assert (exists info,
                 get_subgraph_info 40%nat Examples.after_pass = Some info
                 /\ sg_subgraph_entry_fields info = Some [8; 0])
        as (info & Hinfo & Hent) by (eexists; split; vm_compute; reflexivity).
      specialize (Hfwd 40%nat info Hinfo). simpl in Hfwd.
      destruct (write_subgraph_info_table Scenario.env Examples.after_pass
                  !! 40%nat) as [record|].
      * destruct Hfwd as (_ & _ & -> & _). exact Hent.
      * destruct Hfwd as (_ & Hnone). congruence.
    + vm_compute. reflexivity.
Defined.

Lemma print_stats_huge_objects_witness :
  print_stats Scenario.env (count_allocation Scenario.env 100000 Scenario.st0)
  = (1, 100000)
  /\ print_stats Scenario.env (count_allocation Scenario.env 6 Scenario.st0)
     = (0, 0).
Proof.
  destruct (print_stats_huge_objects Scenario.env 100000 Scenario.st0)
    as (_ & _ & Hhuge); [simpl; lia|reflexivity|reflexivity|].
  destruct (print_stats_huge_objects Scenario.env 6 Scenario.st0)
    as (_ & _ & Hsmall); [simpl; lia|reflexivity|reflexivity|].
  split.
  - rewrite Hhuge. vm_compute. reflexivity.
  - rewrite Hsmall. vm_compute. reflexivity.
Defined.

Lemma scratch_java_mirror_round_trip_witness :
  exists st1 st2,
    ScratchObjects.set_scratch_java_mirror 12%nat 4%nat Examples.scratch0
    = Some st1
    /\ ScratchObjects.scratch_java_mirror 12%nat st1 = Some 4%nat
    /\ ScratchObjects.set_scratch_java_mirror 12%nat 4%nat st1 = None
    /\ ScratchObjects.remove_scratch_objects 12%nat (Some 7%nat) st1
       = Some st2
    /\ ScratchObjects.scratch_java_mirror 12%nat st2 = Some null.
Proof.
  destruct (ScratchObjects.set_scratch_java_mirror 12%nat 4%nat
              Examples.scratch0) as [st1|] eqn:Hset;
    [|vm_compute in Hset; discriminate Hset].
  destruct (scratch_java_mirror_round_trip 12%nat 4%nat Examples.scratch0 st1
              Hset) as (_ & Hget & _ & Htwice & Hremove).
  destruct (Hremove (Some 7%nat)) as (st2 & Hrun & Hnull & _).
  { right. vm_compute. by eexists. }
  exists st1, st2. split; [reflexivity|]. split; [exact Hget|].
  split; [apply Htwice|]. split; [exact Hrun|exact Hnull].
Defined.

Lemma init_subgraph_entry_fields_returns_witness :
  exists fields',
    init_subgraph_entry_fields Scenario.env Examples.ienv
      [Examples.unresolved_entry] = (fields', InitReturns)
    /\ Forall2 (entry_initialized Scenario.env Examples.ienv)
         [Examples.unresolved_entry] fields'
    /\ fields' = [Scenario.entry 40%nat].
Proof.
  eexists. split; [vm_compute; reflexivity|]. split; [|reflexivity].
  apply init_subgraph_entry_fields_returns. vm_compute. reflexivity.
Defined.

Lemma entry_fields_round_trip_witness :
  exists rst',
    init_archived_fields_for Scenario.renv 40%nat
      (ArchivedKlassSubGraphInfoRecord_init
         {| sg_k := 40%nat;
            sg_subgraph_object_klasses := Some [11%nat];
            sg_subgraph_entry_fields := Some [8; 0];
            sg_is_full_module_graph := false;
            sg_has_non_early_klasses := false |})
      Examples.rst_of_dump = Some rst'
    /\ obj_field 40%nat 8 rst' = 1%nat.
Proof.
  destruct (entry_fields_round_trip Scenario.env Examples.after_pass 40%nat
              {| sg_k := 40%nat;
                 sg_subgraph_object_klasses := Some [11%nat];
                 sg_subgraph_entry_fields := Some [8; 0];
                 sg_is_full_module_graph := false;
                 sg_has_non_early_klasses := false |}
              Scenario.renv Examples.rst_of_dump 40%nat)
    as (rst' & Hrun & Hfield).
  - unfold Examples.after_pass.
    destruct (archive_object_subgraphs Scenario.env
                [Scenario.entry 40%nat; Scenario.entry 41%nat;
                 Scenario.entry 42%nat; Scenario.entry 43%nat] false
                Scenario.st0) as [[] st'| | |] eqn:Hpass;
      try (vm_compute in Hpass; discriminate Hpass).
    apply (archive_object_subgraphs_entry_fields_wf Scenario.env _ _ _ _ _
             Hpass).
    by apply entry_fields_wf_empty.
  - vm_compute. reflexivity.
  - reflexivity.
  - reflexivity.
  - exists rst'. split; [exact Hrun|]. apply (Hfield 8). simpl. left.
Defined.

Lemma archive_object_subgraphs_records_holders_witness :
  exists st',
    archive_object_subgraphs Scenario.env
      [Scenario.entry 40%nat; Scenario.entry 41%nat;
       Scenario.entry 42%nat; Scenario.entry 43%nat] false Scenario.st0
    = Ret tt st'
    /\ is_Some (get_subgraph_info 41%nat st').
Proof.
  destruct (archive_object_subgraphs Scenario.env
              [Scenario.entry 40%nat; Scenario.entry 41%nat;
               Scenario.entry 42%nat; Scenario.entry 43%nat] false
              Scenario.st0) as [[] st'| | |] eqn:Hrun;
    try (vm_compute in Hrun; discriminate Hrun).
  exists st'. split; [reflexivity|].
  apply (archive_object_subgraphs_records_holders Scenario.env _ _ _ _ Hrun
           (Scenario.entry 41%nat)).
  right. left.
Defined.

Lemma verify_subgraph_from_sound_witness :
  exists st',
    verify_subgraph_from Scenario.env 1%nat Examples.after_pass = Ret tt st'
    /\ has_been_archived 2%nat Examples.after_pass = true.
Proof.
  destruct (verify_subgraph_from Scenario.env 1%nat Examples.after_pass)
    as [[] st'| | |] eqn:Hrun; try (vm_compute in Hrun; discriminate Hrun).
  exists st'. split; [reflexivity|].
  apply (verify_subgraph_from_sound Scenario.env 1%nat Examples.after_pass st').
  - vm_compute. reflexivity.
  - exact Hrun.
  - apply rtc_once. exists (Scenario.plain 11 4 [2%nat]), 2%nat.
    split; [vm_compute; reflexivity|]. split; [constructor|].
    split; [discriminate|reflexivity].
Defined.

Lemma archive_reachable_objects_from_false_witness :
  exists st',
    archive_reachable_objects_from Scenario.env (walk_bound Scenario.env) 1
      41%nat 6%nat (Scenario.in_session 41%nat) = Ret false st'
    /\ has_been_archived 6%nat (Scenario.in_session 41%nat) = false
    /\ archived_object_cache st'
       = archived_object_cache (Scenario.in_session 41%nat).
Proof.
  destruct (archive_reachable_objects_from Scenario.env
              (walk_bound Scenario.env) 1 41%nat 6%nat
              (Scenario.in_session 41%nat)) as [[] st'| | |] eqn:Hrun;
    try (vm_compute in Hrun; discriminate Hrun).
  destruct (archive_reachable_objects_from_false Scenario.env _ _ _ _ _ _
              Hrun) as (_ & _ & Harch & _ & ->).
  eexists. split; [reflexivity|]. split; [exact Harch|reflexivity].
Defined.

Lemma is_subgraph_root_class_initialized_witness :
  is_subgraph_root_class [Scenario.entry 40%nat] [] 40%nat = true.
Proof.
  apply (is_subgraph_root_class_initialized Scenario.env Examples.ienv
           [Examples.unresolved_entry] [Scenario.entry 40%nat] [] [] 40%nat).
  - vm_compute. reflexivity.
  - reflexivity.
  - exists Examples.unresolved_entry. split; [left|reflexivity].
Defined.

Lemma scratch_resolved_references_round_trip_witness :
  exists st1,
    ScratchObjects.add_scratch_resolved_references 7%nat 9%nat
      {| ScratchObjects.mirror_table := None;
         ScratchObjects.references_table := None |} = Some st1
    /\ ScratchObjects.scratch_resolved_references 7%nat st1 = Some 9%nat
    /\ ScratchObjects.add_scratch_resolved_references 7%nat 9%nat st1 = None.
Proof.
  destruct (ScratchObjects.add_scratch_resolved_references 7%nat 9%nat
              {| ScratchObjects.mirror_table := None;
                 ScratchObjects.references_table := None |})
    as [st1|] eqn:Hadd; [|vm_compute in Hadd; discriminate Hadd].
  destruct (scratch_resolved_references_round_trip 7%nat 9%nat _ st1 Hadd)
    as (Hget & Htwice & _).
  exists st1. split; [reflexivity|]. split; [exact Hget|apply Htwice].
Defined.
